(** * change-ocr: the adaptive quality/cost engine

    A shallow embedding of [src/constants.ts], [src/types.ts],
    [src/services/geminiService.ts] and [src/services/imageService.ts].

    Conventions of the embedding.
    - A JavaScript string is the list of its UTF-16 code units ([Js.str]);
      the regular expressions of the source carry no [u] flag, so they work
      on code units too.
    - A JavaScript number that counts something (a length, an index, a token
      estimate) is a [nat] or a [Z]; a score is an exact rational [Q]: the
      rounding of IEEE doubles is not modelled, every comparison and every
      arithmetic operation of the source is the rational one.
    - An exception is an explicit [Throw] result; [try]/[catch] is a match.
    - The inference service, [JSON.parse], the digest behind [sha256Hex]
      and the clock are not code of the repository, and the canvas work of
      [preprocessImageForProfile] is pixel arithmetic behind a browser
      interface: they are parameters (the fields of [Platform]), and every
      theorem holds for all of them. What [readPdfCache] or
      [readImageCache] found is an argument of the run.
    - A run of an async generator is modelled as consumed to its end; what
      it does on the way is the list of its [Effect]s, in order. *)

From Stdlib Require Import String Ascii DecimalString.
From Stdlib Require Import List NArith ZArith QArith Qminmax Qround Bool Lia Lqa.
Import ListNotations.

Set Implicit Arguments.
#[local] Set Warnings "-notation-for-abbreviation".
Close Scope Q_scope.

(** ** JavaScript strings and the string library used by the source *)

Module Js.

Definition char := N.
Definition str := list char.

(** An ASCII literal of the source as code units. *)
Definition lit (s : string) : str :=
  map N_of_ascii (list_ascii_of_string s).

Definition LF : char := 10%N.
Definition CR : char := 13%N.
Definition HASH : char := 35%N.
Definition PIPE : char := 124%N.
Definition BACKTICK : char := 96%N.
Definition LBRACE : char := 123%N.
Definition RBRACE : char := 125%N.
(** U+FFFD, the replacement character, and U+25A1, the white square. *)
Definition REPLACEMENT : char := 65533%N.
Definition PLACEHOLDER : char := 9633%N.

Definition between (lo hi c : N) : bool := ((lo <=? c) && (c <=? hi))%N.

(** ECMAScript WhiteSpace and LineTerminator: what [trim] strips and what
    [\s] matches. *)
Definition isWhiteSpace (c : char) : bool :=
  between 9 13 c || (c =? 32)%N || (c =? 160)%N || (c =? 5760)%N
  || between 8192 8202 c || (c =? 8232)%N || (c =? 8233)%N
  || (c =? 8239)%N || (c =? 8287)%N || (c =? 12288)%N || (c =? 65279)%N.

(** [\w] is [[A-Za-z0-9_]]. *)
Definition isWordChar (c : char) : bool :=
  between 48 57 c || between 65 90 c || (c =? 95)%N || between 97 122 c.

(** [.] matches everything but a line terminator. *)
Definition isLineTerminator (c : char) : bool :=
  (c =? 10)%N || (c =? 13)%N || (c =? 8232)%N || (c =? 8233)%N.

Fixpoint dropWhile (p : char -> bool) (s : str) : str :=
  match s with
  | c :: r => if p c then dropWhile p r else s
  | [] => []
  end.

Definition trimStart (s : str) : str := dropWhile isWhiteSpace s.
Definition trimEnd (s : str) : str := rev (dropWhile isWhiteSpace (rev s)).
Definition trim (s : str) : str := trimEnd (trimStart s).

(** [s.split(sep)] for a one-character separator; the empty string splits
    into one empty piece. *)
Fixpoint split (sep : char) (s : str) : list str :=
  match s with
  | [] => [[]]
  | c :: r =>
      if (c =? sep)%N then [] :: split sep r
      else match split sep r with
           | l :: ls => (c :: l) :: ls
           | [] => [[c]]
           end
  end.

(** [parts.join(sep)]. *)
Fixpoint join (sep : str) (parts : list str) : str :=
  match parts with
  | [] => []
  | [p] => p
  | p :: ps => p ++ sep ++ join sep ps
  end.

(** The relative index of [slice]: negative counts from the end. *)
Definition relIndex (len : nat) (i : Z) : nat :=
  if (i <? 0)%Z then Z.to_nat (Z.max (Z.of_nat len + i) 0)
  else Nat.min (Z.to_nat i) len.

(** [xs.slice(start, end)], on strings and on arrays alike. *)
Definition slice {A} (xs : list A) (start stop : Z) : list A :=
  let from := relIndex (length xs) start in
  let to := relIndex (length xs) stop in
  firstn (to - from) (skipn from xs).

(** [xs.slice(start)]. *)
Definition sliceFrom {A} (xs : list A) (start : Z) : list A :=
  skipn (relIndex (length xs) start) xs.

Fixpoint eqb (a b : str) : bool :=
  match a, b with
  | [], [] => true
  | x :: a', y :: b' => (x =? y)%N && eqb a' b'
  | _, _ => false
  end.

(** [xs.indexOf(x)] on an array of strings, [-1] when absent. *)
Fixpoint indexOf (xs : list str) (x : str) : Z :=
  match xs with
  | [] => (-1)%Z
  | y :: r =>
      if eqb y x then 0%Z
      else let i := indexOf r x in
           if (i <? 0)%Z then (-1)%Z else (i + 1)%Z
  end.

(** [xs.filter((x, idx) => f(x, idx))]. *)
Fixpoint filterIdx {A} (f : A -> nat -> bool) (idx : nat) (xs : list A)
  : list A :=
  match xs with
  | [] => []
  | x :: r => if f x idx then x :: filterIdx f (S idx) r
              else filterIdx f (S idx) r
  end.

(** *** Regular expressions of the source

    A pattern is given by its anchored matcher: on the rest of the input,
    the length of the match that starts there, if any. *)

Fixpoint runLength (p : char -> bool) (s : str) : nat :=
  match s with
  | c :: r => if p c then S (runLength p r) else 0
  | [] => 0
  end.

(** [[class]{n,}]: greedy, so the whole run is taken. *)
Definition matchClassAtLeast (p : char -> bool) (n : nat) (s : str)
  : option nat :=
  let k := runLength p s in
  if n <=? k then Some k else None.

(** [(.)\1{n,}]: a character that is no line terminator, then at least [n]
    more copies of it. *)
Definition matchRepeatAtLeast (n : nat) (s : str) : option nat :=
  match s with
  | [] => None
  | c :: r =>
      if isLineTerminator c then None
      else let k := runLength (N.eqb c) r in
           if n <=? k then Some (S k) else None
  end.

(** [(s.match(/pattern/g) ?? []).length]: scan from the left; after a match
    the scan resumes behind it ([skip] counts the characters the last match
    still covers), after a failure one character further. None of the
    patterns of the source matches the empty string. *)
Fixpoint countMatchesSkipping (m : str -> option nat) (skip : nat) (s : str)
  : nat :=
  match s with
  | [] => 0
  | _ :: r =>
      match skip with
      | S k => countMatchesSkipping m k r
      | 0 =>
          match m s with
          | Some k => S (countMatchesSkipping m (k - 1) r)
          | None => countMatchesSkipping m 0 r
          end
      end
  end.

Definition countMatches (m : str -> option nat) (s : str) : nat :=
  countMatchesSkipping m 0 s.

(** [(s.match(/c/g) ?? []).length] for a single character [c]. *)
Definition countChar (c : char) (s : str) : nat :=
  length (filter (N.eqb c) s).

(** [/^#{1,6}\s/.test(line)]. *)
Definition isHeadingLine (line : str) : bool :=
  let k := runLength (N.eqb HASH) line in
  (1 <=? k) && (k <=? 6) &&
  match nth_error line k with
  | Some c => isWhiteSpace c
  | None => false
  end.

(** [/\|/.test(line)]. *)
Definition isTableLine (line : str) : bool :=
  existsb (N.eqb PIPE) line.

(** [text.replace(/\r/g, '')]. *)
Definition removeCR (text : str) : str :=
  filter (fun c => negb (c =? CR)%N) text.

(** [.filter(Boolean)] on strings: the empty string is falsy. *)
Definition truthy (s : str) : bool :=
  match s with [] => false | _ => true end.

End Js.

(** ** Exceptions *)

(** What a [catch] clause receives: an [Error] object with its message, or
    any other thrown value. *)
Inductive Thrown :=
| ErrorObject (message : Js.str)
| OtherValue.

Inductive Result (A : Type) :=
| Ok (a : A)
| Throw (e : Thrown).

Arguments Ok {A} a.
Arguments Throw {A} e.

(** How the body of a loop inside a function completes: it falls through
    to the next iteration (also by [continue]), the function returns, or
    an error leaves the function. *)
Inductive Completion (A : Type) :=
| Continue
| Return (a : A)
| Raise (e : Thrown).

Arguments Continue {A}.
Arguments Return {A} a.
Arguments Raise {A} e.

(** [for (let index = 0; index < bound; index += 1) { body }], from
    [index] on: the effects of the iterations that run, in order, and how
    the loop is left ([Continue]: past its last iteration). The loop ends
    at the first iteration that returns or throws. [fuel] bounds the
    iterations; [bound] of it is enough. *)
Section ForLoop.

Variables (E A : Type).
Variable bound : nat.
Variable body : nat -> list E * Completion A.

Fixpoint forLoopFrom (fuel index : nat) : list E * Completion A :=
  match fuel with
  | 0 => ([], Continue)
  | S fuel' =>
      if index <? bound then
        match body index with
        | (effects, Continue) =>
            let (rest, completion) := forLoopFrom fuel' (index + 1) in
            (effects ++ rest, completion)
        | (effects, completion) => (effects, completion)
        end
      else ([], Continue)
  end.

Definition forLoop : list E * Completion A := forLoopFrom bound 0.

End ForLoop.

(** ** [src/types.ts] *)

Inductive ModelType := FLASH | PRO.

Inductive OptimizationProfile := economy | balanced | accuracy.

Inductive AnalysisEventType :=
| cache_hit
| profile_start
| profile_accepted
| profile_escalated
| completed.

Record QualityAssessment := {
  score : Q;
  reasons : list string
}.

(** The [message] of an event is one of the template strings below, filled
    with the label of a profile, a page range or a score; it is kept as the
    template and its holes, the rendering to text is not modelled. *)
Inductive Message :=
| MsgPdfCacheHit (p : OptimizationProfile)
    (* Cache hit: reused <label> result *)
| MsgPdfCompletedCached (p : OptimizationProfile)
    (* Completed with <label> profile (cached). *)
| MsgPdfRunning (p : OptimizationProfile)
    (* Running <label> profile... *)
| MsgPdfLowQuality (qualityScore : Q)
    (* Quality signal is low (<score>). Escalating automatically. *)
| MsgPdfAccepted (p : OptimizationProfile)
    (* Accepted <label> profile. *)
| MsgPdfCompleted (p : OptimizationProfile)
    (* Completed with <label> profile. *)
| MsgPdfFailedToStart (p : OptimizationProfile)
    (* Failed to start <label>; escalating automatically. *)
| MsgImageCacheHit (p : OptimizationProfile)
    (* Cache hit: reused sequence result (<label> max profile). *)
| MsgImageCompletedCached
    (* Completed with cached result. *)
| MsgImageRunning (startPage endPage : nat) (p : OptimizationProfile)
    (* Pages <s>-<e>: running <label> profile... *)
| MsgImageAccepted (startPage endPage : nat) (p : OptimizationProfile)
    (* Pages <s>-<e>: accepted <label>. *)
| MsgImageEscalating (startPage endPage : nat) (p : OptimizationProfile)
    (* Pages <s>-<e>: escalating from <label>. *)
| MsgImageFailed (startPage endPage : nat) (p : OptimizationProfile)
    (* Pages <s>-<e>: <label> failed, escalating automatically. *)
| MsgImageCompleted (p : OptimizationProfile).
    (* Completed image sequence with max profile <label>. *)

(** An optional field that is absent, or present with the value
    [undefined], is [None]. *)
Record AnalysisEvent := {
  ev_type : AnalysisEventType;
  ev_profile : OptimizationProfile;
  ev_message : Message;
  ev_qualityScore : option Q;
  ev_reasons : option (list string);
  ev_estimatedInputTokens : option nat;
  ev_estimatedOutputTokens : option nat;
  ev_verificationScore : option Q
}.

(** Of an [ImageFile] the engine reads [base64] and, for the cache key,
    the name, type, size and modification time of its [file]; [preview] is
    read by the canvas work only, which is a parameter. *)
Record ImageFile := {
  file_name : Js.str;
  file_type : Js.str;
  file_size : nat;
  file_lastModified : nat;
  base64 : option Js.str
}.

(** The string value of a member of the [ModelType] enum. *)
Definition modelName (m : ModelType) : Js.str :=
  match m with
  | FLASH => Js.lit "gemini-3-flash-preview"
  | PRO => Js.lit "gemini-3-pro-preview"
  end.

Definition ModelType_eqb (a b : ModelType) : bool :=
  match a, b with
  | FLASH, FLASH | PRO, PRO => true
  | _, _ => false
  end.

Definition OptimizationProfile_eqb (a b : OptimizationProfile) : bool :=
  match a, b with
  | economy, economy | balanced, balanced | accuracy, accuracy => true
  | _, _ => false
  end.

Definition AnalysisEventType_eqb (a b : AnalysisEventType) : bool :=
  match a, b with
  | cache_hit, cache_hit | profile_start, profile_start
  | profile_accepted, profile_accepted
  | profile_escalated, profile_escalated | completed, completed => true
  | _, _ => false
  end.

(** ** [src/constants.ts] *)

Module Constants.

Definition OCR_PROFILE_ORDER : list OptimizationProfile :=
  [economy; balanced; accuracy].

Record OcrProfilePolicy := {
  model : ModelType;
  imageMaxDimension : nat;
  imageChunkSize : nat;
  minQualityScore : Q;
  carryContextChars : nat
}.

Definition OCR_PROFILE_POLICIES (p : OptimizationProfile) : OcrProfilePolicy :=
  match p with
  | economy =>
      {| model := FLASH; imageMaxDimension := 1600; imageChunkSize := 8;
         minQualityScore := 0.58%Q; carryContextChars := 240 |}
  | balanced =>
      {| model := FLASH; imageMaxDimension := 2200; imageChunkSize := 5;
         minQualityScore := 0.72%Q; carryContextChars := 420 |}
  | accuracy =>
      {| model := PRO; imageMaxDimension := 3200; imageChunkSize := 3;
         minQualityScore := 0.0%Q; carryContextChars := 640 |}
  end.

Definition OCR_OUTPUT_CONTRACT : Js.str :=
  Js.join [Js.LF] [
    Js.lit "Return Markdown only.";
    Js.lit "- Keep original order and wording. Do not summarize.";
    Js.lit "- Preserve headings, lists, formulas, and table structures.";
    Js.lit "- If a character is unreadable, keep it as "
      ++ [Js.PLACEHOLDER] ++ Js.lit ".";
    Js.lit "- For figures/diagrams, add [FIGURE] then transcribe visible text and short structural notes.";
    Js.lit "- For tables, output valid Markdown tables."
  ].

Definition PDF_BALANCED_MAX_MB : Z := 4.
Definition PDF_ECONOMY_MIN_MB : Z := 12.
Definition PDF_ESCALATION_THRESHOLD : Q := 0.45%Q.
Definition OCR_CACHE_SCHEMA_VERSION : Js.str := Js.lit "v4".
Definition OUTPUT_STREAM_CHUNK_SIZE : nat := 1400.
Definition MAX_CONCURRENT_REQUESTS : nat := 5.
Definition QUALITY_VERIFIER_SAMPLE_CHARS : nat := 2200.

End Constants.

Import Constants.

(** ** Code that both services hold, word for word

    [geminiService.ts] and [imageService.ts] each define their own copy of
    the functions of this module; the two copies are the same text. *)

Module Common.

Definition Qnat (n : nat) : Q := inject_Z (Z.of_nat n).

(** [a > b] on scores. *)
Definition Qgtb (a b : Q) : bool := negb (Qle_bool a b).
(** [a < b] on scores. *)
Definition Qltb (a b : Q) : bool := negb (Qle_bool b a).

Definition modelForProfile (profile : OptimizationProfile)
  (modelOverride : option ModelType) : ModelType :=
  match modelOverride with
  | Some m => m
  | None => model (OCR_PROFILE_POLICIES profile)
  end.

(** [Math.ceil(text.length / 4)]. *)
Definition estimateTextTokens (text : Js.str) : nat :=
  (length text + 3) / 4.

(** [Math.max(1, Math.ceil((base64.length * 0.75) / 1024))]. *)
Definition estimateInlineDataTokens (base64 : Js.str) : nat :=
  Nat.max 1 ((3 * length base64 + 4095) / 4096).

Definition normalizedLines (text : Js.str) : list Js.str :=
  filter Js.truthy (map Js.trim (Js.split Js.LF (Js.removeCR text))).

(** The measurements [evaluateQuality] starts with, up to
    [structureSignal], under the names of its constants. *)
Record TextSignals := {
  normalized : Js.str;
  chars : nat;
  lines : list Js.str;
  unreadableChars : nat;
  placeholderChars : nat;
  punctuationBlobs : nat;
  shortLineCount : nat;
  shortLineRate : Q;
  markdownHeadingCount : nat;
  tableLineCount : nat;
  veryLongTokenCount : nat;
  repeatedGlyphBurstCount : nat;
  unreadableRate : Q;
  placeholderRate : Q;
  structureSignal : nat
}.

Definition textSignals (text : Js.str) : TextSignals :=
  let normalized := Js.removeCR text in
  let chars := Nat.max (length normalized) 1 in
  let lines := normalizedLines normalized in
  let unreadableChars := Js.countChar Js.REPLACEMENT normalized in
  let placeholderChars := Js.countChar Js.PLACEHOLDER normalized in
  let punctuationBlobs :=
    Js.countMatches
      (Js.matchClassAtLeast
         (fun c => negb (Js.isWordChar c || Js.isWhiteSpace c)) 5)
      normalized in
  let shortLineCount :=
    length (filter (fun line => length line <=? 2) lines) in
  let shortLineRate :=
    if length lines =? 0 then 1%Q
    else (Qnat shortLineCount / Qnat (length lines))%Q in
  let markdownHeadingCount := length (filter Js.isHeadingLine lines) in
  let tableLineCount := length (filter Js.isTableLine lines) in
  let veryLongTokenCount :=
    Js.countMatches
      (Js.matchClassAtLeast (fun c => negb (Js.isWhiteSpace c)) 35)
      normalized in
  let repeatedGlyphBurstCount :=
    Js.countMatches (Js.matchRepeatAtLeast 7) normalized in
  let unreadableRate := (Qnat unreadableChars / Qnat chars)%Q in
  let placeholderRate := (Qnat placeholderChars / Qnat chars)%Q in
  let structureSignal := markdownHeadingCount + tableLineCount in
  {| normalized := normalized; chars := chars; lines := lines;
     unreadableChars := unreadableChars;
     placeholderChars := placeholderChars;
     punctuationBlobs := punctuationBlobs;
     shortLineCount := shortLineCount; shortLineRate := shortLineRate;
     markdownHeadingCount := markdownHeadingCount;
     tableLineCount := tableLineCount;
     veryLongTokenCount := veryLongTokenCount;
     repeatedGlyphBurstCount := repeatedGlyphBurstCount;
     unreadableRate := unreadableRate; placeholderRate := placeholderRate;
     structureSignal := structureSignal |}.

(** [reasons.push(r)] when [cond] holds. *)
Definition pushIf (cond : bool) (r : string) (reasons : list string)
  : list string :=
  if cond then reasons ++ [r] else reasons.

Definition sampleForVerification (text : Js.str) : Js.str :=
  if length text <=? QUALITY_VERIFIER_SAMPLE_CHARS then text
  else
    let headSize :=
      Z.to_nat (Qfloor (Qnat QUALITY_VERIFIER_SAMPLE_CHARS * 0.6)%Q) in
    let tailSize := QUALITY_VERIFIER_SAMPLE_CHARS - headSize in
    Js.slice text 0 (Z.of_nat headSize)
      ++ [Js.LF] ++ Js.lit "..." ++ [Js.LF]
      ++ Js.sliceFrom text (Z.of_nat (length text - tailSize)).

(** [createTextStream]: the texts of the chunks it yields, in order. The
    loop runs while [cursor < text.length]; [fuel] bounds its iterations. *)
Fixpoint createTextStreamFrom (fuel cursor : nat) (text : Js.str)
  : list Js.str :=
  match fuel with
  | 0 => []
  | S fuel' =>
      if cursor <? length text then
        Js.slice text (Z.of_nat cursor)
          (Z.of_nat (cursor + OUTPUT_STREAM_CHUNK_SIZE))
        :: createTextStreamFrom fuel' (cursor + OUTPUT_STREAM_CHUNK_SIZE) text
      else []
  end.

Definition createTextStream (text : Js.str) : list Js.str :=
  createTextStreamFrom (length text) 0 text.

(** *** The verifier's answer *)

(** A number [JSON.parse] can return: the grammar has no literal for NaN,
    a literal too large for a double becomes an infinity. *)
Inductive JsonNumber :=
| Finite (q : Q)
| PosInfinity
| NegInfinity.

(** The value [JSON.parse] returns; an object is the list of its own
    properties. *)
#[local] Unset Elimination Schemes.
Inductive JsonValue :=
| JNull
| JBool (b : bool)
| JNumber (n : JsonNumber)
| JString (s : Js.str)
| JArray (items : list JsonValue)
| JObject (properties : list (Js.str * JsonValue)).
#[local] Set Elimination Schemes.

(** [Math.max(0, Math.min(1, x))]. *)
Definition clamp01 (x : JsonNumber) : Q :=
  match x with
  | Finite q => Qmax 0 (Qmin 1 q)
  | PosInfinity => 1%Q
  | NegInfinity => 0%Q
  end.

Fixpoint getOwn (key : Js.str) (properties : list (Js.str * JsonValue))
  : option JsonValue :=
  match properties with
  | [] => None
  | (k, v) :: r => if Js.eqb k key then Some v else getOwn key r
  end.

(** [parsed.score]: a [TypeError] on [null], [undefined] ([None]) on a
    value without that property. *)
Definition getScore (parsed : JsonValue) : Result (option JsonValue) :=
  match parsed with
  | JNull => Throw (ErrorObject (Js.lit "Cannot read properties of null"))
  | JObject properties => Ok (getOwn (Js.lit "score") properties)
  | _ => Ok None
  end.

(** Case-insensitive match of an ASCII letter: a code unit above 127 never
    folds to an ASCII one. *)
Definition eqbIgnoreCase (lower c : N) : bool :=
  ((c =? lower) || (c =? lower - 32))%N.

(** A fixed sequence of character tests at the head of [s]: the rest of
    [s] behind it when all of them match. *)
Fixpoint matchPrefix (tests : list (Js.char -> bool)) (s : Js.str)
  : option Js.str :=
  match tests with
  | [] => Some s
  | t :: tests' =>
      match s with
      | c :: r => if t c then matchPrefix tests' r else None
      | [] => None
      end
  end.

Definition backticks : list (Js.char -> bool) :=
  [N.eqb Js.BACKTICK; N.eqb Js.BACKTICK; N.eqb Js.BACKTICK].

(** [s.replace(/^```json\s*/i, '')]. *)
Definition stripJsonFence (s : Js.str) : Js.str :=
  match matchPrefix
          (backticks ++ [eqbIgnoreCase 106; eqbIgnoreCase 115;
                         eqbIgnoreCase 111; eqbIgnoreCase 110]) s with
  | Some rest => Js.dropWhile Js.isWhiteSpace rest
  | None => s
  end.

(** [s.replace(/^```\s*/i, '')]. *)
Definition stripOpenFence (s : Js.str) : Js.str :=
  match matchPrefix backticks s with
  | Some rest => Js.dropWhile Js.isWhiteSpace rest
  | None => s
  end.

(** [s.replace(/```$/i, '')]. *)
Definition stripCloseFence (s : Js.str) : Js.str :=
  match matchPrefix backticks (rev s) with
  | Some rest => rev rest
  | None => s
  end.

(** [s.match(/\{[\s\S]*\}/)]: from the first opening brace to the last
    closing brace behind it. *)
Definition matchBraces (s : Js.str) : option Js.str :=
  let fromOpen := Js.dropWhile (fun c => negb (c =? Js.LBRACE)%N) s in
  match fromOpen with
  | [] => None
  | open :: rest =>
      match Js.dropWhile (fun c => negb (c =? Js.RBRACE)%N) (rev rest) with
      | [] => None
      | untilClose => Some (open :: rev untilClose)
      end
  end.

Section Verifier.

(** [JSON.parse]: the value, or the [SyntaxError] it throws. *)
Variable JSON_parse : Js.str -> Result JsonValue.

(** The body of the [try] of [tryParse]. *)
Definition tryParseBody (candidate : Js.str) : Result (option Q) :=
  match JSON_parse candidate with
  | Throw e => Throw e
  | Ok parsed =>
      match getScore parsed with
      | Throw e => Throw e
      | Ok (Some (JNumber n)) => Ok (Some (clamp01 n))
      | Ok _ => Ok None
      end
  end.

Definition tryParse (candidate : Js.str) : Result (option Q) :=
  match tryParseBody candidate with
  | Ok r => Ok r
  | Throw _ => Ok None
  end.

Definition parseVerifierScore (raw : Js.str) : Result (option Q) :=
  let fenced :=
    stripCloseFence (stripOpenFence (stripJsonFence (Js.trim raw))) in
  match tryParse fenced with
  | Throw e => Throw e
  | Ok (Some direct) => Ok (Some direct)
  | Ok None =>
      match matchBraces fenced with
      | Some m => tryParse m
      | None => Ok None
      end
  end.

End Verifier.

End Common.

Import Common.

(** ** The inference service and the effects of a run *)

(** A part of a request: inline media or text. *)
Inductive Part :=
| InlineData (mimeType data : Js.str)
| TextPart (text : Js.str).

Record Request := {
  req_model : ModelType;
  req_parts : list Part
}.

(** What a run does, in order. [Emit] is a call of [emit] (the handler, when
    there is one, receives the event); [CallStream] and [Call] are requests
    sent to the inference service; [WriteCache] is a call of the service's
    cache writer; [Yield] is a chunk handed to the consumer. *)
Inductive Effect (Entry : Type) :=
| Emit (e : AnalysisEvent)
| CallStream (r : Request)
| Call (r : Request)
| WriteCache (key : Js.str) (entry : Entry)
| Yield (text : Js.str).

Arguments Emit {Entry} e.
Arguments CallStream {Entry} r.
Arguments Call {Entry} r.
Arguments WriteCache {Entry} key entry.
Arguments Yield {Entry} text.

(** The string value of a profile, as a template literal prints it. *)
Definition profileName (p : OptimizationProfile) : Js.str :=
  match p with
  | economy => Js.lit "economy"
  | balanced => Js.lit "balanced"
  | accuracy => Js.lit "accuracy"
  end.

Definition PROFILE_LABEL (p : OptimizationProfile) : Js.str :=
  match p with
  | economy => Js.lit "Economy"
  | balanced => Js.lit "Balanced"
  | accuracy => Js.lit "Accuracy"
  end.

(** [String(n)] for a natural number. *)
Definition decimal (n : nat) : Js.str :=
  Js.lit (NilZero.string_of_uint (Nat.to_uint n)).

(** The text of a streamed response as the attempt loops collect it:
    [text += chunk.text ?? ''] over the chunks. *)
Definition collectStream (chunks : list (option Js.str)) : Js.str :=
  concat (map (fun c => match c with Some t => t | None => [] end) chunks).

(** What the engine calls and does not define. A streamed response is
    given by its outcome: all its chunks, or the error thrown on the way. *)
Record Platform := {
  (** [JSON.parse]: the value, or the [SyntaxError] it throws. *)
  JSON_parse : Js.str -> Result JsonValue;
  (** [ai.models.generateContentStream], consumed to its end. *)
  generateContentStream : Request -> Result (list (option Js.str));
  (** [ai.models.generateContent]: [response.text], which may be absent. *)
  generateContent : Request -> Result (option Js.str);
  (** [preprocessImageForProfile]: the canvas work on one image. *)
  preprocessImageForProfile :
    ImageFile -> OptimizationProfile -> Result (Js.str * Js.str);
  (** [sha256Hex]: the digest of the platform, or the fallback hash. *)
  sha256Hex : Js.str -> Js.str;
  (** [JSON.stringify] of the policy version, output contract and policy
      table. *)
  policyJson : Js.str;
  (** [Date.now()]. *)
  now : Z
}.

(** ** [src/services/geminiService.ts] *)

Module GeminiService.

Record PdfCacheEntry := {
  createdAt : Z;
  text : Js.str;
  profile : OptimizationProfile;
  quality : Q
}.

(** [Math.floor((base64.length * 0.75) / (1024 * 1024))]. *)
Definition toMB (base64 : Js.str) : Z :=
  (3 * Z.of_nat (length base64) / (4 * (1024 * 1024)))%Z.

Definition decideInitialPdfProfile (pdfBase64 : Js.str)
  : OptimizationProfile :=
  let mb := toMB pdfBase64 in
  if (mb >=? PDF_ECONOMY_MIN_MB)%Z then economy
  else if (mb <=? PDF_BALANCED_MAX_MB)%Z then balanced
  else economy.

Definition resolvePdfCandidateProfiles (pdfBase64 : Js.str)
  (modelOverride : option ModelType) : list OptimizationProfile :=
  let initial := decideInitialPdfProfile pdfBase64 in
  match modelOverride with
  | Some PRO => [accuracy]
  | Some FLASH =>
      if OptimizationProfile_eqb initial balanced then [balanced]
      else [economy; balanced]
  | None =>
      if OptimizationProfile_eqb initial balanced then [balanced; accuracy]
      else [economy; balanced; accuracy]
  end.

Definition buildPdfPrompt (prompt : Js.str) (profile : OptimizationProfile)
  : Js.str :=
  let profileHint :=
    match profile with
    | economy =>
        Js.lit "Prioritize direct transcription. Keep output concise and avoid redundant spacing."
    | balanced =>
        Js.lit "Prioritize faithful transcription with moderate OCR corrections for broken words."
    | accuracy =>
        Js.lit "Prioritize maximum fidelity. Resolve ambiguous glyphs from surrounding context when possible."
    end in
  let userInstruction :=
    if Js.truthy (Js.trim prompt) then Js.trim prompt
    else Js.lit "No additional user instruction." in
  Js.join [Js.LF; Js.LF] [
    OCR_OUTPUT_CONTRACT;
    profileHint;
    Js.lit "User instruction:" ++ [Js.LF] ++ userInstruction
  ].

Definition evaluateQuality (text : Js.str) : QualityAssessment :=
  let s := textSignals text in
  let score := 1%Q in
  let score := (score - unreadableRate s * 2.2)%Q in
  let score := (score - Qmin 0.15 (placeholderRate s * 0.6))%Q in
  let score := (score - shortLineRate s * 0.45)%Q in
  let score := (score - Qmin 0.25 (Qnat (punctuationBlobs s) * 0.03))%Q in
  let score := (score - Qmin 0.2 (Qnat (veryLongTokenCount s) * 0.02))%Q in
  let score :=
    (score - Qmin 0.25 (Qnat (repeatedGlyphBurstCount s) * 0.04))%Q in
  let score :=
    if length (Js.trim (normalized s)) <? 120 then (score - 0.25)%Q
    else score in
  let score :=
    if (structureSignal s =? 0) && (40 <? length (lines s))
    then (score - 0.06)%Q else score in
  let score := Qmax 0 (Qmin 1 score) in
  let reasons : list string := [] in
  let reasons :=
    pushIf (Qgtb (unreadableRate s) 0.003)
      "High ratio of corrupted replacement characters" reasons in
  let reasons :=
    pushIf (Qgtb (placeholderRate s) 0.02)
      "Many unresolved glyph placeholders remain" reasons in
  let reasons :=
    pushIf (Qgtb (shortLineRate s) 0.35)
      "Too many fragmented short lines" reasons in
  let reasons :=
    pushIf (3 <? punctuationBlobs s)
      "Potential OCR artifacts around symbols" reasons in
  let reasons :=
    pushIf (2 <? veryLongTokenCount s)
      "Unnaturally long tokens may indicate OCR merge errors" reasons in
  let reasons :=
    pushIf (1 <? repeatedGlyphBurstCount s)
      "Repeated glyph bursts detected" reasons in
  let reasons :=
    pushIf (length (Js.trim (normalized s)) <? 120)
      "Output is unexpectedly short" reasons in
  let reasons :=
    pushIf (length reasons =? 0)
      "Transcription quality is stable" reasons in
  {| score := score; reasons := reasons |}.

Definition requiredPdfScore (profile : OptimizationProfile) : Q :=
  if OptimizationProfile_eqb profile accuracy then 0%Q
  else Qmax PDF_ESCALATION_THRESHOLD
         (minQualityScore (OCR_PROFILE_POLICIES profile) - 0.1)%Q.

Definition normalizeError (error : Thrown) : Thrown :=
  match error with
  | ErrorObject message =>
      ErrorObject (Js.lit "Analysis failed: " ++ message)
  | OtherValue =>
      ErrorObject (Js.lit "An unexpected error occurred during analysis.")
  end.

Section PdfRun.

Variable W : Platform.

Definition PDF_CACHE_PREFIX : Js.str :=
  Js.lit "ocr-cache:pdf:" ++ OCR_CACHE_SCHEMA_VERSION.

Definition buildPdfCacheKey (pdfBase64 prompt : Js.str) : Js.str :=
  let len := length pdfBase64 in
  let middle := Z.max 0 (Z.of_nat (len / 2) - 256) in
  let fingerprint :=
    Js.join [Js.PIPE] [
      decimal len;
      Js.slice pdfBase64 0 512;
      Js.slice pdfBase64 middle (middle + 512);
      Js.sliceFrom pdfBase64 (-512)
    ] in
  let promptHash := sha256Hex W prompt in
  let fingerprintHash := sha256Hex W fingerprint in
  let policyHash := sha256Hex W (policyJson W) in
  Js.join (Js.lit ":")
    [PDF_CACHE_PREFIX; policyHash; promptHash; fingerprintHash].

Definition verifierPrompt (profile : OptimizationProfile) (sampled : Js.str)
  : Js.str :=
  let quote := [34%N] in
  Js.join [Js.LF] [
    Js.lit "You are validating OCR transcription quality.";
    Js.lit "Score from 0 to 1 for fidelity and structural integrity.";
    Js.lit "Return strict JSON only: {" ++ quote ++ Js.lit "score" ++ quote
      ++ Js.lit ":0.0," ++ quote ++ Js.lit "reason" ++ quote ++ Js.lit ":"
      ++ quote ++ Js.lit "short" ++ quote ++ Js.lit "}";
    Js.lit "Prefer lower score when text is fragmented, garbled, or structurally inconsistent.";
    Js.lit "Profile: " ++ profileName profile;
    Js.lit "Candidate transcription:";
    sampled
  ].

Definition verifierRequest (text : Js.str) (profile : OptimizationProfile)
  (modelOverride : option ModelType) : Request :=
  {| req_model := modelForProfile profile modelOverride;
     req_parts :=
       [TextPart (verifierPrompt profile (sampleForVerification text))] |}.

(** [runQualityVerifier]: the requests it sends and the score it resolves
    to ([None] is [null]). *)
Definition runQualityVerifier (text : Js.str) (profile : OptimizationProfile)
  (modelOverride : option ModelType)
  : list (Effect PdfCacheEntry) * option Q :=
  if length (Js.trim text) <? 60 then ([], Some 0%Q)
  else
    let request := verifierRequest text profile modelOverride in
    ([Call request],
     match generateContent W request with
     | Throw _ => None
     | Ok response =>
         let raw := match response with Some t => t | None => [] end in
         match parseVerifierScore (JSON_parse W) raw with
         | Ok r => r
         | Throw _ => None
         end
     end).

Definition attemptRequest (pdfBase64 prompt : Js.str)
  (profile : OptimizationProfile) (modelOverride : option ModelType)
  : Request :=
  {| req_model := modelForProfile profile modelOverride;
     req_parts := [InlineData (Js.lit "application/pdf") pdfBase64;
                   TextPart (buildPdfPrompt prompt profile)] |}.

(** The constants an attempt computes between the end of the stream and
    its decision. *)
Record Scoring := {
  assessment : QualityAssessment;
  requiredScore : Q;
  needsVerifier : bool;
  verifierScore : option Q;
  qualityScore : Q;
  accepted : bool
}.

Definition scoreAttempt (text : Js.str) (profile : OptimizationProfile)
  (isLastProfile : bool) (modelId : option ModelType)
  : list (Effect PdfCacheEntry) * Scoring :=
  let assessment := evaluateQuality text in
  let requiredScore := requiredPdfScore profile in
  let needsVerifier := Qltb (score assessment) (requiredScore + 0.12)%Q in
  let (calls, verifierScore) :=
    if needsVerifier then runQualityVerifier text profile modelId
    else ([], None) in
  let qualityScore :=
    match verifierScore with
    | None => score assessment
    | Some v => (score assessment * 0.78 + v * 0.22)%Q
    end in
  let accepted := Qle_bool requiredScore qualityScore || isLastProfile in
  (calls,
   {| assessment := assessment; requiredScore := requiredScore;
      needsVerifier := needsVerifier; verifierScore := verifierScore;
      qualityScore := qualityScore; accepted := accepted |}).

Section Loop.

Variables (pdfBase64 prompt cacheKey : Js.str).
Variable modelId : option ModelType.
Variable candidateProfiles : list OptimizationProfile.

(** The body of the [for] loop of the generator at [index], where
    [profile] is [candidateProfiles[index]]: its effects and how it
    completes. *)
Definition attempt (index : nat) (profile : OptimizationProfile)
  : list (Effect PdfCacheEntry) * Completion unit :=
  let isLastProfile := index =? length candidateProfiles - 1 in
  let promptForAttempt := buildPdfPrompt prompt profile in
  let estimatedInputTokens :=
    estimateInlineDataTokens pdfBase64
    + estimateTextTokens promptForAttempt in
  let start :=
    Emit {| ev_type := profile_start; ev_profile := profile;
            ev_message := MsgPdfRunning profile;
            ev_qualityScore := None; ev_reasons := None;
            ev_estimatedInputTokens := Some estimatedInputTokens;
            ev_estimatedOutputTokens := None;
            ev_verificationScore := None |} in
  let request := attemptRequest pdfBase64 prompt profile modelId in
  match generateContentStream W request with
  | Throw error =>
      if isLastProfile then
        ([start; CallStream request], Raise (normalizeError error))
      else
        ([start; CallStream request;
          Emit {| ev_type := profile_escalated; ev_profile := profile;
                  ev_message := MsgPdfFailedToStart profile;
                  ev_qualityScore := None; ev_reasons := None;
                  ev_estimatedInputTokens := None;
                  ev_estimatedOutputTokens := None;
                  ev_verificationScore := None |}],
         Continue)
  | Ok chunks =>
      let text := collectStream chunks in
      let (calls, s) := scoreAttempt text profile isLastProfile modelId in
      let estimatedOutputTokens := estimateTextTokens text in
      let report type message :=
        Emit {| ev_type := type; ev_profile := profile;
                ev_message := message;
                ev_qualityScore := Some (qualityScore s);
                ev_reasons := Some (reasons (assessment s));
                ev_estimatedInputTokens := Some estimatedInputTokens;
                ev_estimatedOutputTokens := Some estimatedOutputTokens;
                ev_verificationScore := verifierScore s |} in
      if negb (accepted s) then
        (start :: CallStream request :: calls
         ++ [report profile_escalated (MsgPdfLowQuality (qualityScore s))],
         Continue)
      else
        (start :: CallStream request :: calls
         ++ WriteCache cacheKey
              {| createdAt := now W; text := text;
                 profile := profile; quality := qualityScore s |}
         :: report profile_accepted (MsgPdfAccepted profile)
         :: map Yield (createTextStream text)
         ++ [report completed (MsgPdfCompleted profile)],
         Return tt)
  end.

(** [candidateProfiles[index]] inside the loop, where [index] is in
    range. *)
Definition attemptAt (index : nat)
  : list (Effect PdfCacheEntry) * Completion unit :=
  match nth_error candidateProfiles index with
  | Some profile => attempt index profile
  | None => ([], Continue)
  end.

(** The body of the generator: the [for] loop over the candidates, behind
    which the generator returns. *)
Definition attempts : list (Effect PdfCacheEntry) * Result unit :=
  match forLoop (length candidateProfiles) attemptAt with
  | (effects, Raise error) => (effects, Throw error)
  | (effects, _) => (effects, Ok tt)
  end.

End Loop.

(** [analyzePdfStream], with the stream it returns consumed to its end.
    [cached] is what [readPdfCache] returned for the key. *)
Definition analyzePdfStream (pdfBase64 prompt : Js.str)
  (modelId : option ModelType) (cached : option PdfCacheEntry)
  : list (Effect PdfCacheEntry) * Result unit :=
  let cacheKey := buildPdfCacheKey pdfBase64 prompt in
  match cached with
  | Some c =>
      let estimatedOutputTokens := estimateTextTokens (text c) in
      let report type message :=
        Emit {| ev_type := type; ev_profile := profile c;
                ev_message := message;
                ev_qualityScore := Some (quality c); ev_reasons := None;
                ev_estimatedInputTokens := None;
                ev_estimatedOutputTokens := Some estimatedOutputTokens;
                ev_verificationScore := None |} in
      (report cache_hit (MsgPdfCacheHit (profile c))
       :: report completed (MsgPdfCompletedCached (profile c))
       :: map Yield (createTextStream (text c)), Ok tt)
  | None =>
      let candidateProfiles :=
        resolvePdfCandidateProfiles pdfBase64 modelId in
      attempts pdfBase64 prompt cacheKey modelId candidateProfiles
  end.

End PdfRun.

End GeminiService.

(** ** [src/services/imageService.ts] *)

Module ImageService.

Record ImageCacheEntry := {
  createdAt : Z;
  text : Js.str;
  highestProfile : OptimizationProfile;
  quality : Q
}.

Record PreparedImagePart := {
  mimeType : Js.str;
  data : Js.str
}.

Record SpanResolution := {
  sr_text : Js.str;
  sr_profile : OptimizationProfile;
  sr_assessment : QualityAssessment;
  sr_qualityScore : Q;
  sr_consumed : nat;
  sr_estimatedInputTokens : nat;
  sr_estimatedOutputTokens : nat;
  sr_verificationScore : option Q
}.

Definition resolveImageCandidateProfiles (modelOverride : option ModelType)
  : list OptimizationProfile :=
  match modelOverride with
  | Some PRO => [accuracy]
  | Some FLASH => [economy; balanced]
  | None => OCR_PROFILE_ORDER
  end.

Definition evaluateQuality (text : Js.str) : QualityAssessment :=
  let s := textSignals text in
  let score := 1%Q in
  let score := (score - unreadableRate s * 2.3)%Q in
  let score := (score - Qmin 0.15 (placeholderRate s * 0.65))%Q in
  let score := (score - shortLineRate s * 0.4)%Q in
  let score := (score - Qmin 0.25 (Qnat (punctuationBlobs s) * 0.03))%Q in
  let score := (score - Qmin 0.2 (Qnat (veryLongTokenCount s) * 0.02))%Q in
  let score :=
    (score - Qmin 0.25 (Qnat (repeatedGlyphBurstCount s) * 0.04))%Q in
  let score :=
    if length (Js.trim (normalized s)) <? 80 then (score - 0.2)%Q
    else score in
  let score :=
    if (structureSignal s =? 0) && (30 <? length (lines s))
    then (score - 0.06)%Q else score in
  let score := Qmax 0 (Qmin 1 score) in
  let reasons : list string := [] in
  let reasons :=
    pushIf (Qgtb (unreadableRate s) 0.004)
      "Unreadable replacement character ratio is high" reasons in
  let reasons :=
    pushIf (Qgtb (placeholderRate s) 0.025)
      "Many unresolved glyph placeholders remain" reasons in
  let reasons :=
    pushIf (Qgtb (shortLineRate s) 0.4)
      "Fragmented line pattern detected" reasons in
  let reasons :=
    pushIf (3 <? punctuationBlobs s) "Symbol artifacts detected" reasons in
  let reasons :=
    pushIf (2 <? veryLongTokenCount s)
      "Long token merges suggest OCR boundary errors" reasons in
  let reasons :=
    pushIf (1 <? repeatedGlyphBurstCount s)
      "Repeated glyph bursts detected" reasons in
  let reasons :=
    pushIf (length (Js.trim (normalized s)) <? 80)
      "Chunk output is unexpectedly short" reasons in
  let reasons :=
    pushIf (length reasons =? 0) "Chunk quality looks stable" reasons in
  {| score := score; reasons := reasons |}.

(** [maxChars] is a character count: an integer. *)
Definition extractCarryContext (text : Js.str) (maxChars : Z) : Js.str :=
  let lines := filter Js.truthy (map Js.trim (Js.split Js.LF text)) in
  let headingLines := Js.sliceFrom (filter Js.isHeadingLine lines) (-3) in
  let tableLines := Js.sliceFrom (filter Js.isTableLine lines) (-3) in
  let tailLines := Js.sliceFrom lines (-4) in
  let merged := headingLines ++ tableLines ++ tailLines in
  let deduped :=
    Js.filterIdx
      (fun line idx => (Js.indexOf merged line =? Z.of_nat idx)%Z)
      0 merged in
  let joined := Js.join [Js.LF] deduped in
  if (Z.of_nat (length joined) <=? maxChars)%Z then joined
  else Js.sliceFrom joined (Z.of_nat (length joined) - maxChars).

Definition buildImagePrompt (prompt : Js.str) (profile : OptimizationProfile)
  (startPage endPage totalPages : nat) (carryContext : Js.str) : Js.str :=
  let quote := [34%N] in
  let profileHint :=
    match profile with
    | economy =>
        Js.lit "Prioritize concise but faithful transcription for this page span."
    | balanced =>
        Js.lit "Prioritize faithful transcription and repair obvious OCR split words."
    | accuracy =>
        Js.lit "Prioritize maximum fidelity and resolve hard glyphs via neighboring context."
    end in
  let contextBlock :=
    if Js.truthy carryContext then
      Js.lit "Context from previous pages (for continuity only):"
        ++ [Js.LF] ++ carryContext
    else Js.lit "No previous page context." in
  let userInstruction :=
    if Js.truthy (Js.trim prompt) then Js.trim prompt
    else Js.lit "No additional user instruction." in
  Js.join [Js.LF; Js.LF] [
    OCR_OUTPUT_CONTRACT;
    Js.lit "Current page range: " ++ decimal startPage ++ Js.lit "-"
      ++ decimal endPage ++ Js.lit " of " ++ decimal totalPages
      ++ Js.lit ".";
    Js.lit "For this page range, every page must begin with an exact heading: "
      ++ quote ++ Js.lit "## pageN" ++ quote
      ++ Js.lit " using the absolute page number in the full document.";
    profileHint;
    contextBlock;
    Js.lit "User instruction:" ++ [Js.LF] ++ userInstruction
  ].

(** [xs.indexOf(p)] on an array of profiles. *)
Fixpoint indexOfProfile (xs : list OptimizationProfile)
  (p : OptimizationProfile) : Z :=
  match xs with
  | [] => (-1)%Z
  | y :: r =>
      if OptimizationProfile_eqb y p then 0%Z
      else let i := indexOfProfile r p in
           if (i <? 0)%Z then (-1)%Z else (i + 1)%Z
  end.

Definition maxProfile (current next : OptimizationProfile)
  : OptimizationProfile :=
  if (indexOfProfile OCR_PROFILE_ORDER next
      >? indexOfProfile OCR_PROFILE_ORDER current)%Z
  then next else current.

Section ImageRun.

Variable W : Platform.

Definition IMAGE_CACHE_PREFIX : Js.str :=
  Js.lit "ocr-cache:image:" ++ OCR_CACHE_SCHEMA_VERSION.

(** [xs.map((x, idx) => f(x, idx))]. *)
Fixpoint mapIdx {A B} (f : A -> nat -> B) (idx : nat) (xs : list A)
  : list B :=
  match xs with
  | [] => []
  | x :: r => f x idx :: mapIdx f (S idx) r
  end.

Definition buildImageCacheKey (images : list ImageFile) (prompt : Js.str)
  (modelOverride : option ModelType) : Js.str :=
  let fingerprint :=
    Js.join [Js.PIPE]
      (mapIdx
         (fun img idx =>
            let b64 := match base64 img with Some b => b | None => [] end in
            let head := Js.slice b64 0 64 in
            let tail := Js.sliceFrom b64 (-64) in
            Js.join (Js.lit ":")
              [decimal idx; file_name img; file_type img;
               decimal (file_size img); decimal (file_lastModified img);
               decimal (length b64); head; tail])
         0 images) in
  let modelTag :=
    match modelOverride with
    | Some m => modelName m
    | None => Js.lit "auto"
    end in
  let promptHash := sha256Hex W prompt in
  let fingerprintHash := sha256Hex W fingerprint in
  let policyHash := sha256Hex W (policyJson W) in
  Js.join (Js.lit ":")
    [IMAGE_CACHE_PREFIX; modelTag; policyHash; promptHash; fingerprintHash].

Definition verifierPrompt (profile : OptimizationProfile) (sampled : Js.str)
  : Js.str :=
  let quote := [34%N] in
  Js.join [Js.LF] [
    Js.lit "You are validating OCR transcription quality for image pages.";
    Js.lit "Score from 0 to 1 for fidelity and structure.";
    Js.lit "Return strict JSON only: {" ++ quote ++ Js.lit "score" ++ quote
      ++ Js.lit ":0.0," ++ quote ++ Js.lit "reason" ++ quote ++ Js.lit ":"
      ++ quote ++ Js.lit "short" ++ quote ++ Js.lit "}";
    Js.lit "Prefer lower scores for missing lines, garbled tokens, and malformed tables/headings.";
    Js.lit "Profile: " ++ profileName profile;
    Js.lit "Candidate transcription:";
    sampled
  ].

Definition verifierRequest (text : Js.str) (profile : OptimizationProfile)
  (modelOverride : option ModelType) : Request :=
  {| req_model := modelForProfile profile modelOverride;
     req_parts :=
       [TextPart (verifierPrompt profile (sampleForVerification text))] |}.

(** [runQualityVerifier]: the requests it sends and the score it resolves
    to ([None] is [null]). *)
Definition runQualityVerifier (text : Js.str) (profile : OptimizationProfile)
  (modelOverride : option ModelType)
  : list (Effect ImageCacheEntry) * option Q :=
  if length (Js.trim text) <? 60 then ([], Some 0%Q)
  else
    let request := verifierRequest text profile modelOverride in
    ([Call request],
     match generateContent W request with
     | Throw _ => None
     | Ok response =>
         let raw := match response with Some t => t | None => [] end in
         match parseVerifierScore (JSON_parse W) raw with
         | Ok r => r
         | Throw _ => None
         end
     end).

(** [preprocessSpan]: every image of the span goes through the canvas, in
    batches of [MAX_CONCURRENT_REQUESTS]; the batches only bound how many
    run at once, so the result is that of the images in order, or the first
    failure. *)
Fixpoint preprocessSpan (images : list ImageFile)
  (profile : OptimizationProfile) : Result (list PreparedImagePart) :=
  match images with
  | [] => Ok []
  | img :: rest =>
      match preprocessImageForProfile W img profile with
      | Throw e => Throw e
      | Ok (m, d) =>
          match preprocessSpan rest profile with
          | Throw e => Throw e
          | Ok parts => Ok ({| mimeType := m; data := d |} :: parts)
          end
      end
  end.

Definition spanRequest (preparedImages : list PreparedImagePart)
  (prompt : Js.str) (profile : OptimizationProfile)
  (modelOverride : option ModelType) : Request :=
  {| req_model := modelForProfile profile modelOverride;
     req_parts :=
       map (fun img => InlineData (mimeType img) (data img)) preparedImages
       ++ [TextPart prompt] |}.

(** [runSpanAttempt]: the text of the streamed response. *)
Definition runSpanAttempt (preparedImages : list PreparedImagePart)
  (prompt : Js.str) (profile : OptimizationProfile)
  (modelOverride : option ModelType) : Result Js.str :=
  match generateContentStream W
          (spanRequest preparedImages prompt profile modelOverride) with
  | Throw e => Throw e
  | Ok chunks => Ok (collectStream chunks)
  end.

Definition sumTokens {A} (f : A -> nat) (xs : list A) : nat :=
  fold_left (fun sum x => sum + f x) xs 0.

(** The constants an attempt computes between the end of the stream and
    its decision. *)
Record Scoring := {
  assessment : QualityAssessment;
  requiredScore : Q;
  needsVerifier : bool;
  verifierScore : option Q;
  qualityScore : Q;
  accepted : bool
}.

Definition scoreAttempt (text : Js.str) (profile : OptimizationProfile)
  (isLastProfile : bool) (modelOverride : option ModelType)
  : list (Effect ImageCacheEntry) * Scoring :=
  let assessment := evaluateQuality text in
  let requiredScore := minQualityScore (OCR_PROFILE_POLICIES profile) in
  let needsVerifier := Qltb (score assessment) (requiredScore + 0.1)%Q in
  let (calls, verifierScore) :=
    if needsVerifier then runQualityVerifier text profile modelOverride
    else ([], None) in
  let qualityScore :=
    match verifierScore with
    | None => score assessment
    | Some v => (score assessment * 0.78 + v * 0.22)%Q
    end in
  let accepted := Qle_bool requiredScore qualityScore || isLastProfile in
  (calls,
   {| assessment := assessment; requiredScore := requiredScore;
      needsVerifier := needsVerifier; verifierScore := verifierScore;
      qualityScore := qualityScore; accepted := accepted |}).

(** The error the [catch] of the span loop throws at the last profile. *)
Definition spanFailure (error : Thrown) : Thrown :=
  match error with
  | ErrorObject message =>
      ErrorObject (Js.lit "Image sequence analysis failed: " ++ message)
  | OtherValue =>
      ErrorObject (Js.lit "Image sequence analysis failed unexpectedly.")
  end.

Section SpanLoop.

Variable images : list ImageFile.
Variables (prompt carryContext : Js.str).
Variable startIndex : nat.
Variable candidateProfiles : list OptimizationProfile.
Variable modelOverride : option ModelType.

Definition totalPages : nat := length images.
Definition baseChunkSize : nat := 1.
Definition span : list ImageFile :=
  Js.slice images (Z.of_nat startIndex)
    (Z.of_nat (startIndex + baseChunkSize)).
Definition startPage : nat := startIndex + 1.
Definition endPage : nat := startIndex + length span.

Definition couldNotResolve : Thrown :=
  ErrorObject (Js.lit "Could not resolve span with available profiles.").

(** The body of the [for] loop over the candidate profiles at index [i],
    where [profile] is [candidateProfiles[i]]: its effects and how it
    completes. *)
Definition spanAttempt (i : nat) (profile : OptimizationProfile)
  : list (Effect ImageCacheEntry) * Completion SpanResolution :=
  let isLastProfile := i =? length candidateProfiles - 1 in
  let composedPrompt :=
    buildImagePrompt prompt profile startPage endPage totalPages
      carryContext in
  let estimatedPromptTokens := estimateTextTokens composedPrompt in
  let start :=
    Emit {| ev_type := profile_start; ev_profile := profile;
            ev_message := MsgImageRunning startPage endPage profile;
            ev_qualityScore := None; ev_reasons := None;
            ev_estimatedInputTokens :=
              Some (estimatedPromptTokens
                    + sumTokens
                        (fun img =>
                           estimateInlineDataTokens
                             match base64 img with
                             | Some b => b
                             | None => []
                             end) span);
            ev_estimatedOutputTokens := None;
            ev_verificationScore := None |} in
  let failed (sent : list (Effect ImageCacheEntry)) (error : Thrown)
    : list (Effect ImageCacheEntry) * Completion SpanResolution :=
    if isLastProfile then (start :: sent, Raise (spanFailure error))
    else
      (start :: sent
       ++ [Emit {| ev_type := profile_escalated; ev_profile := profile;
                   ev_message := MsgImageFailed startPage endPage profile;
                   ev_qualityScore := None; ev_reasons := None;
                   ev_estimatedInputTokens := None;
                   ev_estimatedOutputTokens := None;
                   ev_verificationScore := None |}],
       Continue) in
  match preprocessSpan span profile with
  | Throw error => failed [] error
  | Ok prepared =>
      let estimatedImageTokens :=
        sumTokens (fun img => estimateInlineDataTokens (data img))
          prepared in
      let estimatedInputTokens :=
        estimatedImageTokens + estimatedPromptTokens in
      let request :=
        spanRequest prepared composedPrompt profile modelOverride in
      match runSpanAttempt prepared composedPrompt profile modelOverride with
      | Throw error => failed [CallStream request] error
      | Ok text =>
          let (calls, s) :=
            scoreAttempt text profile isLastProfile modelOverride in
          let estimatedOutputTokens := estimateTextTokens text in
          let report type message :=
            Emit {| ev_type := type; ev_profile := profile;
                    ev_message := message;
                    ev_qualityScore := Some (qualityScore s);
                    ev_reasons := Some (reasons (assessment s));
                    ev_estimatedInputTokens := Some estimatedInputTokens;
                    ev_estimatedOutputTokens := Some estimatedOutputTokens;
                    ev_verificationScore := verifierScore s |} in
          if accepted s then
            (start :: CallStream request :: calls
             ++ [report profile_accepted
                   (MsgImageAccepted startPage endPage profile)],
             Return
               {| sr_text := text; sr_profile := profile;
                  sr_assessment := assessment s;
                  sr_qualityScore := qualityScore s;
                  sr_consumed := length span;
                  sr_estimatedInputTokens := estimatedInputTokens;
                  sr_estimatedOutputTokens := estimatedOutputTokens;
                  sr_verificationScore := verifierScore s |})
          else
            (start :: CallStream request :: calls
             ++ [report profile_escalated
                   (MsgImageEscalating startPage endPage profile)],
             Continue)
      end
  end.

(** [candidateProfiles[i]] inside the loop, where [i] is in range. *)
Definition spanAttemptAt (i : nat)
  : list (Effect ImageCacheEntry) * Completion SpanResolution :=
  match nth_error candidateProfiles i with
  | Some profile => spanAttempt i profile
  | None => ([], Continue)
  end.

Definition resolveSpanWithEscalation
  : list (Effect ImageCacheEntry) * Result SpanResolution :=
  if length span =? 0 then
    ([], Throw (ErrorObject (Js.lit "No images left to process.")))
  else
    match forLoop (length candidateProfiles) spanAttemptAt with
    | (effects, Return resolved) => (effects, Ok resolved)
    | (effects, Raise error) => (effects, Throw error)
    | (effects, Continue) => (effects, Throw couldNotResolve)
    end.

End SpanLoop.

(** The variables of the generator of [analyzeImageSequenceStream], and a
    history that is no variable of the source: [resolved] lists what
    [resolveSpanWithEscalation] returned so far, oldest first. Nothing
    reads it; the properties below speak about the accepted spans through
    it. *)
Record SequenceState := {
  cursor : nat;
  carryContext : Js.str;
  accumulated : Js.str;
  st_highestProfile : OptimizationProfile;
  st_minQualityScore : Q;
  totalEstimatedInputTokens : nat;
  totalEstimatedOutputTokens : nat;
  resolved : list SpanResolution
}.

(** The variables as the generator declares them. *)
Definition initialState (candidateProfiles : list OptimizationProfile)
  : SequenceState :=
  {| cursor := 0; carryContext := []; accumulated := [];
     st_highestProfile :=
       match candidateProfiles with
       | p :: _ => p
       | [] => economy
       end;
     st_minQualityScore := 1%Q;
     totalEstimatedInputTokens := 0;
     totalEstimatedOutputTokens := 0;
     resolved := [] |}.

Section SequenceLoop.

Variable images : list ImageFile.
Variable prompt : Js.str.
Variable modelId : option ModelType.
Variable candidateProfiles : list OptimizationProfile.

(** The [while (cursor < images.length)] loop: its effects, and the state
    it leaves or the error that ends the generator. [fuel] bounds the
    iterations. *)
Fixpoint spansFrom (fuel : nat) (st : SequenceState)
  : list (Effect ImageCacheEntry) * Result SequenceState :=
  match fuel with
  | 0 => ([], Ok st)
  | S fuel' =>
      if cursor st <? length images then
        match resolveSpanWithEscalation images prompt (carryContext st)
                (cursor st) candidateProfiles modelId with
        | (effects, Throw error) => (effects, Throw error)
        | (effects, Ok resolution) =>
            let normalized := Js.trim (sr_text resolution) in
            let appendText :=
              if Js.truthy normalized then
                if Js.truthy (accumulated st)
                then [Js.LF; Js.LF] ++ normalized
                else normalized
              else [] in
            let yielded : list (Effect ImageCacheEntry) :=
              if Js.truthy appendText then [Yield appendText] else [] in
            let st' :=
              {| cursor := cursor st + sr_consumed resolution;
                 carryContext :=
                   extractCarryContext normalized
                     (Z.of_nat
                        (carryContextChars
                           (OCR_PROFILE_POLICIES (sr_profile resolution))));
                 accumulated :=
                   if Js.truthy appendText
                   then accumulated st ++ appendText
                   else accumulated st;
                 st_highestProfile :=
                   maxProfile (st_highestProfile st) (sr_profile resolution);
                 st_minQualityScore :=
                   Qmin (st_minQualityScore st) (sr_qualityScore resolution);
                 totalEstimatedInputTokens :=
                   totalEstimatedInputTokens st
                   + sr_estimatedInputTokens resolution;
                 totalEstimatedOutputTokens :=
                   totalEstimatedOutputTokens st
                   + sr_estimatedOutputTokens resolution;
                 resolved := resolved st ++ [resolution] |} in
            let (rest, outcome) := spansFrom fuel' st' in
            (effects ++ yielded ++ rest, outcome)
        end
      else ([], Ok st)
  end.

End SequenceLoop.

(** [analyzeImageSequenceStream], with the stream it returns consumed to
    its end. [cached] is what [readImageCache] returned for the key. *)
Definition analyzeImageSequenceStream (images : list ImageFile)
  (prompt : Js.str) (modelId : option ModelType)
  (cached : option ImageCacheEntry)
  : list (Effect ImageCacheEntry) * Result unit :=
  let cacheKey := buildImageCacheKey images prompt modelId in
  match cached with
  | Some c =>
      let estimatedOutputTokens := estimateTextTokens (text c) in
      let report type message :=
        Emit {| ev_type := type; ev_profile := highestProfile c;
                ev_message := message;
                ev_qualityScore := Some (quality c); ev_reasons := None;
                ev_estimatedInputTokens := None;
                ev_estimatedOutputTokens := Some estimatedOutputTokens;
                ev_verificationScore := None |} in
      (report cache_hit (MsgImageCacheHit (highestProfile c))
       :: report completed MsgImageCompletedCached
       :: map Yield (createTextStream (text c)), Ok tt)
  | None =>
      let candidateProfiles := resolveImageCandidateProfiles modelId in
      let initial := initialState candidateProfiles in
      match spansFrom images prompt modelId candidateProfiles
              (length images) initial with
      | (effects, Throw error) => (effects, Throw error)
      | (effects, Ok st) =>
          let minQualityScore :=
            if Js.truthy (accumulated st) then st_minQualityScore st
            else 0%Q in
          (effects
           ++ [WriteCache cacheKey
                 {| createdAt := now W; text := accumulated st;
                    highestProfile := st_highestProfile st;
                    quality := minQualityScore |};
               Emit {| ev_type := completed;
                       ev_profile := st_highestProfile st;
                       ev_message :=
                         MsgImageCompleted (st_highestProfile st);
                       ev_qualityScore := Some minQualityScore;
                       ev_reasons := None;
                       ev_estimatedInputTokens :=
                         Some (totalEstimatedInputTokens st);
                       ev_estimatedOutputTokens :=
                         Some (totalEstimatedOutputTokens st);
                       ev_verificationScore := None |}],
           Ok tt)
      end
  end.

End ImageRun.

End ImageService.

(** ** Around the attempts: the rest of the two services, and [src/App.tsx]

    The functions of the two services that the engine calls around the
    attempts: the fallback hash and the digest wrapper, the cache store, the
    two entry points that collect a stream into a string and the arithmetic
    of the image preparation; and the metrics [src/App.tsx] keeps from the
    events of a run. *)

Module Hash.

(** [ToInt32] and [ToUint32] on an integer. *)
Definition toInt32 (z : Z) : Z := ((z + 2 ^ 31) mod 2 ^ 32 - 2 ^ 31)%Z.
Definition toUint32 (z : Z) : Z := (z mod 2 ^ 32)%Z.

(** [x << 5]: the operand as an int32, shifted, as an int32. *)
Definition shiftLeft5 (x : Z) : Z := toInt32 (Z.shiftl (toInt32 x) 5).

(** [input.charCodeAt(i)]. *)
Definition charCode (c : Js.char) : Z := Z.of_N c.

(** The loop of [fastHash]: [hash = ((hash << 5) + hash) + charCodeAt(i)].
    Only the shift truncates; the two additions are additions of numbers,
    so [hash] leaves the 32-bit range. It stays an integer below 2^53 in
    absolute value for every input of up to 2^21 code units, where the
    additions of doubles are exact. *)
Fixpoint fastHashFrom (hash : Z) (input : Js.str) : Z :=
  match input with
  | [] => hash
  | c :: rest => fastHashFrom (shiftLeft5 hash + hash + charCode c)%Z rest
  end.

(** A digit of [toString(16)]. *)
Definition hexDigit (d : Z) : Js.char :=
  Z.to_N (if (d <? 10)%Z then 48 + d else 87 + d)%Z.

(** [n.toString(16)] for an integer that is not negative: the digits of
    [n], most significant first, in front of [acc]. [fuel] bounds the number
    of digits. *)
Fixpoint toHexFrom (fuel : nat) (n : Z) (acc : Js.str) : Js.str :=
  match fuel with
  | 0 => acc
  | S fuel' =>
      let acc' := hexDigit (n mod 16) :: acc in
      if (n / 16 =? 0)%Z then acc' else toHexFrom fuel' (n / 16) acc'
  end.

Definition toString16 (n : Z) : Js.str :=
  toHexFrom (S (Z.to_nat (Z.log2 n))) n [].

(** [(hash >>> 0).toString(16)] behind the loop. *)
Definition fastHash (input : Js.str) : Js.str :=
  toString16 (toUint32 (fastHashFrom 5381 input)).

(** [s.padStart(2, '0')]. *)
Definition padStart2 (s : Js.str) : Js.str :=
  repeat 48%N (2 - length s) ++ s.

(** [sha256Hex]. [subtle] is [globalThis.crypto?.subtle], given by its
    [digest('SHA-256', bytes)] when it is there; [encode] is
    [new TextEncoder().encode]. Whatever is thrown inside the [try], and no
    [subtle] at all, lead to [fastHash]. *)
Definition sha256Hex (subtle : option (list N -> Result (list N)))
  (encode : Js.str -> Result (list N)) (input : Js.str) : Js.str :=
  match subtle with
  | Some digest =>
      match encode input with
      | Ok bytes =>
          match digest bytes with
          | Ok hashed =>
              concat
                (map (fun byte => padStart2 (toString16 (Z.of_N byte)))
                   hashed)
          | Throw _ => fastHash input
          end
      | Throw _ => fastHash input
      end
  | None => fastHash input
  end.

End Hash.

(** *** The cache store

    [localStorage] holds strings; the model keeps, for a key, what the
    reader makes of the string. [Garbage] is a string it gives up on without
    touching the storage: the empty string ([!raw]), a string [JSON.parse]
    rejects, and [null], whose [createdAt] cannot be read. [Foreign] is any
    other JSON value that has no truthy [createdAt]. [Entry] is what a cache
    writer serialized: an object whose [createdAt] is a number. *)
Module Store.

Inductive Item (E : Type) :=
| Garbage
| Foreign
| Entry (entry : E).

Arguments Garbage {E}.
Arguments Foreign {E}.
Arguments Entry {E} entry.

Definition Storage (E : Type) := Js.str -> option (Item E).

Definition OCR_CACHE_TTL_MS : Z := (1000 * 60 * 60 * 24)%Z.

Section Typed.

Variable E : Type.
(** [parsed.createdAt]. *)
Variable createdAtOf : E -> Z.

(** [localStorage.removeItem(key)] and a [localStorage.setItem(key, v)]
    that succeeds. *)
Definition removeItem (key : Js.str) (storage : Storage E) : Storage E :=
  fun k => if Js.eqb k key then None else storage k.

Definition setItem (key : Js.str) (item : Item E) (storage : Storage E)
  : Storage E :=
  fun k => if Js.eqb k key then Some item else storage k.

(** [readPdfCache] and [readImageCache] (the same text but for the type of
    the entry): what is returned, and the storage afterwards. [now] is
    [Date.now()]. *)
Definition readCache (storage : Storage E) (now : Z) (cacheKey : Js.str)
  : option E * Storage E :=
  match storage cacheKey with
  | None => (None, storage)
  | Some Garbage => (None, storage)
  | Some Foreign => (None, removeItem cacheKey storage)
  | Some (Entry parsed) =>
      if (createdAtOf parsed =? 0)%Z
         || (now - createdAtOf parsed >? OCR_CACHE_TTL_MS)%Z
      then (None, removeItem cacheKey storage)
      else (Some parsed, storage)
  end.

(** [writePdfCache] and [writeImageCache]: [quota] tells whether [setItem]
    throws, which the writer ignores. *)
Definition writeCache (quota : bool) (storage : Storage E)
  (cacheKey : Js.str) (entry : E) : Storage E :=
  if quota then storage else setItem cacheKey (Entry entry) storage.

(** The writes of a run, applied in order. *)
Definition applyWrites (quota : bool) (log : list (Effect E))
  (storage : Storage E) : Storage E :=
  fold_left
    (fun st e =>
       match e with
       | WriteCache key entry => writeCache quota st key entry
       | _ => st
       end)
    log storage.

End Typed.

Definition readPdfCache := readCache GeminiService.createdAt.
Definition writePdfCache := @writeCache GeminiService.PdfCacheEntry.
Definition readImageCache := readCache ImageService.createdAt.
Definition writeImageCache := @writeCache ImageService.ImageCacheEntry.

End Store.

(** *** The entry points with their cache *)

Module Requests.

Section OnStorage.

Variable W : Platform.
(** Whether [localStorage.setItem] throws during the request. *)
Variable quota : bool.

(** [analyzePdfStream] from its first line: the key, the cache read, the
    run, and the storage the request leaves. The clock of a request is the
    one value [now W]: the read and the write of a request see the same
    time. *)
Definition analyzePdfStreamOn
  (storage : Store.Storage GeminiService.PdfCacheEntry)
  (pdfBase64 prompt : Js.str) (modelId : option ModelType)
  : list (Effect GeminiService.PdfCacheEntry) * Result unit
    * Store.Storage GeminiService.PdfCacheEntry :=
  let cacheKey := GeminiService.buildPdfCacheKey W pdfBase64 prompt in
  let (cached, storage') := Store.readPdfCache storage (now W) cacheKey in
  let run := GeminiService.analyzePdfStream W pdfBase64 prompt modelId cached in
  (run, Store.applyWrites quota (fst run) storage').

(** [analyzeImageSequenceStream] from its first line. *)
Definition analyzeImageSequenceStreamOn
  (storage : Store.Storage ImageService.ImageCacheEntry)
  (images : list ImageFile) (prompt : Js.str) (modelId : option ModelType)
  : list (Effect ImageService.ImageCacheEntry) * Result unit
    * Store.Storage ImageService.ImageCacheEntry :=
  let cacheKey := ImageService.buildImageCacheKey W images prompt modelId in
  let (cached, storage') := Store.readImageCache storage (now W) cacheKey in
  let run :=
    ImageService.analyzeImageSequenceStream W images prompt modelId cached in
  (run, Store.applyWrites quota (fst run) storage').

End OnStorage.

(** [for await (const chunk of stream) text += chunk.text], behind a run:
    the chunks it took, put together, or the error of the stream. *)
Definition collectChunks {Entry}
  (run : list (Effect Entry) * Result unit) : Result Js.str :=
  match run with
  | (log, Ok _) =>
      Ok (concat
            (flat_map
               (fun e => match e with Yield t => [t] | _ => [] end) log))
  | (_, Throw error) => Throw error
  end.

(** [analyzePdfContent] and [analyzeImageSequence]. *)
Definition analyzePdfContent (W : Platform) (pdfBase64 prompt : Js.str)
  (modelId : option ModelType)
  (cached : option GeminiService.PdfCacheEntry) : Result Js.str :=
  collectChunks
    (GeminiService.analyzePdfStream W pdfBase64 prompt modelId cached).

Definition analyzeImageSequence (W : Platform) (images : list ImageFile)
  (prompt : Js.str) (modelId : option ModelType)
  (cached : option ImageService.ImageCacheEntry) : Result Js.str :=
  collectChunks
    (ImageService.analyzeImageSequenceStream W images prompt modelId cached).

End Requests.

(** *** [src/App.tsx]: the metrics of a run

    The two analyze handlers reset the metrics and pass the same [onEvent]
    to the engine; every event goes through the state updater below. *)

Module App.

Record RunMetrics := {
  profileTransitions : nat;
  escalations : nat;
  cacheHits : nat;
  estimatedInputTokens : nat;
  estimatedOutputTokens : nat;
  lastQualityScore : option Q;
  lastVerificationScore : option Q
}.

Definition INITIAL_METRICS : RunMetrics :=
  {| profileTransitions := 0; escalations := 0; cacheHits := 0;
     estimatedInputTokens := 0; estimatedOutputTokens := 0;
     lastQualityScore := None; lastVerificationScore := None |}.

(** The updater [onEvent] hands to [setRunMetrics]. *)
Definition onEvent (prev : RunMetrics) (event : AnalysisEvent) : RunMetrics :=
  {| profileTransitions :=
       profileTransitions prev
       + (if AnalysisEventType_eqb (ev_type event) profile_start
          then 1 else 0);
     escalations :=
       escalations prev
       + (if AnalysisEventType_eqb (ev_type event) profile_escalated
          then 1 else 0);
     cacheHits :=
       cacheHits prev
       + (if AnalysisEventType_eqb (ev_type event) cache_hit then 1 else 0);
     estimatedInputTokens :=
       Nat.max (estimatedInputTokens prev)
         match ev_estimatedInputTokens event with
         | Some n => n
         | None => 0
         end;
     estimatedOutputTokens :=
       Nat.max (estimatedOutputTokens prev)
         match ev_estimatedOutputTokens event with
         | Some n => n
         | None => 0
         end;
     lastQualityScore :=
       match ev_qualityScore event with
       | Some q => Some q
       | None => lastQualityScore prev
       end;
     lastVerificationScore :=
       match ev_verificationScore event with
       | Some v => Some v
       | None => lastVerificationScore prev
       end |}.

(** The metrics a handler shows when its run is over: the reset, then the
    updater for every event the run emitted, in order. *)
Definition runMetrics {Entry} (log : list (Effect Entry)) : RunMetrics :=
  fold_left
    (fun metrics e =>
       match e with
       | Emit event => onEvent metrics event
       | _ => metrics
       end)
    log INITIAL_METRICS.

End App.

(** *** [preprocessImageForProfile]: the arithmetic of the canvas work

    What the function computes between the calls of the canvas: the size it
    asks for and the tone curve it applies to every pixel. The mean and the
    standard deviation of the luminance are what its two loops over the
    pixels leave; the square root is not computed here, [stdDev] is given.
    [Math.round] rounds halves up. The numbers are exact rationals, as
    everywhere in this development. *)

Module Preprocess.


(** [clamp]: [Math.min(max, Math.max(min, value))]. *)
Definition clamp (value min max : Q) : Q := Qmin max (Qmax min value).





Definition targetStd (profile : OptimizationProfile) : Q :=
  match profile with
  | economy => 44%Q
  | balanced => 56%Q
  | accuracy => 66%Q
  end.

Definition adaptiveContrast (profile : OptimizationProfile) (stdDev : Q) : Q :=
  clamp (targetStd profile / Qmax stdDev 1)%Q 1%Q
    (if OptimizationProfile_eqb profile economy then 1.45%Q else 1.7%Q).

Definition needsBinarize (profile : OptimizationProfile) (stdDev : Q) : bool :=
  negb (OptimizationProfile_eqb profile economy) && Qltb stdDev 42%Q.

Definition threshold (profile : OptimizationProfile) (mean : Q) : Q :=
  clamp
    (mean - (if OptimizationProfile_eqb profile accuracy then 6 else 2))%Q
    70%Q 200%Q.

(** [out] for a pixel of luminance [luminance]: the number assigned to the
    three channels (the array rounds it when it stores it). *)
Definition out (profile : OptimizationProfile) (mean stdDev : Q)
  (luminance : Z) : Q :=
  let centered :=
    ((inject_Z luminance - 128) * adaptiveContrast profile stdDev + 128)%Q in
  let adjusted := clamp centered 0%Q 255%Q in
  if needsBinarize profile stdDev
  then if Qle_bool (threshold profile mean) adjusted then 255%Q else 0%Q
  else adjusted.

(** The format the canvas is exported in. *)
Definition mimeType (profile : OptimizationProfile) : Js.str :=
  if OptimizationProfile_eqb profile economy then Js.lit "image/jpeg"
  else Js.lit "image/png".

End Preprocess.

(** ** Definitions the properties are stated with *)



(** The candidate rule of the PDF mode in the words of the specification:
    the initial profile by size in whole megabytes, the walk from it through
    [accuracy] in the fixed order, and a pinned tier keeping the profiles of
    that tier. *)
Definition initialBySize (mb : Z) : OptimizationProfile :=
  if (12 <=? mb)%Z then economy
  else if (mb <=? 4)%Z then balanced
  else economy.

Fixpoint walkFrom (initial : OptimizationProfile)
  (order : list OptimizationProfile) : list OptimizationProfile :=
  match order with
  | [] => []
  | p :: rest =>
      if OptimizationProfile_eqb p initial then order
      else walkFrom initial rest
  end.

Definition candidatesByRule (mb : Z) (override : option ModelType)
  : list OptimizationProfile :=
  let walk := walkFrom (initialBySize mb) OCR_PROFILE_ORDER in
  match override with
  | None => walk
  | Some tier =>
      filter
        (fun p => ModelType_eqb (model (OCR_PROFILE_POLICIES p)) tier) walk
  end.

(** A verifier opinion, when there is one, lies between 0 and 1. *)
Definition opinionInUnit (opinion : option Q) : Prop :=
  match opinion with
  | None => True
  | Some v => (0 <= v <= 1)%Q
  end.

(** *** Views of a run's effects *)

Section Views.

Variable Entry : Type.

(** The cache writes of a run, in order. *)
Definition writes (log : list (Effect Entry)) : list (Js.str * Entry) :=
  flat_map
    (fun e => match e with WriteCache k v => [(k, v)] | _ => [] end) log.

(** The events of a run, in order. *)
Definition events (log : list (Effect Entry)) : list AnalysisEvent :=
  flat_map (fun e => match e with Emit ev => [ev] | _ => [] end) log.

(** The chunks handed to the consumer, in order. *)
Definition yields (log : list (Effect Entry)) : list Js.str :=
  flat_map (fun e => match e with Yield t => [t] | _ => [] end) log.

(** The requests sent to the non-streaming endpoint: the verifier's. *)
Definition verifierCalls (log : list (Effect Entry)) : list Request :=
  flat_map (fun e => match e with Call r => [r] | _ => [] end) log.

(** The events of one type. *)
Definition eventsOf (type : AnalysisEventType) (log : list (Effect Entry))
  : list AnalysisEvent :=
  filter (fun ev => AnalysisEventType_eqb (ev_type ev) type) (events log).

End Views.

(** An event without quality fields: no score, no reasons, no verification
    score (and no token estimates either). *)
Definition bareEvent (type : AnalysisEventType) (p : OptimizationProfile)
  (message : Message) : AnalysisEvent :=
  {| ev_type := type; ev_profile := p; ev_message := message;
     ev_qualityScore := None; ev_reasons := None;
     ev_estimatedInputTokens := None; ev_estimatedOutputTokens := None;
     ev_verificationScore := None |}.

(** In a [for] loop, iteration [k] is reached from [i] when every iteration
    from [i] up to it fell through. *)
Definition reachedFrom {E A} (body : nat -> list E * Completion A)
  (i k : nat) : Prop :=
  forall j, i <= j < k -> snd (body j) = Continue.



(** An event of the given type and profile is among the effects. *)
Definition emitted {Entry} (type : AnalysisEventType)
  (p : OptimizationProfile) (log : list (Effect Entry)) : Prop :=
  exists ev, In (Emit ev) log /\ ev_type ev = type /\ ev_profile ev = p.

Definition emittedb {Entry} (type : AnalysisEventType)
  (p : OptimizationProfile) (log : list (Effect Entry)) : bool :=
  existsb
    (fun e =>
       match e with
       | Emit ev =>
           AnalysisEventType_eqb (ev_type ev) type
           && OptimizationProfile_eqb (ev_profile ev) p
       | _ => false
       end) log.

(** *** Worlds for the examples *)

(** A verifier answer and its value: the one document the parser of the
    example worlds knows. *)
Definition verdictText : Js.str :=
  Js.lit "{" ++ [34%N] ++ Js.lit "score" ++ [34%N] ++ Js.lit ":0.9}".

Definition verdictValue : JsonValue :=
  JObject [(Js.lit "score", JNumber (Finite 0.9%Q))].

(** In this world the low tier of the service is down and the high tier
    answers every transcription request with [reply]; the verifier endpoint
    answers [verdictText] inside a code fence. *)
Definition highTierWorld (reply : Js.str) : Platform :=
  {| JSON_parse := fun s =>
       if Js.eqb s verdictText then Ok verdictValue
       else Throw (ErrorObject (Js.lit "Unexpected token"));
     generateContentStream := fun r =>
       match req_model r with
       | PRO => Ok [Some reply]
       | FLASH => Throw (ErrorObject (Js.lit "503"))
       end;
     generateContent := fun r =>
       match req_model r with
       | PRO =>
           Ok (Some (Js.lit "```json" ++ [Js.LF] ++ verdictText
                     ++ [Js.LF] ++ Js.lit "```"))
       | FLASH => Throw (ErrorObject (Js.lit "503"))
       end;
     preprocessImageForProfile := fun _ _ =>
       Ok (Js.lit "image/png", Js.lit "iVBORw0KGgo=");
     sha256Hex := fun s => s;
     policyJson := Js.lit "{}";
     now := 1770422400000%Z |}.

(** In this world every tier answers every transcription request with
    [reply], and the verifier endpoint as before. *)
Definition steadyWorld (reply : Js.str) : Platform :=
  {| JSON_parse := fun s =>
       if Js.eqb s verdictText then Ok verdictValue
       else Throw (ErrorObject (Js.lit "Unexpected token"));
     generateContentStream := fun _ => Ok [Some reply];
     generateContent := fun _ =>
       Ok (Some (Js.lit "```json" ++ [Js.LF] ++ verdictText
                 ++ [Js.LF] ++ Js.lit "```"));
     preprocessImageForProfile := fun _ _ =>
       Ok (Js.lit "image/png", Js.lit "iVBORw0KGgo=");
     sha256Hex := fun s => s;
     policyJson := Js.lit "{}";
     now := 1770422400000%Z |}.

(** A page of a scan, for the image examples. *)
Definition page (name : string) : ImageFile :=
  {| file_name := Js.lit name; file_type := Js.lit "image/png";
     file_size := 4; file_lastModified := 1;
     base64 := Some (Js.lit "AAAA") |}.


(** A page of 1500 characters: the same word 250 times. *)
Definition longPage : Js.str :=
  concat (repeat (Js.lit "lorem ") 250).

(** *** The carry context in the words of the specification *)

(** The last [n] elements of a list (all of it when it is shorter). *)
Definition lastN {A} (n : nat) (xs : list A) : list A :=
  skipn (length xs - n) xs.

(** A list without its repetitions: of equal lines the first stays. *)
Fixpoint dedupFirst (seen xs : list Js.str) : list Js.str :=
  match xs with
  | [] => []
  | x :: rest =>
      if existsb (Js.eqb x) seen then dedupFirst seen rest
      else x :: dedupFirst (x :: seen) rest
  end.

Definition carryContextBySpec (text : Js.str) (budget : nat) : Js.str :=
  let lines := filter Js.truthy (map Js.trim (Js.split Js.LF text)) in
  let selected :=
    lastN 3 (filter Js.isHeadingLine lines)
    ++ lastN 3 (filter Js.isTableLine lines)
    ++ lastN 4 lines in
  lastN budget (Js.join [Js.LF] (dedupFirst [] selected)).

(** *** Kinds of effects *)

Definition isWrite {Entry} (e : Effect Entry) : bool :=
  match e with WriteCache _ _ => true | _ => false end.

Definition isYield {Entry} (e : Effect Entry) : bool :=
  match e with Yield _ => true | _ => false end.

Definition isEvent {Entry} (type : AnalysisEventType) (e : Effect Entry)
  : bool :=
  match e with
  | Emit ev => AnalysisEventType_eqb (ev_type ev) type
  | _ => false
  end.

(** The profile an effect names, when it is an event. *)
Definition eventProfile {Entry} (e : Effect Entry)
  : option OptimizationProfile :=
  match e with Emit ev => Some (ev_profile ev) | _ => None end.

(** What the cache invariant is about: the cache writes, the acceptances
    and the chunks. *)
Definition significant {Entry} (e : Effect Entry) : bool :=
  isWrite e || isEvent profile_accepted e || isYield e.

(** A chunk of the fixed size: not empty, at most
    [OUTPUT_STREAM_CHUNK_SIZE] characters. *)
Definition fixedSizeChunk (chunk : Js.str) : Prop :=
  1 <= length chunk <= OUTPUT_STREAM_CHUNK_SIZE.

(** What a live image run hands to the consumer for the accepted spans
    [spans], when [acc] is the output so far: for every span whose trimmed
    text is not empty that text, behind a blank line when output precedes
    it. *)
Fixpoint appendTexts (acc : Js.str) (spans : list ImageService.SpanResolution)
  : list Js.str :=
  match spans with
  | [] => []
  | r :: rest =>
      let normalized := Js.trim (ImageService.sr_text r) in
      match normalized with
      | [] => appendTexts acc rest
      | _ =>
          let appendText :=
            match acc with
            | [] => normalized
            | _ => [Js.LF; Js.LF] ++ normalized
            end in
          appendText :: appendTexts (acc ++ appendText) rest
      end
  end.

(** The text one iteration of the sequence loop appends for the span [r]
    when [acc] is the output so far, and the state it leaves. *)
Definition appendTextOf (acc : Js.str) (r : ImageService.SpanResolution)
  : Js.str :=
  if Js.truthy (Js.trim (ImageService.sr_text r)) then
    if Js.truthy acc
    then [Js.LF; Js.LF] ++ Js.trim (ImageService.sr_text r)
    else Js.trim (ImageService.sr_text r)
  else [].

Definition advance (st : ImageService.SequenceState)
  (r : ImageService.SpanResolution) : ImageService.SequenceState :=
  let appendText := appendTextOf (ImageService.accumulated st) r in
  {| ImageService.cursor :=
       ImageService.cursor st + ImageService.sr_consumed r;
     ImageService.carryContext :=
       ImageService.extractCarryContext
         (Js.trim (ImageService.sr_text r))
         (Z.of_nat
            (carryContextChars
               (OCR_PROFILE_POLICIES (ImageService.sr_profile r))));
     ImageService.accumulated :=
       if Js.truthy appendText
       then ImageService.accumulated st ++ appendText
       else ImageService.accumulated st;
     ImageService.st_highestProfile :=
       ImageService.maxProfile (ImageService.st_highestProfile st)
         (ImageService.sr_profile r);
     ImageService.st_minQualityScore :=
       Qmin (ImageService.st_minQualityScore st)
         (ImageService.sr_qualityScore r);
     ImageService.totalEstimatedInputTokens :=
       ImageService.totalEstimatedInputTokens st
       + ImageService.sr_estimatedInputTokens r;
     ImageService.totalEstimatedOutputTokens :=
       ImageService.totalEstimatedOutputTokens st
       + ImageService.sr_estimatedOutputTokens r;
     ImageService.resolved := ImageService.resolved st ++ [r] |}.

(** Two blank pages: every tier answers with an empty transcription. *)
Definition blankPages : list ImageFile := [page "scan-1.png"; page "scan-2.png"].

Definition blankLoop
  : list (Effect ImageService.ImageCacheEntry)
    * Result ImageService.SequenceState :=
  ImageService.spansFrom (steadyWorld []) blankPages (Js.lit "") None
    (ImageService.resolveImageCandidateProfiles None) (length blankPages)
    (ImageService.initialState (ImageService.resolveImageCandidateProfiles None)).

Definition blankState : ImageService.SequenceState :=
  match snd blankLoop with
  | Ok st => st
  | Throw _ => ImageService.initialState []
  end.

(** *** The fallback hash in other words *)



(** Reading a string of lowercase hexadecimal digits. *)
Definition hexValue (c : Js.char) : Z :=
  if (c <? 58)%N then (Z.of_N c - 48)%Z else (Z.of_N c - 87)%Z.

Definition parseHex (s : Js.str) : Z :=
  fold_left (fun acc c => (acc * 16 + hexValue c)%Z) s 0%Z.

Definition isLowerHex (c : Js.char) : bool :=
  Js.between 48 57 c || Js.between 97 102 c.

(** Reading two hexadecimal digits at a time. *)
Fixpoint parseHexBytes (s : Js.str) : list N :=
  match s with
  | hi :: lo :: rest =>
      Z.to_N (hexValue hi * 16 + hexValue lo) :: parseHexBytes rest
  | _ => []
  end.

(** The value of [hash] in [fastHash] after the first [k] characters. *)
Definition hashAfter (k : nat) (input : Js.str) : Z :=
  Hash.fastHashFrom 5381 (firstn k input).

(** *** What the cache keys read of a payload *)

(** The positions of a payload of [len] characters that
    [buildPdfCacheKey] reads: the first 512, the 512 from [middle] on and
    the last 512. *)
Definition sampledByPdfKey (len i : nat) : bool :=
  let middle := len / 2 - 256 in
  (i <? 512) || ((middle <=? i) && (i <? middle + 512)) || (len - 512 <=? i).

(** [img.base64 ?? '']. *)
Definition base64Of (img : ImageFile) : Js.str :=
  match base64 img with Some b => b | None => [] end.

(** Two images that [buildImageCacheKey] cannot tell apart: the same file
    metadata, data of the same length, and the same first and last 64
    characters of it. *)
Definition sameFace (x y : ImageFile) : Prop :=
  file_name x = file_name y
  /\ file_type x = file_type y
  /\ file_size x = file_size y
  /\ file_lastModified x = file_lastModified y
  /\ length (base64Of x) = length (base64Of y)
  /\ forall i, i < 64 \/ length (base64Of x) - 64 <= i ->
               nth_error (base64Of x) i = nth_error (base64Of y) i.

(** Two payloads of 2000 characters that differ at position 600 only. *)
Definition payloadA : Js.str := repeat 65%N 600 ++ [65%N] ++ repeat 65%N 1399.
Definition payloadB : Js.str := repeat 65%N 600 ++ [66%N] ++ repeat 65%N 1399.

(** Two scans of the same name and size that differ in the middle of their
    data. *)
Definition scanA : ImageFile :=
  {| file_name := Js.lit "scan-1.png"; file_type := Js.lit "image/png";
     file_size := 150; file_lastModified := 1;
     base64 := Some (repeat 65%N 100 ++ [65%N] ++ repeat 65%N 99) |}.
Definition scanB : ImageFile :=
  {| file_name := Js.lit "scan-1.png"; file_type := Js.lit "image/png";
     file_size := 150; file_lastModified := 1;
     base64 := Some (repeat 65%N 100 ++ [66%N] ++ repeat 65%N 99) |}.

(** *** Requests of a run *)

Definition isCall {Entry} (e : Effect Entry) : bool :=
  match e with Call _ => true | _ => false end.

Definition isCallStream {Entry} (e : Effect Entry) : bool :=
  match e with CallStream _ => true | _ => false end.

(** The requests sent to the streaming endpoint: the transcriptions. *)
Definition streamCalls {Entry} (log : list (Effect Entry)) : list Request :=
  flat_map (fun e => match e with CallStream r => [r] | _ => [] end) log.

(** The profiles of the events of one type, in order. *)
Definition profilesOf {Entry} (type : AnalysisEventType)
  (log : list (Effect Entry)) : list OptimizationProfile :=
  map ev_profile (eventsOf type log).

(** *** The pages of a sequence *)

(** The trimmed texts of the resolved spans that are not empty. *)
Definition pagesOf (spans : list ImageService.SpanResolution) : list Js.str :=
  filter Js.truthy (map (fun r => Js.trim (ImageService.sr_text r)) spans).

(** The place of a profile in [OCR_PROFILE_ORDER]. *)
Definition rank (p : OptimizationProfile) : Z :=
  ImageService.indexOfProfile OCR_PROFILE_ORDER p.

(** Every tier answers with a page heading padded with line feeds. *)
Definition paddedWorld : Platform :=
  steadyWorld ([Js.LF] ++ Js.lit "## page" ++ [Js.LF; Js.LF]).

Definition paddedLoop
  : list (Effect ImageService.ImageCacheEntry)
    * Result ImageService.SequenceState :=
  ImageService.spansFrom paddedWorld blankPages (Js.lit "") None
    (ImageService.resolveImageCandidateProfiles None) (length blankPages)
    (ImageService.initialState (ImageService.resolveImageCandidateProfiles None)).

Definition paddedState : ImageService.SequenceState :=
  match snd paddedLoop with
  | Ok st => st
  | Throw _ => ImageService.initialState []
  end.

(** *** What a request carries *)

(** A transcription request for one document: one inline part and the
    prompt. *)
Definition oneDocument (r : Request) : Prop :=
  exists mime data text, req_parts r = [InlineData mime data; TextPart text].

(** A request that carries text only. *)
Definition textOnly (r : Request) : Prop :=
  exists text, req_parts r = [TextPart text].

(** The requests among the effects carry what they should. *)
Definition wellFormed {Entry} (e : Effect Entry) : Prop :=
  match e with
  | CallStream r => oneDocument r
  | Call r => textOnly r
  | _ => True
  end.

(** *** A storage for the examples *)

(** An entry written long ago under the key of the small PDF of the
    examples. *)
Definition oldEntry : GeminiService.PdfCacheEntry :=
  {| GeminiService.createdAt := 1%Z; GeminiService.text := Js.lit "old";
     GeminiService.profile := economy; GeminiService.quality := 0.9%Q |}.

Definition staleStorage : Store.Storage GeminiService.PdfCacheEntry :=
  fun k =>
    if Js.eqb k
         (GeminiService.buildPdfCacheKey (highTierWorld longPage)
            (Js.lit "JVBERi0=") (Js.lit ""))
    then Some (Store.Entry oldEntry)
    else None.

(** * Properties *)

Unset Implicit Arguments.

(** ** Scores and comparisons *)

Lemma Qltb_iff (a b : Q) : Qltb a b = true <-> (a < b)%Q.
Proof.
  unfold Qltb. rewrite negb_true_iff. split; intro H.
  - apply Qnot_le_lt. intro Hle. apply Qle_bool_iff in Hle. congruence.
  - destruct (Qle_bool b a) eqn:E; [| reflexivity].
    apply Qle_bool_iff in E. exfalso. apply (Qlt_not_le _ _ H E).
Qed.

Lemma Qgtb_iff (a b : Q) : Qgtb a b = true <-> (b < a)%Q.
Proof.
  unfold Qgtb. rewrite negb_true_iff. split; intro H.
  - apply Qnot_le_lt. intro Hle. apply Qle_bool_iff in Hle. congruence.
  - destruct (Qle_bool a b) eqn:E; [| reflexivity].
    apply Qle_bool_iff in E. exfalso. apply (Qlt_not_le _ _ H E).
Qed.

Lemma Qltb_false_iff (a b : Q) : Qltb a b = false <-> (b <= a)%Q.
Proof.
  unfold Qltb. rewrite negb_false_iff. apply Qle_bool_iff.
Qed.

Lemma clamp_range (x : Q) : (0 <= Qmax 0 (Qmin 1 x) <= 1)%Q.
Proof.
  split.
  - apply Q.le_max_l.
  - apply Q.max_lub; [lra | apply Q.le_min_l].
Qed.






Lemma clamp01_range (x : JsonNumber) : (0 <= clamp01 x <= 1)%Q.
Proof.
  destruct x; simpl; [apply clamp_range | lra | lra].
Qed.

(** ** Trimming and carriage returns *)

Lemma dropWhile_length (p : Js.char -> bool) (s : Js.str) :
  length (Js.dropWhile p s) <= length s.
Proof.
  induction s as [| c r IH]; simpl; [lia |].
  destruct (p c); simpl; lia.
Qed.

Lemma trim_length (s : Js.str) : length (Js.trim s) <= length s.
Proof.
  unfold Js.trim, Js.trimEnd, Js.trimStart.
  rewrite length_rev.
  eapply Nat.le_trans; [apply dropWhile_length |].
  rewrite length_rev. apply dropWhile_length.
Qed.

Lemma isWhiteSpace_CR : Js.isWhiteSpace Js.CR = true.
Proof. reflexivity. Qed.






(** ** The quality heuristic *)







Lemma pdf_score_range (text : Js.str) :
  (0 <= score (GeminiService.evaluateQuality text) <= 1)%Q.
Proof. unfold GeminiService.evaluateQuality. cbv zeta. cbn [score]. apply clamp_range. Qed.

Lemma image_score_range (text : Js.str) :
  (0 <= score (ImageService.evaluateQuality text) <= 1)%Q.
Proof. unfold ImageService.evaluateQuality. cbv zeta. cbn [score]. apply clamp_range. Qed.








(** ** Candidate profiles of the PDF mode *)

Lemma toMB_whole_megabytes (pdfBase64 : Js.str) :
  (GeminiService.toMB pdfBase64 * 4194304 <= 3 * Z.of_nat (length pdfBase64)
   < (GeminiService.toMB pdfBase64 + 1) * 4194304)%Z.
Proof.
  unfold GeminiService.toMB.
  change (4 * (1024 * 1024))%Z with 4194304%Z.
  pose proof (Z.div_mod (3 * Z.of_nat (length pdfBase64)) 4194304) as Hdm.
  pose proof (Z.mod_pos_bound (3 * Z.of_nat (length pdfBase64)) 4194304) as Hm.
  lia.
Qed.

(** C5. The candidate list of a PDF run is fixed by the size of the
    document in whole megabytes (three quarters of the length of the
    encoded payload, divided by 2^20 and rounded down) and by the override:
    at least 12 starts at economy, at most 4 at balanced, everything in
    between at economy; without an override the list runs from the initial
    profile through accuracy in the fixed order; a pinned tier keeps the
    profiles of that tier, which is [accuracy] alone for the high tier and
    [economy; balanced] or [balanced] for the low tier. *)
Theorem C5_pdf_candidate_profiles
  (pdfBase64 : Js.str) (override : option ModelType) :
  let mb := GeminiService.toMB pdfBase64 in
  let initial := GeminiService.decideInitialPdfProfile pdfBase64 in
  (mb * 4194304 <= 3 * Z.of_nat (length pdfBase64) < (mb + 1) * 4194304)%Z
  /\ initial = initialBySize mb
  /\ GeminiService.resolvePdfCandidateProfiles pdfBase64 override
     = candidatesByRule mb override
  /\ GeminiService.resolvePdfCandidateProfiles pdfBase64 None
     = walkFrom initial OCR_PROFILE_ORDER
  /\ GeminiService.resolvePdfCandidateProfiles pdfBase64 (Some PRO)
     = [accuracy]
  /\ GeminiService.resolvePdfCandidateProfiles pdfBase64 (Some FLASH)
     = match initial with
       | balanced => [balanced]
       | _ => [economy; balanced]
       end.
Proof.
  cbv zeta.
  split; [apply toMB_whole_megabytes |].
  assert (Hinit : GeminiService.decideInitialPdfProfile pdfBase64
                  = initialBySize (GeminiService.toMB pdfBase64)).
  { unfold GeminiService.decideInitialPdfProfile, initialBySize,
      PDF_ECONOMY_MIN_MB, PDF_BALANCED_MAX_MB.
    rewrite Z.geb_leb. reflexivity. }
  split; [exact Hinit |].
  unfold GeminiService.resolvePdfCandidateProfiles, candidatesByRule.
  rewrite Hinit.
  unfold initialBySize.
  destruct (12 <=? GeminiService.toMB pdfBase64)%Z;
    [| destruct (GeminiService.toMB pdfBase64 <=? 4)%Z];
    (repeat split; try reflexivity; destruct override as [[|] |]; reflexivity).
Qed.

(** ** The verifier's answer *)

Section VerifierAnswer.

Variable parse : Js.str -> Result JsonValue.

Lemma tryParse_total (candidate : Js.str) :
  exists r, tryParse parse candidate = Ok r /\ opinionInUnit r.
Proof.
  unfold tryParse, tryParseBody.
  destruct (parse candidate) as [parsed | e]; [| exists None; split; [reflexivity | exact I]].
  destruct (getScore parsed) as [[[| | n | | |] |] | e];
    try (exists None; split; [reflexivity | exact I]).
  exists (Some (clamp01 n)). split; [reflexivity | apply clamp01_range].
Qed.

Lemma parseVerifierScore_total (raw : Js.str) :
  exists r, parseVerifierScore parse raw = Ok r /\ opinionInUnit r.
Proof.
  unfold parseVerifierScore.
  set (fenced := stripCloseFence _).
  destruct (tryParse_total fenced) as [r [Hr Hin]]. rewrite Hr.
  destruct r as [direct |].
  - exists (Some direct). split; [reflexivity | exact Hin].
  - destruct (matchBraces fenced) as [m |].
    + apply tryParse_total.
    + exists None. split; [reflexivity | exact I].
Qed.

End VerifierAnswer.

Lemma pdf_runQualityVerifier_range (W : Platform) (text : Js.str)
  (profile : OptimizationProfile) (modelOverride : option ModelType) :
  opinionInUnit
    (snd (GeminiService.runQualityVerifier W text profile modelOverride)).
Proof.
  unfold GeminiService.runQualityVerifier.
  destruct (length (Js.trim text) <? 60); simpl; [lra |].
  destruct (generateContent W _) as [response | e]; [| exact I].
  destruct (parseVerifierScore_total (JSON_parse W)
              match response with Some t => t | None => [] end)
    as [r [Hr Hin]].
  rewrite Hr. exact Hin.
Qed.

Lemma image_runQualityVerifier_range (W : Platform) (text : Js.str)
  (profile : OptimizationProfile) (modelOverride : option ModelType) :
  opinionInUnit
    (snd (ImageService.runQualityVerifier W text profile modelOverride)).
Proof.
  unfold ImageService.runQualityVerifier.
  destruct (length (Js.trim text) <? 60); simpl; [lra |].
  destruct (generateContent W _) as [response | e]; [| exact I].
  destruct (parseVerifierScore_total (JSON_parse W)
              match response with Some t => t | None => [] end)
    as [r [Hr Hin]].
  rewrite Hr. exact Hin.
Qed.

(** ** The [for] loop *)

Section ForLoopFacts.

Variables (E A : Type).
Variable bound : nat.
Variable body : nat -> list E * Completion A.

Lemma forLoopFrom_step (fuel index : nat) :
  index < bound ->
  forLoopFrom bound body (S fuel) index
  = match snd (body index) with
    | Continue =>
        (fst (body index) ++ fst (forLoopFrom bound body fuel (index + 1)),
         snd (forLoopFrom bound body fuel (index + 1)))
    | c => (fst (body index), c)
    end.
Proof.
  intro Hlt. simpl. apply Nat.ltb_lt in Hlt. rewrite Hlt.
  destruct (body index) as [effects [| a | e]]; simpl; try reflexivity.
  destruct (forLoopFrom bound body fuel (index + 1)); reflexivity.
Qed.

Lemma forLoopFrom_past (fuel index : nat) :
  bound <= index -> forLoopFrom bound body fuel index = ([], Continue).
Proof.
  intro Hle. destruct fuel; [reflexivity |]. simpl.
  apply Nat.ltb_ge in Hle. rewrite Hle. reflexivity.
Qed.

(** What the loop does is what the iterations it reaches do. *)
Lemma forLoopFrom_In (fuel index : nat) (x : E) :
  In x (fst (forLoopFrom bound body fuel index))
  <-> exists k, index <= k /\ k < index + fuel /\ k < bound
                /\ reachedFrom body index k /\ In x (fst (body k)).
Proof.
  revert index. induction fuel as [| fuel IH]; intro index.
  - simpl. split; [contradiction |]. intros [k [? [? _]]]. lia.
  - destruct (Nat.lt_ge_cases index bound) as [Hlt | Hge].
    + rewrite (forLoopFrom_step fuel index Hlt).
      destruct (snd (body index)) eqn:Hc; simpl.
      * rewrite in_app_iff, IH. split.
        -- intros [Hin | [k [H1 [H2 [H3 [H4 H5]]]]]].
           ++ exists index. repeat split; try lia; try assumption.
              intros j Hj. lia.
           ++ exists k. repeat split; try lia; try assumption.
              intros j Hj. destruct (Nat.eq_dec j index) as [-> | Hne];
                [assumption | apply H4; lia].
        -- intros [k [H1 [H2 [H3 [H4 H5]]]]].
           destruct (Nat.eq_dec k index) as [-> | Hne]; [left; assumption |].
           right. exists k. repeat split; try lia; try assumption.
           intros j Hj. apply H4. lia.
      * split.
        -- intro Hin. exists index. repeat split; try lia; try assumption.
           intros j Hj. lia.
        -- intros [k [H1 [H2 [H3 [H4 H5]]]]].
           destruct (Nat.eq_dec k index) as [-> | Hne]; [assumption |].
           assert (Hcont : snd (body index) = Continue) by (apply H4; lia).
           congruence.
      * split.
        -- intro Hin. exists index. repeat split; try lia; try assumption.
           intros j Hj. lia.
        -- intros [k [H1 [H2 [H3 [H4 H5]]]]].
           destruct (Nat.eq_dec k index) as [-> | Hne]; [assumption |].
           assert (Hcont : snd (body index) = Continue) by (apply H4; lia).
           congruence.
    + rewrite (forLoopFrom_past _ _ Hge). simpl. split; [contradiction |].
      intros [k [? [? [? _]]]]. lia.
Qed.

(** How the loop is left: past its last iteration when all of them fell
    through, else the way the first other iteration completed. *)
Lemma forLoopFrom_completion (fuel index : nat) :
  match snd (forLoopFrom bound body fuel index) with
  | Continue =>
      forall j, index <= j -> j < index + fuel -> j < bound ->
                snd (body j) = Continue
  | c =>
      exists k, index <= k /\ k < index + fuel /\ k < bound
                /\ reachedFrom body index k /\ snd (body k) = c
  end.
Proof.
  revert index. induction fuel as [| fuel IH]; intro index.
  - simpl. intros. lia.
  - destruct (Nat.lt_ge_cases index bound) as [Hlt | Hge].
    + rewrite (forLoopFrom_step fuel index Hlt).
      destruct (snd (body index)) eqn:Hc; simpl.
      * specialize (IH (index + 1)).
        destruct (snd (forLoopFrom bound body fuel (index + 1))).
        -- intros j H1 H2 H3.
           destruct (Nat.eq_dec j index) as [-> | Hne];
             [assumption | apply IH; lia].
        -- destruct IH as [k [H1 [H2 [H3 [H4 H5]]]]].
           exists k. repeat split; try lia; try assumption.
           intros j Hj. destruct (Nat.eq_dec j index) as [-> | Hne];
             [assumption | apply H4; lia].
        -- destruct IH as [k [H1 [H2 [H3 [H4 H5]]]]].
           exists k. repeat split; try lia; try assumption.
           intros j Hj. destruct (Nat.eq_dec j index) as [-> | Hne];
             [assumption | apply H4; lia].
      * exists index. repeat split; try lia; try assumption.
        intros j Hj. lia.
      * exists index. repeat split; try lia; try assumption.
        intros j Hj. lia.
    + rewrite (forLoopFrom_past _ _ Hge). simpl. intros. lia.
Qed.

(** From a reached iteration on, the loop is the loop started there. *)
Lemma forLoopFrom_reached (fuel index k : nat) :
  index <= k -> k <= index + fuel -> reachedFrom body index k -> k <= bound ->
  fst (forLoopFrom bound body fuel index)
  = flat_map (fun j => fst (body j)) (seq index (k - index))
    ++ fst (forLoopFrom bound body (fuel - (k - index)) k)
  /\ snd (forLoopFrom bound body fuel index)
     = snd (forLoopFrom bound body (fuel - (k - index)) k).
Proof.
  revert index. induction fuel as [| fuel IH]; intros index H1 H2 H3 H4.
  - assert (k = index) by lia. subst k. rewrite Nat.sub_diag. simpl.
    split; reflexivity.
  - destruct (Nat.eq_dec k index) as [-> | Hne].
    + rewrite Nat.sub_diag, Nat.sub_0_r. simpl flat_map. split; reflexivity.
    + assert (Hlt : index < bound) by lia.
      rewrite (forLoopFrom_step fuel index Hlt).
      assert (Hc : snd (body index) = Continue) by (apply H3; lia).
      rewrite Hc. simpl fst. simpl snd.
      destruct (IH (index + 1)) as [IHf IHs]; try lia.
      { intros j Hj. apply H3. lia. }
      replace (k - index) with (S (k - (index + 1))) by lia.
      replace (S fuel - S (k - (index + 1))) with (fuel - (k - (index + 1)))
        by lia.
      simpl seq. simpl flat_map. rewrite <- app_assoc.
      replace (S index) with (index + 1) by lia.
      rewrite IHf, IHs. split; reflexivity.
Qed.

(** Counting: when an iteration holds one effect of a kind exactly when it
    returns, so does the loop. *)
Lemma forLoopFrom_count (P : E -> bool) (fuel index : nat) :
  (forall k, k < bound ->
             length (filter P (fst (body k)))
             = match snd (body k) with Return _ => 1 | _ => 0 end) ->
  length (filter P (fst (forLoopFrom bound body fuel index)))
  = match snd (forLoopFrom bound body fuel index) with
    | Return _ => 1
    | _ => 0
    end.
Proof.
  intro Hbody. revert index. induction fuel as [| fuel IH]; intro index.
  - reflexivity.
  - destruct (Nat.lt_ge_cases index bound) as [Hlt | Hge].
    + rewrite (forLoopFrom_step fuel index Hlt). specialize (Hbody index Hlt).
      destruct (snd (body index)) eqn:Hc; simpl; try assumption.
      rewrite filter_app, length_app, Hbody, IH. reflexivity.
    + rewrite (forLoopFrom_past _ _ Hge). reflexivity.
Qed.

(** Counting an effect no iteration holds. *)
Lemma forLoopFrom_none (P : E -> bool) (fuel index : nat) :
  (forall k, k < bound -> filter P (fst (body k)) = []) ->
  filter P (fst (forLoopFrom bound body fuel index)) = [].
Proof.
  intro Hbody. revert index. induction fuel as [| fuel IH]; intro index.
  - reflexivity.
  - destruct (Nat.lt_ge_cases index bound) as [Hlt | Hge].
    + rewrite (forLoopFrom_step fuel index Hlt). specialize (Hbody index Hlt).
      destruct (snd (body index)) eqn:Hc; simpl; try assumption.
      rewrite filter_app, Hbody, IH. reflexivity.
    + rewrite (forLoopFrom_past _ _ Hge). reflexivity.
Qed.

End ForLoopFacts.

(** ** One attempt of the PDF mode *)

Section PdfAttemptFacts.

Variable W : Platform.
Variables (pdfBase64 prompt cacheKey : Js.str).
Variable modelId : option ModelType.
Variable candidateProfiles : list OptimizationProfile.

Local Notation scoring text profile isLast :=
  (snd (GeminiService.scoreAttempt W text profile isLast modelId)).
Local Notation attemptOf index profile :=
  (GeminiService.attempt W pdfBase64 prompt cacheKey modelId
     candidateProfiles index profile).

Lemma pdf_scoring_assessment text profile isLast :
  GeminiService.assessment (scoring text profile isLast)
  = GeminiService.evaluateQuality text.
Proof.
  unfold GeminiService.scoreAttempt.
  destruct (Qltb _ _); [destruct (GeminiService.runQualityVerifier _ _ _ _) |];
    reflexivity.
Qed.

Lemma pdf_scoring_required text profile isLast :
  GeminiService.requiredScore (scoring text profile isLast)
  = GeminiService.requiredPdfScore profile.
Proof.
  unfold GeminiService.scoreAttempt.
  destruct (Qltb _ _); [destruct (GeminiService.runQualityVerifier _ _ _ _) |];
    reflexivity.
Qed.


Lemma pdf_scoring_verifier text profile isLast :
  GeminiService.verifierScore (scoring text profile isLast)
  = if Qltb (score (GeminiService.evaluateQuality text))
            (GeminiService.requiredPdfScore profile + 0.12)%Q
    then snd (GeminiService.runQualityVerifier W text profile modelId)
    else None.
Proof.
  unfold GeminiService.scoreAttempt.
  destruct (Qltb _ _); [destruct (GeminiService.runQualityVerifier _ _ _ _) |];
    reflexivity.
Qed.

Lemma pdf_scoring_calls text profile isLast :
  fst (GeminiService.scoreAttempt W text profile isLast modelId)
  = if Qltb (score (GeminiService.evaluateQuality text))
            (GeminiService.requiredPdfScore profile + 0.12)%Q
    then fst (GeminiService.runQualityVerifier W text profile modelId)
    else [].
Proof.
  unfold GeminiService.scoreAttempt.
  destruct (Qltb _ _); [destruct (GeminiService.runQualityVerifier _ _ _ _) |];
    reflexivity.
Qed.

Lemma pdf_scoring_quality text profile isLast :
  GeminiService.qualityScore (scoring text profile isLast)
  = match GeminiService.verifierScore (scoring text profile isLast) with
    | None => score (GeminiService.evaluateQuality text)
    | Some v => (score (GeminiService.evaluateQuality text) * 0.78 + v * 0.22)%Q
    end.
Proof.
  unfold GeminiService.scoreAttempt.
  destruct (Qltb _ _); [destruct (GeminiService.runQualityVerifier _ _ _ _) |];
    reflexivity.
Qed.

Lemma pdf_scoring_accepted text profile isLast :
  GeminiService.accepted (scoring text profile isLast)
  = Qle_bool (GeminiService.requiredPdfScore profile)
      (GeminiService.qualityScore (scoring text profile isLast))
    || isLast.
Proof.
  unfold GeminiService.scoreAttempt.
  destruct (Qltb _ _); [destruct (GeminiService.runQualityVerifier _ _ _ _) |];
    reflexivity.
Qed.

(** The decision does not feed back into the scores. *)
Lemma pdf_scoring_last_irrelevant text profile isLast isLast' :
  GeminiService.verifierScore (scoring text profile isLast)
  = GeminiService.verifierScore (scoring text profile isLast')
  /\ GeminiService.qualityScore (scoring text profile isLast)
     = GeminiService.qualityScore (scoring text profile isLast').
Proof.
  rewrite !pdf_scoring_quality, !pdf_scoring_verifier. split; reflexivity.
Qed.

Lemma pdf_verifier_calls_only text profile :
  forall x, In x (fst (GeminiService.runQualityVerifier W text profile modelId)) ->
            x = Call (GeminiService.verifierRequest text profile modelId).
Proof.
  unfold GeminiService.runQualityVerifier. intros x.
  destruct (length (Js.trim text) <? 60); simpl; [contradiction |].
  intros [H | []]. symmetry. exact H.
Qed.

Lemma pdf_scoring_calls_only text profile isLast :
  forall x, In x (fst (GeminiService.scoreAttempt W text profile isLast modelId)) ->
            x = Call (GeminiService.verifierRequest text profile modelId).
Proof.
  intro x. rewrite pdf_scoring_calls. destruct (Qltb _ _); [| contradiction].
  apply pdf_verifier_calls_only.
Qed.

(** The two shapes of an attempt whose stream came through. *)
Lemma pdf_attempt_scored index profile chunks :
  generateContentStream W
    (GeminiService.attemptRequest pdfBase64 prompt profile modelId)
  = Ok chunks ->
  let text := collectStream chunks in
  let isLast := index =? length candidateProfiles - 1 in
  let sc := GeminiService.scoreAttempt W text profile isLast modelId in
  let tokensIn :=
    estimateInlineDataTokens pdfBase64
    + estimateTextTokens (GeminiService.buildPdfPrompt prompt profile) in
  let start :=
    Emit {| ev_type := profile_start; ev_profile := profile;
            ev_message := MsgPdfRunning profile;
            ev_qualityScore := None; ev_reasons := None;
            ev_estimatedInputTokens := Some tokensIn;
            ev_estimatedOutputTokens := None;
            ev_verificationScore := None |} in
  let report type message :=
    Emit {| ev_type := type; ev_profile := profile; ev_message := message;
            ev_qualityScore := Some (GeminiService.qualityScore (snd sc));
            ev_reasons := Some (reasons (GeminiService.assessment (snd sc)));
            ev_estimatedInputTokens := Some tokensIn;
            ev_estimatedOutputTokens := Some (estimateTextTokens text);
            ev_verificationScore := GeminiService.verifierScore (snd sc) |} in
  attemptOf index profile
  = if GeminiService.accepted (snd sc) then
      (start
       :: CallStream (GeminiService.attemptRequest pdfBase64 prompt profile modelId)
       :: fst sc
       ++ WriteCache cacheKey
            {| GeminiService.createdAt := now W;
               GeminiService.text := text;
               GeminiService.profile := profile;
               GeminiService.quality := GeminiService.qualityScore (snd sc) |}
       :: report profile_accepted (MsgPdfAccepted profile)
       :: map Yield (createTextStream text)
       ++ [report completed (MsgPdfCompleted profile)],
       Return tt)
    else
      (start
       :: CallStream (GeminiService.attemptRequest pdfBase64 prompt profile modelId)
       :: fst sc
       ++ [report profile_escalated
             (MsgPdfLowQuality (GeminiService.qualityScore (snd sc)))],
       Continue).
Proof.
  intro Hgen. cbv zeta. unfold GeminiService.attempt. rewrite Hgen.
  destruct (GeminiService.scoreAttempt W (collectStream chunks) profile
              (index =? length candidateProfiles - 1) modelId) as [calls s].
  simpl fst. simpl snd. destruct (GeminiService.accepted s); reflexivity.
Qed.

(** The two shapes of an attempt whose stream failed. *)
Lemma pdf_attempt_failed index profile error :
  generateContentStream W
    (GeminiService.attemptRequest pdfBase64 prompt profile modelId)
  = Throw error ->
  let tokensIn :=
    estimateInlineDataTokens pdfBase64
    + estimateTextTokens (GeminiService.buildPdfPrompt prompt profile) in
  let start :=
    Emit {| ev_type := profile_start; ev_profile := profile;
            ev_message := MsgPdfRunning profile;
            ev_qualityScore := None; ev_reasons := None;
            ev_estimatedInputTokens := Some tokensIn;
            ev_estimatedOutputTokens := None;
            ev_verificationScore := None |} in
  attemptOf index profile
  = if index =? length candidateProfiles - 1 then
      ([start;
        CallStream (GeminiService.attemptRequest pdfBase64 prompt profile modelId)],
       Raise (GeminiService.normalizeError error))
    else
      ([start;
        CallStream (GeminiService.attemptRequest pdfBase64 prompt profile modelId);
        Emit (bareEvent profile_escalated profile (MsgPdfFailedToStart profile))],
       Continue).
Proof.
  intro Hgen. cbv zeta. unfold GeminiService.attempt. rewrite Hgen.
  destruct (index =? length candidateProfiles - 1); reflexivity.
Qed.

(** Every event of an attempt carries the profile of the attempt. *)
Lemma pdf_attempt_event_profile index profile ev :
  In (Emit ev) (fst (attemptOf index profile)) -> ev_profile ev = profile.
Proof.
  destruct (generateContentStream W
              (GeminiService.attemptRequest pdfBase64 prompt profile modelId))
    as [chunks | error] eqn:Hgen.
  - rewrite (pdf_attempt_scored index profile chunks Hgen).
    destruct (GeminiService.accepted _); simpl;
      intros [H | [H | H]]; try discriminate;
      try (injection H as <-; reflexivity);
      apply in_app_or in H; destruct H as [H | H];
      try (apply pdf_scoring_calls_only in H; discriminate).
    + destruct H as [H | [H | H]]; try discriminate;
        try (injection H as <-; reflexivity).
      apply in_app_or in H. destruct H as [H | [H | []]].
      * apply in_map_iff in H. destruct H as [? [? _]]. discriminate.
      * injection H as <-. reflexivity.
    + destruct H as [H | []]. injection H as <-. reflexivity.
  - rewrite (pdf_attempt_failed index profile error Hgen).
    destruct (index =? length candidateProfiles - 1); simpl;
      intros [H | [H | H]]; try discriminate;
      try (injection H as <-; reflexivity); try contradiction.
    destruct H as [H | []]. injection H as <-. reflexivity.
Qed.

(** Every attempt starts by announcing its profile. *)
Lemma pdf_attempt_starts index profile :
  emitted profile_start profile (fst (attemptOf index profile)).
Proof.
  destruct (generateContentStream W
              (GeminiService.attemptRequest pdfBase64 prompt profile modelId))
    as [chunks | error] eqn:Hgen.
  - rewrite (pdf_attempt_scored index profile chunks Hgen).
    destruct (GeminiService.accepted _); simpl;
      (eexists; split; [left; reflexivity | split; reflexivity]).
  - rewrite (pdf_attempt_failed index profile error Hgen).
    destruct (index =? length candidateProfiles - 1); simpl;
      (eexists; split; [left; reflexivity | split; reflexivity]).
Qed.


End PdfAttemptFacts.

(** ** A run of the PDF mode *)

Lemma NoDup_nth_error_eq {A} (l : list A) (i j : nat) (x : A) :
  NoDup l -> nth_error l i = Some x -> nth_error l j = Some x -> i = j.
Proof.
  intros Hnd Hi Hj. apply (proj1 (NoDup_nth_error l) Hnd).
  - apply nth_error_Some. congruence.
  - congruence.
Qed.

Lemma pdf_candidates_NoDup (pdfBase64 : Js.str) (modelId : option ModelType) :
  NoDup (GeminiService.resolvePdfCandidateProfiles pdfBase64 modelId).
Proof.
  unfold GeminiService.resolvePdfCandidateProfiles.
  destruct modelId as [[|] |];
    try destruct (OptimizationProfile_eqb _ _);
    repeat constructor; simpl; intuition discriminate.
Qed.

Section PdfRunFacts.

Variable W : Platform.
Variables (pdfBase64 prompt cacheKey : Js.str).
Variable modelId : option ModelType.
Variable candidateProfiles : list OptimizationProfile.

Local Notation attemptOf index profile :=
  (GeminiService.attempt W pdfBase64 prompt cacheKey modelId
     candidateProfiles index profile).
Local Notation bodyAt :=
  (GeminiService.attemptAt W pdfBase64 prompt cacheKey modelId
     candidateProfiles).
Local Notation run :=
  (GeminiService.attempts W pdfBase64 prompt cacheKey modelId
     candidateProfiles).

Lemma pdf_attempts_log :
  fst run = fst (forLoop (length candidateProfiles) bodyAt).
Proof.
  unfold GeminiService.attempts.
  destruct (forLoop _ _) as [effects [| a | e]]; reflexivity.
Qed.

Lemma pdf_attempts_outcome :
  snd run
  = match snd (forLoop (length candidateProfiles) bodyAt) with
    | Raise error => Throw error
    | _ => Ok tt
    end.
Proof.
  unfold GeminiService.attempts.
  destruct (forLoop _ _) as [effects [| a | e]]; reflexivity.
Qed.

Lemma pdf_attemptAt_in_range index profile :
  nth_error candidateProfiles index = Some profile ->
  bodyAt index = attemptOf index profile.
Proof. intro H. unfold GeminiService.attemptAt. rewrite H. reflexivity. Qed.

(** An effect of the run is an effect of an attempt the loop reached. *)
Lemma pdf_run_In (x : Effect GeminiService.PdfCacheEntry) :
  In x (fst run)
  <-> exists k q, nth_error candidateProfiles k = Some q
                  /\ reachedFrom bodyAt 0 k
                  /\ In x (fst (attemptOf k q)).
Proof.
  rewrite pdf_attempts_log. unfold forLoop. rewrite forLoopFrom_In. split.
  - intros [k [_ [_ [Hk [Hreach Hin]]]]].
    destruct (nth_error candidateProfiles k) as [q |] eqn:Hq.
    + exists k, q. rewrite (pdf_attemptAt_in_range _ _ Hq) in Hin. auto.
    + apply nth_error_None in Hq. lia.
  - intros [k [q [Hq [Hreach Hin]]]].
    assert (Hk : k < length candidateProfiles)
      by (apply nth_error_Some; congruence).
    exists k. rewrite (pdf_attemptAt_in_range _ _ Hq).
    repeat split; try lia; assumption.
Qed.

Hypothesis candidates_distinct : NoDup candidateProfiles.

(** An event that names a profile stems from the attempt at that profile,
    and that attempt was reached. *)
Lemma pdf_run_event_origin index profile ev :
  nth_error candidateProfiles index = Some profile ->
  In (Emit ev) (fst run) -> ev_profile ev = profile ->
  reachedFrom bodyAt 0 index /\ In (Emit ev) (fst (attemptOf index profile)).
Proof.
  intros Hidx Hin Hprof. apply pdf_run_In in Hin.
  destruct Hin as [k [q [Hq [Hreach Hin]]]].
  pose proof (pdf_attempt_event_profile _ _ _ _ _ _ _ _ _ Hin) as Hq'.
  assert (Hqp : q = profile) by congruence. rewrite Hqp in Hq, Hin.
  assert (k = index) by (eapply NoDup_nth_error_eq; eassumption). subst k.
  split; assumption.
Qed.


End PdfRunFacts.

Lemma pdf_live_run (W : Platform) (pdfBase64 prompt : Js.str)
  (modelId : option ModelType) :
  GeminiService.analyzePdfStream W pdfBase64 prompt modelId None
  = GeminiService.attempts W pdfBase64 prompt
      (GeminiService.buildPdfCacheKey W pdfBase64 prompt) modelId
      (GeminiService.resolvePdfCandidateProfiles pdfBase64 modelId).
Proof. reflexivity. Qed.



Lemma emittedb_sound {Entry} (type : AnalysisEventType)
  (p : OptimizationProfile) (log : list (Effect Entry)) :
  emittedb type p log = true -> emitted type p log.
Proof.
  unfold emittedb, emitted. rewrite existsb_exists.
  intros [[ev | | | |] [Hin H]]; try discriminate.
  apply andb_true_iff in H. destruct H as [Hty Hp].
  exists ev. split; [assumption |].
  split; [destruct (ev_type ev), type | destruct (ev_profile ev), p];
    (reflexivity || discriminate).
Qed.


(** ** One attempt of the image mode: the scoring *)

Section ImageScoringFacts.

Variable W : Platform.
Variable modelId : option ModelType.

Local Notation scoring text profile isLast :=
  (snd (ImageService.scoreAttempt W text profile isLast modelId)).

Lemma image_scoring_assessment text profile isLast :
  ImageService.assessment (scoring text profile isLast)
  = ImageService.evaluateQuality text.
Proof.
  unfold ImageService.scoreAttempt.
  destruct (Qltb _ _); [destruct (ImageService.runQualityVerifier _ _ _ _) |];
    reflexivity.
Qed.

Lemma image_scoring_required text profile isLast :
  ImageService.requiredScore (scoring text profile isLast)
  = minQualityScore (OCR_PROFILE_POLICIES profile).
Proof.
  unfold ImageService.scoreAttempt.
  destruct (Qltb _ _); [destruct (ImageService.runQualityVerifier _ _ _ _) |];
    reflexivity.
Qed.


Lemma image_scoring_verifier text profile isLast :
  ImageService.verifierScore (scoring text profile isLast)
  = if Qltb (score (ImageService.evaluateQuality text))
            (minQualityScore (OCR_PROFILE_POLICIES profile) + 0.1)%Q
    then snd (ImageService.runQualityVerifier W text profile modelId)
    else None.
Proof.
  unfold ImageService.scoreAttempt.
  destruct (Qltb _ _); [destruct (ImageService.runQualityVerifier _ _ _ _) |];
    reflexivity.
Qed.

Lemma image_scoring_calls text profile isLast :
  fst (ImageService.scoreAttempt W text profile isLast modelId)
  = if Qltb (score (ImageService.evaluateQuality text))
            (minQualityScore (OCR_PROFILE_POLICIES profile) + 0.1)%Q
    then fst (ImageService.runQualityVerifier W text profile modelId)
    else [].
Proof.
  unfold ImageService.scoreAttempt.
  destruct (Qltb _ _); [destruct (ImageService.runQualityVerifier _ _ _ _) |];
    reflexivity.
Qed.

Lemma image_scoring_quality text profile isLast :
  ImageService.qualityScore (scoring text profile isLast)
  = match ImageService.verifierScore (scoring text profile isLast) with
    | None => score (ImageService.evaluateQuality text)
    | Some v => (score (ImageService.evaluateQuality text) * 0.78 + v * 0.22)%Q
    end.
Proof.
  unfold ImageService.scoreAttempt.
  destruct (Qltb _ _); [destruct (ImageService.runQualityVerifier _ _ _ _) |];
    reflexivity.
Qed.

Lemma image_scoring_accepted text profile isLast :
  ImageService.accepted (scoring text profile isLast)
  = Qle_bool (minQualityScore (OCR_PROFILE_POLICIES profile))
      (ImageService.qualityScore (scoring text profile isLast))
    || isLast.
Proof.
  unfold ImageService.scoreAttempt.
  destruct (Qltb _ _); [destruct (ImageService.runQualityVerifier _ _ _ _) |];
    reflexivity.
Qed.

Lemma image_verifier_calls_only text profile :
  forall x, In x (fst (ImageService.runQualityVerifier W text profile modelId)) ->
            x = Call (ImageService.verifierRequest text profile modelId).
Proof.
  unfold ImageService.runQualityVerifier. intros x.
  destruct (length (Js.trim text) <? 60); simpl; [contradiction |].
  intros [H | []]. symmetry. exact H.
Qed.

Lemma image_scoring_calls_only text profile isLast :
  forall x, In x (fst (ImageService.scoreAttempt W text profile isLast modelId)) ->
            x = Call (ImageService.verifierRequest text profile modelId).
Proof.
  intro x. rewrite image_scoring_calls. destruct (Qltb _ _); [| contradiction].
  apply image_verifier_calls_only.
Qed.

End ImageScoringFacts.

(** ** When the verifier runs *)

Lemma pdf_verifier_requests (W : Platform) (text : Js.str)
  (profile : OptimizationProfile) (modelId : option ModelType) :
  GeminiService.runQualityVerifier W text profile modelId
  = if length (Js.trim text) <? 60 then ([], Some 0%Q)
    else ([Call (GeminiService.verifierRequest text profile modelId)],
          snd (GeminiService.runQualityVerifier W text profile modelId)).
Proof.
  unfold GeminiService.runQualityVerifier.
  destruct (length (Js.trim text) <? 60); reflexivity.
Qed.

Lemma image_verifier_requests (W : Platform) (text : Js.str)
  (profile : OptimizationProfile) (modelId : option ModelType) :
  ImageService.runQualityVerifier W text profile modelId
  = if length (Js.trim text) <? 60 then ([], Some 0%Q)
    else ([Call (ImageService.verifierRequest text profile modelId)],
          snd (ImageService.runQualityVerifier W text profile modelId)).
Proof.
  unfold ImageService.runQualityVerifier.
  destruct (length (Js.trim text) <? 60); reflexivity.
Qed.




(** ** The carry context *)

Lemma Js_eqb_eq (a b : Js.str) : Js.eqb a b = true <-> a = b.
Proof.
  revert b. induction a as [| x a IH]; intros [| y b]; simpl;
    try (split; [discriminate | discriminate]); [tauto |].
  rewrite andb_true_iff, N.eqb_eq, IH. split.
  - intros [-> ->]. reflexivity.
  - intro H. injection H as -> ->. split; reflexivity.
Qed.

Lemma existsb_eqb_In (x : Js.str) (seen : list Js.str) :
  existsb (Js.eqb x) seen = true <-> In x seen.
Proof.
  rewrite existsb_exists. split.
  - intros [y [Hin Heq]]. apply Js_eqb_eq in Heq. subst. assumption.
  - intro Hin. exists x. split; [assumption | apply Js_eqb_eq; reflexivity].
Qed.

Lemma indexOf_bounds (xs : list Js.str) (x : Js.str) :
  (-1 <= Js.indexOf xs x < Z.of_nat (length xs))%Z.
Proof.
  induction xs as [| y r IH]; simpl; [lia |].
  destruct (Js.eqb y x); [lia |].
  destruct (Js.indexOf r x <? 0)%Z eqn:E; lia.
Qed.

Lemma indexOf_app_in (pre rest : list Js.str) (x : Js.str) :
  In x pre -> (0 <= Js.indexOf (pre ++ rest) x < Z.of_nat (length pre))%Z.
Proof.
  induction pre as [| y r IH]; [contradiction |].
  intro Hin. simpl Js.indexOf.
  destruct (Js.eqb y x) eqn:E; [simpl length; lia |].
  assert (Hr : In x r).
  { destruct Hin as [-> | Hin]; [| assumption].
    rewrite (proj2 (Js_eqb_eq x x) eq_refl) in E. discriminate. }
  specialize (IH Hr).
  destruct (Js.indexOf (r ++ rest) x <? 0)%Z eqn:E'; simpl length; lia.
Qed.

Lemma indexOf_app_notin (pre rest : list Js.str) (x : Js.str) :
  ~ In x pre -> Js.indexOf (pre ++ x :: rest) x = Z.of_nat (length pre).
Proof.
  induction pre as [| y r IH]; intro Hnin.
  - simpl. rewrite (proj2 (Js_eqb_eq x x) eq_refl). reflexivity.
  - simpl Js.indexOf. destruct (Js.eqb y x) eqn:E.
    + apply Js_eqb_eq in E. subst. exfalso. apply Hnin. left. reflexivity.
    + rewrite IH by (intro H; apply Hnin; right; assumption).
      destruct (Z.of_nat (length r) <? 0)%Z eqn:E'; simpl length; lia.
Qed.

(** Keeping the lines whose first index is their own index is keeping the
    first of equal lines. *)
Lemma filterIdx_indexOf_dedup (xs pre seen : list Js.str) :
  (forall y, In y seen <-> In y pre) ->
  Js.filterIdx
    (fun line idx => (Js.indexOf (pre ++ xs) line =? Z.of_nat idx)%Z)
    (length pre) xs
  = dedupFirst seen xs.
Proof.
  revert pre seen. induction xs as [| x r IH]; intros pre seen Hseen.
  - reflexivity.
  - simpl Js.filterIdx. simpl dedupFirst.
    assert (Hshift : pre ++ x :: r = (pre ++ [x]) ++ r)
      by (rewrite <- app_assoc; reflexivity).
    assert (Hlen : S (length pre) = length (pre ++ [x]))
      by (rewrite length_app; simpl; lia).
    destruct (existsb (Js.eqb x) seen) eqn:Ex.
    + apply existsb_eqb_In in Ex. apply Hseen in Ex.
      pose proof (indexOf_app_in pre (x :: r) x Ex) as Hidx.
      destruct (Z.eqb_spec (Js.indexOf (pre ++ x :: r) x)
                  (Z.of_nat (length pre))) as [Heq | _]; [lia |].
      rewrite Hshift, Hlen. apply IH.
      intro y. rewrite Hseen, in_app_iff. simpl. split; [tauto |].
      intros [H | [<- | []]]; assumption.
    + assert (Hnin : ~ In x pre).
      { intro H. apply Hseen in H. apply existsb_eqb_In in H. congruence. }
      rewrite (indexOf_app_notin pre r x Hnin), Z.eqb_refl.
      f_equal. rewrite Hshift, Hlen. apply IH.
      intro y. rewrite in_app_iff. simpl. rewrite Hseen. tauto.
Qed.

Lemma sliceFrom_negative {A} (xs : list A) (n : nat) :
  0 < n -> Js.sliceFrom xs (- Z.of_nat n) = lastN n xs.
Proof.
  intro Hn. unfold Js.sliceFrom, lastN, Js.relIndex.
  destruct (Z.ltb_spec (- Z.of_nat n) 0); [| lia].
  f_equal. lia.
Qed.

Lemma lastN_length {A} (n : nat) (xs : list A) : length (lastN n xs) <= n.
Proof. unfold lastN. rewrite length_skipn. lia. Qed.

(** The final cut of [extractCarryContext] keeps the last [maxChars]
    characters. *)
Lemma carry_cut (joined : Js.str) (maxChars : Z) :
  (0 <= maxChars)%Z ->
  (if (Z.of_nat (length joined) <=? maxChars)%Z then joined
   else Js.sliceFrom joined (Z.of_nat (length joined) - maxChars))
  = lastN (Z.to_nat maxChars) joined.
Proof.
  intro Hpos. unfold lastN.
  destruct (Z.leb_spec (Z.of_nat (length joined)) maxChars) as [Hle | Hgt].
  - replace (length joined - Z.to_nat maxChars) with 0 by lia. reflexivity.
  - unfold Js.sliceFrom, Js.relIndex.
    destruct (Z.ltb_spec (Z.of_nat (length joined) - maxChars) 0); [lia |].
    f_equal. lia.
Qed.

(** C8. For every text and every character budget that is not negative,
    the carry context is at most the budget long: it is the last three
    heading lines, the last three table lines and the last four lines of the
    trimmed non-empty lines of the text, in this order, without repetitions
    (the first of equal lines stays), joined by newlines, and of that the
    last budget-many characters when it is longer than the budget. *)
Theorem C8_carry_context_within_budget
  (text : Js.str) (maxChars : Z) (Hbudget : (0 <= maxChars)%Z) :
  (Z.of_nat (length (ImageService.extractCarryContext text maxChars))
   <= maxChars)%Z
  /\ ImageService.extractCarryContext text maxChars
     = carryContextBySpec text (Z.to_nat maxChars).
Proof.
  assert (Heq : ImageService.extractCarryContext text maxChars
                = carryContextBySpec text (Z.to_nat maxChars)).
  { unfold ImageService.extractCarryContext, carryContextBySpec. cbv zeta.
    rewrite (carry_cut _ maxChars Hbudget).
    change (-3)%Z with (- Z.of_nat 3)%Z. change (-4)%Z with (- Z.of_nat 4)%Z.
    rewrite !sliceFrom_negative by lia.
    set (merged := lastN 3 _ ++ lastN 3 _ ++ lastN 4 _).
    pose proof (filterIdx_indexOf_dedup merged [] [] (fun y => iff_refl _))
      as Hdedup.
    cbn [app length] in Hdedup. rewrite Hdedup. reflexivity. }
  split; [| exact Heq].
  rewrite Heq. unfold carryContextBySpec.
  pose proof (lastN_length (Z.to_nat maxChars)
                (Js.join [Js.LF]
                   (dedupFirst []
                      (lastN 3 (filter Js.isHeadingLine
                                  (filter Js.truthy
                                     (map Js.trim (Js.split Js.LF text))))
                       ++ lastN 3 (filter Js.isTableLine
                                     (filter Js.truthy
                                        (map Js.trim (Js.split Js.LF text))))
                       ++ lastN 4 (filter Js.truthy
                                     (map Js.trim (Js.split Js.LF text)))))))
    as Hlen.
  cbv zeta. lia.
Qed.

(** C8 at work: a heading that returns, a table line and prose, with a
    budget of ten characters. *)
Lemma C8_carry_context_within_budget_witness :
  (Z.of_nat
     (length
        (ImageService.extractCarryContext
           (Js.lit "# Ledger" ++ [Js.LF] ++ Js.lit "item | sum" ++ [Js.LF]
            ++ Js.lit "# Ledger" ++ [Js.LF] ++ Js.lit "carried forward")
           10))
   <= 10)%Z
  /\ ImageService.extractCarryContext
       (Js.lit "# Ledger" ++ [Js.LF] ++ Js.lit "item | sum" ++ [Js.LF]
        ++ Js.lit "# Ledger" ++ [Js.LF] ++ Js.lit "carried forward")
       10
     = carryContextBySpec
         (Js.lit "# Ledger" ++ [Js.LF] ++ Js.lit "item | sum" ++ [Js.LF]
          ++ Js.lit "# Ledger" ++ [Js.LF] ++ Js.lit "carried forward")
         (Z.to_nat 10).
Proof.
  apply (C8_carry_context_within_budget
           (Js.lit "# Ledger" ++ [Js.LF] ++ Js.lit "item | sum" ++ [Js.LF]
            ++ Js.lit "# Ledger" ++ [Js.LF] ++ Js.lit "carried forward")
           10).
  lia.
Defined.

(** ** The chunks of [createTextStream] *)

Lemma relIndex_of_nat (len c : nat) :
  Js.relIndex len (Z.of_nat c) = Nat.min c len.
Proof.
  unfold Js.relIndex. destruct (Z.ltb_spec (Z.of_nat c) 0); [lia |].
  rewrite Nat2Z.id. reflexivity.
Qed.

Lemma slice_of_nat {A} (xs : list A) (from to : nat) :
  Js.slice xs (Z.of_nat from) (Z.of_nat to)
  = firstn (Nat.min to (length xs) - Nat.min from (length xs))
      (skipn (Nat.min from (length xs)) xs).
Proof. unfold Js.slice. rewrite !relIndex_of_nat. reflexivity. Qed.

Lemma createTextStreamFrom_chunks (text : Js.str) (fuel cursor : nat) :
  Forall fixedSizeChunk (createTextStreamFrom fuel cursor text).
Proof.
  revert cursor. induction fuel as [| fuel IH]; intro cursor; simpl.
  - constructor.
  - destruct (Nat.ltb_spec cursor (length text)) as [Hlt | Hge];
      [| constructor].
    constructor; [| apply IH].
    unfold fixedSizeChunk, OUTPUT_STREAM_CHUNK_SIZE.
    rewrite slice_of_nat, length_firstn, length_skipn. lia.
Qed.

(** With fuel for every character the loop ends on its own test, and the
    chunks are the text from the cursor on, cut up. *)
Lemma createTextStreamFrom_concat (text : Js.str) (fuel cursor : nat) :
  length text - cursor <= fuel ->
  concat (createTextStreamFrom fuel cursor text) = skipn cursor text.
Proof.
  revert cursor. induction fuel as [| fuel IH]; intros cursor Hfuel; simpl.
  - symmetry. apply skipn_all2. lia.
  - destruct (Nat.ltb_spec cursor (length text)) as [Hlt | Hge].
    + simpl. rewrite IH by (unfold OUTPUT_STREAM_CHUNK_SIZE; lia).
      rewrite slice_of_nat.
      replace (Nat.min cursor (length text)) with cursor by lia.
      unfold OUTPUT_STREAM_CHUNK_SIZE.
      destruct (Nat.le_gt_cases (cursor + 1400) (length text)) as [Hin | Hout].
      * replace (Nat.min (cursor + 1400) (length text) - cursor) with 1400
          by lia.
        rewrite Nat.add_comm, <- skipn_skipn. apply firstn_skipn.
      * rewrite (@skipn_all2 _ (cursor + 1400) text) by lia. rewrite app_nil_r.
        apply firstn_all2. rewrite length_skipn. lia.
    + symmetry. apply skipn_all2. lia.
Qed.

(** More fuel than that changes nothing. *)
Lemma createTextStreamFrom_fuel (text : Js.str) (fuel fuel' cursor : nat) :
  length text - cursor <= fuel -> fuel <= fuel' ->
  createTextStreamFrom fuel' cursor text = createTextStreamFrom fuel cursor text.
Proof.
  revert fuel' cursor. induction fuel as [| fuel IH];
    intros fuel' cursor Hfuel Hle.
  - destruct fuel'; [reflexivity |]. simpl.
    destruct (Nat.ltb_spec cursor (length text)); [lia | reflexivity].
  - destruct fuel' as [| fuel']; [lia |]. simpl.
    destruct (Nat.ltb_spec cursor (length text)); [| reflexivity].
    f_equal. apply IH; unfold OUTPUT_STREAM_CHUNK_SIZE; lia.
Qed.

Lemma createTextStream_chunks (text : Js.str) :
  Forall fixedSizeChunk (createTextStream text)
  /\ concat (createTextStream text) = text.
Proof.
  split; [apply createTextStreamFrom_chunks |].
  unfold createTextStream. rewrite createTextStreamFrom_concat by lia.
  reflexivity.
Qed.

(** ** Views of effects *)

Lemma yields_app {Entry} (a b : list (Effect Entry)) :
  yields (a ++ b) = yields a ++ yields b.
Proof. unfold yields. apply flat_map_app. Qed.

Lemma yields_map_Yield {Entry} (chunks : list Js.str) :
  yields (map (@Yield Entry) chunks) = chunks.
Proof.
  unfold yields. induction chunks as [| c r IH]; [reflexivity |].
  simpl. f_equal. exact IH.
Qed.

Lemma yields_In {Entry} (log : list (Effect Entry)) (t : Js.str) :
  In t (yields log) <-> In (Yield t) log.
Proof.
  unfold yields. rewrite in_flat_map. split.
  - intros [[| | | |] [Hin H]]; simpl in H; try contradiction.
    destruct H as [<- | []]. assumption.
  - intro Hin. exists (Yield t). split; [assumption | left; reflexivity].
Qed.

Lemma yields_filter {Entry} (log : list (Effect Entry)) :
  yields (filter isYield log) = yields log.
Proof.
  unfold yields. induction log as [| [| | | |] r IH]; simpl; try assumption;
    try reflexivity.
  f_equal. exact IH.
Qed.

Lemma yields_none {Entry} (log : list (Effect Entry)) :
  filter isYield log = [] -> yields log = [].
Proof. intro H. rewrite <- yields_filter, H. reflexivity. Qed.

(** ** One attempt of the image mode *)

Lemma filter_only_calls {Entry} (P : Effect Entry -> bool)
  (calls : list (Effect Entry)) (r : Request) :
  (forall x, In x calls -> x = Call r) -> P (Call r) = false ->
  filter P calls = [].
Proof.
  intros Hcalls HP. induction calls as [| c rest IH]; [reflexivity |].
  simpl. rewrite (Hcalls c (or_introl eq_refl)), HP.
  apply IH. intros x Hx. apply Hcalls. right. assumption.
Qed.

Section ImageAttemptFacts.

Variable W : Platform.
Variable images : list ImageFile.
Variables (prompt carryContext : Js.str).
Variable startIndex : nat.
Variable candidateProfiles : list OptimizationProfile.
Variable modelOverride : option ModelType.

Local Notation attemptOf i profile :=
  (ImageService.spanAttempt W images prompt carryContext startIndex
     candidateProfiles modelOverride i profile).
Local Notation theSpan := (ImageService.span images startIndex).
Local Notation promptOf profile :=
  (ImageService.buildImagePrompt prompt profile
     (ImageService.startPage startIndex)
     (ImageService.endPage images startIndex)
     (ImageService.totalPages images) carryContext).

(** An attempt writes no cache entry and hands no chunk to the consumer. *)
Lemma image_attempt_silent i profile :
  filter isWrite (fst (attemptOf i profile)) = []
  /\ filter isYield (fst (attemptOf i profile)) = [].
Proof.
  unfold ImageService.spanAttempt. cbv zeta.
  destruct (ImageService.preprocessSpan W theSpan profile) as [prepared | e].
  - destruct (ImageService.runSpanAttempt W prepared _ profile modelOverride)
      as [text | e].
    + destruct (ImageService.scoreAttempt W text profile _ modelOverride)
        as [calls s] eqn:Hs.
      assert (Hcalls : forall x, In x calls ->
                x = Call (ImageService.verifierRequest text profile
                            modelOverride)).
      { intros x Hx. eapply image_scoring_calls_only.
        rewrite Hs. exact Hx. }
      destruct (ImageService.accepted s); simpl; rewrite !filter_app;
        rewrite (filter_only_calls isWrite calls _ Hcalls eq_refl),
          (filter_only_calls isYield calls _ Hcalls eq_refl);
        split; reflexivity.
    + destruct (i =? length candidateProfiles - 1); split; reflexivity.
  - destruct (i =? length candidateProfiles - 1); split; reflexivity.
Qed.

(** An attempt announces one acceptance when it returns, none otherwise. *)
Lemma image_attempt_acceptances i profile :
  length (filter (isEvent profile_accepted) (fst (attemptOf i profile)))
  = match snd (attemptOf i profile) with Return _ => 1 | _ => 0 end.
Proof.
  unfold ImageService.spanAttempt. cbv zeta.
  destruct (ImageService.preprocessSpan W theSpan profile) as [prepared | e].
  - destruct (ImageService.runSpanAttempt W prepared _ profile modelOverride)
      as [text | e].
    + destruct (ImageService.scoreAttempt W text profile _ modelOverride)
        as [calls s] eqn:Hs.
      assert (Hcalls : forall x, In x calls ->
                x = Call (ImageService.verifierRequest text profile
                            modelOverride)).
      { intros x Hx. eapply image_scoring_calls_only.
        rewrite Hs. exact Hx. }
      destruct (ImageService.accepted s); simpl; rewrite !filter_app;
        rewrite (filter_only_calls (isEvent profile_accepted) calls _ Hcalls
                   eq_refl);
        reflexivity.
    + destruct (i =? length candidateProfiles - 1); reflexivity.
  - destruct (i =? length candidateProfiles - 1); reflexivity.
Qed.

(** What an attempt returns: the text of its stream under its profile, with
    the scores of its scoring, for the whole span. *)
Lemma image_attempt_returns i profile r :
  snd (attemptOf i profile) = Return r ->
  exists prepared text,
    ImageService.preprocessSpan W theSpan profile = Ok prepared
    /\ ImageService.runSpanAttempt W prepared (promptOf profile) profile
         modelOverride = Ok text
    /\ ImageService.sr_text r = text
    /\ ImageService.sr_profile r = profile
    /\ ImageService.sr_consumed r = length theSpan
    /\ ImageService.sr_qualityScore r
       = ImageService.qualityScore
           (snd (ImageService.scoreAttempt W text profile
                   (i =? length candidateProfiles - 1) modelOverride))
    /\ ImageService.accepted
         (snd (ImageService.scoreAttempt W text profile
                 (i =? length candidateProfiles - 1) modelOverride)) = true.
Proof.
  unfold ImageService.spanAttempt. cbv zeta.
  destruct (ImageService.preprocessSpan W theSpan profile) as [prepared | e].
  - destruct (ImageService.runSpanAttempt W prepared _ profile modelOverride)
      as [text | e] eqn:Hrun.
    + destruct (ImageService.scoreAttempt W text profile _ modelOverride)
        as [calls s] eqn:Hs.
      destruct (ImageService.accepted s) eqn:Hacc; simpl; intro H;
        [| discriminate].
      injection H as <-. exists prepared, text. rewrite Hs. simpl.
      repeat split; try reflexivity; assumption.
    + destruct (i =? length candidateProfiles - 1); discriminate.
  - destruct (i =? length candidateProfiles - 1); discriminate.
Qed.

(** The shapes of an attempt that failed, in the canvas or in the stream:
    [sent] is the request that went out, if one did. *)
Lemma image_attempt_failed i profile error :
  ImageService.preprocessSpan W theSpan profile = Throw error
  \/ (exists prepared,
        ImageService.preprocessSpan W theSpan profile = Ok prepared
        /\ ImageService.runSpanAttempt W prepared (promptOf profile) profile
             modelOverride = Throw error) ->
  exists start sent,
    ev_type start = profile_start /\ ev_profile start = profile
    /\ filter (isEvent profile_escalated) sent = []
    /\ events sent = []
    /\ attemptOf i profile
       = if i =? length candidateProfiles - 1 then
           (Emit start :: sent, Raise (ImageService.spanFailure error))
         else
           (Emit start :: sent
            ++ [Emit (bareEvent profile_escalated profile
                        (MsgImageFailed (ImageService.startPage startIndex)
                           (ImageService.endPage images startIndex) profile))],
            Continue).
Proof.
  unfold ImageService.spanAttempt. cbv zeta.
  intros [Hpre | [prepared [Hpre Hrun]]]; rewrite Hpre; [| rewrite Hrun];
    eexists; eexists;
    (split; [| split; [| split; [| split;
       [| destruct (i =? length candidateProfiles - 1); reflexivity]]]]);
    reflexivity.
Qed.

(** Every event of an attempt carries the profile of the attempt. *)
Lemma image_attempt_event_profile i profile ev :
  In (Emit ev) (fst (attemptOf i profile)) -> ev_profile ev = profile.
Proof.
  unfold ImageService.spanAttempt. cbv zeta.
  destruct (ImageService.preprocessSpan W theSpan profile) as [prepared | e].
  - destruct (ImageService.runSpanAttempt W prepared _ profile modelOverride)
      as [text | e].
    + destruct (ImageService.scoreAttempt W text profile _ modelOverride)
        as [calls s] eqn:Hs.
      assert (Hcalls : forall x, In x calls ->
                x = Call (ImageService.verifierRequest text profile
                            modelOverride)).
      { intros x Hx. eapply image_scoring_calls_only.
        rewrite Hs. exact Hx. }
      destruct (ImageService.accepted s); simpl;
        intros [H | [H | H]]; try discriminate;
        try (injection H as <-; reflexivity);
        apply in_app_or in H; destruct H as [H | [H | []]];
        try (apply Hcalls in H; discriminate);
        injection H as <-; reflexivity.
    + destruct (i =? length candidateProfiles - 1); simpl;
        intros [H | [H | H]]; try discriminate;
        try (injection H as <-; reflexivity); try contradiction.
      destruct H as [H | []]. injection H as <-. reflexivity.
  - destruct (i =? length candidateProfiles - 1); simpl;
      intros [H | H]; try discriminate;
      try (injection H as <-; reflexivity); try contradiction.
    destruct H as [H | []]. injection H as <-. reflexivity.
Qed.

End ImageAttemptFacts.

(** ** One span and the sequence of spans *)

Lemma span_length (images : list ImageFile) (startIndex : nat) :
  length (ImageService.span images startIndex)
  = if startIndex <? length images then 1 else 0.
Proof.
  unfold ImageService.span, ImageService.baseChunkSize.
  rewrite slice_of_nat, length_firstn, length_skipn.
  destruct (Nat.ltb_spec startIndex (length images)); lia.
Qed.

Section ImageSpanFacts.

Variable W : Platform.
Variable images : list ImageFile.
Variables (prompt carryContext : Js.str).
Variable startIndex : nat.
Variable candidateProfiles : list OptimizationProfile.
Variable modelOverride : option ModelType.

Local Notation bodyAt :=
  (ImageService.spanAttemptAt W images prompt carryContext startIndex
     candidateProfiles modelOverride).
Local Notation resolution :=
  (ImageService.resolveSpanWithEscalation W images prompt carryContext
     startIndex candidateProfiles modelOverride).

Lemma image_attemptAt_silent k :
  filter isWrite (fst (bodyAt k)) = []
  /\ filter isYield (fst (bodyAt k)) = [].
Proof.
  unfold ImageService.spanAttemptAt.
  destruct (nth_error candidateProfiles k);
    [apply image_attempt_silent | split; reflexivity].
Qed.

Lemma image_attemptAt_acceptances k :
  length (filter (isEvent profile_accepted) (fst (bodyAt k)))
  = match snd (bodyAt k) with Return _ => 1 | _ => 0 end.
Proof.
  unfold ImageService.spanAttemptAt.
  destruct (nth_error candidateProfiles k);
    [apply image_attempt_acceptances | reflexivity].
Qed.

(** Resolving a span writes no cache entry and yields no chunk; it
    announces one acceptance when it returns, none when it throws; and what
    it returns covers the whole span, which is not empty. *)
Lemma image_resolution_summary :
  filter isWrite (fst resolution) = []
  /\ filter isYield (fst resolution) = []
  /\ length (filter (isEvent profile_accepted) (fst resolution))
     = match snd resolution with Ok _ => 1 | Throw _ => 0 end
  /\ forall r, snd resolution = Ok r ->
       ImageService.sr_consumed r = 1 /\ startIndex < length images.
Proof.
  unfold ImageService.resolveSpanWithEscalation.
  pose proof (span_length images startIndex) as Hspan.
  destruct (Nat.eqb_spec (length (ImageService.span images startIndex)) 0)
    as [Hzero | Hsome].
  - repeat split; try reflexivity; discriminate.
  - assert (Hin : startIndex < length images).
    { destruct (Nat.ltb_spec startIndex (length images)); [assumption | lia]. }
    apply Nat.ltb_lt in Hin. rewrite Hin in Hspan. apply Nat.ltb_lt in Hin.
    pose proof (forLoopFrom_none _ _ (length candidateProfiles) bodyAt isWrite
                  (length candidateProfiles) 0
                  (fun k _ => proj1 (image_attemptAt_silent k))) as Hw.
    pose proof (forLoopFrom_none _ _ (length candidateProfiles) bodyAt isYield
                  (length candidateProfiles) 0
                  (fun k _ => proj2 (image_attemptAt_silent k))) as Hy.
    pose proof (forLoopFrom_count _ _ (length candidateProfiles) bodyAt
                  (isEvent profile_accepted) (length candidateProfiles) 0
                  (fun k _ => image_attemptAt_acceptances k)) as Ha.
    pose proof (forLoopFrom_completion _ _ (length candidateProfiles) bodyAt
                  (length candidateProfiles) 0) as Hc.
    unfold forLoop.
    destruct (forLoopFrom (length candidateProfiles) bodyAt
                (length candidateProfiles) 0) as [effects [| r | e]];
      simpl in *;
      (split; [assumption | split; [assumption | split; [assumption |]]]);
      intros r' H; try discriminate.
    injection H as <-.
    destruct Hc as [k [_ [_ [_ [_ Hret]]]]].
    unfold ImageService.spanAttemptAt in Hret.
    destruct (nth_error candidateProfiles k) as [q |]; [| discriminate].
    apply image_attempt_returns in Hret.
    destruct Hret as [prepared [text [_ [_ [_ [_ [Hcons _]]]]]]].
    split; [congruence | assumption].
Qed.

End ImageSpanFacts.

Lemma appendTexts_cons (acc : Js.str) (r : ImageService.SpanResolution)
  (news : list ImageService.SpanResolution) :
  appendTexts acc (r :: news)
  = (if Js.truthy (appendTextOf acc r) then [appendTextOf acc r] else [])
    ++ appendTexts
         (if Js.truthy (appendTextOf acc r) then acc ++ appendTextOf acc r
          else acc)
         news.
Proof.
  unfold appendTextOf. simpl.
  destruct (Js.trim (ImageService.sr_text r)) as [| c t]; [reflexivity |].
  destruct acc as [| a acc]; reflexivity.
Qed.

Section ImageSequenceFacts.

Variable W : Platform.
Variable images : list ImageFile.
Variable prompt : Js.str.
Variable modelId : option ModelType.
Variable candidateProfiles : list OptimizationProfile.

Local Notation loop :=
  (ImageService.spansFrom W images prompt modelId candidateProfiles).
Local Notation resolutionAt st :=
  (ImageService.resolveSpanWithEscalation W images prompt
     (ImageService.carryContext st) (ImageService.cursor st)
     candidateProfiles modelId).

(** One iteration of the [while] loop. *)
Lemma image_spans_step fuel st :
  ImageService.cursor st < length images ->
  loop (S fuel) st
  = match snd (resolutionAt st) with
    | Throw error => (fst (resolutionAt st), Throw error)
    | Ok r =>
        (fst (resolutionAt st)
         ++ (if Js.truthy (appendTextOf (ImageService.accumulated st) r)
             then [Yield (appendTextOf (ImageService.accumulated st) r)]
             else [])
         ++ fst (loop fuel (advance st r)),
         snd (loop fuel (advance st r)))
    end.
Proof.
  intro Hlt. apply Nat.ltb_lt in Hlt.
  cbn [ImageService.spansFrom]. rewrite Hlt.
  destruct (resolutionAt st) as [effects [r | e]]; [| reflexivity].
  cbn [fst snd]. unfold advance, appendTextOf. cbv zeta.
  destruct (loop fuel _); reflexivity.
Qed.

Lemma image_spans_done fuel st :
  length images <= ImageService.cursor st -> loop fuel st = ([], Ok st).
Proof.
  intro Hge. destruct fuel; [reflexivity |]. simpl.
  apply Nat.ltb_ge in Hge. rewrite Hge. reflexivity.
Qed.

(** The [while] loop writes no cache entry. When it ends normally, the
    spans it resolved, [news], are as many as the acceptances announced and
    as the pages the cursor advanced by; the chunks it yielded are the
    trimmed texts of those spans, the output grew by those chunks, and the
    quality floor is the running minimum of their scores; with fuel for the
    pages left, the cursor is at the end of the pages. *)
Lemma image_spans_summary fuel st :
  filter isWrite (fst (loop fuel st)) = []
  /\ forall st', snd (loop fuel st) = Ok st' ->
       exists news,
         ImageService.resolved st' = ImageService.resolved st ++ news
         /\ length (filter (isEvent profile_accepted) (fst (loop fuel st)))
            = length news
         /\ ImageService.cursor st' = ImageService.cursor st + length news
         /\ yields (fst (loop fuel st))
            = appendTexts (ImageService.accumulated st) news
         /\ ImageService.accumulated st'
            = ImageService.accumulated st ++ concat (yields (fst (loop fuel st)))
         /\ ImageService.st_minQualityScore st'
            = fold_left Qmin (map ImageService.sr_qualityScore news)
                (ImageService.st_minQualityScore st)
         /\ (length images - ImageService.cursor st <= fuel ->
             ImageService.cursor st <= length images ->
             ImageService.cursor st' = length images).
Proof.
  revert st. induction fuel as [| fuel IH]; intro st.
  - simpl. split; [reflexivity |]. intros st' H. injection H as <-.
    exists []. rewrite !app_nil_r. simpl. repeat split; try lia.
  - destruct (Nat.lt_ge_cases (ImageService.cursor st) (length images))
      as [Hlt | Hge].
    + rewrite (image_spans_step fuel st Hlt).
      pose proof (image_resolution_summary W images prompt
                    (ImageService.carryContext st) (ImageService.cursor st)
                    candidateProfiles modelId) as [Hw [Hy [Ha Hr]]].
      destruct (resolutionAt st) as [effects [r | e]];
        simpl in Hw, Hy, Ha, Hr; simpl fst; simpl snd;
        [| split; [assumption | discriminate]].
      destruct (Hr r eq_refl) as [Hcons _].
      destruct (IH (advance st r)) as [IHw IHok].
      set (a := appendTextOf (ImageService.accumulated st) r) in *.
      split.
      { rewrite !filter_app, Hw, IHw. destruct (Js.truthy a); reflexivity. }
      intros st' Hout.
      destruct (IHok st' Hout)
        as [news [Hres [Hacc [Hcur [Hyl [Hout' [Hmin Hend]]]]]]].
      exists (r :: news). simpl in Hres, Hcur, Hyl, Hout', Hmin, Hend.
      fold a in Hyl, Hout'.
      rewrite <- app_assoc in Hres.
      rewrite !filter_app, !length_app, Ha, Hacc.
      rewrite !yields_app, (yields_none _ Hy), Hyl, appendTexts_cons.
      fold a. simpl app.
      split; [exact Hres |].
      split; [destruct (Js.truthy a); reflexivity |].
      split; [simpl; lia |].
      split; [destruct (Js.truthy a); reflexivity |].
      split.
      { rewrite Hout', Hyl.
        destruct (Js.truthy a); simpl; [rewrite <- app_assoc |]; reflexivity. }
      split; [exact Hmin |].
      intros. apply Hend; lia.
    + rewrite (image_spans_done (S fuel) st Hge). simpl.
      split; [reflexivity |]. intros st' H. injection H as <-.
      exists []. rewrite !app_nil_r. simpl. repeat split; try lia.
Qed.

End ImageSequenceFacts.

(** ** Cache writes *)

Section ForLoopFilter.

Variables (E A : Type).
Variable bound : nat.
Variable body : nat -> list E * Completion A.
Variable P : E -> bool.

(** When only a returning iteration holds effects of a kind, the loop holds
    those of the iteration it returned in, and no others. *)
Lemma forLoopFrom_filter (fuel index : nat) :
  (forall k, k < bound -> (forall a, snd (body k) <> Return a) ->
             filter P (fst (body k)) = []) ->
  match snd (forLoopFrom bound body fuel index) with
  | Return a =>
      exists k, index <= k /\ k < bound /\ snd (body k) = Return a
                /\ filter P (fst (forLoopFrom bound body fuel index))
                   = filter P (fst (body k))
  | _ => filter P (fst (forLoopFrom bound body fuel index)) = []
  end.
Proof.
  intro Hbody. revert index. induction fuel as [| fuel IH]; intro index.
  - reflexivity.
  - destruct (Nat.lt_ge_cases index bound) as [Hlt | Hge].
    + rewrite (forLoopFrom_step _ _ bound body fuel index Hlt).
      destruct (snd (body index)) as [| a | e] eqn:Hc; simpl.
      * assert (Hnone : filter P (fst (body index)) = []).
        { apply Hbody; [assumption |]. intros a Ha. congruence. }
        specialize (IH (index + 1)).
        destruct (snd (forLoopFrom bound body fuel (index + 1)))
          as [| a | e].
        -- rewrite filter_app, Hnone, IH. reflexivity.
        -- destruct IH as [k [H1 [H2 [H3 H4]]]]. exists k.
           repeat split; try lia; try assumption.
           rewrite filter_app, Hnone, H4. reflexivity.
        -- rewrite filter_app, Hnone, IH. reflexivity.
      * exists index. repeat split; try lia; assumption.
      * apply Hbody; [assumption |]. intros a Ha. congruence.
    + rewrite (forLoopFrom_past _ _ bound body (S fuel) index Hge). reflexivity.
Qed.

End ForLoopFilter.

Lemma filter_significant_yields {Entry} (chunks : list Js.str) :
  filter significant (map (@Yield Entry) chunks) = map Yield chunks.
Proof.
  induction chunks as [| c r IH]; [reflexivity |]. simpl. f_equal. exact IH.
Qed.

Lemma filter_isWrite_significant {Entry} (log : list (Effect Entry)) :
  filter isWrite (filter significant log) = filter isWrite log.
Proof.
  induction log as [| e r IH]; [reflexivity |].
  destruct e as [ev | | | |]; simpl; try assumption.
  - destruct (significant (Emit ev)); simpl; assumption.
  - f_equal. exact IH.
Qed.

Section PdfWrites.

Variable W : Platform.
Variables (pdfBase64 prompt cacheKey : Js.str).
Variable modelId : option ModelType.
Variable candidateProfiles : list OptimizationProfile.

Local Notation attemptOf index profile :=
  (GeminiService.attempt W pdfBase64 prompt cacheKey modelId
     candidateProfiles index profile).
Local Notation bodyAt :=
  (GeminiService.attemptAt W pdfBase64 prompt cacheKey modelId
     candidateProfiles).
Local Notation run :=
  (GeminiService.attempts W pdfBase64 prompt cacheKey modelId
     candidateProfiles).

(** The write, the acceptance and the chunks of an attempt: none unless it
    returns, and then one write of the accepted text, profile and score,
    the acceptance of that profile with that score, and the chunks of that
    text. *)
Lemma pdf_attempt_significant index profile :
  match snd (attemptOf index profile) with
  | Return _ =>
      exists text quality ev,
        filter significant (fst (attemptOf index profile))
        = WriteCache cacheKey
            {| GeminiService.createdAt := now W;
               GeminiService.text := text;
               GeminiService.profile := profile;
               GeminiService.quality := quality |}
          :: Emit ev :: map Yield (createTextStream text)
        /\ ev_type ev = profile_accepted /\ ev_profile ev = profile
        /\ ev_qualityScore ev = Some quality
  | _ => filter significant (fst (attemptOf index profile)) = []
  end.
Proof.
  destruct (generateContentStream W
              (GeminiService.attemptRequest pdfBase64 prompt profile modelId))
    as [chunks | error] eqn:Hgen.
  - rewrite (pdf_attempt_scored W pdfBase64 prompt cacheKey modelId
               candidateProfiles index profile chunks Hgen).
    pose proof (pdf_scoring_calls_only W modelId (collectStream chunks) profile
                  (index =? length candidateProfiles - 1)) as Hcalls.
    destruct (GeminiService.accepted _); cbn [fst snd].
    + eexists. eexists. eexists. split.
      * cbn [filter significant isWrite isEvent isYield orb
               AnalysisEventType_eqb ev_type].
        rewrite filter_app,
          (filter_only_calls significant _ _ Hcalls eq_refl).
        cbn [app filter significant isWrite isEvent isYield orb
               AnalysisEventType_eqb ev_type].
        rewrite filter_app, filter_significant_yields. simpl.
        rewrite app_nil_r. reflexivity.
      * repeat split; reflexivity.
    + cbn [filter significant isWrite isEvent isYield orb
             AnalysisEventType_eqb ev_type].
      rewrite filter_app,
        (filter_only_calls significant _ _ Hcalls eq_refl).
      reflexivity.
  - rewrite (pdf_attempt_failed W pdfBase64 prompt cacheKey modelId
               candidateProfiles index profile error Hgen).
    destruct (index =? length candidateProfiles - 1); reflexivity.
Qed.

Lemma pdf_attemptAt_significant k :
  match snd (bodyAt k) with
  | Return _ =>
      exists profile text quality ev,
        filter significant (fst (bodyAt k))
        = WriteCache cacheKey
            {| GeminiService.createdAt := now W;
               GeminiService.text := text;
               GeminiService.profile := profile;
               GeminiService.quality := quality |}
          :: Emit ev :: map Yield (createTextStream text)
        /\ ev_type ev = profile_accepted /\ ev_profile ev = profile
        /\ ev_qualityScore ev = Some quality
  | _ => filter significant (fst (bodyAt k)) = []
  end.
Proof.
  unfold GeminiService.attemptAt.
  destruct (nth_error candidateProfiles k) as [profile |]; [| reflexivity].
  pose proof (pdf_attempt_significant k profile) as H.
  destruct (snd (attemptOf k profile)); try assumption.
  exists profile. assumption.
Qed.

(** In a live run, the cache writes, the acceptances and the chunks taken
    together are nothing at all, or one write followed by the acceptance it
    belongs to and the chunks of the text it wrote. *)
Lemma pdf_run_significant :
  filter significant (fst run) = []
  \/ exists profile text quality ev,
       filter significant (fst run)
       = WriteCache cacheKey
           {| GeminiService.createdAt := now W;
              GeminiService.text := text;
              GeminiService.profile := profile;
              GeminiService.quality := quality |}
         :: Emit ev :: map Yield (createTextStream text)
       /\ ev_type ev = profile_accepted /\ ev_profile ev = profile
       /\ ev_qualityScore ev = Some quality
       /\ snd run = Ok tt.
Proof.
  rewrite pdf_attempts_log, pdf_attempts_outcome. unfold forLoop.
  pose proof (forLoopFrom_filter _ _ (length candidateProfiles) bodyAt
                significant (length candidateProfiles) 0) as H.
  assert (Hbody : forall k, k < length candidateProfiles ->
                    (forall a, snd (bodyAt k) <> Return a) ->
                    filter significant (fst (bodyAt k)) = []).
  { intros k _ Hnot. pose proof (pdf_attemptAt_significant k) as Hk.
    destruct (snd (bodyAt k)) as [| a | e]; try assumption.
    exfalso. apply (Hnot a). reflexivity. }
  specialize (H Hbody).
  destruct (snd (forLoopFrom (length candidateProfiles) bodyAt
                   (length candidateProfiles) 0)) as [| a | e];
    try (left; assumption).
  destruct H as [k [_ [_ [Hret Hfilter]]]].
  pose proof (pdf_attemptAt_significant k) as Hk. rewrite Hret in Hk.
  destruct Hk as [profile [text [quality [ev [Hk1 [Hk2 [Hk3 Hk4]]]]]]].
  right. exists profile, text, quality, ev.
  rewrite Hfilter, Hk1. repeat split; assumption.
Qed.

End PdfWrites.

Lemma filter_isWrite_yields {Entry} (chunks : list Js.str) :
  filter isWrite (map (@Yield Entry) chunks) = [].
Proof. induction chunks as [| c r IH]; [reflexivity | exact IH]. Qed.

Lemma yields_significant {Entry} (log : list (Effect Entry)) :
  yields (filter significant log) = yields log.
Proof.
  unfold yields. induction log as [| e r IH]; [reflexivity |].
  destruct e as [ev | | | |]; simpl; try assumption.
  - destruct (significant (Emit ev)); simpl; assumption.
  - f_equal. exact IH.
Qed.

(** The live image run, from what its loop did. *)
Lemma image_live_run (W : Platform) (images : list ImageFile)
  (prompt : Js.str) (modelId : option ModelType) :
  ImageService.analyzeImageSequenceStream W images prompt modelId None
  = match ImageService.spansFrom W images prompt modelId
            (ImageService.resolveImageCandidateProfiles modelId)
            (length images)
            (ImageService.initialState
               (ImageService.resolveImageCandidateProfiles modelId)) with
    | (effects, Throw error) => (effects, Throw error)
    | (effects, Ok st) =>
        let quality :=
          if Js.truthy (ImageService.accumulated st)
          then ImageService.st_minQualityScore st else 0%Q in
        (effects
         ++ [WriteCache (ImageService.buildImageCacheKey W images prompt modelId)
               {| ImageService.createdAt := now W;
                  ImageService.text := ImageService.accumulated st;
                  ImageService.highestProfile :=
                    ImageService.st_highestProfile st;
                  ImageService.quality := quality |};
             Emit {| ev_type := completed;
                     ev_profile := ImageService.st_highestProfile st;
                     ev_message :=
                       MsgImageCompleted (ImageService.st_highestProfile st);
                     ev_qualityScore := Some quality;
                     ev_reasons := None;
                     ev_estimatedInputTokens :=
                       Some (ImageService.totalEstimatedInputTokens st);
                     ev_estimatedOutputTokens :=
                       Some (ImageService.totalEstimatedOutputTokens st);
                     ev_verificationScore := None |}],
         Ok tt)
    end.
Proof. reflexivity. Qed.

(** C4. A cache entry is written only for an accepted attempt. In a live PDF
    run the cache writes, the acceptances and the chunks, taken together in
    their order, are nothing at all, or exactly one write, under the key
    computed for the document and the prompt, of the text, the profile and
    the score of the accepted attempt, followed by the acceptance of that
    profile with that score and by the chunks of that text; an attempt that
    escalates or fails writes nothing, and neither does a cache hit. A live
    image run that fails writes nothing; one that completes writes exactly
    once, the whole accumulated text in one entry, as its last effect but
    the completion event, behind one acceptance for every page; a cache hit
    writes nothing. *)
Theorem C4_cache_written_only_after_acceptance (W : Platform) :
  (forall pdfBase64 prompt modelId,
      let run :=
        GeminiService.analyzePdfStream W pdfBase64 prompt modelId None in
      filter significant (fst run) = []
      \/ exists profile text quality ev,
           filter significant (fst run)
           = WriteCache (GeminiService.buildPdfCacheKey W pdfBase64 prompt)
               {| GeminiService.createdAt := now W;
                  GeminiService.text := text;
                  GeminiService.profile := profile;
                  GeminiService.quality := quality |}
             :: Emit ev :: map Yield (createTextStream text)
           /\ ev_type ev = profile_accepted /\ ev_profile ev = profile
           /\ ev_qualityScore ev = Some quality
           /\ snd run = Ok tt)
  /\ (forall pdfBase64 prompt cacheKey modelId candidates index profile,
        let attempt :=
          GeminiService.attempt W pdfBase64 prompt cacheKey modelId
            candidates index profile in
        (forall a, snd attempt <> Return a) ->
        filter isWrite (fst attempt) = [])
  /\ (forall pdfBase64 prompt modelId entry,
        filter isWrite
          (fst (GeminiService.analyzePdfStream W pdfBase64 prompt modelId
                  (Some entry))) = [])
  /\ (forall images prompt modelId,
        let run :=
          ImageService.analyzeImageSequenceStream W images prompt modelId
            None in
        match snd run with
        | Throw _ => filter isWrite (fst run) = []
        | Ok _ =>
            exists effects st entry ev,
              ImageService.spansFrom W images prompt modelId
                (ImageService.resolveImageCandidateProfiles modelId)
                (length images)
                (ImageService.initialState
                   (ImageService.resolveImageCandidateProfiles modelId))
              = (effects, Ok st)
              /\ fst run
                 = effects
                   ++ [WriteCache
                         (ImageService.buildImageCacheKey W images prompt
                            modelId) entry;
                       Emit ev]
              /\ filter isWrite effects = []
              /\ length (filter (isEvent profile_accepted) effects)
                 = length images
              /\ length (ImageService.resolved st) = length images
              /\ ImageService.text entry = concat (yields effects)
              /\ ImageService.createdAt entry = now W
              /\ ev_type ev = completed
        end)
  /\ (forall images prompt modelId entry,
        filter isWrite
          (fst (ImageService.analyzeImageSequenceStream W images prompt
                  modelId (Some entry))) = []).
Proof.
  split; [| split; [| split; [| split]]].
  - intros pdfBase64 prompt modelId. cbv zeta. rewrite pdf_live_run.
    apply pdf_run_significant.
  - intros pdfBase64 prompt cacheKey modelId candidates index profile.
    cbv zeta. intro Hnot.
    pose proof (pdf_attempt_significant W pdfBase64 prompt cacheKey modelId
                  candidates index profile) as H.
    rewrite <- filter_isWrite_significant.
    destruct (snd (GeminiService.attempt W pdfBase64 prompt cacheKey modelId
                     candidates index profile)) as [| a | e];
      try (rewrite H; reflexivity).
    exfalso. apply (Hnot a). reflexivity.
  - intros. simpl. apply filter_isWrite_yields.
  - intros images prompt modelId. cbv zeta. rewrite image_live_run.
    pose proof (image_spans_summary W images prompt modelId
                  (ImageService.resolveImageCandidateProfiles modelId)
                  (length images)
                  (ImageService.initialState
                     (ImageService.resolveImageCandidateProfiles modelId)))
      as [Hw Hok].
    destruct (ImageService.spansFrom W images prompt modelId _ _ _)
      as [effects [st | e]]; simpl in Hw, Hok; [| exact Hw].
    destruct (Hok st eq_refl)
      as [news [Hres [Hacc [Hcur [Hyl [Hout [Hmin Hend]]]]]]].
    cbv zeta. cbn [fst snd]. eexists. eexists. eexists. eexists.
    split; [reflexivity |]. split; [reflexivity |].
    split; [exact Hw |].
    assert (Hn : length news = length images).
    { rewrite <- (Hend ltac:(simpl; lia) ltac:(simpl; lia)), Hcur.
      reflexivity. }
    split; [congruence |].
    split; [rewrite Hres; simpl; exact Hn |].
    split; [simpl; rewrite Hout; reflexivity |].
    split; reflexivity.
  - intros. simpl. apply filter_isWrite_yields.
Qed.



(** ** A sequence without text *)

Lemma appendTexts_all_empty (acc : Js.str)
  (spans : list ImageService.SpanResolution) :
  Forall (fun r => Js.trim (ImageService.sr_text r) = []) spans ->
  appendTexts acc spans = [].
Proof.
  induction 1 as [| r rest Hr _ IH]; [reflexivity |].
  simpl. rewrite Hr. exact IH.
Qed.

(** C10. In an image run that completes, when the trimmed text of every
    accepted span is empty, the accumulated output is empty, and the entry
    the run caches has the empty text and the quality 0, as has the
    completion event, while the running minimum of the scores of the
    accepted spans, which they replace, is whatever those scores make it. *)
Theorem C10_sequence_without_text_scores_zero
  (W : Platform) (images : list ImageFile) (prompt : Js.str)
  (modelId : option ModelType)
  (effects : list (Effect ImageService.ImageCacheEntry))
  (st : ImageService.SequenceState)
  (Hloop :
     ImageService.spansFrom W images prompt modelId
       (ImageService.resolveImageCandidateProfiles modelId) (length images)
       (ImageService.initialState
          (ImageService.resolveImageCandidateProfiles modelId))
     = (effects, Ok st))
  (Hempty :
     Forall (fun r => Js.trim (ImageService.sr_text r) = [])
       (ImageService.resolved st)) :
  ImageService.accumulated st = []
  /\ ImageService.st_minQualityScore st
     = fold_left Qmin
         (map ImageService.sr_qualityScore (ImageService.resolved st)) 1%Q
  /\ exists ev,
       ImageService.analyzeImageSequenceStream W images prompt modelId None
       = (effects
          ++ [WriteCache
                (ImageService.buildImageCacheKey W images prompt modelId)
                {| ImageService.createdAt := now W;
                   ImageService.text := [];
                   ImageService.highestProfile :=
                     ImageService.st_highestProfile st;
                   ImageService.quality := 0%Q |};
              Emit ev],
          Ok tt)
       /\ ev_type ev = completed
       /\ ev_profile ev = ImageService.st_highestProfile st
       /\ ev_qualityScore ev = Some 0%Q.
Proof.
  pose proof (image_spans_summary W images prompt modelId
                (ImageService.resolveImageCandidateProfiles modelId)
                (length images)
                (ImageService.initialState
                   (ImageService.resolveImageCandidateProfiles modelId)))
    as [_ Hok].
  rewrite Hloop in Hok. destruct (Hok st eq_refl)
    as [news [Hres [_ [_ [Hyl [Hout [Hmin _]]]]]]].
  simpl in Hres, Hyl, Hout, Hmin. subst news.
  assert (Hacc : ImageService.accumulated st = []).
  { rewrite Hout, Hyl, (appendTexts_all_empty [] _ Hempty). reflexivity. }
  split; [exact Hacc |]. split; [exact Hmin |].
  rewrite image_live_run, Hloop. cbv zeta. rewrite Hacc. simpl.
  eexists. split; [reflexivity |]. repeat split.
Qed.

(** C10 at work: two blank pages. Every attempt returns the empty text; the
    last profile accepts it with the score 0.4, which is the running
    minimum, and the run caches and reports 0. *)
Lemma C10_sequence_without_text_scores_zero_witness :
  (ImageService.accumulated blankState = []
   /\ ImageService.st_minQualityScore blankState
      = fold_left Qmin
          (map ImageService.sr_qualityScore (ImageService.resolved blankState))
          1%Q
   /\ exists ev,
        ImageService.analyzeImageSequenceStream (steadyWorld []) blankPages
          (Js.lit "") None None
        = (fst blankLoop
           ++ [WriteCache
                 (ImageService.buildImageCacheKey (steadyWorld []) blankPages
                    (Js.lit "") None)
                 {| ImageService.createdAt := now (steadyWorld []);
                    ImageService.text := [];
                    ImageService.highestProfile :=
                      ImageService.st_highestProfile blankState;
                    ImageService.quality := 0%Q |};
               Emit ev],
           Ok tt)
        /\ ev_type ev = completed
        /\ ev_profile ev = ImageService.st_highestProfile blankState
        /\ ev_qualityScore ev = Some 0%Q)
  /\ (ImageService.st_minQualityScore blankState == 0.4)%Q.
Proof.
  split.
  - apply (C10_sequence_without_text_scores_zero (steadyWorld []) blankPages
             (Js.lit "") None (fst blankLoop) blankState).
    + vm_compute. reflexivity.
    + vm_compute. repeat constructor.
  - vm_compute. reflexivity.
Defined.

(** ** Failures *)

Section ForLoopOrigin.

Variables (E A K : Type).
Variable bound : nat.
Variable body : nat -> list E * Completion A.
(** Some effects carry a key, and so do the iterations: an effect with a
    key stems from the iteration with that key, and no two iterations
    share one. *)
Variable key : E -> option K.
Variable tag : nat -> option K.
Hypothesis body_keys :
  forall k x c, k < bound -> In x (fst (body k)) -> key x = Some c ->
                tag k = Some c.
Hypothesis tags_distinct :
  forall j k c, tag j = Some c -> tag k = Some c -> j = k.

Lemma forLoop_origin (x : E) (k : nat) (c : K) :
  In x (fst (forLoop bound body)) -> key x = Some c -> tag k = Some c ->
  k < bound /\ reachedFrom body 0 k /\ In x (fst (body k)).
Proof.
  intros Hin Hkey Htag. unfold forLoop in Hin.
  apply forLoopFrom_In in Hin.
  destruct Hin as [j [_ [_ [Hj [Hreach Hin]]]]].
  assert (j = k) by (eapply tags_distinct; [eapply body_keys |]; eassumption).
  subst j. auto.
Qed.

Lemma forLoop_reached_In (x : E) (k : nat) :
  k < bound -> reachedFrom body 0 k -> In x (fst (body k)) ->
  In x (fst (forLoop bound body)).
Proof.
  intros Hk Hreach Hin. unfold forLoop. apply forLoopFrom_In.
  exists k. repeat split; try lia; assumption.
Qed.

(** The loop is left the way the first iteration that does not fall
    through completes. *)
Lemma forLoop_exit (k : nat) :
  k < bound -> reachedFrom body 0 k -> snd (body k) <> Continue ->
  snd (forLoop bound body) = snd (body k).
Proof.
  intros Hk Hreach Hexit. unfold forLoop.
  destruct (forLoopFrom_reached _ _ bound body bound 0 k) as [_ Hs];
    try lia; try assumption.
  rewrite Hs, Nat.sub_0_r.
  replace (bound - k) with (S (bound - k - 1)) by lia.
  rewrite (forLoopFrom_step _ _ bound body (bound - k - 1) k Hk).
  destruct (snd (body k)); [contradiction | reflexivity | reflexivity].
Qed.

Lemma reachedFrom_next (k : nat) :
  reachedFrom body 0 k -> snd (body k) = Continue ->
  reachedFrom body 0 (k + 1).
Proof.
  intros Hreach Hc j Hj. destruct (Nat.eq_dec j k) as [-> | Hne];
    [assumption | apply Hreach; lia].
Qed.

End ForLoopOrigin.

Lemma image_candidates_NoDup (modelId : option ModelType) :
  NoDup (ImageService.resolveImageCandidateProfiles modelId).
Proof.
  destruct modelId as [[|] |]; repeat constructor; simpl;
    intuition discriminate.
Qed.

Section PdfFailure.

Variable W : Platform.
Variables (pdfBase64 prompt cacheKey : Js.str).
Variable modelId : option ModelType.
Variable candidateProfiles : list OptimizationProfile.
Hypothesis candidates_distinct : NoDup candidateProfiles.

Local Notation attemptOf index profile :=
  (GeminiService.attempt W pdfBase64 prompt cacheKey modelId
     candidateProfiles index profile).
Local Notation bodyAt :=
  (GeminiService.attemptAt W pdfBase64 prompt cacheKey modelId
     candidateProfiles).
Local Notation run :=
  (GeminiService.attempts W pdfBase64 prompt cacheKey modelId
     candidateProfiles).

Lemma pdf_failure_handling index profile error :
  nth_error candidateProfiles index = Some profile ->
  generateContentStream W
    (GeminiService.attemptRequest pdfBase64 prompt profile modelId)
  = Throw error ->
  emitted profile_start profile (fst run) ->
  (index = length candidateProfiles - 1 ->
   snd run = Throw (GeminiService.normalizeError error)
   /\ ~ emitted profile_escalated profile (fst run))
  /\ (index <> length candidateProfiles - 1 ->
      In (Emit (bareEvent profile_escalated profile
                  (MsgPdfFailedToStart profile))) (fst run)
      /\ (forall ev, In (Emit ev) (fst run) ->
                     ev_type ev = profile_escalated ->
                     ev_profile ev = profile ->
                     ev = bareEvent profile_escalated profile
                            (MsgPdfFailedToStart profile))
      /\ exists next, nth_error candidateProfiles (index + 1) = Some next
                      /\ emitted profile_start next (fst run)).
Proof.
  intros Hidx Hgen [ev0 [Hin0 [Hty0 Hprof0]]].
  destruct (pdf_run_event_origin W pdfBase64 prompt cacheKey modelId
              candidateProfiles candidates_distinct index profile ev0
              Hidx Hin0 Hprof0) as [Hreach _].
  assert (Hlt : index < length candidateProfiles)
    by (apply nth_error_Some; congruence).
  pose proof (pdf_attempt_failed W pdfBase64 prompt cacheKey modelId
                candidateProfiles index profile error Hgen) as Hshape.
  cbv zeta in Hshape.
  pose proof (pdf_attemptAt_in_range W pdfBase64 prompt cacheKey modelId
                candidateProfiles index profile Hidx) as Hat.
  split; intro Hlast.
  - apply Nat.eqb_eq in Hlast. rewrite Hlast in Hshape. split.
    + rewrite pdf_attempts_outcome.
      rewrite (forLoop_exit _ _ (length candidateProfiles) bodyAt index Hlt
                 Hreach); rewrite Hat, Hshape; [reflexivity | discriminate].
    + intros [ev [Hin [Hty Hprof]]].
      destruct (pdf_run_event_origin W pdfBase64 prompt cacheKey modelId
                  candidateProfiles candidates_distinct index profile ev
                  Hidx Hin Hprof) as [_ Hin'].
      rewrite Hshape in Hin'. simpl in Hin'.
      destruct Hin' as [H | [H | []]]; [| discriminate].
      injection H as <-. discriminate.
  - apply Nat.eqb_neq in Hlast. rewrite Hlast in Hshape.
    assert (Hcont : snd (bodyAt index) = Continue)
      by (rewrite Hat, Hshape; reflexivity).
    split; [| split].
    + apply pdf_run_In. exists index, profile.
      repeat split; try assumption. rewrite Hshape. simpl. tauto.
    + intros ev Hin Hty Hprof.
      destruct (pdf_run_event_origin W pdfBase64 prompt cacheKey modelId
                  candidateProfiles candidates_distinct index profile ev
                  Hidx Hin Hprof) as [_ Hin'].
      rewrite Hshape in Hin'. simpl in Hin'.
      destruct Hin' as [H | [H | [H | []]]]; try discriminate.
      * injection H as <-. discriminate.
      * injection H as <-. reflexivity.
    + apply Nat.eqb_neq in Hlast.
      destruct (nth_error candidateProfiles (index + 1)) as [next |] eqn:Hnext;
        [| apply nth_error_None in Hnext; lia].
      exists next. split; [reflexivity |].
      destruct (pdf_attempt_starts W pdfBase64 prompt cacheKey modelId
                  candidateProfiles (index + 1) next)
        as [ev [Hin [Hty Hprof]]].
      exists ev. repeat split; try assumption.
      apply pdf_run_In. exists (index + 1), next.
      repeat split; try assumption.
      apply reachedFrom_next; assumption.
Qed.

End PdfFailure.

Section ImageFailure.

Variable W : Platform.
Variable images : list ImageFile.
Variables (prompt carryContext : Js.str).
Variable startIndex : nat.
Variable candidateProfiles : list OptimizationProfile.
Variable modelOverride : option ModelType.
Hypothesis candidates_distinct : NoDup candidateProfiles.
Hypothesis span_in_range : startIndex < length images.

Local Notation attemptOf i profile :=
  (ImageService.spanAttempt W images prompt carryContext startIndex
     candidateProfiles modelOverride i profile).
Local Notation bodyAt :=
  (ImageService.spanAttemptAt W images prompt carryContext startIndex
     candidateProfiles modelOverride).
Local Notation resolution :=
  (ImageService.resolveSpanWithEscalation W images prompt carryContext
     startIndex candidateProfiles modelOverride).
Local Notation theSpan := (ImageService.span images startIndex).
Local Notation promptOf profile :=
  (ImageService.buildImagePrompt prompt profile
     (ImageService.startPage startIndex)
     (ImageService.endPage images startIndex)
     (ImageService.totalPages images) carryContext).

Lemma image_resolution_loop :
  fst resolution = fst (forLoop (length candidateProfiles) bodyAt)
  /\ snd resolution
     = match snd (forLoop (length candidateProfiles) bodyAt) with
       | Return r => Ok r
       | Raise error => Throw error
       | Continue => Throw ImageService.couldNotResolve
       end.
Proof.
  unfold ImageService.resolveSpanWithEscalation.
  rewrite span_length. apply Nat.ltb_lt in span_in_range.
  rewrite span_in_range. simpl.
  destruct (forLoop _ _) as [effects [| r | e]]; split; reflexivity.
Qed.

Lemma image_attemptAt_in_range i profile :
  nth_error candidateProfiles i = Some profile ->
  bodyAt i = attemptOf i profile.
Proof. intro H. unfold ImageService.spanAttemptAt. rewrite H. reflexivity. Qed.

Lemma image_attemptAt_keys k x c :
  k < length candidateProfiles -> In x (fst (bodyAt k)) ->
  eventProfile x = Some c -> nth_error candidateProfiles k = Some c.
Proof.
  intros _ Hin Hkey. unfold ImageService.spanAttemptAt in Hin.
  destruct (nth_error candidateProfiles k) as [q |]; [| contradiction].
  destruct x as [ev | | | |]; try discriminate.
  injection Hkey as <-. f_equal. symmetry.
  eapply image_attempt_event_profile. exact Hin.
Qed.

Lemma image_event_origin i profile ev :
  nth_error candidateProfiles i = Some profile ->
  In (Emit ev) (fst resolution) -> ev_profile ev = profile ->
  reachedFrom bodyAt 0 i /\ In (Emit ev) (fst (attemptOf i profile)).
Proof.
  intros Hidx Hin Hprof. rewrite (proj1 image_resolution_loop) in Hin.
  destruct (forLoop_origin _ _ _ (length candidateProfiles) bodyAt
              eventProfile (nth_error candidateProfiles)
              image_attemptAt_keys
              (fun j k c Hj Hk =>
                 NoDup_nth_error_eq candidateProfiles j k c
                   candidates_distinct Hj Hk)
              (Emit ev) i profile Hin)
    as [_ [Hreach Hin']]; [simpl; congruence | assumption |].
  rewrite (image_attemptAt_in_range i profile Hidx) in Hin'. auto.
Qed.

Lemma image_attempt_starts i profile :
  emitted profile_start profile (fst (attemptOf i profile)).
Proof.
  unfold ImageService.spanAttempt. cbv zeta.
  destruct (ImageService.preprocessSpan W theSpan profile) as [prepared | e].
  - destruct (ImageService.runSpanAttempt W prepared _ profile modelOverride)
      as [text | e].
    + destruct (ImageService.scoreAttempt W text profile _ modelOverride)
        as [calls s].
      destruct (ImageService.accepted s); simpl;
        (eexists; split; [left; reflexivity | split; reflexivity]).
    + destruct (i =? length candidateProfiles - 1); simpl;
        (eexists; split; [left; reflexivity | split; reflexivity]).
  - destruct (i =? length candidateProfiles - 1); simpl;
      (eexists; split; [left; reflexivity | split; reflexivity]).
Qed.

Lemma image_failure_handling i profile error :
  nth_error candidateProfiles i = Some profile ->
  ImageService.preprocessSpan W theSpan profile = Throw error
  \/ (exists prepared,
        ImageService.preprocessSpan W theSpan profile = Ok prepared
        /\ ImageService.runSpanAttempt W prepared (promptOf profile) profile
             modelOverride = Throw error) ->
  emitted profile_start profile (fst resolution) ->
  (i = length candidateProfiles - 1 ->
   snd resolution = Throw (ImageService.spanFailure error)
   /\ ~ emitted profile_escalated profile (fst resolution))
  /\ (i <> length candidateProfiles - 1 ->
      In (Emit (bareEvent profile_escalated profile
                  (MsgImageFailed (ImageService.startPage startIndex)
                     (ImageService.endPage images startIndex) profile)))
         (fst resolution)
      /\ (forall ev, In (Emit ev) (fst resolution) ->
                     ev_type ev = profile_escalated ->
                     ev_profile ev = profile ->
                     ev = bareEvent profile_escalated profile
                            (MsgImageFailed (ImageService.startPage startIndex)
                               (ImageService.endPage images startIndex)
                               profile))
      /\ exists next, nth_error candidateProfiles (i + 1) = Some next
                      /\ emitted profile_start next (fst resolution)).
Proof.
  intros Hidx Hfail [ev0 [Hin0 [Hty0 Hprof0]]].
  destruct (image_event_origin i profile ev0 Hidx Hin0 Hprof0) as [Hreach _].
  assert (Hlt : i < length candidateProfiles)
    by (apply nth_error_Some; congruence).
  destruct (image_attempt_failed W images prompt carryContext startIndex
              candidateProfiles modelOverride i profile error Hfail)
    as [start [sent [Hsty [Hspr [Hsesc [Hsev Hshape]]]]]].
  pose proof (image_attemptAt_in_range i profile Hidx) as Hat.
  assert (Hsent : forall ev, ~ In (Emit ev) sent).
  { intros ev Hin. assert (Hev : In ev (events sent)).
    { unfold events. apply in_flat_map. exists (Emit ev).
      split; [assumption | left; reflexivity]. }
    rewrite Hsev in Hev. contradiction. }
  split; intro Hlast.
  - apply Nat.eqb_eq in Hlast. rewrite Hlast in Hshape. split.
    + rewrite (proj2 image_resolution_loop).
      rewrite (forLoop_exit _ _ (length candidateProfiles) bodyAt i Hlt
                 Hreach); rewrite Hat, Hshape; [reflexivity | discriminate].
    + intros [ev [Hin [Hty Hprof]]].
      destruct (image_event_origin i profile ev Hidx Hin Hprof) as [_ Hin'].
      rewrite Hshape in Hin'. simpl in Hin'.
      destruct Hin' as [H | H]; [| exact (Hsent ev H)].
      injection H as <-. congruence.
  - apply Nat.eqb_neq in Hlast. rewrite Hlast in Hshape.
    assert (Hcont : snd (bodyAt i) = Continue)
      by (rewrite Hat, Hshape; reflexivity).
    split; [| split].
    + rewrite (proj1 image_resolution_loop).
      apply (forLoop_reached_In _ _ (length candidateProfiles) bodyAt _ i Hlt
               Hreach).
      rewrite Hat, Hshape. simpl. right. apply in_or_app. right.
      left. reflexivity.
    + intros ev Hin Hty Hprof.
      destruct (image_event_origin i profile ev Hidx Hin Hprof) as [_ Hin'].
      rewrite Hshape in Hin'. simpl in Hin'.
      destruct Hin' as [H | H]; [injection H as <-; congruence |].
      apply in_app_or in H. destruct H as [H | [H | []]];
        [exfalso; exact (Hsent ev H) |].
      injection H as <-. reflexivity.
    + apply Nat.eqb_neq in Hlast.
      destruct (nth_error candidateProfiles (i + 1)) as [next |] eqn:Hnext;
        [| apply nth_error_None in Hnext; lia].
      exists next. split; [reflexivity |].
      destruct (image_attempt_starts (i + 1) next) as [ev [Hin [Hty Hprof]]].
      exists ev. repeat split; try assumption.
      rewrite (proj1 image_resolution_loop).
      apply (forLoop_reached_In _ _ (length candidateProfiles) bodyAt _
               (i + 1)).
      * apply nth_error_Some. congruence.
      * apply reachedFrom_next; assumption.
      * rewrite (image_attemptAt_in_range (i + 1) next Hnext). exact Hin.
Qed.

End ImageFailure.

(** C7. When the inference call of an attempt fails: at the last candidate
    profile the normalized failure leaves the run (for a PDF the generator
    throws it; for an image span the resolution throws it, the sequence
    loop stops there and the generator throws it, with no cache write and no
    completion behind it), and no escalation is announced for that profile;
    at any other candidate profile the attempt announces an escalation
    whose event carries the failure message and none of the quality fields,
    and it is the only escalation event of that profile, and the run goes
    on to start the next candidate profile. For an image span the failure
    may also come from the canvas work. *)
Theorem C7_failure_escalates_or_aborts (W : Platform) :
  (forall pdfBase64 prompt modelId index profile error,
      let candidates :=
        GeminiService.resolvePdfCandidateProfiles pdfBase64 modelId in
      let run :=
        GeminiService.analyzePdfStream W pdfBase64 prompt modelId None in
      nth_error candidates index = Some profile ->
      generateContentStream W
        (GeminiService.attemptRequest pdfBase64 prompt profile modelId)
      = Throw error ->
      emitted profile_start profile (fst run) ->
      (index = length candidates - 1 ->
       snd run = Throw (GeminiService.normalizeError error)
       /\ ~ emitted profile_escalated profile (fst run))
      /\ (index <> length candidates - 1 ->
          In (Emit (bareEvent profile_escalated profile
                      (MsgPdfFailedToStart profile))) (fst run)
          /\ (forall ev, In (Emit ev) (fst run) ->
                         ev_type ev = profile_escalated ->
                         ev_profile ev = profile ->
                         ev = bareEvent profile_escalated profile
                                (MsgPdfFailedToStart profile))
          /\ exists next, nth_error candidates (index + 1) = Some next
                          /\ emitted profile_start next (fst run)))
  /\ (forall images prompt carryContext startIndex modelId i profile error,
        let candidates := ImageService.resolveImageCandidateProfiles modelId in
        let resolution :=
          ImageService.resolveSpanWithEscalation W images prompt carryContext
            startIndex candidates modelId in
        let failureMessage :=
          MsgImageFailed (ImageService.startPage startIndex)
            (ImageService.endPage images startIndex) profile in
        startIndex < length images ->
        nth_error candidates i = Some profile ->
        ImageService.preprocessSpan W (ImageService.span images startIndex)
          profile = Throw error
        \/ (exists prepared,
              ImageService.preprocessSpan W
                (ImageService.span images startIndex) profile = Ok prepared
              /\ ImageService.runSpanAttempt W prepared
                   (ImageService.buildImagePrompt prompt profile
                      (ImageService.startPage startIndex)
                      (ImageService.endPage images startIndex)
                      (ImageService.totalPages images) carryContext)
                   profile modelId = Throw error) ->
        emitted profile_start profile (fst resolution) ->
        (i = length candidates - 1 ->
         snd resolution = Throw (ImageService.spanFailure error)
         /\ ~ emitted profile_escalated profile (fst resolution))
        /\ (i <> length candidates - 1 ->
            In (Emit (bareEvent profile_escalated profile failureMessage))
               (fst resolution)
            /\ (forall ev, In (Emit ev) (fst resolution) ->
                           ev_type ev = profile_escalated ->
                           ev_profile ev = profile ->
                           ev = bareEvent profile_escalated profile
                                  failureMessage)
            /\ exists next, nth_error candidates (i + 1) = Some next
                            /\ emitted profile_start next (fst resolution)))
  /\ (forall images prompt modelId candidates fuel st error,
        ImageService.cursor st < length images ->
        snd (ImageService.resolveSpanWithEscalation W images prompt
               (ImageService.carryContext st) (ImageService.cursor st)
               candidates modelId) = Throw error ->
        ImageService.spansFrom W images prompt modelId candidates (S fuel) st
        = (fst (ImageService.resolveSpanWithEscalation W images prompt
                  (ImageService.carryContext st) (ImageService.cursor st)
                  candidates modelId),
           Throw error))
  /\ (forall images prompt modelId effects error,
        ImageService.spansFrom W images prompt modelId
          (ImageService.resolveImageCandidateProfiles modelId)
          (length images)
          (ImageService.initialState
             (ImageService.resolveImageCandidateProfiles modelId))
        = (effects, Throw error) ->
        ImageService.analyzeImageSequenceStream W images prompt modelId None
        = (effects, Throw error)).
Proof.
  split; [| split; [| split]].
  - intros pdfBase64 prompt modelId index profile error. cbv zeta.
    rewrite pdf_live_run.
    apply pdf_failure_handling. apply pdf_candidates_NoDup.
  - intros images prompt carryContext startIndex modelId i profile error.
    cbv zeta. intros Hspan.
    apply image_failure_handling;
      [apply image_candidates_NoDup | exact Hspan].
  - intros images prompt modelId candidates fuel st error Hlt Hres.
    rewrite (image_spans_step W images prompt modelId candidates fuel st Hlt).
    rewrite Hres. reflexivity.
  - intros images prompt modelId effects error Hloop.
    rewrite image_live_run, Hloop. reflexivity.
Qed.

(** C7 at work, with the low tier of the service down. A small PDF without
    an override: the attempt at balanced fails, the escalation is announced
    with the failure message alone, and accuracy starts. The same PDF with
    the low tier pinned: balanced is the only and last candidate, and the
    run throws the normalized failure. *)
Lemma C7_failure_escalates_or_aborts_witness :
  (In (Emit (bareEvent profile_escalated balanced
               (MsgPdfFailedToStart balanced)))
      (fst (GeminiService.analyzePdfStream (highTierWorld longPage)
              (Js.lit "JVBERi0=") (Js.lit "") None None))
   /\ exists next,
        nth_error
          (GeminiService.resolvePdfCandidateProfiles (Js.lit "JVBERi0=") None)
          (0 + 1) = Some next
        /\ emitted profile_start next
             (fst (GeminiService.analyzePdfStream (highTierWorld longPage)
                     (Js.lit "JVBERi0=") (Js.lit "") None None)))
  /\ snd (GeminiService.analyzePdfStream (highTierWorld longPage)
            (Js.lit "JVBERi0=") (Js.lit "") (Some FLASH) None)
     = Throw (GeminiService.normalizeError (ErrorObject (Js.lit "503"))).
Proof.
  destruct (C7_failure_escalates_or_aborts (highTierWorld longPage))
    as [Hpdf _].
  split.
  - destruct (Hpdf (Js.lit "JVBERi0=") (Js.lit "") None 0 balanced
                (ErrorObject (Js.lit "503")) eq_refl eq_refl)
      as [_ Hnext].
    + apply emittedb_sound. vm_compute. reflexivity.
    + destruct (Hnext ltac:(simpl; lia)) as [Hin [_ Hstart]].
      split; assumption.
  - destruct (Hpdf (Js.lit "JVBERi0=") (Js.lit "") (Some FLASH) 0 balanced
                (ErrorObject (Js.lit "503")) eq_refl eq_refl)
      as [Hlast _].
    + apply emittedb_sound. vm_compute. reflexivity.
    + destruct (Hlast eq_refl) as [Hthrow _]. exact Hthrow.
Defined.

(** ** The theorems at work *)



(** C4 at work: the attempt at balanced of a small PDF, with the low tier
    down, fails and writes nothing; the run then accepts accuracy and
    writes once. *)
Lemma C4_cache_written_only_after_acceptance_witness :
  filter isWrite
    (fst (GeminiService.attempt (highTierWorld longPage) (Js.lit "JVBERi0=")
            (Js.lit "") (Js.lit "key") None [balanced; accuracy] 0 balanced))
  = []
  /\ length
       (filter isWrite
          (fst (GeminiService.analyzePdfStream (highTierWorld longPage)
                  (Js.lit "JVBERi0=") (Js.lit "") None None))) = 1.
Proof.
  destruct (C4_cache_written_only_after_acceptance (highTierWorld longPage))
    as [_ [Hattempt _]].
  split.
  - apply Hattempt. intros a H. vm_compute in H. discriminate.
  - vm_compute. reflexivity.
Defined.

(** ** Fuel *)

(** [bound] iterations of fuel are enough for the [for] loop: more changes
    nothing. *)
Lemma forLoopFrom_fuel {E A} (bound : nat) (body : nat -> list E * Completion A)
  (fuel fuel' index : nat) :
  bound - index <= fuel -> fuel <= fuel' ->
  forLoopFrom bound body fuel' index = forLoopFrom bound body fuel index.
Proof.
  revert fuel' index. induction fuel as [| fuel IH];
    intros fuel' index Hfuel Hle.
  - rewrite (forLoopFrom_past _ _ bound body fuel' index) by lia.
    reflexivity.
  - destruct fuel' as [| fuel']; [lia |].
    destruct (Nat.lt_ge_cases index bound) as [Hlt | Hge].
    + rewrite !(forLoopFrom_step _ _ bound body _ index Hlt).
      rewrite (IH fuel' (index + 1)) by lia. reflexivity.
    + rewrite !(forLoopFrom_past _ _ bound body _ index Hge). reflexivity.
Qed.

(** One unit of fuel for every page left is enough for the loop over the
    spans. *)
Lemma image_spans_fuel (W : Platform) (images : list ImageFile)
  (prompt : Js.str) (modelId : option ModelType)
  (candidates : list OptimizationProfile) (fuel fuel' : nat)
  (st : ImageService.SequenceState) :
  length images - ImageService.cursor st <= fuel -> fuel <= fuel' ->
  ImageService.spansFrom W images prompt modelId candidates fuel' st
  = ImageService.spansFrom W images prompt modelId candidates fuel st.
Proof.
  revert fuel' st. induction fuel as [| fuel IH]; intros fuel' st Hfuel Hle.
  - rewrite (image_spans_done W images prompt modelId candidates fuel' st)
      by lia.
    reflexivity.
  - destruct fuel' as [| fuel']; [lia |].
    destruct (Nat.lt_ge_cases (ImageService.cursor st) (length images))
      as [Hlt | Hge].
    + rewrite !(image_spans_step W images prompt modelId candidates _ st Hlt).
      pose proof (image_resolution_summary W images prompt
                    (ImageService.carryContext st) (ImageService.cursor st)
                    candidates modelId) as [_ [_ [_ Hr]]].
      destruct (snd (ImageService.resolveSpanWithEscalation W images prompt
                       (ImageService.carryContext st)
                       (ImageService.cursor st) candidates modelId))
        as [r | e]; [| reflexivity].
      destruct (Hr r eq_refl) as [Hcons _].
      rewrite (IH fuel' (advance st r)); [reflexivity | simpl; lia | lia].
    + rewrite !(image_spans_done W images prompt modelId candidates _ st Hge).
      reflexivity.
Qed.

(** ** Examples *)

Example candidates_of_a_small_pdf :
  GeminiService.toMB (Js.lit "JVBERi0=") = 0%Z
  /\ GeminiService.resolvePdfCandidateProfiles (Js.lit "JVBERi0=") None
     = [balanced; accuracy]
  /\ GeminiService.resolvePdfCandidateProfiles (Js.lit "JVBERi0=") (Some PRO)
     = [accuracy]
  /\ GeminiService.resolvePdfCandidateProfiles (Js.lit "JVBERi0=")
       (Some FLASH) = [balanced].
Proof. repeat split. Qed.

Example required_scores :
  (GeminiService.requiredPdfScore economy == 0.48)%Q
  /\ (GeminiService.requiredPdfScore balanced == 0.62)%Q
  /\ (GeminiService.requiredPdfScore accuracy == 0)%Q.
Proof. repeat split. Qed.

Example signals_of_a_page :
  let s :=
    textSignals
      (Js.lit "# Ledger" ++ [Js.CR; Js.LF] ++ Js.lit "item | sum"
       ++ [Js.LF] ++ Js.lit "ab" ++ [Js.LF; Js.LF]
       ++ Js.lit "!!!!!! zzzzzzzzz") in
  length (lines s) = 4 /\ shortLineCount s = 1
  /\ markdownHeadingCount s = 1 /\ tableLineCount s = 1
  /\ punctuationBlobs s = 1 /\ repeatedGlyphBurstCount s = 1
  /\ veryLongTokenCount s = 0 /\ (shortLineRate s == 0.25)%Q.
Proof. vm_compute. repeat split. Qed.

Example quality_of_a_clean_page :
  (score (GeminiService.evaluateQuality longPage) == 1)%Q
  /\ reasons (GeminiService.evaluateQuality longPage)
     = ["Transcription quality is stable"%string].
Proof. split; vm_compute; reflexivity. Qed.

Example chunks_of_a_page :
  map (@length Js.char) (createTextStream longPage) = [1400; 100]
  /\ createTextStream [] = [].
Proof. split; vm_compute; reflexivity. Qed.

Example verdict_in_a_fence :
  parseVerifierScore (JSON_parse (steadyWorld []))
    (Js.lit "```json" ++ [Js.LF] ++ verdictText ++ [Js.LF] ++ Js.lit "```")
  = Ok (Some (clamp01 (Finite 0.9%Q))).
Proof. vm_compute. reflexivity. Qed.

Example verdict_inside_prose :
  parseVerifierScore (JSON_parse (steadyWorld []))
    (Js.lit "Here you go: " ++ verdictText ++ Js.lit " Thanks.")
  = Ok (Some (clamp01 (Finite 0.9%Q))).
Proof. vm_compute. reflexivity. Qed.

Example verdict_out_of_range :
  parseVerifierScore
    (fun _ => Ok (JObject [(Js.lit "score", JNumber (Finite 7%Q))])) []
  = Ok (Some 1%Q)
  /\ parseVerifierScore
       (fun _ => Ok (JObject [(Js.lit "score", JNumber NegInfinity)])) []
     = Ok (Some 0%Q)
  /\ parseVerifierScore (fun _ => Ok JNull) [] = Ok None
  /\ parseVerifierScore
       (fun _ => Ok (JObject [(Js.lit "score", JString (Js.lit "0.9"))])) []
     = Ok None.
Proof. repeat split. Qed.

Example carry_context_of_a_page :
  ImageService.extractCarryContext
    (Js.lit "# Ledger" ++ [Js.LF] ++ Js.lit "item | sum" ++ [Js.LF]
     ++ Js.lit "# Ledger" ++ [Js.LF] ++ Js.lit "carried forward")
    240
  = Js.lit "# Ledger" ++ [Js.LF] ++ Js.lit "item | sum" ++ [Js.LF]
    ++ Js.lit "carried forward".
Proof. vm_compute. reflexivity. Qed.

(** * Further properties of the services *)

(** ** The fallback hash *)


Lemma toInt32_range (z : Z) :
  (- 2 ^ 31 <= Hash.toInt32 z < 2 ^ 31)%Z.
Proof.
  unfold Hash.toInt32.
  pose proof (Z.mod_pos_bound (z + 2 ^ 31) (2 ^ 32) ltac:(lia)). lia.
Qed.





Lemma parseHex_from (s : Js.str) (acc : Z) :
  fold_left (fun a c => (a * 16 + hexValue c)%Z) s acc
  = (acc * 16 ^ Z.of_nat (length s) + parseHex s)%Z.
Proof.
  unfold parseHex. revert acc. induction s as [| c r IH]; intro acc.
  - simpl. lia.
  - cbn [fold_left]. rewrite (IH (acc * 16 + hexValue c)%Z), (IH (0 * 16 + hexValue c)%Z).
    replace (Z.of_nat (length (c :: r))) with (Z.of_nat (length r) + 1)%Z
      by (simpl; lia).
    rewrite Z.pow_add_r by lia. lia.
Qed.

Lemma hexValue_digit (d : Z) :
  (0 <= d < 16)%Z ->
  hexValue (Hash.hexDigit d) = d /\ isLowerHex (Hash.hexDigit d) = true.
Proof.
  intro Hd. unfold Hash.hexDigit, hexValue, isLowerHex, Js.between.
  destruct (Z.ltb_spec d 10).
  - assert (Hlt : (Z.to_N (48 + d) <? 58)%N = true) by (apply N.ltb_lt; lia).
    rewrite Hlt. split; [lia |].
    apply orb_true_iff. left. apply andb_true_iff.
    split; apply N.leb_le; lia.
  - assert (Hge : (Z.to_N (87 + d) <? 58)%N = false) by (apply N.ltb_ge; lia).
    rewrite Hge. split; [lia |].
    apply orb_true_iff. right. apply andb_true_iff.
    split; apply N.leb_le; lia.
Qed.

Lemma toHexFrom_step (fuel : nat) (n : Z) (acc : Js.str) :
  Hash.toHexFrom (S fuel) n acc
  = if (n / 16 =? 0)%Z then Hash.hexDigit (n mod 16) :: acc
    else Hash.toHexFrom fuel (n / 16) (Hash.hexDigit (n mod 16) :: acc).
Proof. reflexivity. Qed.

(** The digits [toHexFrom] puts in front of [acc] spell [n] without a
    leading zero, and are hexadecimal digits. *)
Lemma toHexFrom_spec (fuel : nat) (n : Z) (acc : Js.str) :
  (0 <= n < 16 ^ Z.of_nat (S fuel))%Z ->
  exists digits,
    Hash.toHexFrom (S fuel) n acc = digits ++ acc
    /\ parseHex digits = n
    /\ 1 <= length digits
    /\ (forall k, 1 <= k -> (n < 16 ^ Z.of_nat k)%Z -> length digits <= k)
    /\ (length digits = 1 \/ (16 ^ Z.of_nat (length digits - 1) <= n)%Z)
    /\ Forall (fun c => isLowerHex c = true) digits.
Proof.
  revert n acc. induction fuel as [| fuel IH]; intros n acc Hn.
  - change (16 ^ Z.of_nat 1)%Z with 16%Z in Hn.
    exists [Hash.hexDigit n]. simpl.
    rewrite Z.mod_small, Z.div_small by lia. simpl.
    destruct (hexValue_digit n Hn) as [Hv Hh].
    split; [reflexivity |]. split; [unfold parseHex; simpl; lia |].
    split; [lia |]. split; [intros; lia |]. split; [left; reflexivity |].
    constructor; [exact Hh | constructor].
  - assert (Hpow : (16 ^ Z.of_nat (S (S fuel)) = 16 * 16 ^ Z.of_nat (S fuel))%Z).
    { rewrite (Nat2Z.inj_succ (S fuel)), Z.pow_succ_r by lia. reflexivity. }
    pose proof (Z.div_mod n 16 ltac:(lia)) as Hdm.
    pose proof (Z.mod_pos_bound n 16 ltac:(lia)) as Hmod.
    destruct (hexValue_digit (n mod 16) Hmod) as [Hv Hh].
    rewrite toHexFrom_step.
    destruct (Z.eqb_spec (n / 16) 0) as [Hz | Hnz].
    + exists [Hash.hexDigit (n mod 16)].
      split; [reflexivity |]. split; [unfold parseHex; simpl; lia |].
      split; [simpl; lia |]. split; [intros; simpl; lia |].
      split; [left; reflexivity |].
      constructor; [exact Hh | constructor].
    + assert (Hq : (0 <= n / 16 < 16 ^ Z.of_nat (S fuel))%Z).
      { split; [apply Z.div_pos; lia |].
        apply Z.div_lt_upper_bound; lia. }
      destruct (IH (n / 16)%Z (Hash.hexDigit (n mod 16) :: acc) Hq)
        as [digits [Heq [Hval [Hlen [Hupper [Hlower Hall]]]]]].
      exists (digits ++ [Hash.hexDigit (n mod 16)]).
      rewrite Heq, <- app_assoc. split; [reflexivity |].
      split; [| split; [| split; [| split]]].
      * unfold parseHex. rewrite fold_left_app. fold (parseHex digits).
        rewrite Hval. simpl. lia.
      * rewrite length_app. simpl. lia.
      * intros k Hk Hnk. rewrite length_app. simpl.
        destruct k as [| [| k]]; [lia | |].
        -- change (16 ^ Z.of_nat 1)%Z with 16%Z in Hnk.
           exfalso. apply Hnz. apply Z.div_small. lia.
        -- assert (length digits <= S k); [| lia].
           apply Hupper; [lia |].
           rewrite (Nat2Z.inj_succ (S k)), Z.pow_succ_r in Hnk by lia.
           apply Z.div_lt_upper_bound; lia.
      * right. rewrite length_app. simpl.
        replace (length digits + 1 - 1) with (S (length digits - 1)) by lia.
        rewrite Nat2Z.inj_succ, Z.pow_succ_r by lia.
        assert (H1 : (1 <= n / 16)%Z).
        { pose proof (Z.div_pos n 16 ltac:(lia) ltac:(lia)). lia. }
        destruct Hlower as [Hone | Hlow].
        -- rewrite Hone. simpl. lia.
        -- lia.
      * apply Forall_app. split; [exact Hall |].
        constructor; [exact Hh | constructor].
Qed.

Lemma toString16_spec (n : Z) :
  (0 <= n)%Z ->
  parseHex (Hash.toString16 n) = n
  /\ 1 <= length (Hash.toString16 n)
  /\ (forall k, 1 <= k -> (n < 16 ^ Z.of_nat k)%Z ->
                length (Hash.toString16 n) <= k)
  /\ (length (Hash.toString16 n) = 1
      \/ (16 ^ Z.of_nat (length (Hash.toString16 n) - 1) <= n)%Z)
  /\ Forall (fun c => isLowerHex c = true) (Hash.toString16 n).
Proof.
  intros Hn. unfold Hash.toString16.
  assert (Hfuel : (0 <= n < 16 ^ Z.of_nat (S (Z.to_nat (Z.log2 n))))%Z).
  { split; [lia |]. destruct (Z.eq_dec n 0) as [-> | Hne].
    - simpl. lia.
    - pose proof (Z.log2_spec n ltac:(lia)) as Hl.
      pose proof (Z.log2_nonneg n) as Hl0.
      rewrite Nat2Z.inj_succ, Z2Nat.id by lia.
      eapply Z.lt_le_trans; [apply Hl |].
      apply Z.pow_le_mono_l. lia. }
  destruct (toHexFrom_spec _ n [] Hfuel)
    as [digits [Heq [Hval [Hlen [Hupper [Hlower Hall]]]]]].
  rewrite Heq, app_nil_r. repeat split; assumption.
Qed.


Lemma fastHashFrom_app (h : Z) (a b : Js.str) :
  Hash.fastHashFrom h (a ++ b) = Hash.fastHashFrom (Hash.fastHashFrom h a) b.
Proof.
  revert h. induction a as [| c r IH]; intro h; [reflexivity |].
  simpl. apply IH.
Qed.

Lemma fastHashFrom_bound (input : Js.str) (h : Z) :
  Forall (fun c => (c < 65536)%N) input ->
  (Z.abs (Hash.fastHashFrom h input)
   <= Z.abs h + Z.of_nat (length input) * (2 ^ 31 + 65535))%Z.
Proof.
  revert h. induction input as [| c r IH]; intros h Hall.
  - simpl. lia.
  - inversion Hall as [| ? ? Hc Hr]; subst.
    cbn [Hash.fastHashFrom]. specialize (IH (Hash.shiftLeft5 h + h + Hash.charCode c)%Z Hr).
    pose proof (toInt32_range (Z.shiftl (Hash.toInt32 h) 5)) as Hs.
    fold (Hash.shiftLeft5 h) in Hs.
    unfold Hash.charCode in *.
    replace (Z.of_nat (length (c :: r))) with (Z.of_nat (length r) + 1)%Z
      by (simpl; lia).
    lia.
Qed.

(** X2. On an input of at most 2^21 UTF-16 code units, the variable [hash]
    of [fastHash] is, after every iteration, an integer below 2^53 in absolute
    value, where additions of doubles are exact. *)
Theorem X2_fastHash_stays_exact (input : Js.str) (k : nat)
  (Hunits : Forall (fun c => (c < 65536)%N) input)
  (Hlength : (Z.of_nat (length input) <= 2 ^ 21)%Z) :
  (Z.abs (hashAfter k input) < 2 ^ 53)%Z.
Proof.
  unfold hashAfter.
  assert (Hall : Forall (fun c => (c < 65536)%N) (firstn k input)).
  { rewrite <- (firstn_skipn k input) in Hunits.
    apply Forall_app in Hunits. apply Hunits. }
  pose proof (fastHashFrom_bound _ 5381 Hall) as Hb.
  pose proof (length_firstn k input) as Hlen.
  change (2 ^ 21)%Z with 2097152%Z in Hlength.
  assert (Hk : (Z.of_nat (length (firstn k input)) <= 2097152)%Z) by lia.
  change (2 ^ 53)%Z with 9007199254740992%Z.
  change (2 ^ 31 + 65535)%Z with 2147549183%Z in Hb.
  change (Z.abs 5381) with 5381%Z in Hb. nia.
Qed.

(** X2 at work: the six letters of a prompt, and the hash they give. *)
Lemma X2_fastHash_stays_exact_witness :
  (Z.abs (hashAfter 6 (Js.lit "prompt")) < 2 ^ 53)%Z
  /\ hashAfter 6 (Js.lit "prompt") = 359559495%Z
  /\ Hash.fastHash (Js.lit "prompt") = Js.lit "156e7147".
Proof.
  split; [| split].
  - apply (X2_fastHash_stays_exact (Js.lit "prompt") 6).
    + repeat constructor.
    + vm_compute. discriminate.
  - vm_compute. reflexivity.
  - vm_compute. reflexivity.
Defined.

(** ** The digest wrapper *)

Lemma byte_in_hex (b : N) :
  (b < 256)%N ->
  exists hi lo,
    Hash.padStart2 (Hash.toString16 (Z.of_N b)) = [hi; lo]
    /\ isLowerHex hi = true /\ isLowerHex lo = true
    /\ Z.to_N (hexValue hi * 16 + hexValue lo) = b.
Proof.
  intro Hb.
  destruct (toString16_spec (Z.of_N b) ltac:(lia))
    as [Hval [Hlen [Hupper [_ Hall]]]].
  assert (Hle : length (Hash.toString16 (Z.of_N b)) <= 2).
  { apply Hupper; [lia |]. change (16 ^ Z.of_nat 2)%Z with 256%Z. lia. }
  destruct (Hash.toString16 (Z.of_N b)) as [| x [| y [| z r]]];
    simpl in Hlen, Hle; try lia.
  - exists 48%N, x. inversion Hall; subst.
    repeat split; try assumption; try reflexivity.
    unfold parseHex in Hval. simpl in Hval.
    change (hexValue 48%N) with 0%Z. lia.
  - exists x, y. inversion Hall as [| ? ? Hx Hr]; subst.
    inversion Hr; subst.
    repeat split; try assumption; try reflexivity.
    unfold parseHex in Hval. simpl in Hval. lia.
Qed.

Lemma bytes_in_hex (bytes : list N) :
  Forall (fun b => (b < 256)%N) bytes ->
  let out :=
    concat
      (map (fun byte => Hash.padStart2 (Hash.toString16 (Z.of_N byte))) bytes) in
  length out = 2 * length bytes
  /\ Forall (fun c => isLowerHex c = true) out
  /\ parseHexBytes out = bytes.
Proof.
  induction 1 as [| b rest Hb Hrest IH]; cbv zeta.
  - repeat split. constructor.
  - destruct (byte_in_hex b Hb) as [hi [lo [Heq [Hhi [Hlo Hback]]]]].
    cbv zeta in IH. destruct IH as [IHlen [IHall IHback]].
    cbn [map concat]. rewrite Heq. cbn [app parseHexBytes length].
    rewrite IHlen, IHback, Hback.
    split; [lia |]. split; [| reflexivity].
    constructor; [exact Hhi |]. constructor; [exact Hlo | exact IHall].
Qed.

(** X3. When the platform's digest resolves, [sha256Hex] writes every byte
    of it as exactly two lowercase hexadecimal digits, most significant first,
    so that the bytes can be read back (32 bytes give 64 digits); when there is
    no [crypto.subtle], or the encoder or the digest throws, the result is that
    of [fastHash]. *)
Theorem X3_sha256Hex_two_digits_per_byte
  (digest : list N -> Result (list N)) (encode : Js.str -> Result (list N))
  (input : Js.str) (bytes hashed : list N)
  (Hencode : encode input = Ok bytes)
  (Hdigest : digest bytes = Ok hashed)
  (Hbytes : Forall (fun b => (b < 256)%N) hashed) :
  let out := Hash.sha256Hex (Some digest) encode input in
  length out = 2 * length hashed
  /\ Forall (fun c => isLowerHex c = true) out
  /\ parseHexBytes out = hashed
  /\ (forall other e,
        encode other = Throw e ->
        Hash.sha256Hex (Some digest) encode other = Hash.fastHash other)
  /\ (forall other data e,
        encode other = Ok data -> digest data = Throw e ->
        Hash.sha256Hex (Some digest) encode other = Hash.fastHash other)
  /\ Hash.sha256Hex None encode input = Hash.fastHash input.
Proof.
  cbv zeta. unfold Hash.sha256Hex. rewrite Hencode, Hdigest.
  destruct (bytes_in_hex hashed Hbytes) as [Hlen [Hall Hback]].
  repeat split; try assumption.
  - intros other e He. rewrite He. reflexivity.
  - intros other data e He Hd. rewrite He, Hd. reflexivity.
Qed.

(** X3 at work: a digest of four bytes, with a leading zero byte and a byte
    below sixteen. *)
Lemma X3_sha256Hex_two_digits_per_byte_witness :
  Hash.sha256Hex (Some (fun _ => Ok [0; 171; 9; 255]%N)) (fun _ => Ok [])
    (Js.lit "prompt")
  = Js.lit "00ab09ff"
  /\ parseHexBytes
       (Hash.sha256Hex (Some (fun _ => Ok [0; 171; 9; 255]%N))
          (fun _ => Ok []) (Js.lit "prompt"))
     = [0; 171; 9; 255]%N.
Proof.
  split; [vm_compute; reflexivity |].
  apply (X3_sha256Hex_two_digits_per_byte
           (fun _ => Ok [0; 171; 9; 255]%N) (fun _ => Ok [])
           (Js.lit "prompt") [] [0; 171; 9; 255]%N eq_refl eq_refl).
  repeat constructor.
Defined.

(** ** The cache keys *)

Lemma slice_ext {A} (xs ys : list A) (from to : nat) :
  length xs = length ys ->
  (forall i, from <= i < to -> nth_error xs i = nth_error ys i) ->
  Js.slice xs (Z.of_nat from) (Z.of_nat to)
  = Js.slice ys (Z.of_nat from) (Z.of_nat to).
Proof.
  intros Hlen Hsame. rewrite !slice_of_nat, <- Hlen.
  apply nth_error_ext. intro i.
  rewrite !nth_error_firstn, !nth_error_skipn.
  destruct (Nat.ltb_spec i
              (Nat.min to (length xs) - Nat.min from (length xs)));
    [| reflexivity].
  destruct (Nat.le_gt_cases (length xs) (Nat.min from (length xs) + i))
    as [Hout | Hin].
  - rewrite (proj2 (nth_error_None xs _) Hout).
    symmetry. apply nth_error_None. lia.
  - apply Hsame. lia.
Qed.

Lemma lastN_ext {A} (xs ys : list A) (n : nat) :
  length xs = length ys ->
  (forall i, length xs - n <= i -> nth_error xs i = nth_error ys i) ->
  lastN n xs = lastN n ys.
Proof.
  intros Hlen Hsame. unfold lastN. rewrite <- Hlen.
  apply nth_error_ext. intro i. rewrite !nth_error_skipn.
  apply Hsame. lia.
Qed.

(** X4. The cache key of a PDF depends on the payload through its length and
    through at most 1536 of its characters, the first 512, the 512 around the
    middle and the last 512. Two payloads of the same length that agree there
    have the same key, under the same prompt and whatever the hash is. *)
Theorem X4_pdf_cache_key_reads_three_windows
  (W : Platform) (pdfBase64 other prompt : Js.str)
  (Hlength : length pdfBase64 = length other)
  (Hwindows :
     forall i, sampledByPdfKey (length pdfBase64) i = true ->
               nth_error pdfBase64 i = nth_error other i) :
  GeminiService.buildPdfCacheKey W pdfBase64 prompt
  = GeminiService.buildPdfCacheKey W other prompt.
Proof.
  unfold GeminiService.buildPdfCacheKey. cbv zeta. rewrite <- Hlength.
  set (len := length pdfBase64) in *.
  assert (Hmid : Z.max 0 (Z.of_nat (len / 2) - 256)
                 = Z.of_nat (len / 2 - 256)) by lia.
  rewrite Hmid.
  replace (Z.of_nat (len / 2 - 256) + 512)%Z
    with (Z.of_nat (len / 2 - 256 + 512)) by lia.
  change 0%Z with (Z.of_nat 0). change 512%Z with (Z.of_nat 512).
  change (-512)%Z with (- Z.of_nat 512)%Z.
  rewrite !(sliceFrom_negative _ 512) by lia.
  rewrite (slice_ext pdfBase64 other 0 512 Hlength).
  2:{ intros i Hi. apply Hwindows. unfold sampledByPdfKey. cbv zeta.
      destruct (Nat.ltb_spec i 512); [reflexivity | lia]. }
  rewrite (slice_ext pdfBase64 other (len / 2 - 256) (len / 2 - 256 + 512)
             Hlength).
  2:{ intros i Hi. apply Hwindows. unfold sampledByPdfKey. cbv zeta.
      fold len.
      destruct (Nat.leb_spec (len / 2 - 256) i); [| lia].
      destruct (Nat.ltb_spec i (len / 2 - 256 + 512)); [| lia].
      rewrite orb_true_r. reflexivity. }
  rewrite (lastN_ext pdfBase64 other 512 Hlength).
  2:{ intros i Hi. apply Hwindows. unfold sampledByPdfKey. cbv zeta.
      fold len in Hi |- *.
      destruct (Nat.leb_spec (len - 512) i); [| lia].
      rewrite orb_true_r. reflexivity. }
  reflexivity.
Qed.

Lemma nth_error_middle {A} (pre post : list A) (x y : A) (i : nat) :
  i <> length pre ->
  nth_error (pre ++ x :: post) i = nth_error (pre ++ y :: post) i.
Proof.
  intro Hne. destruct (Nat.lt_ge_cases i (length pre)) as [Hlt | Hge].
  - rewrite !nth_error_app1 by exact Hlt. reflexivity.
  - rewrite !nth_error_app2 by exact Hge.
    destruct (i - length pre) as [| k] eqn:Hk; [lia | reflexivity].
Qed.

(** X4 at work: two different payloads, one key. *)
Lemma X4_pdf_cache_key_reads_three_windows_witness :
  nth_error payloadA 600 = Some 65%N
  /\ nth_error payloadB 600 = Some 66%N
  /\ GeminiService.buildPdfCacheKey (steadyWorld []) payloadA (Js.lit "")
     = GeminiService.buildPdfCacheKey (steadyWorld []) payloadB (Js.lit "").
Proof.
  split; [reflexivity |]. split; [reflexivity |].
  apply (X4_pdf_cache_key_reads_three_windows (steadyWorld []) payloadA payloadB
           (Js.lit "") eq_refl).
  intros i Hi. destruct (Nat.eq_dec i 600) as [-> | Hne].
  - vm_compute in Hi. discriminate Hi.
  - apply (nth_error_middle (repeat 65%N 600) (repeat 65%N 1399)).
    rewrite repeat_length. exact Hne.
Defined.

Lemma mapIdx_ext {A B} (f g : A -> nat -> B) (xs ys : list A) (idx : nat) :
  Forall2 (fun x y => forall i, f x i = g y i) xs ys ->
  ImageService.mapIdx f idx xs = ImageService.mapIdx g idx ys.
Proof.
  intro H. revert idx. induction H as [| x y xs ys Hxy _ IH]; intro idx.
  - reflexivity.
  - simpl. rewrite Hxy, IH. reflexivity.
Qed.

(** X5. The cache key of an image sequence depends on an image through its
    file metadata, the length of its data and the first and last 64 characters
    of the data; an image without data counts as one with empty data. Sequences
    that agree on these, image by image, have the same key under the same prompt
    and model choice. *)
Theorem X5_image_cache_key_reads_the_faces
  (W : Platform) (images others : list ImageFile) (prompt : Js.str)
  (modelOverride : option ModelType)
  (Hfaces : Forall2 sameFace images others) :
  ImageService.buildImageCacheKey W images prompt modelOverride
  = ImageService.buildImageCacheKey W others prompt modelOverride.
Proof.
  unfold ImageService.buildImageCacheKey. cbv zeta.
  match goal with
  | |- context [ImageService.mapIdx ?f 0 images] =>
      rewrite (mapIdx_ext f f images others 0); [reflexivity |]
  end.
  eapply Forall2_impl; [| exact Hfaces].
  intros x y [Hname [Htype [Hsize [Hmod [Hlen Hsame]]]]] idx.
  fold (base64Of x) (base64Of y).
  rewrite Hname, Htype, Hsize, Hmod, Hlen.
  change 0%Z with (Z.of_nat 0). change 64%Z with (Z.of_nat 64).
  change (-64)%Z with (- Z.of_nat 64)%Z.
  rewrite !(sliceFrom_negative _ 64) by lia.
  rewrite (slice_ext (base64Of x) (base64Of y) 0 64 Hlen)
    by (intros i Hi; apply Hsame; lia).
  rewrite (lastN_ext (base64Of x) (base64Of y) 64 Hlen)
    by (intros i Hi; apply Hsame; lia).
  reflexivity.
Qed.

(** X5 at work: two scans that differ in one character behind the first 96,
    one key. *)
Lemma X5_image_cache_key_reads_the_faces_witness :
  nth_error (base64Of scanA) 100 = Some 65%N
  /\ nth_error (base64Of scanB) 100 = Some 66%N
  /\ ImageService.buildImageCacheKey (steadyWorld []) [scanA] (Js.lit "") None
     = ImageService.buildImageCacheKey (steadyWorld []) [scanB] (Js.lit "")
         None.
Proof.
  split; [reflexivity |]. split; [reflexivity |].
  apply (X5_image_cache_key_reads_the_faces (steadyWorld []) [scanA] [scanB]
           (Js.lit "") None).
  constructor; [| constructor].
  repeat split; try reflexivity.
  intros i Hi. destruct (Nat.eq_dec i 100) as [-> | Hne].
  - simpl in Hi. lia.
  - apply (nth_error_middle (repeat 65%N 100) (repeat 65%N 99)).
    rewrite repeat_length. exact Hne.
Defined.

(** ** The shape of a loop that ran *)

Section ForLoopShape.

Variables (E A : Type).
Variable bound : nat.
Variable body : nat -> list E * Completion A.

(** A loop with enough fuel ran the iterations from [index] up to the first
    one that returned or threw, or all of them. *)
Lemma forLoopFrom_shape (fuel index : nat) :
  bound <= index + fuel ->
  match snd (forLoopFrom bound body fuel index) with
  | Continue =>
      fst (forLoopFrom bound body fuel index)
      = flat_map (fun j => fst (body j)) (seq index (bound - index))
      /\ forall j, index <= j < bound -> snd (body j) = Continue
  | c =>
      exists k, index <= k < bound /\ reachedFrom body index k
                /\ snd (body k) = c
                /\ fst (forLoopFrom bound body fuel index)
                   = flat_map (fun j => fst (body j)) (seq index (k - index))
                     ++ fst (body k)
  end.
Proof.
  revert index. induction fuel as [| fuel IH]; intros index Hfuel.
  - simpl. replace (bound - index) with 0 by lia. split; [reflexivity |].
    intros j Hj. lia.
  - destruct (Nat.lt_ge_cases index bound) as [Hlt | Hge].
    + rewrite (forLoopFrom_step E A bound body fuel index Hlt).
      specialize (IH (index + 1) ltac:(lia)).
      destruct (snd (body index)) as [| a | e] eqn:Hbody.
      * cbn [fst snd].
        destruct (snd (forLoopFrom bound body fuel (index + 1)))
          as [| a | e] eqn:Hrest.
        -- destruct IH as [Hlog Hall]. split.
           ++ rewrite Hlog.
              replace (bound - index) with (S (bound - (index + 1))) by lia.
              cbn [seq flat_map]. rewrite Nat.add_1_r. reflexivity.
           ++ intros j Hj. destruct (Nat.eq_dec j index) as [-> | Hne];
                [exact Hbody | apply Hall; lia].
        -- destruct IH as [k [Hk [Hreached [Hend Hlog]]]].
           exists k. split; [lia |]. split; [| split; [exact Hend |]].
           ++ intros j Hj. destruct (Nat.eq_dec j index) as [-> | Hne];
                [exact Hbody | apply Hreached; lia].
           ++ rewrite Hlog.
              replace (k - index) with (S (k - (index + 1))) by lia.
              cbn [seq flat_map]. rewrite Nat.add_1_r, app_assoc.
              reflexivity.
        -- destruct IH as [k [Hk [Hreached [Hend Hlog]]]].
           exists k. split; [lia |]. split; [| split; [exact Hend |]].
           ++ intros j Hj. destruct (Nat.eq_dec j index) as [-> | Hne];
                [exact Hbody | apply Hreached; lia].
           ++ rewrite Hlog.
              replace (k - index) with (S (k - (index + 1))) by lia.
              cbn [seq flat_map]. rewrite Nat.add_1_r, app_assoc.
              reflexivity.
      * cbn [fst snd]. exists index. split; [lia |].
        split; [intros j Hj; lia |]. split; [exact Hbody |].
        rewrite Nat.sub_diag. reflexivity.
      * cbn [fst snd]. exists index. split; [lia |].
        split; [intros j Hj; lia |]. split; [exact Hbody |].
        rewrite Nat.sub_diag. reflexivity.
    + rewrite (forLoopFrom_past E A bound body (S fuel) index Hge).
      cbn [fst snd]. replace (bound - index) with 0 by lia.
      split; [reflexivity |]. intros j Hj. lia.
Qed.

(** A loop whose last iteration never falls through ends at an iteration
    that returns or throws, having run every iteration before it once. *)
Lemma forLoop_ends (Hsome : 0 < bound)
  (Hlast : snd (body (bound - 1)) <> Continue) :
  exists k, k < bound /\ reachedFrom body 0 k
            /\ snd (body k) <> Continue
            /\ snd (forLoop bound body) = snd (body k)
            /\ fst (forLoop bound body)
               = flat_map (fun j => fst (body j)) (seq 0 k) ++ fst (body k).
Proof.
  unfold forLoop.
  pose proof (forLoopFrom_shape bound 0 ltac:(lia)) as H.
  destruct (snd (forLoopFrom bound body bound 0)) as [| a | e] eqn:Hend.
  - destruct H as [_ Hall]. exfalso. apply Hlast. apply Hall. lia.
  - destruct H as [k [Hk [Hreached [Hbody Hlog]]]].
    exists k. rewrite Nat.sub_0_r in Hlog.
    repeat split; try assumption; try lia.
    + rewrite Hbody. discriminate.
    + symmetry. exact Hbody.
  - destruct H as [k [Hk [Hreached [Hbody Hlog]]]].
    exists k. rewrite Nat.sub_0_r in Hlog.
    repeat split; try assumption; try lia.
    + rewrite Hbody. discriminate.
    + symmetry. exact Hbody.
Qed.

End ForLoopShape.

Lemma skipn_nth_cons {A} (l : list A) (i : nat) (x : A) :
  nth_error l i = Some x -> skipn i l = x :: skipn (S i) l.
Proof.
  revert i. induction l as [| y r IH]; intros [| i] H;
    try discriminate H.
  - injection H as ->. reflexivity.
  - apply (IH i H).
Qed.

(** Over the indices from [i] on, a body that depends on the element of a
    list only. *)
Lemma flat_map_seq_nth {A B} (l : list A) (F : nat -> list B)
  (g : A -> list B) (i n : nat) :
  (forall j x, i <= j < i + n -> nth_error l j = Some x -> F j = g x) ->
  i + n <= length l ->
  flat_map F (seq i n) = flat_map g (firstn n (skipn i l)).
Proof.
  revert i. induction n as [| n IH]; intros i HF Hle.
  - reflexivity.
  - destruct (nth_error l i) as [x |] eqn:Hx.
    2:{ apply nth_error_None in Hx. lia. }
    rewrite (skipn_nth_cons l i x Hx). cbn [seq flat_map firstn].
    rewrite (HF i x ltac:(lia) Hx), (IH (S i)); [reflexivity | | lia].
    intros j y Hj. apply HF. lia.
Qed.

Lemma firstn_S_nth {A} (l : list A) (k : nat) (x : A) :
  nth_error l k = Some x -> firstn (S k) l = firstn k l ++ [x].
Proof.
  revert k. induction l as [| y r IH]; intros [| k] H; try discriminate H.
  - injection H as ->. reflexivity.
  - change (firstn (S (S k)) (y :: r)) with (y :: firstn (S k) r).
    rewrite (IH k H). reflexivity.
Qed.

(** A view of a log that goes through concatenation goes through the
    iterations of a loop. *)
Lemma view_flat_map {A B C} (V : list B -> list C) (F : A -> list B)
  (l : list A) :
  V [] = [] -> (forall a b, V (a ++ b) = V a ++ V b) ->
  V (flat_map F l) = flat_map (fun x => V (F x)) l.
Proof.
  intros Hnil Happ. induction l as [| x r IH]; [exact Hnil |].
  simpl. rewrite Happ, IH. reflexivity.
Qed.

Lemma flat_map_flat_map {A B C} (f : A -> list B) (g : B -> list C)
  (l : list A) :
  flat_map g (flat_map f l) = flat_map (fun x => flat_map g (f x)) l.
Proof.
  induction l as [| x r IH]; [reflexivity |].
  simpl. rewrite flat_map_app, IH. reflexivity.
Qed.

Lemma filter_flat_map {A B} (P : B -> bool) (f : A -> list B) (l : list A) :
  filter P (flat_map f l) = flat_map (fun x => filter P (f x)) l.
Proof.
  induction l as [| x r IH]; [reflexivity |].
  simpl. rewrite filter_app, IH. reflexivity.
Qed.

Lemma flat_map_singletons {A B} (f : A -> list B) (g : A -> B) (l : list A) :
  (forall x, In x l -> f x = [g x]) -> flat_map f l = map g l.
Proof.
  induction l as [| x r IH]; intro H; [reflexivity |].
  simpl. rewrite (H x (or_introl eq_refl)), IH; [reflexivity |].
  intros y Hy. apply H. right. exact Hy.
Qed.

Lemma flat_map_length_le {A B} (f : A -> list B) (l : list A) (c : nat) :
  (forall x, In x l -> length (f x) <= c) ->
  length (flat_map f l) <= c * length l.
Proof.
  induction l as [| x r IH]; intro H; [simpl; lia |].
  simpl. rewrite length_app.
  pose proof (H x (or_introl eq_refl)).
  specialize (IH (fun y Hy => H y (or_intror Hy))). lia.
Qed.

(** ** A live PDF run from start to end *)

Lemma calls_views {Entry} (calls : list (Effect Entry)) (P : Request -> Prop) :
  (forall x, In x calls -> exists r, x = Call r /\ P r) ->
  events calls = [] /\ streamCalls calls = []
  /\ Forall P (verifierCalls calls)
  /\ length (verifierCalls calls) = length calls
  /\ yields calls = [] /\ writes calls = [].
Proof.
  induction calls as [| c rest IH]; intro H.
  - repeat split. constructor.
  - destruct (H c (or_introl eq_refl)) as [r [-> Hr]].
    destruct (IH (fun x Hx => H x (or_intror Hx)))
      as [He [Hs [Hp [Hv [Hy Hw]]]]].
    unfold events, streamCalls, verifierCalls, yields, writes in *.
    cbn [flat_map app length]. rewrite He, Hs, Hv, Hy, Hw.
    repeat split. constructor; assumption.
Qed.

Section PdfAttemptShape.

Variable W : Platform.
Variables (pdfBase64 prompt cacheKey : Js.str).
Variable modelId : option ModelType.
Variable candidateProfiles : list OptimizationProfile.

Local Notation attemptOf index profile :=
  (GeminiService.attempt W pdfBase64 prompt cacheKey modelId
     candidateProfiles index profile).
Local Notation bodyAt :=
  (GeminiService.attemptAt W pdfBase64 prompt cacheKey modelId
     candidateProfiles).
Local Notation requestOf profile :=
  (GeminiService.attemptRequest pdfBase64 prompt profile modelId).

(** What one attempt does: it announces itself, sends its request, asks the
    verifier at most once and then, by the way it ends, escalates, or
    writes, accepts, hands out the text and completes, or stops with the
    error of its stream. *)
Lemma pdf_attempt_shape index profile :
  exists start calls tail,
    fst (attemptOf index profile)
    = Emit start :: CallStream (requestOf profile) :: calls ++ tail
    /\ ev_type start = profile_start /\ ev_profile start = profile
    /\ (forall x, In x calls ->
         exists r, x = Call r
                   /\ req_model r = modelForProfile profile modelId)
    /\ length calls <= 1
    /\ match snd (attemptOf index profile) with
       | Continue =>
           index <> length candidateProfiles - 1
           /\ exists ev, tail = [Emit ev]
                         /\ ev_type ev = profile_escalated
                         /\ ev_profile ev = profile
       | Return _ =>
           exists entry accepted text done,
             tail = WriteCache cacheKey entry :: Emit accepted
                    :: map Yield (createTextStream text) ++ [Emit done]
             /\ ev_type accepted = profile_accepted
             /\ ev_profile accepted = profile
             /\ ev_type done = completed /\ ev_profile done = profile
             /\ GeminiService.profile entry = profile
             /\ GeminiService.text entry = text
             /\ GeminiService.createdAt entry = now W
       | Raise e =>
           index = length candidateProfiles - 1
           /\ tail = [] /\ calls = []
           /\ exists error,
                generateContentStream W (requestOf profile) = Throw error
                /\ e = GeminiService.normalizeError error
       end.
Proof.
  destruct (generateContentStream W (requestOf profile))
    as [chunks | error] eqn:Hgen.
  - rewrite (pdf_attempt_scored W pdfBase64 prompt cacheKey modelId
               candidateProfiles index profile chunks Hgen).
    pose proof (pdf_scoring_calls_only W modelId (collectStream chunks) profile
                  (index =? length candidateProfiles - 1)) as Hcalls.
    pose proof (pdf_scoring_calls W modelId (collectStream chunks) profile
                  (index =? length candidateProfiles - 1)) as Hwhich.
    pose proof (pdf_scoring_accepted W modelId (collectStream chunks) profile
                  (index =? length candidateProfiles - 1)) as Hacc.
    assert (Hlen :
      length (fst (GeminiService.scoreAttempt W (collectStream chunks) profile
                     (index =? length candidateProfiles - 1) modelId)) <= 1).
    { rewrite Hwhich. destruct (Qltb _ _); [| simpl; lia].
      rewrite pdf_verifier_requests.
      destruct (length (Js.trim (collectStream chunks)) <? 60); simpl; lia. }
    destruct (GeminiService.accepted _) eqn:Haccepted; cbn [fst snd].
    + eexists. eexists. eexists. split; [reflexivity |].
      split; [reflexivity |]. split; [reflexivity |].
      split; [intros x Hx; eexists; split; [apply (Hcalls x Hx) | reflexivity] |].
      split; [exact Hlen |].
      eexists. eexists. eexists. eexists.
      split; [reflexivity |]. repeat split; reflexivity.
    + eexists. eexists. eexists. split; [reflexivity |].
      split; [reflexivity |]. split; [reflexivity |].
      split; [intros x Hx; eexists; split; [apply (Hcalls x Hx) | reflexivity] |].
      split; [exact Hlen |].
      split.
      * symmetry in Hacc. apply orb_false_iff in Hacc.
        destruct Hacc as [_ Hlast]. apply Nat.eqb_neq. exact Hlast.
      * eexists. split; [reflexivity |]. split; reflexivity.
  - rewrite (pdf_attempt_failed W pdfBase64 prompt cacheKey modelId
               candidateProfiles index profile error Hgen).
    destruct (Nat.eqb_spec index (length candidateProfiles - 1))
      as [Hlast | Hlast]; cbn [fst snd].
    + eexists. exists []. exists []. split; [reflexivity |].
      split; [reflexivity |]. split; [reflexivity |].
      split; [intros x []|]. split; [simpl; lia |].
      split; [exact Hlast |]. split; [reflexivity |].
      split; [reflexivity |]. exists error. split; reflexivity.
    + eexists. exists []. eexists. split; [reflexivity |].
      split; [reflexivity |]. split; [reflexivity |].
      split; [intros x []|]. split; [simpl; lia |].
      split; [exact Hlast |].
      eexists. split; [reflexivity |]. split; reflexivity.
Qed.

(** The last attempt never falls through. *)
Lemma pdf_last_attempt_ends profile :
  snd (attemptOf (length candidateProfiles - 1) profile) <> Continue.
Proof.
  destruct (pdf_attempt_shape (length candidateProfiles - 1) profile)
    as [start [calls [tail [_ [_ [_ [_ [_ Hend]]]]]]]].
  intro Hc. rewrite Hc in Hend. destruct Hend as [Hne _]. apply Hne.
  reflexivity.
Qed.

End PdfAttemptShape.

Lemma events_app {Entry} (a b : list (Effect Entry)) :
  events (a ++ b) = events a ++ events b.
Proof. apply flat_map_app. Qed.

Lemma streamCalls_app {Entry} (a b : list (Effect Entry)) :
  streamCalls (a ++ b) = streamCalls a ++ streamCalls b.
Proof. apply flat_map_app. Qed.

Lemma verifierCalls_app {Entry} (a b : list (Effect Entry)) :
  verifierCalls (a ++ b) = verifierCalls a ++ verifierCalls b.
Proof. apply flat_map_app. Qed.

Lemma writes_app {Entry} (a b : list (Effect Entry)) :
  writes (a ++ b) = writes a ++ writes b.
Proof. apply flat_map_app. Qed.

Lemma profilesOf_app {Entry} (type : AnalysisEventType)
  (a b : list (Effect Entry)) :
  profilesOf type (a ++ b) = profilesOf type a ++ profilesOf type b.
Proof.
  unfold profilesOf, eventsOf. rewrite events_app, filter_app, map_app.
  reflexivity.
Qed.

Lemma events_yields {Entry} (chunks : list Js.str) :
  events (map (@Yield Entry) chunks) = []
  /\ streamCalls (map (@Yield Entry) chunks) = []
  /\ verifierCalls (map (@Yield Entry) chunks) = []
  /\ writes (map (@Yield Entry) chunks) = [].
Proof.
  induction chunks as [| c r [He [Hs [Hv Hw]]]]; [repeat split |].
  unfold events, streamCalls, verifierCalls, writes in *. simpl.
  repeat split; assumption.
Qed.

Section PdfAttemptViews.

Variable W : Platform.
Variables (pdfBase64 prompt cacheKey : Js.str).
Variable modelId : option ModelType.
Variable candidateProfiles : list OptimizationProfile.

Local Notation attemptOf index profile :=
  (GeminiService.attempt W pdfBase64 prompt cacheKey modelId
     candidateProfiles index profile).
Local Notation requestOf profile :=
  (GeminiService.attemptRequest pdfBase64 prompt profile modelId).

(** The events, requests and writes of one attempt. *)
Lemma pdf_attempt_views index profile :
  let log := fst (attemptOf index profile) in
  profilesOf profile_start log = [profile]
  /\ streamCalls log = [requestOf profile]
  /\ length (verifierCalls log) <= 1
  /\ Forall (fun r => req_model r = modelForProfile profile modelId)
       (verifierCalls log)
  /\ profilesOf cache_hit log = []
  /\ profilesOf profile_escalated log
     = match snd (attemptOf index profile) with
       | Continue => [profile]
       | _ => []
       end
  /\ profilesOf profile_accepted log
     = match snd (attemptOf index profile) with
       | Return _ => [profile]
       | _ => []
       end
  /\ profilesOf completed log
     = match snd (attemptOf index profile) with
       | Return _ => [profile]
       | _ => []
       end.
Proof.
  cbv zeta.
  destruct (pdf_attempt_shape W pdfBase64 prompt cacheKey modelId
              candidateProfiles index profile)
    as [start [calls [tail [Hlog [Hstart [Hprofile [Hcalls [Hlen Hend]]]]]]]].
  rewrite Hlog.
  destruct (calls_views calls _ Hcalls) as [He [Hs [Hp [Hv [_ _]]]]].
  assert (Hviews : forall type,
    profilesOf type (Emit start :: CallStream (requestOf profile)
                     :: calls ++ tail)
    = (if AnalysisEventType_eqb profile_start type then [profile] else [])
      ++ profilesOf type tail).
  { intro type. change (Emit start :: CallStream (requestOf profile)
                        :: calls ++ tail)
      with ([Emit start; CallStream (requestOf profile)] ++ calls ++ tail).
    assert (Hpc : profilesOf type calls = [])
      by (unfold profilesOf, eventsOf; rewrite He; reflexivity).
    rewrite !profilesOf_app, Hpc. cbn [app].
    unfold profilesOf at 1, eventsOf at 1, events at 1.
    cbn [flat_map app filter]. rewrite Hstart.
    destruct type; cbn [AnalysisEventType_eqb filter map app];
      rewrite ?Hprofile; reflexivity. }
  assert (Hstream :
    streamCalls (Emit start :: CallStream (requestOf profile) :: calls ++ tail)
    = requestOf profile :: streamCalls tail).
  { change (Emit start :: CallStream (requestOf profile) :: calls ++ tail)
      with ([Emit start; CallStream (requestOf profile)] ++ calls ++ tail).
    rewrite !streamCalls_app, Hs. reflexivity. }
  assert (Hverifier :
    verifierCalls (Emit start :: CallStream (requestOf profile)
                   :: calls ++ tail)
    = verifierCalls calls ++ verifierCalls tail).
  { change (Emit start :: CallStream (requestOf profile) :: calls ++ tail)
      with ([Emit start; CallStream (requestOf profile)] ++ calls ++ tail).
    rewrite !verifierCalls_app. reflexivity. }
  rewrite !Hviews, Hstream, Hverifier. cbn [AnalysisEventType_eqb app].
  destruct (snd (attemptOf index profile)) as [| a | e].
  - destruct Hend as [_ [ev [-> [Htype Hp']]]].
    change (verifierCalls [@Emit GeminiService.PdfCacheEntry ev])
      with (@nil Request).
    change (streamCalls [@Emit GeminiService.PdfCacheEntry ev])
      with (@nil Request).
    unfold profilesOf, eventsOf, events.
    cbn [flat_map app filter]. rewrite Htype.
    cbn [AnalysisEventType_eqb filter map app]. rewrite Hp'.
    rewrite ?app_nil_r.
    repeat split; try reflexivity; try assumption. lia.
  - destruct Hend as [entry [acc [text [done [-> [Hat [Hap [Hdt [Hdp _]]]]]]]]].
    destruct (@events_yields GeminiService.PdfCacheEntry (createTextStream text))
      as [Hye [Hys [Hyv _]]].
    change (WriteCache cacheKey entry :: Emit acc
            :: map Yield (createTextStream text) ++ [Emit done])
      with ([WriteCache cacheKey entry; Emit acc]
            ++ map Yield (createTextStream text) ++ [Emit done]).
    rewrite !streamCalls_app, !verifierCalls_app, Hys, Hyv.
    assert (Htail : forall type,
      profilesOf type ([WriteCache cacheKey entry; Emit acc]
                       ++ map Yield (createTextStream text) ++ [Emit done])
      = (if AnalysisEventType_eqb profile_accepted type then [profile] else [])
        ++ (if AnalysisEventType_eqb completed type then [profile] else [])).
    { intro type.
      assert (Hpy : profilesOf type
                      (map (@Yield GeminiService.PdfCacheEntry)
                         (createTextStream text)) = [])
        by (unfold profilesOf, eventsOf; rewrite Hye; reflexivity).
      rewrite !profilesOf_app, Hpy.
      unfold profilesOf, eventsOf, events. cbn [flat_map app filter map].
      rewrite Hat, Hdt.
      destruct type; cbn [AnalysisEventType_eqb filter map app];
        rewrite ?Hap, ?Hdp; reflexivity. }
    rewrite !Htail. cbn [AnalysisEventType_eqb app].
    change (verifierCalls [WriteCache cacheKey entry; Emit acc])
      with (@nil Request).
    change (streamCalls [WriteCache cacheKey entry; Emit acc])
      with (@nil Request).
    change (verifierCalls [@Emit GeminiService.PdfCacheEntry done])
      with (@nil Request).
    change (streamCalls [@Emit GeminiService.PdfCacheEntry done])
      with (@nil Request).
    cbn [app]. rewrite ?app_nil_r.
    repeat split; try reflexivity; try assumption. lia.
  - destruct Hend as [_ [-> [-> _]]].
    repeat split; try reflexivity. simpl. lia. constructor.
Qed.

End PdfAttemptViews.

Lemma flat_map_unit {A} (l : list A) : flat_map (fun x => [x]) l = l.
Proof.
  induction l as [| x r IH]; [reflexivity |]. simpl. rewrite IH. reflexivity.
Qed.

Lemma flat_map_nil {A B} (l : list A) : flat_map (fun _ => @nil B) l = [].
Proof. induction l as [| x r IH]; [reflexivity | exact IH]. Qed.

Section PdfRunAnatomy.

Variable W : Platform.
Variables (pdfBase64 prompt cacheKey : Js.str).
Variable modelId : option ModelType.
Variable candidateProfiles : list OptimizationProfile.
Hypothesis Hsome : 0 < length candidateProfiles.

Local Notation attemptOf index profile :=
  (GeminiService.attempt W pdfBase64 prompt cacheKey modelId
     candidateProfiles index profile).
Local Notation bodyAt :=
  (GeminiService.attemptAt W pdfBase64 prompt cacheKey modelId
     candidateProfiles).
Local Notation run :=
  (GeminiService.attempts W pdfBase64 prompt cacheKey modelId
     candidateProfiles).
Local Notation requestOf profile :=
  (GeminiService.attemptRequest pdfBase64 prompt profile modelId).

(** The loop over the candidates ran the attempts up to one that returned
    or threw; every attempt before it escalated. *)
Lemma pdf_run_ends :
  exists k p,
    nth_error candidateProfiles k = Some p
    /\ (forall j q, j < k -> nth_error candidateProfiles j = Some q ->
                    bodyAt j = attemptOf j q
                    /\ snd (attemptOf j q) = Continue)
    /\ snd (attemptOf k p) <> Continue
    /\ fst run
       = flat_map (fun j => fst (bodyAt j)) (seq 0 k) ++ fst (attemptOf k p)
    /\ snd run
       = match snd (attemptOf k p) with
         | Raise error => Throw error
         | _ => Ok tt
         end.
Proof.
  assert (Hlast : snd (bodyAt (length candidateProfiles - 1)) <> Continue).
  { unfold GeminiService.attemptAt.
    destruct (nth_error candidateProfiles (length candidateProfiles - 1))
      as [p |] eqn:Hp.
    - apply pdf_last_attempt_ends.
    - apply nth_error_None in Hp. lia. }
  destruct (forLoop_ends _ _ (length candidateProfiles) bodyAt Hsome Hlast)
    as [k [Hk [Hreached [Hend [Hsnd Hfst]]]]].
  destruct (nth_error candidateProfiles k) as [p |] eqn:Hp.
  2:{ apply nth_error_None in Hp. lia. }
  assert (Hbody : bodyAt k = attemptOf k p).
  { unfold GeminiService.attemptAt. rewrite Hp. reflexivity. }
  exists k, p. split; [exact Hp |]. split; [| split; [| split]].
  - intros j q Hj Hq.
    assert (Hbj : bodyAt j = attemptOf j q).
    { unfold GeminiService.attemptAt. rewrite Hq. reflexivity. }
    split; [exact Hbj |]. rewrite <- Hbj. apply Hreached. lia.
  - rewrite <- Hbody. exact Hend.
  - rewrite pdf_attempts_log, Hfst, Hbody. reflexivity.
  - rewrite pdf_attempts_outcome, Hsnd, Hbody. reflexivity.
Qed.

Lemma pdf_run_anatomy :
  exists k p,
    nth_error candidateProfiles k = Some p
    /\ profilesOf profile_start (fst run) = firstn (S k) candidateProfiles
    /\ streamCalls (fst run)
       = map (fun q => requestOf q) (firstn (S k) candidateProfiles)
    /\ profilesOf profile_escalated (fst run) = firstn k candidateProfiles
    /\ length (verifierCalls (fst run)) <= S k
    /\ Forall (fun r => exists q, In q candidateProfiles
                                  /\ req_model r = modelForProfile q modelId)
         (verifierCalls (fst run))
    /\ profilesOf cache_hit (fst run) = []
    /\ match snd (attemptOf k p) with
       | Return _ =>
           snd run = Ok tt
           /\ profilesOf profile_accepted (fst run) = [p]
           /\ profilesOf completed (fst run) = [p]
       | Raise e =>
           snd run = Throw e
           /\ k = length candidateProfiles - 1
           /\ profilesOf profile_accepted (fst run) = []
           /\ profilesOf completed (fst run) = []
           /\ exists error,
                generateContentStream W (requestOf p) = Throw error
                /\ e = GeminiService.normalizeError error
       | Continue => False
       end.
Proof.
  destruct pdf_run_ends as [k [p [Hp [Hbefore [Hend [Hfst Hsnd]]]]]].
  assert (Hk : k < length candidateProfiles)
    by (apply nth_error_Some; rewrite Hp; discriminate).
  pose proof (pdf_attempt_views W pdfBase64 prompt cacheKey modelId
                candidateProfiles k p) as Hlast.
  cbv zeta in Hlast.
  destruct Hlast as [Ls [Lc [Lv [Lm [Lh [Le [La Ld]]]]]]].
  (* the attempts before the last one *)
  assert (Hprefix : forall (C : Type) (V : list (Effect GeminiService.PdfCacheEntry) -> list C)
                           (g : OptimizationProfile -> list C),
    V [] = [] -> (forall a b, V (a ++ b) = V a ++ V b) ->
    (forall j q, j < k -> nth_error candidateProfiles j = Some q ->
                 V (fst (attemptOf j q)) = g q) ->
    V (flat_map (fun j => fst (bodyAt j)) (seq 0 k))
    = flat_map g (firstn k candidateProfiles)).
  { intros C V g Hnil Happ Hg.
    rewrite (view_flat_map V _ _ Hnil Happ).
    rewrite (flat_map_seq_nth candidateProfiles _ g 0 k); [reflexivity | | lia].
    intros j q Hj Hq. destruct (Hbefore j q ltac:(lia) Hq) as [-> _].
    apply Hg; [lia | exact Hq]. }
  assert (Hview : forall j q, j < k -> nth_error candidateProfiles j = Some q ->
    profilesOf profile_start (fst (attemptOf j q)) = [q]
    /\ streamCalls (fst (attemptOf j q)) = [requestOf q]
    /\ length (verifierCalls (fst (attemptOf j q))) <= 1
    /\ Forall (fun r => req_model r = modelForProfile q modelId)
         (verifierCalls (fst (attemptOf j q)))
    /\ profilesOf cache_hit (fst (attemptOf j q)) = []
    /\ profilesOf profile_escalated (fst (attemptOf j q)) = [q]
    /\ profilesOf profile_accepted (fst (attemptOf j q)) = []
    /\ profilesOf completed (fst (attemptOf j q)) = []).
  { intros j q Hj Hq.
    pose proof (pdf_attempt_views W pdfBase64 prompt cacheKey modelId
                  candidateProfiles j q) as Hv. cbv zeta in Hv.
    destruct (Hbefore j q Hj Hq) as [_ Hc]. rewrite Hc in Hv. exact Hv. }
  exists k, p. split; [exact Hp |].
  rewrite Hfst, !profilesOf_app, streamCalls_app, verifierCalls_app.
  rewrite (Hprefix _ (profilesOf profile_start) (fun q => [q]) eq_refl
             (profilesOf_app profile_start)
             (fun j q Hj Hq => proj1 (Hview j q Hj Hq))).
  rewrite (Hprefix _ streamCalls (fun q => [requestOf q]) eq_refl
             streamCalls_app
             (fun j q Hj Hq => proj1 (proj2 (Hview j q Hj Hq)))).
  rewrite (Hprefix _ (profilesOf cache_hit) (fun _ => []) eq_refl
             (profilesOf_app cache_hit)
             (fun j q Hj Hq =>
                proj1 (proj2 (proj2 (proj2 (proj2 (Hview j q Hj Hq))))))).
  rewrite (Hprefix _ (profilesOf profile_escalated) (fun q => [q]) eq_refl
             (profilesOf_app profile_escalated)
             (fun j q Hj Hq =>
                proj1 (proj2 (proj2 (proj2 (proj2 (proj2
                  (Hview j q Hj Hq)))))))).
  rewrite (Hprefix _ (profilesOf profile_accepted) (fun _ => []) eq_refl
             (profilesOf_app profile_accepted)
             (fun j q Hj Hq =>
                proj1 (proj2 (proj2 (proj2 (proj2 (proj2 (proj2
                  (Hview j q Hj Hq))))))))).
  rewrite (Hprefix _ (profilesOf completed) (fun _ => []) eq_refl
             (profilesOf_app completed)
             (fun j q Hj Hq =>
                proj2 (proj2 (proj2 (proj2 (proj2 (proj2 (proj2
                  (Hview j q Hj Hq))))))))).
  rewrite !flat_map_unit, !flat_map_nil, Ls, Lc, Lh, Le, La, Ld.
  rewrite (flat_map_singletons _ (fun q => requestOf q))
    by (intros; reflexivity).
  rewrite (firstn_S_nth candidateProfiles k p Hp), map_app.
  cbn [app map].
  split; [reflexivity |]. split; [reflexivity |].
  split.
  { destruct (snd (attemptOf k p)); [| rewrite app_nil_r ..]; try reflexivity.
    exfalso. apply Hend. reflexivity. }
  split.
  { rewrite length_app.
    rewrite (view_flat_map (@verifierCalls _) _ _ eq_refl verifierCalls_app).
    pose proof (flat_map_length_le
                  (fun j => verifierCalls (fst (bodyAt j))) (seq 0 k) 1) as Hle.
    rewrite length_seq in Hle.
    assert (forall x, In x (seq 0 k) ->
                      length (verifierCalls (fst (bodyAt x))) <= 1).
    { intros j Hj. apply in_seq in Hj.
      destruct (nth_error candidateProfiles j) as [q |] eqn:Hq.
      2:{ apply nth_error_None in Hq. lia. }
      destruct (Hbefore j q ltac:(lia) Hq) as [-> _].
      apply (Hview j q ltac:(lia) Hq). }
    specialize (Hle H). lia. }
  split.
  { apply Forall_app. split.
    - apply Forall_forall. intros r Hr.
      unfold verifierCalls in Hr. rewrite flat_map_flat_map in Hr.
      apply in_flat_map in Hr. destruct Hr as [j [Hj Hr]].
      apply in_seq in Hj.
      destruct (nth_error candidateProfiles j) as [q |] eqn:Hq.
      2:{ apply nth_error_None in Hq. lia. }
      destruct (Hbefore j q ltac:(lia) Hq) as [Hb _]. rewrite Hb in Hr.
      exists q. split; [eapply nth_error_In; exact Hq |].
      destruct (Hview j q ltac:(lia) Hq) as [_ [_ [_ [Hm _]]]].
      apply (proj1 (Forall_forall _ _) Hm r Hr).
    - apply Forall_forall. intros r Hr. exists p.
      split; [eapply nth_error_In; exact Hp |].
      apply (proj1 (Forall_forall _ _) Lm r Hr). }
  split; [reflexivity |].
  rewrite Hsnd.
  destruct (pdf_attempt_shape W pdfBase64 prompt cacheKey modelId
              candidateProfiles k p)
    as [s0 [c0 [t0 [_ [_ [_ [_ [_ Hshape]]]]]]]].
  destruct (snd (attemptOf k p)) as [| a | e].
  - apply Hend. reflexivity.
  - repeat split; reflexivity.
  - destruct Hshape as [Hlastk [_ [_ Herr]]].
    repeat split; try reflexivity; assumption.
Qed.

End PdfRunAnatomy.

Lemma pdf_candidates_count (pdfBase64 : Js.str) (modelId : option ModelType) :
  1 <= length (GeminiService.resolvePdfCandidateProfiles pdfBase64 modelId)
  <= 3.
Proof.
  unfold GeminiService.resolvePdfCandidateProfiles. cbv zeta.
  destruct modelId as [[|] |];
    try destruct (OptimizationProfile_eqb _ _); simpl; lia.
Qed.

(** The model a request of a candidate goes to is the model of the
    candidate's policy, with and without a pinned tier. *)
Lemma pdf_candidate_model (pdfBase64 : Js.str) (modelId : option ModelType)
  (p : OptimizationProfile) :
  In p (GeminiService.resolvePdfCandidateProfiles pdfBase64 modelId) ->
  modelForProfile p modelId = model (OCR_PROFILE_POLICIES p).
Proof.
  unfold GeminiService.resolvePdfCandidateProfiles. cbv zeta.
  destruct modelId as [[|] |]; [| | reflexivity];
    try destruct (OptimizationProfile_eqb _ _); simpl;
    intuition (subst; reflexivity).
Qed.

Lemma last_nth_error {A} (l : list A) (d x : A) :
  nth_error l (length l - 1) = Some x -> last l d = x.
Proof.
  induction l as [| y r IH]; intro H; [discriminate H |].
  destruct r as [| z r'].
  - simpl in H. injection H as ->. reflexivity.
  - change (last (y :: z :: r') d) with (last (z :: r') d). apply IH.
    simpl in H |- *. rewrite Nat.sub_0_r in *. exact H.
Qed.

(** The schedule of a live PDF run: which candidates it tries and what it
    sends. *)
Lemma pdf_schedule_facts
  (W : Platform) (pdfBase64 prompt : Js.str) (modelId : option ModelType) :
  let candidates :=
    GeminiService.resolvePdfCandidateProfiles pdfBase64 modelId in
  let log :=
    fst (GeminiService.analyzePdfStream W pdfBase64 prompt modelId None) in
  exists n,
    1 <= n <= length candidates /\ length candidates <= 3
    /\ profilesOf profile_start log = firstn n candidates
    /\ streamCalls log
       = map (fun p => GeminiService.attemptRequest pdfBase64 prompt p modelId)
           (firstn n candidates)
    /\ profilesOf profile_escalated log = firstn (n - 1) candidates
    /\ length (verifierCalls log) <= n
    /\ Forall (fun r => exists p, In p candidates
                                  /\ req_model r
                                     = model (OCR_PROFILE_POLICIES p))
         (streamCalls log ++ verifierCalls log).
Proof.
  cbv zeta. rewrite pdf_live_run.
  pose proof (pdf_candidates_count pdfBase64 modelId) as Hcount.
  destruct (pdf_run_anatomy W pdfBase64 prompt
              (GeminiService.buildPdfCacheKey W pdfBase64 prompt) modelId
              (GeminiService.resolvePdfCandidateProfiles pdfBase64 modelId)
              ltac:(lia))
    as [k [p [Hp [Hstart [Hstream [Hesc [Hlen [Hmodels _]]]]]]]].
  assert (Hk : k < length (GeminiService.resolvePdfCandidateProfiles
                             pdfBase64 modelId))
    by (apply nth_error_Some; rewrite Hp; discriminate).
  exists (S k). split; [lia |]. split; [lia |].
  split; [exact Hstart |]. split; [exact Hstream |].
  split; [rewrite Hesc; f_equal; lia |]. split; [exact Hlen |].
  apply Forall_app. split.
  - rewrite Hstream. apply Forall_forall. intros r Hr.
    apply in_map_iff in Hr. destruct Hr as [q [<- Hq]].
    assert (Hin : In q (GeminiService.resolvePdfCandidateProfiles
                          pdfBase64 modelId)).
    { rewrite <- (firstn_skipn (S k)). apply in_or_app. left. exact Hq. }
    exists q. split; [exact Hin |].
    apply (pdf_candidate_model pdfBase64 modelId q Hin).
  - apply Forall_forall. intros r Hr.
    destruct (proj1 (Forall_forall _ _) Hmodels r Hr) as [q [Hin Hm]].
    exists q. split; [exact Hin |]. rewrite Hm.
    apply (pdf_candidate_model pdfBase64 modelId q Hin).
Qed.

(** X6. A live PDF run tries a prefix of its candidate profiles, in their
    order: it announces and sends one transcription request per tried candidate
    (at most three), escalates from every tried candidate but the last, asks the
    verifier at most once per tried candidate, and sends every request to the
    model of the policy of the candidate it belongs to, a pinned tier or not. *)
Theorem X6_pdf_run_schedule
  (W : Platform) (pdfBase64 prompt : Js.str) (modelId : option ModelType) :
  let candidates :=
    GeminiService.resolvePdfCandidateProfiles pdfBase64 modelId in
  let log :=
    fst (GeminiService.analyzePdfStream W pdfBase64 prompt modelId None) in
  exists n,
    1 <= n <= length candidates /\ length candidates <= 3
    /\ profilesOf profile_start log = firstn n candidates
    /\ streamCalls log
       = map (fun p => GeminiService.attemptRequest pdfBase64 prompt p modelId)
           (firstn n candidates)
    /\ profilesOf profile_escalated log = firstn (n - 1) candidates
    /\ length (verifierCalls log) <= n
    /\ Forall (fun r => exists p, In p candidates
                                  /\ req_model r
                                     = model (OCR_PROFILE_POLICIES p))
         (streamCalls log ++ verifierCalls log).
Proof. exact (pdf_schedule_facts W pdfBase64 prompt modelId). Qed.

(** How a live PDF run ends. *)
Lemma pdf_outcome_facts
  (W : Platform) (pdfBase64 prompt : Js.str) (modelId : option ModelType) :
  let candidates :=
    GeminiService.resolvePdfCandidateProfiles pdfBase64 modelId in
  let run := GeminiService.analyzePdfStream W pdfBase64 prompt modelId None in
  profilesOf cache_hit (fst run) = []
  /\ match snd run with
     | Ok _ =>
         exists p, In p candidates
                   /\ profilesOf profile_accepted (fst run) = [p]
                   /\ profilesOf completed (fst run) = [p]
     | Throw e =>
         profilesOf profile_start (fst run) = candidates
         /\ profilesOf profile_accepted (fst run) = []
         /\ profilesOf completed (fst run) = []
         /\ exists error,
              generateContentStream W
                (GeminiService.attemptRequest pdfBase64 prompt
                   (last candidates accuracy) modelId)
              = Throw error
              /\ e = GeminiService.normalizeError error
     end.
Proof.
  cbv zeta. rewrite pdf_live_run.
  pose proof (pdf_candidates_count pdfBase64 modelId) as Hcount.
  destruct (pdf_run_anatomy W pdfBase64 prompt
              (GeminiService.buildPdfCacheKey W pdfBase64 prompt) modelId
              (GeminiService.resolvePdfCandidateProfiles pdfBase64 modelId)
              ltac:(lia))
    as [k [p [Hp [Hstart [_ [_ [_ [_ [Hhit Hend]]]]]]]]].
  split; [exact Hhit |].
  destruct (snd (GeminiService.attempt W pdfBase64 prompt _ modelId _ k p))
    as [| a | e].
  - destruct Hend.
  - destruct Hend as [-> [Hacc Hdone]].
    exists p. split; [eapply nth_error_In; exact Hp |].
    split; assumption.
  - destruct Hend as [-> [Hk [Hacc [Hdone [error [Herr He]]]]]].
    split; [| split; [exact Hacc | split; [exact Hdone |]]].
    + rewrite Hstart, Hk. apply firstn_all2. lia.
    + exists error. split; [| exact He].
      rewrite Hk in Hp. rewrite (last_nth_error _ accuracy p Hp).
      exact Herr.
Qed.

(** X7. A live PDF run never ends without a verdict. Either it returns, and
    then exactly one candidate was accepted and the run completed with that
    candidate; or it throws, and then every candidate was tried, none was
    accepted, and the error is the normalized error of the stream of the last
    candidate. *)
Theorem X7_pdf_run_outcome
  (W : Platform) (pdfBase64 prompt : Js.str) (modelId : option ModelType) :
  let candidates :=
    GeminiService.resolvePdfCandidateProfiles pdfBase64 modelId in
  let run := GeminiService.analyzePdfStream W pdfBase64 prompt modelId None in
  profilesOf cache_hit (fst run) = []
  /\ match snd run with
     | Ok _ =>
         exists p, In p candidates
                   /\ profilesOf profile_accepted (fst run) = [p]
                   /\ profilesOf completed (fst run) = [p]
     | Throw e =>
         profilesOf profile_start (fst run) = candidates
         /\ profilesOf profile_accepted (fst run) = []
         /\ profilesOf completed (fst run) = []
         /\ exists error,
              generateContentStream W
                (GeminiService.attemptRequest pdfBase64 prompt
                   (last candidates accuracy) modelId)
              = Throw error
              /\ e = GeminiService.normalizeError error
     end.
Proof. exact (pdf_outcome_facts W pdfBase64 prompt modelId). Qed.

(** ** The cache store *)

Section StoreFacts.

Variable E : Type.
Variable createdAtOf : E -> Z.

Local Notation read := (Store.readCache createdAtOf).

Lemma Js_eqb_refl (a : Js.str) : Js.eqb a a = true.
Proof. apply Js_eqb_eq. reflexivity. Qed.

Lemma Js_eqb_neq (a b : Js.str) : a <> b -> Js.eqb a b = false.
Proof.
  intro H. destruct (Js.eqb a b) eqn:Hab; [| reflexivity].
  exfalso. apply H. apply Js_eqb_eq. exact Hab.
Qed.

Lemma removeItem_same (key : Js.str) (storage : Store.Storage E) :
  Store.removeItem key storage key = None.
Proof. unfold Store.removeItem. rewrite Js_eqb_refl. reflexivity. Qed.

Lemma removeItem_other (key other : Js.str) (storage : Store.Storage E) :
  other <> key -> Store.removeItem key storage other = storage other.
Proof.
  intro H. unfold Store.removeItem. rewrite (Js_eqb_neq _ _ H). reflexivity.
Qed.

Lemma setItem_same (key : Js.str) (item : Store.Item E)
  (storage : Store.Storage E) :
  Store.setItem key item storage key = Some item.
Proof. unfold Store.setItem. rewrite Js_eqb_refl. reflexivity. Qed.

Lemma setItem_other (key other : Js.str) (item : Store.Item E)
  (storage : Store.Storage E) :
  other <> key -> Store.setItem key item storage other = storage other.
Proof.
  intro H. unfold Store.setItem. rewrite (Js_eqb_neq _ _ H). reflexivity.
Qed.

(** A fresh entry is returned and the storage is left alone. *)
Lemma readCache_fresh (storage : Store.Storage E) (now : Z)
  (key : Js.str) (entry : E) :
  storage key = Some (Store.Entry entry) ->
  createdAtOf entry <> 0%Z ->
  (now - createdAtOf entry <= Store.OCR_CACHE_TTL_MS)%Z ->
  read storage now key = (Some entry, storage).
Proof.
  intros Hkey Hcreated Hclock. unfold Store.readCache. rewrite Hkey.
  destruct (Z.eqb_spec (createdAtOf entry) 0) as [H0 | _]; [contradiction |].
  destruct (Z.gtb_spec (now - createdAtOf entry) Store.OCR_CACHE_TTL_MS);
    [lia | reflexivity].
Qed.



(** What the storage holds after the writes of a run. *)
Lemma applyWrites_writes (quota : bool) (log : list (Effect E))
  (storage : Store.Storage E) :
  Store.applyWrites quota log storage
  = fold_left (fun st kv => Store.writeCache quota st (fst kv) (snd kv))
      (writes log) storage.
Proof.
  unfold Store.applyWrites. revert storage.
  induction log as [| e rest IH]; intro storage; [reflexivity |].
  destruct e; cbn [fold_left writes flat_map app]; apply IH.
Qed.

End StoreFacts.

(** ** A request and the next one *)

Lemma writes_significant {Entry} (log : list (Effect Entry)) :
  writes (filter significant log) = writes log.
Proof.
  unfold writes. induction log as [| e r IH]; [reflexivity |].
  destruct e as [ev | | | |]; simpl; try assumption.
  - destruct (significant (Emit ev)); simpl; assumption.
  - f_equal. exact IH.
Qed.

Lemma accepted_significant {Entry} (log : list (Effect Entry)) :
  profilesOf profile_accepted (filter significant log)
  = profilesOf profile_accepted log.
Proof.
  unfold profilesOf, eventsOf, events.
  induction log as [| e r IH]; [reflexivity |].
  destruct e as [ev | | | |]; simpl; try assumption.
  unfold significant. cbn [isWrite isEvent isYield orb].
  rewrite orb_false_r.
  destruct (AnalysisEventType_eqb (ev_type ev) profile_accepted) eqn:Ht;
    simpl; rewrite ?Ht; simpl; [f_equal |]; exact IH.
Qed.

(** What a live PDF run leaves behind: when it returns, one cache entry
    under the key of the request, stamped with the time of the run and
    holding the text that the chunks of the run spell and the profile that
    was accepted; when it throws, nothing. *)
Lemma pdf_run_leaves
  (W : Platform) (pdfBase64 prompt : Js.str) (modelId : option ModelType) :
  let run := GeminiService.analyzePdfStream W pdfBase64 prompt modelId None in
  match snd run with
  | Ok _ =>
      exists entry,
        writes (fst run)
        = [(GeminiService.buildPdfCacheKey W pdfBase64 prompt, entry)]
        /\ yields (fst run) = createTextStream (GeminiService.text entry)
        /\ GeminiService.createdAt entry = now W
        /\ profilesOf profile_accepted (fst run)
           = [GeminiService.profile entry]
        /\ profilesOf completed (fst run) = [GeminiService.profile entry]
  | Throw _ => writes (fst run) = [] /\ yields (fst run) = []
  end.
Proof.
  cbv zeta.
  pose proof (pdf_outcome_facts W pdfBase64 prompt modelId) as Hout.
  cbv zeta in Hout. destruct Hout as [_ Hout].
  rewrite pdf_live_run in *.
  pose proof (pdf_run_significant W pdfBase64 prompt
                (GeminiService.buildPdfCacheKey W pdfBase64 prompt) modelId
                (GeminiService.resolvePdfCandidateProfiles pdfBase64 modelId))
    as [Hnone | [profile [text [quality [ev [Hsig [Ht [Hp [_ Hok]]]]]]]]].
  - pose proof (writes_significant
                  (fst (GeminiService.attempts W pdfBase64 prompt
                          (GeminiService.buildPdfCacheKey W pdfBase64 prompt)
                          modelId
                          (GeminiService.resolvePdfCandidateProfiles
                             pdfBase64 modelId)))) as Hw.
    pose proof (yields_significant
                  (fst (GeminiService.attempts W pdfBase64 prompt
                          (GeminiService.buildPdfCacheKey W pdfBase64 prompt)
                          modelId
                          (GeminiService.resolvePdfCandidateProfiles
                             pdfBase64 modelId)))) as Hy.
    pose proof (accepted_significant
                  (fst (GeminiService.attempts W pdfBase64 prompt
                          (GeminiService.buildPdfCacheKey W pdfBase64 prompt)
                          modelId
                          (GeminiService.resolvePdfCandidateProfiles
                             pdfBase64 modelId)))) as Ha.
    rewrite Hnone in Hw, Hy, Ha.
    destruct (snd (GeminiService.attempts W pdfBase64 prompt _ modelId _)).
    + destruct Hout as [p [_ [Hacc _]]]. rewrite <- Ha in Hacc.
      discriminate Hacc.
    + split; symmetry; assumption.
  - rewrite Hok in *.
    destruct Hout as [p [_ [Hacc Hdone]]].
    exists {| GeminiService.createdAt := now W; GeminiService.text := text;
              GeminiService.profile := profile;
              GeminiService.quality := quality |}.
    rewrite <- writes_significant, <- yields_significant, Hsig.
    pose proof Hacc as Hacc0.
    rewrite <- accepted_significant, Hsig in Hacc.
    unfold profilesOf, eventsOf, events in Hacc.
    cbn [flat_map app filter] in Hacc. rewrite Ht in Hacc.
    cbn [AnalysisEventType_eqb filter map] in Hacc.
    assert (Hrest :
      map ev_profile
        (filter (fun ev0 => AnalysisEventType_eqb (ev_type ev0) profile_accepted)
           (flat_map
              (fun e : Effect GeminiService.PdfCacheEntry =>
                 match e with Emit ev0 => [ev0] | _ => [] end)
              (map Yield (createTextStream text)))) = []).
    { destruct (@events_yields GeminiService.PdfCacheEntry
                  (createTextStream text)) as [He _].
      unfold events in He. rewrite He. reflexivity. }
    rewrite Hrest, Hp in Hacc. injection Hacc as Hpp. subst p.
    cbn [GeminiService.text GeminiService.createdAt GeminiService.profile].
    split; [| split; [| split; [reflexivity | split; [exact Hacc0 | exact Hdone]]]].
    + unfold writes. cbn [flat_map app].
      destruct (@events_yields GeminiService.PdfCacheEntry
                  (createTextStream text)) as [_ [_ [_ Hwy]]].
      unfold writes in Hwy. rewrite Hwy. reflexivity.
    + change (WriteCache (GeminiService.buildPdfCacheKey W pdfBase64 prompt)
                {| GeminiService.createdAt := now W;
                   GeminiService.text := text;
                   GeminiService.profile := profile;
                   GeminiService.quality := quality |}
              :: Emit ev :: map Yield (createTextStream text))
        with ([WriteCache (GeminiService.buildPdfCacheKey W pdfBase64 prompt)
                 {| GeminiService.createdAt := now W;
                    GeminiService.text := text;
                    GeminiService.profile := profile;
                    GeminiService.quality := quality |};
               Emit ev] ++ map Yield (createTextStream text)).
      rewrite yields_app, yields_map_Yield. reflexivity.
Qed.

Lemma collectChunks_ok {Entry} (log : list (Effect Entry)) (u : unit) :
  Requests.collectChunks (log, Ok u) = Ok (concat (yields log)).
Proof. reflexivity. Qed.

Lemma collectChunks_returned {Entry}
  (run : list (Effect Entry) * Result unit) :
  snd run = Ok tt ->
  Requests.collectChunks run = Ok (concat (yields (fst run))).
Proof. destruct run as [log out]. simpl. intros ->. reflexivity. Qed.

Lemma pdf_key_same_hash (W W' : Platform) (pdfBase64 prompt : Js.str) :
  (forall s, sha256Hex W' s = sha256Hex W s) ->
  policyJson W' = policyJson W ->
  GeminiService.buildPdfCacheKey W' pdfBase64 prompt
  = GeminiService.buildPdfCacheKey W pdfBase64 prompt.
Proof.
  intros Hhash Hpolicy. unfold GeminiService.buildPdfCacheKey. cbv zeta.
  rewrite !Hhash, Hpolicy. reflexivity.
Qed.

(** X9. When a request for a PDF missed the cache, ran and returned, and its
    cache write went through, the next request for the same payload and prompt
    within a day sends nothing to the inference service, whatever model it asks
    for: it reports a cache hit and the completion with the profile accepted by
    the first run, hands out the same text, writes nothing and leaves the
    storage as it found it. *)
Theorem X9_pdf_second_request_is_served_from_the_cache
  (W W' : Platform) (quota' : bool)
  (storage : Store.Storage GeminiService.PdfCacheEntry)
  (pdfBase64 prompt : Js.str) (modelId modelId' : option ModelType)
  (Hhash : forall s, sha256Hex W' s = sha256Hex W s)
  (Hpolicy : policyJson W' = policyJson W)
  (Hmiss :
     fst (Store.readPdfCache storage (now W)
            (GeminiService.buildPdfCacheKey W pdfBase64 prompt)) = None)
  (Hreturned :
     snd (fst (Requests.analyzePdfStreamOn W false storage pdfBase64 prompt
                 modelId)) = Ok tt)
  (Hclock : now W <> 0%Z /\ (now W' - now W <= Store.OCR_CACHE_TTL_MS)%Z) :
  let first :=
    Requests.analyzePdfStreamOn W false storage pdfBase64 prompt modelId in
  let second :=
    Requests.analyzePdfStreamOn W' quota' (snd first) pdfBase64 prompt
      modelId' in
  exists p,
    In p (GeminiService.resolvePdfCandidateProfiles pdfBase64 modelId)
    /\ profilesOf profile_accepted (fst (fst first)) = [p]
    /\ map ev_type (events (fst (fst second))) = [cache_hit; completed]
    /\ map ev_profile (events (fst (fst second))) = [p; p]
    /\ streamCalls (fst (fst second)) = []
    /\ verifierCalls (fst (fst second)) = []
    /\ writes (fst (fst second)) = []
    /\ snd (fst second) = Ok tt
    /\ Requests.collectChunks (fst second) = Requests.collectChunks (fst first)
    /\ forall k, snd second k = snd first k.
Proof.
  cbv zeta. unfold Requests.analyzePdfStreamOn in *. cbv zeta in *.
  rewrite (pdf_key_same_hash W W' pdfBase64 prompt Hhash Hpolicy).
  set (key := GeminiService.buildPdfCacheKey W pdfBase64 prompt) in *.
  destruct (Store.readPdfCache storage (now W) key) as [cached storage1]
    eqn:Hread.
  cbn [fst] in Hmiss. subst cached. cbn [fst snd] in *.
  pose proof (pdf_run_leaves W pdfBase64 prompt modelId) as Hleaves.
  pose proof (pdf_outcome_facts W pdfBase64 prompt modelId) as Hout.
  cbv zeta in Hleaves, Hout. destruct Hout as [_ Hout].
  rewrite Hreturned in Hleaves, Hout.
  destruct Hleaves as [entry [Hwrites [Hyields [Hcreated [Hacc _]]]]].
  destruct Hout as [p [Hin [Hacc' _]]].
  rewrite Hacc in Hacc'. injection Hacc' as Hp.
  fold key in Hwrites.
  set (run1 := GeminiService.analyzePdfStream W pdfBase64 prompt modelId None)
    in *.
  set (log := fst run1) in *.
  assert (Hstore : forall k,
    Store.applyWrites false log storage1 k
    = Store.setItem key (Store.Entry entry) storage1 k).
  { intro k. rewrite applyWrites_writes, Hwrites. reflexivity. }
  assert (Hsecond :
    Store.readPdfCache (Store.applyWrites false log storage1) (now W') key
    = (Some entry, Store.applyWrites false log storage1)).
  { apply readCache_fresh.
    - rewrite Hstore. apply setItem_same.
    - rewrite Hcreated. apply Hclock.
    - rewrite Hcreated. apply Hclock. }
  rewrite Hsecond. cbn [fst snd].
  exists p. split; [exact Hin |]. split; [rewrite Hacc, Hp; reflexivity |].
  unfold GeminiService.analyzePdfStream. cbv zeta.
  destruct (@events_yields GeminiService.PdfCacheEntry
              (createTextStream (GeminiService.text entry)))
    as [He [Hs [Hv Hw]]].
  cbn [fst snd].
  match goal with
  | |- context [?a :: ?b :: map Yield ?c] =>
      change (a :: b :: map Yield c) with ([a; b] ++ map Yield c)
  end.
  rewrite events_app, streamCalls_app, verifierCalls_app, writes_app,
    He, Hs, Hv, Hw.
  split; [reflexivity |]. split; [rewrite Hp; reflexivity |].
  split; [reflexivity |]. split; [reflexivity |]. split; [reflexivity |].
  split; [reflexivity |].
  split.
  - rewrite (collectChunks_returned run1 Hreturned).
    fold log. rewrite Hyields, collectChunks_ok.
    rewrite yields_app, yields_map_Yield. reflexivity.
  - intro k. rewrite applyWrites_writes, writes_app, Hw. reflexivity.
Qed.

(** X9 at work: a request for a small PDF on an empty storage, and a second
    one that asks for the high tier while the cache write of the first is a
    minute old: the second is answered with the text the balanced profile
    produced. *)
Lemma X9_pdf_second_request_is_served_from_the_cache_witness :
  let first :=
    Requests.analyzePdfStreamOn (steadyWorld longPage) false (fun _ => None)
      (Js.lit "JVBERi0=") (Js.lit "") None in
  let second :=
    Requests.analyzePdfStreamOn (highTierWorld []) true (snd first)
      (Js.lit "JVBERi0=") (Js.lit "") (Some PRO) in
  map ev_profile (events (fst (fst second))) = [balanced; balanced]
  /\ streamCalls (fst (fst second)) = []
  /\ Requests.collectChunks (fst second) = Ok longPage.
Proof.
  cbv zeta.
  assert (Hclock :
    now (steadyWorld longPage) <> 0%Z
    /\ (now (highTierWorld []) - now (steadyWorld longPage)
        <= Store.OCR_CACHE_TTL_MS)%Z).
  { split; [discriminate | vm_compute; discriminate]. }
  destruct (X9_pdf_second_request_is_served_from_the_cache
              (steadyWorld longPage) (highTierWorld []) true (fun _ => None)
              (Js.lit "JVBERi0=") (Js.lit "") None (Some PRO)
              (fun _ => eq_refl) eq_refl eq_refl eq_refl Hclock)
    as [p [_ [Hacc [_ [Hprofiles [Hstream [_ [_ [_ [Hchunks _]]]]]]]]]].
  assert (Hp : p = balanced).
  { vm_compute in Hacc. injection Hacc as <-. reflexivity. }
  subst p. split; [exact Hprofiles |]. split; [exact Hstream |].
  rewrite Hchunks. vm_compute. reflexivity.
Defined.

Lemma writes_none {Entry} (log : list (Effect Entry)) :
  filter isWrite log = [] -> writes log = [].
Proof.
  unfold writes. induction log as [| e r IH]; [reflexivity |].
  destruct e; simpl; try exact IH. discriminate.
Qed.

(** What a live image run leaves behind when it returns: one cache entry
    under the key of the request, stamped with the time of the run, holding
    the text that the chunks of the run spell. *)
Lemma image_run_leaves
  (W : Platform) (images : list ImageFile) (prompt : Js.str)
  (modelId : option ModelType) :
  let run :=
    ImageService.analyzeImageSequenceStream W images prompt modelId None in
  snd run = Ok tt ->
  exists entry,
    writes (fst run)
    = [(ImageService.buildImageCacheKey W images prompt modelId, entry)]
    /\ ImageService.text entry = concat (yields (fst run))
    /\ ImageService.createdAt entry = now W.
Proof.
  cbv zeta. rewrite image_live_run.
  pose proof (image_spans_summary W images prompt modelId
                (ImageService.resolveImageCandidateProfiles modelId)
                (length images)
                (ImageService.initialState
                   (ImageService.resolveImageCandidateProfiles modelId)))
    as [Hnowrite Hsummary].
  destruct (ImageService.spansFrom W images prompt modelId _ _ _)
    as [effects [st | error]]; cbn [fst snd] in *; [| discriminate].
  intros _.
  destruct (Hsummary st eq_refl) as [news [_ [_ [_ [_ [Hacc _]]]]]].
  eexists. split; [| split].
  - rewrite writes_app, (writes_none effects Hnowrite). reflexivity.
  - cbn [ImageService.text]. rewrite yields_app, Hacc.
    cbn [ImageService.accumulated ImageService.initialState app].
    change (yields [WriteCache _ _; Emit _]) with (@nil Js.str).
    rewrite app_nil_r. reflexivity.
  - reflexivity.
Qed.

Lemma image_key_same_hash (W W' : Platform) (images : list ImageFile)
  (prompt : Js.str) (modelId : option ModelType) :
  (forall s, sha256Hex W' s = sha256Hex W s) ->
  policyJson W' = policyJson W ->
  ImageService.buildImageCacheKey W' images prompt modelId
  = ImageService.buildImageCacheKey W images prompt modelId.
Proof.
  intros Hhash Hpolicy. unfold ImageService.buildImageCacheKey. cbv zeta.
  rewrite !Hhash, Hpolicy. reflexivity.
Qed.

(** X10. When a request for an image sequence missed the cache, ran and
    returned, and its cache write went through, the next request for the same
    images, prompt and model choice within a day sends nothing to the inference
    service: it reports a cache hit and the completion, hands out the same text
    (cut into other chunks), writes nothing and leaves the storage as it found
    it. *)
Theorem X10_image_second_request_is_served_from_the_cache
  (W W' : Platform) (quota' : bool)
  (storage : Store.Storage ImageService.ImageCacheEntry)
  (images : list ImageFile) (prompt : Js.str) (modelId : option ModelType)
  (Hhash : forall s, sha256Hex W' s = sha256Hex W s)
  (Hpolicy : policyJson W' = policyJson W)
  (Hmiss :
     fst (Store.readImageCache storage (now W)
            (ImageService.buildImageCacheKey W images prompt modelId)) = None)
  (Hreturned :
     snd (fst (Requests.analyzeImageSequenceStreamOn W false storage images
                 prompt modelId)) = Ok tt)
  (Hclock : now W <> 0%Z /\ (now W' - now W <= Store.OCR_CACHE_TTL_MS)%Z) :
  let first :=
    Requests.analyzeImageSequenceStreamOn W false storage images prompt
      modelId in
  let second :=
    Requests.analyzeImageSequenceStreamOn W' quota' (snd first) images prompt
      modelId in
  map ev_type (events (fst (fst second))) = [cache_hit; completed]
  /\ streamCalls (fst (fst second)) = []
  /\ verifierCalls (fst (fst second)) = []
  /\ writes (fst (fst second)) = []
  /\ snd (fst second) = Ok tt
  /\ Requests.collectChunks (fst second) = Requests.collectChunks (fst first)
  /\ forall k, snd second k = snd first k.
Proof.
  cbv zeta. unfold Requests.analyzeImageSequenceStreamOn in *.
  cbv zeta in *.
  rewrite (image_key_same_hash W W' images prompt modelId Hhash Hpolicy).
  set (key := ImageService.buildImageCacheKey W images prompt modelId) in *.
  destruct (Store.readImageCache storage (now W) key) as [cached storage1]
    eqn:Hread.
  cbn [fst] in Hmiss. subst cached. cbn [fst snd] in *.
  pose proof (image_run_leaves W images prompt modelId) as Hleaves.
  cbv zeta in Hleaves.
  destruct (Hleaves Hreturned) as [entry [Hwrites [Htext Hcreated]]].
  fold key in Hwrites.
  set (run1 := ImageService.analyzeImageSequenceStream W images prompt modelId
                 None) in *.
  set (log := fst run1) in *.
  assert (Hstore : forall k,
    Store.applyWrites false log storage1 k
    = Store.setItem key (Store.Entry entry) storage1 k).
  { intro k. rewrite applyWrites_writes, Hwrites. reflexivity. }
  assert (Hsecond :
    Store.readImageCache (Store.applyWrites false log storage1) (now W') key
    = (Some entry, Store.applyWrites false log storage1)).
  { apply readCache_fresh.
    - rewrite Hstore. apply setItem_same.
    - rewrite Hcreated. apply Hclock.
    - rewrite Hcreated. apply Hclock. }
  rewrite Hsecond. cbn [fst snd].
  unfold ImageService.analyzeImageSequenceStream. cbv zeta.
  destruct (@events_yields ImageService.ImageCacheEntry
              (createTextStream (ImageService.text entry)))
    as [He [Hs [Hv Hw]]].
  cbn [fst snd].
  match goal with
  | |- context [?a :: ?b :: map Yield ?c] =>
      change (a :: b :: map Yield c) with ([a; b] ++ map Yield c)
  end.
  rewrite events_app, streamCalls_app, verifierCalls_app, writes_app,
    He, Hs, Hv, Hw.
  split; [reflexivity |]. split; [reflexivity |]. split; [reflexivity |].
  split; [reflexivity |]. split; [reflexivity |].
  split.
  - rewrite (collectChunks_returned run1 Hreturned).
    fold log. rewrite <- Htext, collectChunks_ok.
    rewrite yields_app, yields_map_Yield.
    change (yields [_; _]) with (@nil Js.str). cbn [app].
    rewrite (proj2 (createTextStream_chunks (ImageService.text entry))).
    reflexivity.
  - intro k. rewrite applyWrites_writes, writes_app, Hw. reflexivity.
Qed.

(** X10 at work: two pages on an empty storage, and the same request again:
    the three chunks of the first run come back as one text. *)
Lemma X10_image_second_request_is_served_from_the_cache_witness :
  let first :=
    Requests.analyzeImageSequenceStreamOn (steadyWorld longPage) false
      (fun _ => None) blankPages (Js.lit "") None in
  let second :=
    Requests.analyzeImageSequenceStreamOn (highTierWorld []) true (snd first)
      blankPages (Js.lit "") None in
  streamCalls (fst (fst second)) = []
  /\ Requests.collectChunks (fst second)
     = Ok (Js.trim longPage ++ [Js.LF; Js.LF] ++ Js.trim longPage)
  /\ map (@length Js.char) (yields (fst (fst first))) = [1499; 1501]
  /\ map (@length Js.char) (yields (fst (fst second))) = [1400; 1400; 200].
Proof.
  cbv zeta.
  assert (Hclock :
    now (steadyWorld longPage) <> 0%Z
    /\ (now (highTierWorld []) - now (steadyWorld longPage)
        <= Store.OCR_CACHE_TTL_MS)%Z).
  { split; [discriminate | vm_compute; discriminate]. }
  destruct (X10_image_second_request_is_served_from_the_cache
              (steadyWorld longPage) (highTierWorld []) true (fun _ => None)
              blankPages (Js.lit "") None
              (fun _ => eq_refl) eq_refl eq_refl eq_refl Hclock)
    as [_ [Hstream [_ [_ [_ [Hchunks _]]]]]].
  split; [exact Hstream |]. split; [| split].
  - rewrite Hchunks. vm_compute. reflexivity.
  - vm_compute. reflexivity.
  - vm_compute. reflexivity.
Defined.

(** ** Short texts and the last tier *)






(** X12. An attempt at the accuracy profile whose transcription arrived is
    accepted, last candidate or not, whatever the text is and whatever the
    verifier answers: the required score is 0 and no blend of scores is
    negative. *)
Theorem X12_accuracy_attempt_is_always_accepted
  (W : Platform) (text : Js.str) (isLast : bool)
  (modelId : option ModelType) :
  GeminiService.accepted
    (snd (GeminiService.scoreAttempt W text accuracy isLast modelId)) = true
  /\ ImageService.accepted
       (snd (ImageService.scoreAttempt W text accuracy isLast modelId)) = true.
Proof.
  split.
  - rewrite pdf_scoring_accepted, pdf_scoring_quality, pdf_scoring_verifier.
    apply orb_true_iff. left. apply Qle_bool_iff.
    pose proof (pdf_score_range text) as Hs.
    pose proof (pdf_runQualityVerifier_range W text accuracy modelId) as Hv.
    change (GeminiService.requiredPdfScore accuracy) with 0%Q.
    destruct (Qltb _ _); [| lra].
    destruct (snd (GeminiService.runQualityVerifier W text accuracy modelId));
      [simpl in Hv; lra | lra].
  - rewrite image_scoring_accepted, image_scoring_quality,
      image_scoring_verifier.
    apply orb_true_iff. left. apply Qle_bool_iff.
    pose proof (image_score_range text) as Hs.
    pose proof (image_runQualityVerifier_range W text accuracy modelId) as Hv.
    change (minQualityScore (OCR_PROFILE_POLICIES accuracy)) with 0.0%Q.
    destruct (Qltb _ _); [| lra].
    destruct (snd (ImageService.runQualityVerifier W text accuracy modelId));
      [simpl in Hv; lra | lra].
Qed.

(** ** The reasons of an assessment *)







(** ** Trimming and lines *)

Lemma dropWhile_suffix (p : Js.char -> bool) (s : Js.str) :
  exists pre, s = pre ++ Js.dropWhile p s /\ forallb p pre = true.
Proof.
  induction s as [| c r [pre [Heq Hall]]].
  - exists []. split; reflexivity.
  - simpl. destruct (p c) eqn:Hc.
    + exists (c :: pre). simpl. rewrite Hc, <- Heq. split; [reflexivity | exact Hall].
    + exists []. split; reflexivity.
Qed.

Lemma dropWhile_head (p : Js.char -> bool) (s : Js.str) (c : Js.char)
  (r : Js.str) :
  Js.dropWhile p s = c :: r -> p c = false.
Proof.
  induction s as [| x t IH]; [discriminate |].
  simpl. destruct (p x) eqn:Hx; [exact IH |].
  intro H. injection H as -> _. exact Hx.
Qed.

Lemma dropWhile_fixed (p : Js.char -> bool) (s : Js.str) :
  match s with [] => True | c :: _ => p c = false end ->
  Js.dropWhile p s = s.
Proof.
  destruct s as [| c r]; [reflexivity |]. simpl. intros ->. reflexivity.
Qed.

(** A trimmed string neither starts nor ends with white space. *)
Lemma trim_ends (s : Js.str) :
  match Js.trim s with
  | [] => True
  | c :: _ => Js.isWhiteSpace c = false
  end
  /\ match rev (Js.trim s) with
     | [] => True
     | c :: _ => Js.isWhiteSpace c = false
     end.
Proof.
  unfold Js.trim, Js.trimEnd, Js.trimStart.
  set (u := Js.dropWhile Js.isWhiteSpace s).
  destruct (dropWhile_suffix Js.isWhiteSpace (rev u)) as [pre [Heq _]].
  set (v := Js.dropWhile Js.isWhiteSpace (rev u)) in *.
  assert (Hu : u = rev v ++ rev pre).
  { rewrite <- (rev_involutive u), Heq, rev_app_distr. reflexivity. }
  split.
  - remember (rev v) as w eqn:Hw. destruct w as [| c t]; [exact I |].
    simpl in Hu.
    apply (dropWhile_head Js.isWhiteSpace s c (t ++ rev pre)). exact Hu.
  - rewrite rev_involutive.
    destruct v as [| c t] eqn:Hv; [exact I |].
    apply (dropWhile_head Js.isWhiteSpace (rev u) c t). exact Hv.
Qed.

Lemma trim_idempotent (s : Js.str) : Js.trim (Js.trim s) = Js.trim s.
Proof.
  destruct (trim_ends s) as [Hhead Hlast].
  set (t := Js.trim s) in *.
  unfold Js.trim at 1, Js.trimEnd, Js.trimStart.
  rewrite (dropWhile_fixed Js.isWhiteSpace t Hhead).
  rewrite (dropWhile_fixed Js.isWhiteSpace (rev t) Hlast).
  apply rev_involutive.
Qed.

Lemma In_dropWhile (p : Js.char -> bool) (s : Js.str) (c : Js.char) :
  In c (Js.dropWhile p s) -> In c s.
Proof.
  destruct (dropWhile_suffix p s) as [pre [Heq _]]. intro H.
  rewrite Heq. apply in_or_app. right. exact H.
Qed.

Lemma In_trim (s : Js.str) (c : Js.char) : In c (Js.trim s) -> In c s.
Proof.
  unfold Js.trim, Js.trimEnd, Js.trimStart. intro H.
  apply in_rev in H. apply In_dropWhile in H. apply in_rev in H.
  apply In_dropWhile in H. exact H.
Qed.

Lemma split_pieces (sep : Js.char) (s : Js.str) :
  Js.split sep s <> []
  /\ Forall (fun piece => ~ In sep piece
                          /\ forall c, In c piece -> In c s)
       (Js.split sep s).
Proof.
  induction s as [| c r [Hne IH]].
  - split; [discriminate |]. constructor; [| constructor].
    split; [intros [] | intros c []].
  - simpl. destruct (N.eqb_spec c sep) as [Heq | Hneq].
    + split; [discriminate |]. constructor.
      * split; [intros [] | intros x []].
      * eapply Forall_impl; [| exact IH].
        intros piece [Hsep Hsub]. split; [exact Hsep |].
        intros x Hx. right. apply Hsub. exact Hx.
    + destruct (Js.split sep r) as [| l ls]; [contradiction Hne; reflexivity |].
      split; [discriminate |].
      inversion IH as [| ? ? [Hsep Hsub] Hrest]; subst.
      constructor.
      * split.
        -- intros [Hc | Hin]; [apply Hneq; exact Hc | apply Hsep; exact Hin].
        -- intros x [<- | Hx]; [left; reflexivity | right; apply Hsub; exact Hx].
      * eapply Forall_impl; [| exact Hrest].
        intros piece [Hs Hsub']. split; [exact Hs |].
        intros x Hx. right. apply Hsub'. exact Hx.
Qed.

Lemma In_removeCR (s : Js.str) (c : Js.char) :
  In c (Js.removeCR s) <-> In c s /\ c <> Js.CR.
Proof.
  unfold Js.removeCR. rewrite filter_In.
  destruct (N.eqb_spec c Js.CR); simpl; intuition congruence.
Qed.

(** X14. Every line that [normalizedLines] returns is non-empty, holds
    neither a line feed nor a carriage return, neither starts nor ends with
    white space (trimming it again changes nothing), and holds only characters
    of the text. *)
Theorem X14_normalized_lines_are_clean (text : Js.str) :
  Forall
    (fun line =>
       line <> []
       /\ ~ In Js.LF line /\ ~ In Js.CR line
       /\ Js.trim line = line
       /\ hd_error (map Js.isWhiteSpace line) <> Some true
       /\ hd_error (map Js.isWhiteSpace (rev line)) <> Some true
       /\ forall c, In c line -> In c text)
    (normalizedLines text).
Proof.
  unfold normalizedLines. apply Forall_forall. intros line Hline.
  apply filter_In in Hline. destruct Hline as [Hin Htruthy].
  apply in_map_iff in Hin. destruct Hin as [piece [<- Hpiece]].
  destruct (split_pieces Js.LF (Js.removeCR text)) as [_ Hall].
  destruct (proj1 (Forall_forall _ _) Hall piece Hpiece) as [Hsep Hsub].
  destruct (trim_ends piece) as [Hhead Hlast].
  split; [| split; [| split; [| split; [| split; [| split]]]]].
  - intro H. rewrite H in Htruthy. discriminate Htruthy.
  - intro H. apply Hsep. apply In_trim. exact H.
  - intro H. apply In_trim, Hsub, In_removeCR in H. destruct H as [_ H].
    apply H. reflexivity.
  - apply trim_idempotent.
  - destruct (Js.trim piece) as [| c r]; [discriminate |].
    simpl. rewrite Hhead. discriminate.
  - destruct (rev (Js.trim piece)) as [| c r]; [discriminate |].
    simpl. rewrite Hlast. discriminate.
  - intros c Hc. apply In_trim, Hsub, In_removeCR in Hc. apply Hc.
Qed.

(** X15. The prompt sent with a request depends on the user's instruction
    through its trimmed text only, and an instruction of white space alone is
    replaced by the default sentence, as the empty one is. *)
Theorem X15_prompts_read_the_trimmed_instruction
  (prompt : Js.str) (profile : OptimizationProfile)
  (startPage endPage totalPages : nat) (carryContext : Js.str) :
  GeminiService.buildPdfPrompt (Js.trim prompt) profile
  = GeminiService.buildPdfPrompt prompt profile
  /\ ImageService.buildImagePrompt (Js.trim prompt) profile startPage endPage
       totalPages carryContext
     = ImageService.buildImagePrompt prompt profile startPage endPage
         totalPages carryContext
  /\ (Js.trim prompt = [] ->
      GeminiService.buildPdfPrompt prompt profile
      = GeminiService.buildPdfPrompt [] profile
      /\ ImageService.buildImagePrompt prompt profile startPage endPage
           totalPages carryContext
         = ImageService.buildImagePrompt [] profile startPage endPage
             totalPages carryContext).
Proof.
  unfold GeminiService.buildPdfPrompt, ImageService.buildImagePrompt.
  cbv zeta. rewrite trim_idempotent.
  split; [reflexivity |]. split; [reflexivity |].
  intros ->. split; reflexivity.
Qed.

(** ** The sample for the verifier and the chunks of a text *)

Lemma firstn_min_length {A} (n : nat) (l : list A) :
  firstn (Nat.min n (length l)) l = firstn n l.
Proof.
  destruct (Nat.le_ge_cases n (length l)) as [H | H].
  - rewrite Nat.min_l by exact H. reflexivity.
  - rewrite Nat.min_r by exact H.
    rewrite firstn_all, firstn_all2 by exact H. reflexivity.
Qed.

(** X16. A text of at most 2200 characters goes to the verifier whole; of a
    longer one the verifier sees the first 1320 characters and the last 880,
    with a line holding three dots between them: 2205 characters, which is more
    than the text has when it has 2201 to 2204. *)
Theorem X16_verifier_sample_is_head_and_tail (text : Js.str) :
  let sample := sampleForVerification text in
  sample
  = (if length text <=? 2200 then text
     else firstn 1320 text ++ [Js.LF] ++ Js.lit "..." ++ [Js.LF]
            ++ lastN 880 text)
  /\ length sample = (if length text <=? 2200 then length text else 2205)
  /\ length sample <= 2205
  /\ firstn 1320 sample = firstn 1320 text
  /\ lastN 880 sample = lastN 880 text.
Proof.
  cbv zeta.
  assert (Heq : sampleForVerification text
                = if length text <=? 2200 then text
                  else firstn 1320 text ++ [Js.LF] ++ Js.lit "..." ++ [Js.LF]
                         ++ lastN 880 text).
  { unfold sampleForVerification. cbv zeta.
    change QUALITY_VERIFIER_SAMPLE_CHARS with 2200.
    destruct (Nat.leb_spec (length text) 2200) as [Hle | Hgt];
      [reflexivity |].
    change (Z.to_nat (Qfloor (Qnat 2200 * 0.6))) with 1320.
    change (2200 - 1320) with 880.
    change 0%Z with (Z.of_nat 0).
    rewrite slice_of_nat. unfold Js.sliceFrom.
    rewrite relIndex_of_nat.
    rewrite (Nat.min_l 1320), (Nat.min_l 0), (Nat.min_l (length text - 880))
      by lia.
    rewrite Nat.sub_0_r. reflexivity. }
  rewrite Heq.
  destruct (Nat.leb_spec (length text) 2200) as [Hle | Hgt].
  - repeat split; try reflexivity. lia.
  - assert (Hhead : length (firstn 1320 text) = 1320)
      by (rewrite length_firstn; lia).
    assert (Htail : length (lastN 880 text) = 880)
      by (unfold lastN; rewrite length_skipn; lia).
    split; [reflexivity |].
    assert (Hlen : length (firstn 1320 text ++ [Js.LF] ++ Js.lit "..."
                           ++ [Js.LF] ++ lastN 880 text) = 2205).
    { rewrite !length_app, Hhead, Htail. reflexivity. }
    split; [exact Hlen |]. split; [lia |]. split.
    + rewrite firstn_app, Hhead, Nat.sub_diag, firstn_O.
      rewrite app_nil_r, firstn_firstn. reflexivity.
    + unfold lastN at 1. rewrite Hlen.
      change (2205 - 880) with (1320 + 5).
      rewrite skipn_app, Hhead.
      rewrite (skipn_all2 (firstn 1320 text)) by lia.
      replace (1320 + 5 - 1320) with 5 by lia.
      reflexivity.
Qed.

Lemma createTextStreamFrom_nth (text : Js.str) (fuel cursor i : nat) :
  nth_error (createTextStreamFrom fuel cursor text) i
  = if (i <? fuel) && (cursor + i * 1400 <? length text)
    then Some (firstn 1400 (skipn (cursor + i * 1400) text))
    else None.
Proof.
  revert cursor i. induction fuel as [| fuel IH]; intros cursor i.
  - simpl. destruct i; reflexivity.
  - cbn [createTextStreamFrom].
    change OUTPUT_STREAM_CHUNK_SIZE with 1400.
    destruct (Nat.ltb_spec cursor (length text)) as [Hlt | Hge].
    + destruct i as [| i].
      * cbn [nth_error]. rewrite Nat.add_0_r.
        destruct (Nat.ltb_spec cursor (length text)); [| lia].
        cbn [Nat.ltb Nat.leb andb]. f_equal.
        rewrite slice_of_nat, (Nat.min_l cursor) by lia.
        replace (Nat.min (cursor + 1400) (length text) - cursor)
          with (Nat.min 1400 (length (skipn cursor text)))
          by (rewrite length_skipn; lia).
        apply firstn_min_length.
      * cbn [nth_error]. rewrite IH.
        replace (cursor + 1400 + i * 1400) with (cursor + S i * 1400) by lia.
        reflexivity.
    + destruct i as [| i]; cbn [nth_error].
      * destruct (Nat.ltb_spec (cursor + 0 * 1400) (length text)); [lia |].
        rewrite andb_false_r. reflexivity.
      * destruct (Nat.ltb_spec (cursor + S i * 1400) (length text)); [lia |].
        rewrite andb_false_r. reflexivity.
Qed.

Lemma nth_error_length {A} (l : list A) (n : nat) :
  (forall i, nth_error l i <> None <-> i < n) -> length l = n.
Proof.
  intro H.
  destruct (Nat.lt_trichotomy (length l) n) as [Hlt | [Heq | Hgt]];
    [| exact Heq |].
  - exfalso. apply (proj2 (H (length l)) Hlt).
    apply nth_error_None. lia.
  - exfalso. assert (Hn : nth_error l n <> None)
      by (apply nth_error_Some; exact Hgt).
    apply H in Hn. lia.
Qed.

(** X17. [createTextStream] cuts a text at every multiple of 1400: chunk [i]
    is the 1400 characters from position [1400 * i] on (fewer for the last one),
    and there are as many chunks as 1400 goes into the length, rounded up; the
    empty text gives none. *)
Theorem X17_text_stream_cuts_every_1400 (text : Js.str) :
  (forall i,
      nth_error (createTextStream text) i
      = if i * 1400 <? length text
        then Some (firstn 1400 (skipn (i * 1400) text))
        else None)
  /\ length (createTextStream text) = (length text + 1399) / 1400
  /\ (forall i chunk,
        nth_error (createTextStream text) i = Some chunk ->
        S i < length (createTextStream text) -> length chunk = 1400).
Proof.
  assert (Hnth : forall i,
    nth_error (createTextStream text) i
    = if i * 1400 <? length text
      then Some (firstn 1400 (skipn (i * 1400) text))
      else None).
  { intro i. unfold createTextStream. rewrite createTextStreamFrom_nth.
    cbn [Nat.add].
    destruct (Nat.ltb_spec (i * 1400) (length text)) as [Hlt | Hge].
    - destruct (Nat.ltb_spec i (length text)); [reflexivity | lia].
    - rewrite andb_false_r. reflexivity. }
  assert (Hlen : length (createTextStream text) = (length text + 1399) / 1400).
  { apply nth_error_length. intro i. rewrite Hnth.
    pose proof (Nat.div_mod_eq (length text + 1399) 1400) as Hdm.
    pose proof (Nat.mod_upper_bound (length text + 1399) 1400 ltac:(lia)).
    destruct (Nat.ltb_spec (i * 1400) (length text)) as [Hlt | Hge].
    - split; [intros _; nia | intros _; discriminate].
    - split; [intro H0; exfalso; apply H0; reflexivity | intro Hi; nia]. }
  split; [exact Hnth |]. split; [exact Hlen |].
  intros i chunk Hchunk Hnext.
  rewrite Hnth in Hchunk.
  destruct (Nat.ltb_spec (i * 1400) (length text)) as [Hlt | Hge];
    [| discriminate].
  assert (Hc : chunk = firstn 1400 (skipn (i * 1400) text)) by congruence.
  clear Hchunk.
  assert (Hsucc : nth_error (createTextStream text) (S i) <> None)
    by (apply nth_error_Some; exact Hnext).
  rewrite Hnth in Hsucc.
  destruct (Nat.ltb_spec (S i * 1400) (length text)) as [Hlt' | Hge'];
    [| exfalso; apply Hsucc; reflexivity].
  rewrite Hc, length_firstn, length_skipn. lia.
Qed.

(** ** A live image run from start to end *)

Section ImageAttemptShape.

Variable W : Platform.
Variable images : list ImageFile.
Variables (prompt carryContext : Js.str).
Variable startIndex : nat.
Variable candidateProfiles : list OptimizationProfile.
Variable modelOverride : option ModelType.

Local Notation attemptOf i profile :=
  (ImageService.spanAttempt W images prompt carryContext startIndex
     candidateProfiles modelOverride i profile).
Local Notation theSpan := (ImageService.span images startIndex).
Local Notation promptOf profile :=
  (ImageService.buildImagePrompt prompt profile
     (ImageService.startPage startIndex)
     (ImageService.endPage images startIndex)
     (ImageService.totalPages images) carryContext).

(** What one attempt at a span does: it announces itself, prepares the
    images, sends its request unless the canvas failed, asks the verifier at
    most once and then, by the way it ends, escalates, accepts, or stops
    with the error of the canvas or of the stream. *)
Lemma image_attempt_shape i profile :
  exists start sent calls tail,
    fst (attemptOf i profile) = Emit start :: sent ++ calls ++ tail
    /\ ev_type start = profile_start /\ ev_profile start = profile
    /\ (sent = []
        \/ exists prepared,
             ImageService.preprocessSpan W theSpan profile = Ok prepared
             /\ sent = [CallStream
                          (ImageService.spanRequest prepared (promptOf profile)
                             profile modelOverride)])
    /\ (forall x, In x calls ->
          exists r, x = Call r
                    /\ req_model r = modelForProfile profile modelOverride)
    /\ length calls <= 1
    /\ match snd (attemptOf i profile) with
       | Continue =>
           i <> length candidateProfiles - 1
           /\ exists ev, tail = [Emit ev]
                         /\ ev_type ev = profile_escalated
                         /\ ev_profile ev = profile
       | Return r =>
           ImageService.sr_profile r = profile
           /\ sent <> []
           /\ exists ev, tail = [Emit ev]
                         /\ ev_type ev = profile_accepted
                         /\ ev_profile ev = profile
       | Raise e =>
           i = length candidateProfiles - 1
           /\ tail = [] /\ calls = []
           /\ exists error, e = ImageService.spanFailure error
       end.
Proof.
  unfold ImageService.spanAttempt. cbv zeta.
  destruct (ImageService.preprocessSpan W theSpan profile)
    as [prepared | e] eqn:Hpre.
  - destruct (ImageService.runSpanAttempt W prepared _ profile modelOverride)
      as [text | e] eqn:Hrun.
    + pose proof (image_scoring_calls_only W modelOverride text profile
                    (i =? length candidateProfiles - 1)) as Hcalls.
      pose proof (image_scoring_calls W modelOverride text profile
                    (i =? length candidateProfiles - 1)) as Hwhich.
      pose proof (image_scoring_accepted W modelOverride text profile
                    (i =? length candidateProfiles - 1)) as Hacc.
      assert (Hlen :
        length (fst (ImageService.scoreAttempt W text profile
                       (i =? length candidateProfiles - 1) modelOverride))
        <= 1).
      { rewrite Hwhich. destruct (Qltb _ _); [| simpl; lia].
        rewrite image_verifier_requests.
        destruct (length (Js.trim text) <? 60); simpl; lia. }
      destruct (ImageService.scoreAttempt W text profile _ modelOverride)
        as [calls s] eqn:Hs.
      cbn [fst snd] in *.
      destruct (ImageService.accepted s) eqn:Haccepted; cbn [fst snd].
      * eexists. exists [CallStream
                          (ImageService.spanRequest prepared (promptOf profile)
                             profile modelOverride)].
        exists calls. eexists.
        split; [reflexivity |]. split; [reflexivity |].
        split; [reflexivity |].
        split; [right; exists prepared; split; reflexivity |].
        split; [intros x Hx; eexists; split;
                [apply (Hcalls x Hx) | reflexivity] |].
        split; [exact Hlen |].
        split; [reflexivity |]. split; [discriminate |].
        eexists. split; [reflexivity |]. split; reflexivity.
      * eexists. exists [CallStream
                          (ImageService.spanRequest prepared (promptOf profile)
                             profile modelOverride)].
        exists calls. eexists.
        split; [reflexivity |]. split; [reflexivity |].
        split; [reflexivity |].
        split; [right; exists prepared; split; reflexivity |].
        split; [intros x Hx; eexists; split;
                [apply (Hcalls x Hx) | reflexivity] |].
        split; [exact Hlen |].
        split.
        -- symmetry in Hacc. apply orb_false_iff in Hacc.
           destruct Hacc as [_ Hlast]. apply Nat.eqb_neq. exact Hlast.
        -- eexists. split; [reflexivity |]. split; reflexivity.
    + destruct (Nat.eqb_spec i (length candidateProfiles - 1))
        as [Hlast | Hlast]; cbn [fst snd].
      * eexists. exists [CallStream
                          (ImageService.spanRequest prepared (promptOf profile)
                             profile modelOverride)].
        exists []. exists [].
        split; [reflexivity |]. split; [reflexivity |].
        split; [reflexivity |].
        split; [right; exists prepared; split; reflexivity |].
        split; [intros x [] |]. split; [simpl; lia |].
        split; [exact Hlast |]. split; [reflexivity |].
        split; [reflexivity |]. exists e. reflexivity.
      * eexists. exists [CallStream
                          (ImageService.spanRequest prepared (promptOf profile)
                             profile modelOverride)].
        exists []. eexists.
        split; [reflexivity |]. split; [reflexivity |].
        split; [reflexivity |].
        split; [right; exists prepared; split; reflexivity |].
        split; [intros x [] |]. split; [simpl; lia |].
        split; [exact Hlast |].
        eexists. split; [reflexivity |]. split; reflexivity.
  - destruct (Nat.eqb_spec i (length candidateProfiles - 1))
      as [Hlast | Hlast]; cbn [fst snd].
    + eexists. exists []. exists []. exists [].
      split; [reflexivity |]. split; [reflexivity |].
      split; [reflexivity |]. split; [left; reflexivity |].
      split; [intros x [] |]. split; [simpl; lia |].
      split; [exact Hlast |]. split; [reflexivity |].
      split; [reflexivity |]. exists e. reflexivity.
    + eexists. exists []. exists []. eexists.
      split; [reflexivity |]. split; [reflexivity |].
      split; [reflexivity |]. split; [left; reflexivity |].
      split; [intros x [] |]. split; [simpl; lia |].
      split; [exact Hlast |].
      eexists. split; [reflexivity |]. split; reflexivity.
Qed.

(** The events and requests of one attempt at a span. *)
Lemma image_attempt_views i profile :
  let log := fst (attemptOf i profile) in
  profilesOf profile_start log = [profile]
  /\ length (streamCalls log) <= 1
  /\ Forall (fun r => req_model r = modelForProfile profile modelOverride)
       (streamCalls log ++ verifierCalls log)
  /\ length (verifierCalls log) <= 1
  /\ profilesOf cache_hit log = []
  /\ profilesOf completed log = []
  /\ profilesOf profile_escalated log
     = match snd (attemptOf i profile) with
       | Continue => [profile]
       | _ => []
       end
  /\ profilesOf profile_accepted log
     = match snd (attemptOf i profile) with
       | Return _ => [profile]
       | _ => []
       end.
Proof.
  cbv zeta.
  destruct (image_attempt_shape i profile)
    as [start [sent [calls [tail
         [Hlog [Hstart [Hprofile [Hsent [Hcalls [Hlen Hend]]]]]]]]]].
  rewrite Hlog.
  destruct (calls_views calls _ Hcalls) as [He [Hs [Hp [Hv [_ _]]]]].
  assert (Hsent' : events sent = [] /\ verifierCalls sent = []
                   /\ length (streamCalls sent) <= 1
                   /\ Forall (fun r => req_model r
                                       = modelForProfile profile modelOverride)
                        (streamCalls sent)).
  { destruct Hsent as [-> | [prepared [_ ->]]].
    - split; [reflexivity |]. split; [reflexivity |].
      split; [simpl; lia | constructor].
    - split; [reflexivity |]. split; [reflexivity |].
      split; [simpl; lia |].
      constructor; [reflexivity | constructor]. }
  destruct Hsent' as [Hse [Hsv [Hsl Hsm]]].
  assert (Htail : events tail
                  = match snd (attemptOf i profile) with
                    | Raise _ => []
                    | _ => events tail
                    end
                  /\ streamCalls tail = [] /\ verifierCalls tail = []).
  { destruct (snd (attemptOf i profile)) as [| r | e].
    - destruct Hend as [_ [ev [-> _]]]. repeat split.
    - destruct Hend as [_ [_ [ev [-> _]]]]. repeat split.
    - destruct Hend as [_ [-> _]]. repeat split. }
  destruct Htail as [_ [Hts Htv]].
  change (Emit start :: sent ++ calls ++ tail)
    with ([Emit start] ++ sent ++ calls ++ tail).
  assert (Hviews : forall type,
    profilesOf type ([Emit start] ++ sent ++ calls ++ tail)
    = (if AnalysisEventType_eqb profile_start type then [profile] else [])
      ++ profilesOf type tail).
  { intro type.
    assert (Hpc : profilesOf type calls = [])
      by (unfold profilesOf, eventsOf; rewrite He; reflexivity).
    assert (Hps : profilesOf type sent = [])
      by (unfold profilesOf, eventsOf; rewrite Hse; reflexivity).
    rewrite !profilesOf_app, Hpc, Hps. cbn [app].
    unfold profilesOf at 1, eventsOf at 1, events at 1.
    cbn [flat_map app filter]. rewrite Hstart.
    destruct type; cbn [AnalysisEventType_eqb filter map app];
      rewrite ?Hprofile; reflexivity. }
  rewrite !Hviews, !streamCalls_app, !verifierCalls_app, Hs, Hts, Hsv, Htv.
  change (streamCalls [@Emit ImageService.ImageCacheEntry start])
    with (@nil Request).
  change (verifierCalls [@Emit ImageService.ImageCacheEntry start])
    with (@nil Request).
  cbn [AnalysisEventType_eqb app]. rewrite !app_nil_r.
  assert (Htails :
    profilesOf profile_start tail = []
    /\ profilesOf cache_hit tail = [] /\ profilesOf completed tail = []
    /\ profilesOf profile_escalated tail
       = match snd (attemptOf i profile) with
         | Continue => [profile]
         | _ => []
         end
    /\ profilesOf profile_accepted tail
       = match snd (attemptOf i profile) with
         | Return _ => [profile]
         | _ => []
         end).
  { destruct (snd (attemptOf i profile)) as [| r | e].
    - destruct Hend as [_ [ev [-> [Ht Hp']]]].
      unfold profilesOf, eventsOf, events. cbn [flat_map app filter].
      rewrite Ht. cbn [AnalysisEventType_eqb filter map]. rewrite Hp'.
      repeat split.
    - destruct Hend as [_ [_ [ev [-> [Ht Hp']]]]].
      unfold profilesOf, eventsOf, events. cbn [flat_map app filter].
      rewrite Ht. cbn [AnalysisEventType_eqb filter map]. rewrite Hp'.
      repeat split.
    - destruct Hend as [_ [-> _]]. repeat split. }
  destruct Htails as [T0 [T1 [T2 [T3 T4]]]]. rewrite T0, T1, T2, T3, T4.
  split; [reflexivity |]. split; [exact Hsl |].
  split; [apply Forall_app; split; assumption |].
  split; [lia |]. repeat split; reflexivity.
Qed.

(** The last attempt at a span never falls through. *)
Lemma image_last_attempt_ends profile :
  snd (attemptOf (length candidateProfiles - 1) profile) <> Continue.
Proof.
  destruct (image_attempt_shape (length candidateProfiles - 1) profile)
    as [start [sent [calls [tail [_ [_ [_ [_ [_ [_ Hend]]]]]]]]]].
  intro Hc. rewrite Hc in Hend. destruct Hend as [Hne _]. apply Hne.
  reflexivity.
Qed.

End ImageAttemptShape.

Lemma image_candidates_count (modelId : option ModelType) :
  1 <= length (ImageService.resolveImageCandidateProfiles modelId) <= 3.
Proof. destruct modelId as [[|] |]; simpl; lia. Qed.

Lemma image_candidate_model (modelId : option ModelType)
  (p : OptimizationProfile) :
  In p (ImageService.resolveImageCandidateProfiles modelId) ->
  modelForProfile p modelId = model (OCR_PROFILE_POLICIES p).
Proof.
  destruct modelId as [[|] |]; [| | reflexivity]; simpl;
    intuition (subst; reflexivity).
Qed.

Lemma spanFailure_is_neither (error : Thrown) :
  ImageService.spanFailure error <> ImageService.couldNotResolve
  /\ ImageService.spanFailure error
     <> ErrorObject (Js.lit "No images left to process.").
Proof.
  destruct error as [message |]; split; intro H; vm_compute in H;
    discriminate H.
Qed.

Section ImageSpanAnatomy.

Variable W : Platform.
Variable images : list ImageFile.
Variables (prompt carryContext : Js.str).
Variable startIndex : nat.
Variable candidateProfiles : list OptimizationProfile.
Variable modelOverride : option ModelType.
Hypothesis Hsome : 0 < length candidateProfiles.
Hypothesis Hpage : startIndex < length images.

Local Notation attemptOf i profile :=
  (ImageService.spanAttempt W images prompt carryContext startIndex
     candidateProfiles modelOverride i profile).
Local Notation bodyAt :=
  (ImageService.spanAttemptAt W images prompt carryContext startIndex
     candidateProfiles modelOverride).
Local Notation resolution :=
  (ImageService.resolveSpanWithEscalation W images prompt carryContext
     startIndex candidateProfiles modelOverride).

Lemma image_resolution_ends :
  exists k p,
    nth_error candidateProfiles k = Some p
    /\ (forall j q, j < k -> nth_error candidateProfiles j = Some q ->
                    bodyAt j = attemptOf j q
                    /\ snd (attemptOf j q) = Continue)
    /\ snd (attemptOf k p) <> Continue
    /\ fst resolution
       = flat_map (fun j => fst (bodyAt j)) (seq 0 k) ++ fst (attemptOf k p)
    /\ snd resolution
       = match snd (attemptOf k p) with
         | Return r => Ok r
         | Raise error => Throw error
         | Continue => Throw ImageService.couldNotResolve
         end.
Proof.
  assert (Hlast : snd (bodyAt (length candidateProfiles - 1)) <> Continue).
  { unfold ImageService.spanAttemptAt.
    destruct (nth_error candidateProfiles (length candidateProfiles - 1))
      as [p |] eqn:Hp.
    - apply image_last_attempt_ends.
    - apply nth_error_None in Hp. lia. }
  destruct (forLoop_ends _ _ (length candidateProfiles) bodyAt Hsome Hlast)
    as [k [Hk [Hreached [Hend [Hsnd Hfst]]]]].
  destruct (nth_error candidateProfiles k) as [p |] eqn:Hp.
  2:{ apply nth_error_None in Hp. lia. }
  assert (Hbody : bodyAt k = attemptOf k p).
  { unfold ImageService.spanAttemptAt. rewrite Hp. reflexivity. }
  assert (Hres : resolution
                 = match forLoop (length candidateProfiles) bodyAt with
                   | (effects, Return resolved) => (effects, Ok resolved)
                   | (effects, Raise error) => (effects, Throw error)
                   | (effects, Continue) =>
                       (effects, Throw ImageService.couldNotResolve)
                   end).
  { unfold ImageService.resolveSpanWithEscalation.
    rewrite span_length.
    destruct (Nat.ltb_spec startIndex (length images)); [reflexivity | lia]. }
  exists k, p. split; [exact Hp |]. split; [| split; [| split]].
  - intros j q Hj Hq.
    assert (Hbj : bodyAt j = attemptOf j q).
    { unfold ImageService.spanAttemptAt. rewrite Hq. reflexivity. }
    split; [exact Hbj |]. rewrite <- Hbj. apply Hreached. lia.
  - rewrite <- Hbody. exact Hend.
  - rewrite Hres, <- Hbody, <- Hfst.
    destruct (forLoop (length candidateProfiles) bodyAt) as [effects [| r | e]];
      reflexivity.
  - rewrite Hres, <- Hbody, <- Hsnd.
    destruct (forLoop (length candidateProfiles) bodyAt) as [effects [| r | e]];
      reflexivity.
Qed.

Lemma image_resolution_anatomy :
  exists k p,
    nth_error candidateProfiles k = Some p
    /\ profilesOf profile_start (fst resolution)
       = firstn (S k) candidateProfiles
    /\ profilesOf profile_escalated (fst resolution)
       = firstn k candidateProfiles
    /\ length (streamCalls (fst resolution)) <= S k
    /\ length (verifierCalls (fst resolution)) <= S k
    /\ Forall (fun r => exists q, In q candidateProfiles
                                  /\ req_model r
                                     = modelForProfile q modelOverride)
         (streamCalls (fst resolution) ++ verifierCalls (fst resolution))
    /\ profilesOf cache_hit (fst resolution) = []
    /\ profilesOf completed (fst resolution) = []
    /\ match snd resolution with
       | Ok r =>
           ImageService.sr_profile r = p
           /\ profilesOf profile_accepted (fst resolution) = [p]
       | Throw e =>
           k = length candidateProfiles - 1
           /\ profilesOf profile_accepted (fst resolution) = []
           /\ exists error, e = ImageService.spanFailure error
       end.
Proof.
  destruct image_resolution_ends as [k [p [Hp [Hbefore [Hend [Hfst Hsnd]]]]]].
  assert (Hk : k < length candidateProfiles)
    by (apply nth_error_Some; rewrite Hp; discriminate).
  pose proof (image_attempt_views W images prompt carryContext startIndex
                candidateProfiles modelOverride k p) as Hlast.
  cbv zeta in Hlast.
  destruct Hlast as [Ls [Lc [Lm [Lv [Lh [Ld [Le La]]]]]]].
  assert (Hprefix : forall (C : Type)
                           (V : list (Effect ImageService.ImageCacheEntry)
                                -> list C)
                           (g : OptimizationProfile -> list C),
    V [] = [] -> (forall a b, V (a ++ b) = V a ++ V b) ->
    (forall j q, j < k -> nth_error candidateProfiles j = Some q ->
                 V (fst (attemptOf j q)) = g q) ->
    V (flat_map (fun j => fst (bodyAt j)) (seq 0 k))
    = flat_map g (firstn k candidateProfiles)).
  { intros C V g Hnil Happ Hg.
    rewrite (view_flat_map V _ _ Hnil Happ).
    rewrite (flat_map_seq_nth candidateProfiles _ g 0 k); [reflexivity | | lia].
    intros j q Hj Hq. destruct (Hbefore j q ltac:(lia) Hq) as [-> _].
    apply Hg; [lia | exact Hq]. }
  assert (Hview : forall j q, j < k -> nth_error candidateProfiles j = Some q ->
    profilesOf profile_start (fst (attemptOf j q)) = [q]
    /\ length (streamCalls (fst (attemptOf j q))) <= 1
    /\ Forall (fun r => req_model r = modelForProfile q modelOverride)
         (streamCalls (fst (attemptOf j q))
          ++ verifierCalls (fst (attemptOf j q)))
    /\ length (verifierCalls (fst (attemptOf j q))) <= 1
    /\ profilesOf cache_hit (fst (attemptOf j q)) = []
    /\ profilesOf completed (fst (attemptOf j q)) = []
    /\ profilesOf profile_escalated (fst (attemptOf j q)) = [q]
    /\ profilesOf profile_accepted (fst (attemptOf j q)) = []).
  { intros j q Hj Hq.
    pose proof (image_attempt_views W images prompt carryContext startIndex
                  candidateProfiles modelOverride j q) as Hv.
    cbv zeta in Hv.
    destruct (Hbefore j q Hj Hq) as [_ Hc]. rewrite Hc in Hv. exact Hv. }
  assert (Hbound : forall (V : list (Effect ImageService.ImageCacheEntry)
                              -> list Request),
    V [] = [] -> (forall a b, V (a ++ b) = V a ++ V b) ->
    (forall j q, nth_error candidateProfiles j = Some q ->
                 length (V (fst (attemptOf j q))) <= 1) ->
    length (V (fst resolution)) <= S k).
  { intros V Hnil Happ Hone. rewrite Hfst, Happ, length_app.
    rewrite (view_flat_map V _ _ Hnil Happ).
    pose proof (flat_map_length_le
                  (fun j => V (fst (bodyAt j))) (seq 0 k) 1) as Hle.
    rewrite length_seq in Hle.
    assert (forall x, In x (seq 0 k) -> length (V (fst (bodyAt x))) <= 1).
    { intros j Hj. apply in_seq in Hj.
      destruct (nth_error candidateProfiles j) as [q |] eqn:Hq.
      2:{ apply nth_error_None in Hq. lia. }
      destruct (Hbefore j q ltac:(lia) Hq) as [-> _].
      apply (Hone j q Hq). }
    specialize (Hle H). pose proof (Hone k p Hp). lia. }
  exists k, p. split; [exact Hp |].
  split.
  { rewrite Hfst, profilesOf_app.
    rewrite (Hprefix _ (profilesOf profile_start) (fun q => [q]) eq_refl
               (profilesOf_app profile_start)
               (fun j q Hj Hq => proj1 (Hview j q Hj Hq))).
    rewrite flat_map_unit, Ls, (firstn_S_nth candidateProfiles k p Hp).
    reflexivity. }
  split.
  { rewrite Hfst, profilesOf_app.
    rewrite (Hprefix _ (profilesOf profile_escalated) (fun q => [q]) eq_refl
               (profilesOf_app profile_escalated)
               (fun j q Hj Hq =>
                  proj1 (proj2 (proj2 (proj2 (proj2 (proj2
                    (proj2 (Hview j q Hj Hq))))))))).
    rewrite flat_map_unit, Le.
    destruct (snd (attemptOf k p)); [| apply app_nil_r ..].
    exfalso. apply Hend. reflexivity. }
  split.
  { apply (Hbound streamCalls eq_refl streamCalls_app).
    intros j q Hq.
    apply (image_attempt_views W images prompt carryContext startIndex
             candidateProfiles modelOverride j q). }
  split.
  { apply (Hbound (@verifierCalls _) eq_refl verifierCalls_app).
    intros j q Hq.
    apply (image_attempt_views W images prompt carryContext startIndex
             candidateProfiles modelOverride j q). }
  split.
  { assert (Hall : forall r, In r (streamCalls (fst resolution))
                            \/ In r (verifierCalls (fst resolution)) ->
                    exists q, In q candidateProfiles
                              /\ req_model r = modelForProfile q modelOverride).
    { intros r Hr. rewrite Hfst, streamCalls_app, verifierCalls_app in Hr.
      assert (Hcase :
        (exists j, In j (seq 0 k)
                   /\ In r (streamCalls (fst (bodyAt j))
                            ++ verifierCalls (fst (bodyAt j))))
        \/ In r (streamCalls (fst (attemptOf k p))
                 ++ verifierCalls (fst (attemptOf k p)))).
      { destruct Hr as [Hr | Hr]; apply in_app_or in Hr;
          destruct Hr as [Hr | Hr].
        - left. unfold streamCalls in Hr. rewrite flat_map_flat_map in Hr.
          apply in_flat_map in Hr. destruct Hr as [j [Hj Hr]].
          exists j. split; [exact Hj |]. apply in_or_app. left. exact Hr.
        - right. apply in_or_app. left. exact Hr.
        - left. unfold verifierCalls in Hr. rewrite flat_map_flat_map in Hr.
          apply in_flat_map in Hr. destruct Hr as [j [Hj Hr]].
          exists j. split; [exact Hj |]. apply in_or_app. right. exact Hr.
        - right. apply in_or_app. right. exact Hr. }
      destruct Hcase as [[j [Hj Hr']] | Hr'].
      - apply in_seq in Hj.
        destruct (nth_error candidateProfiles j) as [q |] eqn:Hq.
        2:{ apply nth_error_None in Hq. lia. }
        destruct (Hbefore j q ltac:(lia) Hq) as [Hb _]. rewrite Hb in Hr'.
        exists q. split; [eapply nth_error_In; exact Hq |].
        destruct (Hview j q ltac:(lia) Hq) as [_ [_ [Hm _]]].
        apply (proj1 (Forall_forall _ _) Hm r Hr').
      - exists p. split; [eapply nth_error_In; exact Hp |].
        apply (proj1 (Forall_forall _ _) Lm r Hr'). }
    apply Forall_forall. intros r Hr. apply Hall.
    apply in_app_or in Hr. exact Hr. }
  split.
  { rewrite Hfst, profilesOf_app.
    rewrite (Hprefix _ (profilesOf cache_hit) (fun _ => []) eq_refl
               (profilesOf_app cache_hit)
               (fun j q Hj Hq =>
                  proj1 (proj2 (proj2 (proj2 (proj2 (Hview j q Hj Hq))))))).
    rewrite flat_map_nil, Lh. reflexivity. }
  split.
  { rewrite Hfst, profilesOf_app.
    rewrite (Hprefix _ (profilesOf completed) (fun _ => []) eq_refl
               (profilesOf_app completed)
               (fun j q Hj Hq =>
                  proj1 (proj2 (proj2 (proj2 (proj2 (proj2
                    (Hview j q Hj Hq)))))))).
    rewrite flat_map_nil, Ld. reflexivity. }
  assert (Hacc : profilesOf profile_accepted (fst resolution)
                 = profilesOf profile_accepted (fst (attemptOf k p))).
  { rewrite Hfst, profilesOf_app.
    rewrite (Hprefix _ (profilesOf profile_accepted) (fun _ => []) eq_refl
               (profilesOf_app profile_accepted)
               (fun j q Hj Hq =>
                  proj2 (proj2 (proj2 (proj2 (proj2 (proj2
                    (proj2 (Hview j q Hj Hq))))))))).
    rewrite flat_map_nil. reflexivity. }
  rewrite Hacc, La, Hsnd.
  destruct (image_attempt_shape W images prompt carryContext startIndex
              candidateProfiles modelOverride k p)
    as [s0 [n0 [c0 [t0 [_ [_ [_ [_ [_ [_ Hshape]]]]]]]]]].
  destruct (snd (attemptOf k p)) as [| r | e].
  - exfalso. apply Hend. reflexivity.
  - destruct Hshape as [Hprofile _]. split; [exact Hprofile | reflexivity].
  - destruct Hshape as [Hlastk [_ [_ Herr]]].
    split; [exact Hlastk |]. split; [reflexivity | exact Herr].
Qed.

End ImageSpanAnatomy.

Section ImageSequenceAnatomy.

Variable W : Platform.
Variable images : list ImageFile.
Variable prompt : Js.str.
Variable modelId : option ModelType.
Variable candidateProfiles : list OptimizationProfile.
Hypothesis Hsome : 0 < length candidateProfiles.

Local Notation loop :=
  (ImageService.spansFrom W images prompt modelId candidateProfiles).
Local Notation resolutionAt st :=
  (ImageService.resolveSpanWithEscalation W images prompt
     (ImageService.carryContext st) (ImageService.cursor st)
     candidateProfiles modelId).
Local Notation known r :=
  (exists q, In q candidateProfiles
             /\ req_model r = modelForProfile q modelId).

(** What the loop over the pages did, by the events and the requests: no
    hit and no completion; a transcription request and a verifier request
    at most per announced attempt, each to the model of a candidate; every
    announced attempt escalated or was accepted, but for the one that ended
    the loop with its error. *)
Lemma image_spans_anatomy fuel st :
  let log := fst (loop fuel st) in
  profilesOf cache_hit log = [] /\ profilesOf completed log = []
  /\ length (streamCalls log) <= length (profilesOf profile_start log)
  /\ length (verifierCalls log) <= length (profilesOf profile_start log)
  /\ Forall (fun r => known r) (streamCalls log ++ verifierCalls log)
  /\ match snd (loop fuel st) with
     | Ok st' =>
         exists news,
           ImageService.resolved st' = ImageService.resolved st ++ news
           /\ profilesOf profile_accepted log
              = map ImageService.sr_profile news
           /\ length (profilesOf profile_start log)
              = length (profilesOf profile_escalated log) + length news
           /\ length (profilesOf profile_start log)
              <= length candidateProfiles * length news
     | Throw e =>
         (exists error, e = ImageService.spanFailure error)
         /\ length (profilesOf profile_start log)
            = length (profilesOf profile_escalated log)
              + length (profilesOf profile_accepted log) + 1
     end.
Proof.
  cbv zeta. revert st. induction fuel as [| fuel IH]; intro st.
  - cbn [ImageService.spansFrom fst snd].
    repeat split; try (simpl; lia); try constructor.
    exists []. rewrite app_nil_r. repeat split; simpl; lia.
  - destruct (Nat.lt_ge_cases (ImageService.cursor st) (length images))
      as [Hpage | Hdone].
    2:{ rewrite (image_spans_done W images prompt modelId candidateProfiles
                   (S fuel) st Hdone).
        cbn [fst snd].
        repeat split; try (simpl; lia); try constructor.
        exists []. rewrite app_nil_r. repeat split; simpl; lia. }
    rewrite (image_spans_step W images prompt modelId candidateProfiles
               fuel st Hpage).
    destruct (image_resolution_anatomy W images prompt
                (ImageService.carryContext st) (ImageService.cursor st)
                candidateProfiles modelId Hsome Hpage)
      as [k [p [Hp [Rs [Re [Rc [Rv [Rm [Rh [Rd Rend]]]]]]]]]].
    assert (Hk : k < length candidateProfiles)
      by (apply nth_error_Some; rewrite Hp; discriminate).
    assert (Hks : length (firstn (S k) candidateProfiles) = S k)
      by (rewrite length_firstn; lia).
    assert (Hke : length (firstn k candidateProfiles) = k)
      by (rewrite length_firstn; lia).
    destruct (snd (resolutionAt st)) as [r | error].
    + (* the span was resolved *)
      cbn [fst snd].
      specialize (IH (advance st r)).
      destruct IH as [Ih [Id [Ic [Iv [Im Iend]]]]].
      destruct Rend as [Rp Ra].
      set (yielded :=
             if Js.truthy (appendTextOf (ImageService.accumulated st) r)
             then [@Yield ImageService.ImageCacheEntry
                     (appendTextOf (ImageService.accumulated st) r)]
             else []) in *.
      assert (Hy : forall type, profilesOf type yielded = []).
      { intro type. unfold yielded. destruct (Js.truthy _); reflexivity. }
      assert (Hys : streamCalls yielded = [] /\ verifierCalls yielded = []).
      { unfold yielded. destruct (Js.truthy _); split; reflexivity. }
      destruct Hys as [Hys Hyv].
      rewrite !profilesOf_app, !streamCalls_app, !verifierCalls_app,
        !Hy, Hys, Hyv, Rh, Rd, Ih, Id, Rs, Re, Ra.
      cbn [app]. rewrite !length_app, Hks, Hke.
      split; [reflexivity |]. split; [reflexivity |].
      split; [lia |]. split; [lia |].
      split.
      { apply Forall_forall. intros x Hx.
        apply in_app_or in Hx.
        destruct Hx as [Hx | Hx]; apply in_app_or in Hx;
          destruct Hx as [Hx | Hx].
        - apply (proj1 (Forall_forall _ _) Rm x).
          apply in_or_app. left. exact Hx.
        - apply (proj1 (Forall_forall _ _) Im x).
          apply in_or_app. left. exact Hx.
        - apply (proj1 (Forall_forall _ _) Rm x).
          apply in_or_app. right. exact Hx.
        - apply (proj1 (Forall_forall _ _) Im x).
          apply in_or_app. right. exact Hx. }
      destruct (snd (loop fuel (advance st r))) as [st' | e].
      * destruct Iend as [news [Hres [Hacc [Hcount Hmost]]]].
        exists (r :: news).
        split.
        { rewrite Hres. unfold advance. cbn [ImageService.resolved].
          rewrite <- app_assoc. reflexivity. }
        split; [rewrite Hacc, <- Rp; reflexivity |].
        cbn [length]. split; [lia | nia].
      * destruct Iend as [Herr Hcount].
        split; [exact Herr |]. cbn [length]. lia.
    + (* the span failed *)
      cbn [fst snd]. destruct Rend as [_ [Ra Herr]].
      rewrite Rh, Rd, Rs, Re, Ra, Hks, Hke.
      split; [reflexivity |]. split; [reflexivity |].
      split; [exact Rc |]. split; [exact Rv |].
      split; [exact Rm |]. split; [exact Herr |]. simpl. lia.
Qed.

End ImageSequenceAnatomy.

(** What a live image run sends and how it ends. *)
Lemma image_outcome_facts
  (W : Platform) (images : list ImageFile) (prompt : Js.str)
  (modelId : option ModelType) :
  let candidates := ImageService.resolveImageCandidateProfiles modelId in
  let run :=
    ImageService.analyzeImageSequenceStream W images prompt modelId None in
  let log := fst run in
  let starts := length (profilesOf profile_start log) in
  let escalations := length (profilesOf profile_escalated log) in
  let acceptances := length (profilesOf profile_accepted log) in
  profilesOf cache_hit log = []
  /\ length (streamCalls log) <= starts
  /\ length (verifierCalls log) <= starts
  /\ Forall (fun r => exists p, In p candidates
                                /\ req_model r
                                   = model (OCR_PROFILE_POLICIES p))
       (streamCalls log ++ verifierCalls log)
  /\ match snd run with
     | Ok _ =>
         acceptances = length images
         /\ starts = escalations + length images
         /\ starts <= 3 * length images
         /\ length (profilesOf completed log) = 1
         /\ exists before ev, log = before ++ [Emit ev]
                              /\ ev_type ev = completed
     | Throw e =>
         (exists error, e = ImageService.spanFailure error)
         /\ e <> ImageService.couldNotResolve
         /\ e <> ErrorObject (Js.lit "No images left to process.")
         /\ starts = escalations + acceptances + 1
         /\ profilesOf completed log = []
     end.
Proof.
  cbv zeta. rewrite image_live_run.
  pose proof (image_candidates_count modelId) as Hcount.
  pose proof (image_spans_anatomy W images prompt modelId
                (ImageService.resolveImageCandidateProfiles modelId)
                ltac:(lia) (length images)
                (ImageService.initialState
                   (ImageService.resolveImageCandidateProfiles modelId)))
    as Hanatomy.
  cbv zeta in Hanatomy.
  pose proof (image_spans_summary W images prompt modelId
                (ImageService.resolveImageCandidateProfiles modelId)
                (length images)
                (ImageService.initialState
                   (ImageService.resolveImageCandidateProfiles modelId)))
    as [_ Hsummary].
  destruct (ImageService.spansFrom W images prompt modelId _ _ _)
    as [effects [st | error]]; cbn [fst snd] in *.
  - destruct Hanatomy as [Hh [Hd [Hc [Hv [Hm Hend]]]]].
    destruct Hend as [news [Hres [Hacc [Hstarts Hmost]]]].
    destruct (Hsummary st eq_refl)
      as [news' [Hres' [_ [Hcursor [_ [_ [_ Hall]]]]]]].
    assert (Hnews : news' = news)
      by (apply (app_inv_head (ImageService.resolved
                   (ImageService.initialState
                      (ImageService.resolveImageCandidateProfiles modelId))));
          congruence).
    subst news'.
    specialize (Hall ltac:(simpl; lia) ltac:(simpl; lia)).
    assert (Hlen : length news = length images)
      by (cbn [ImageService.cursor ImageService.initialState] in Hcursor; lia).
    rewrite !profilesOf_app, streamCalls_app, verifierCalls_app, Hh, Hd, Hacc.
    match goal with
    | |- context [[WriteCache ?k ?v; Emit ?ev]] =>
        set (tail := [WriteCache k v; Emit ev])
    end.
    change (profilesOf cache_hit tail) with (@nil OptimizationProfile).
    change (profilesOf profile_start tail) with (@nil OptimizationProfile).
    change (profilesOf profile_escalated tail)
      with (@nil OptimizationProfile).
    change (profilesOf profile_accepted tail)
      with (@nil OptimizationProfile).
    change (streamCalls tail) with (@nil Request).
    change (verifierCalls tail) with (@nil Request).
    rewrite !app_nil_r, length_map.
    split; [reflexivity |]. split; [exact Hc |]. split; [exact Hv |].
    split.
    { eapply Forall_impl; [| exact Hm].
      intros r [q [Hq Hr]]. exists q. split; [exact Hq |].
      rewrite Hr. apply (image_candidate_model modelId q Hq). }
    split; [exact Hlen |]. split; [lia |]. split; [nia |].
    split; [reflexivity |].
    eexists (effects ++ [_]). eexists. unfold tail.
    split; [rewrite <- app_assoc; reflexivity | reflexivity].
  - destruct Hanatomy as [Hh [Hd [Hc [Hv [Hm [[err Herr] Hstarts]]]]]].
    split; [exact Hh |]. split; [exact Hc |]. split; [exact Hv |].
    split.
    { eapply Forall_impl; [| exact Hm].
      intros r [q [Hq Hr]]. exists q. split; [exact Hq |].
      rewrite Hr. apply (image_candidate_model modelId q Hq). }
    split; [exists err; exact Herr |].
    rewrite Herr.
    split; [apply spanFailure_is_neither |].
    split; [apply spanFailure_is_neither |].
    split; [exact Hstarts | exact Hd].
Qed.


(** ** The text and the profile of a sequence *)

Lemma join_cons (sep p : Js.str) (ps : list Js.str) :
  Js.join sep (p :: ps) = p ++ concat (map (app sep) ps).
Proof.
  revert p. induction ps as [| q r IH]; intro p.
  - simpl. rewrite app_nil_r. reflexivity.
  - change (Js.join sep (p :: q :: r)) with (p ++ sep ++ Js.join sep (q :: r)).
    rewrite IH. cbn [map concat]. rewrite <- app_assoc. reflexivity.
Qed.

Lemma appendTexts_joined (acc : Js.str)
  (spans : list ImageService.SpanResolution) :
  concat (appendTexts acc spans)
  = match acc with
    | [] => Js.join [Js.LF; Js.LF] (pagesOf spans)
    | _ => concat (map (app [Js.LF; Js.LF]) (pagesOf spans))
    end.
Proof.
  revert acc. induction spans as [| r rest IH]; intro acc.
  - destruct acc; reflexivity.
  - unfold pagesOf in *. cbn [appendTexts map filter].
    destruct (Js.trim (ImageService.sr_text r)) as [| c t] eqn:Htrim.
    + cbn [Js.truthy]. apply IH.
    + cbn [Js.truthy]. destruct acc as [| a acc'].
      * cbn [concat]. rewrite (IH ([] ++ c :: t)). cbn [app].
        rewrite join_cons. reflexivity.
      * cbn [concat]. rewrite (IH ((a :: acc') ++ [Js.LF; Js.LF] ++ c :: t)).
        cbn [app map concat]. reflexivity.
Qed.

(** X19. When the loop over the pages of a live run ends, the text the run
    has handed out, writes to the cache and returns from [analyzeImageSequence]
    is the trimmed texts of the accepted spans, one per page, without the empty
    ones, joined by one blank line; nothing precedes the first text and nothing
    follows the last. *)
Theorem X19_image_text_is_the_joined_pages
  (W : Platform) (images : list ImageFile) (prompt : Js.str)
  (modelId : option ModelType)
  (effects : list (Effect ImageService.ImageCacheEntry))
  (st : ImageService.SequenceState)
  (Hloop :
     ImageService.spansFrom W images prompt modelId
       (ImageService.resolveImageCandidateProfiles modelId) (length images)
       (ImageService.initialState
          (ImageService.resolveImageCandidateProfiles modelId))
     = (effects, Ok st)) :
  let text := Js.join [Js.LF; Js.LF] (pagesOf (ImageService.resolved st)) in
  length (ImageService.resolved st) = length images
  /\ ImageService.accumulated st = text
  /\ Requests.analyzeImageSequence W images prompt modelId None = Ok text
  /\ map (fun w => ImageService.text (snd w))
       (writes
          (fst (ImageService.analyzeImageSequenceStream W images prompt
                  modelId None)))
     = [text].
Proof.
  cbv zeta.
  pose proof (image_spans_summary W images prompt modelId
                (ImageService.resolveImageCandidateProfiles modelId)
                (length images)
                (ImageService.initialState
                   (ImageService.resolveImageCandidateProfiles modelId)))
    as [Hnowrite Hsummary].
  rewrite Hloop in Hnowrite, Hsummary. cbn [fst snd] in *.
  destruct (Hsummary st eq_refl)
    as [news [Hres [_ [Hcursor [Hyields [Hacc [_ Hall]]]]]]].
  cbn [ImageService.resolved ImageService.initialState app
       ImageService.accumulated ImageService.cursor] in *.
  specialize (Hall ltac:(lia) ltac:(lia)).
  assert (Htext : ImageService.accumulated st
                  = Js.join [Js.LF; Js.LF]
                      (pagesOf (ImageService.resolved st))).
  { rewrite Hacc, Hyields, Hres. apply (appendTexts_joined [] news). }
  split; [rewrite Hres; lia |]. split; [exact Htext |].
  unfold Requests.analyzeImageSequence.
  rewrite image_live_run, Hloop. cbv zeta. cbn [fst snd].
  split.
  - rewrite collectChunks_ok, yields_app.
    change (yields [WriteCache _ _; Emit _]) with (@nil Js.str).
    rewrite app_nil_r, <- Htext, Hacc. reflexivity.
  - rewrite writes_app, (writes_none effects Hnowrite).
    cbn [app writes flat_map map snd ImageService.text]. rewrite Htext.
    reflexivity.
Qed.

(** X19 at work: two pages that come back padded with line feeds. *)
Lemma X19_image_text_is_the_joined_pages_witness :
  Requests.analyzeImageSequence paddedWorld blankPages (Js.lit "") None None
  = Ok (Js.join [Js.LF; Js.LF] (pagesOf (ImageService.resolved paddedState)))
  /\ pagesOf (ImageService.resolved paddedState)
     = [Js.lit "## page"; Js.lit "## page"].
Proof.
  destruct (X19_image_text_is_the_joined_pages paddedWorld blankPages (Js.lit "")
              None (fst paddedLoop) paddedState)
    as [_ [_ [Hreturn _]]].
  - vm_compute. reflexivity.
  - split; [exact Hreturn | vm_compute; reflexivity].
Defined.

Lemma rank_values :
  rank economy = 0%Z /\ rank balanced = 1%Z /\ rank accuracy = 2%Z.
Proof. repeat split. Qed.

Lemma rank_injective (a b : OptimizationProfile) : rank a = rank b -> a = b.
Proof. destruct a, b; intro H; try reflexivity; discriminate H. Qed.

(** [maxProfile] is the maximum in the order of [OCR_PROFILE_ORDER]. *)
Lemma maxProfile_spec (current next : OptimizationProfile) :
  rank (ImageService.maxProfile current next)
  = Z.max (rank current) (rank next)
  /\ (ImageService.maxProfile current next = current
      \/ ImageService.maxProfile current next = next).
Proof. destruct current, next; split; try reflexivity; auto. Qed.

Lemma fold_maxProfile_spec (l : list OptimizationProfile)
  (p0 : OptimizationProfile) :
  let top := fold_left ImageService.maxProfile l p0 in
  (rank p0 <= rank top)%Z
  /\ Forall (fun p => (rank p <= rank top)%Z) l
  /\ In top (p0 :: l).
Proof.
  cbv zeta. revert p0. induction l as [| q r IH]; intro p0.
  - simpl. split; [lia |]. split; [constructor | left; reflexivity].
  - cbn [fold_left].
    destruct (IH (ImageService.maxProfile p0 q)) as [Hge [Hall Hin]].
    destruct (maxProfile_spec p0 q) as [Hrank Hwhich].
    split; [lia |]. split.
    + constructor; [lia | exact Hall].
    + destruct Hin as [Hin | Hin].
      * destruct Hwhich as [Hw | Hw].
        -- left. rewrite <- Hin. symmetry. exact Hw.
        -- right. left. rewrite <- Hin. symmetry. exact Hw.
      * right. right. exact Hin.
Qed.

Section ImageSequenceProfiles.

Variable W : Platform.
Variable images : list ImageFile.
Variable prompt : Js.str.
Variable modelId : option ModelType.
Variable candidateProfiles : list OptimizationProfile.
Hypothesis Hsome : 0 < length candidateProfiles.

Local Notation loop :=
  (ImageService.spansFrom W images prompt modelId candidateProfiles).

Lemma image_spans_profiles fuel st st' :
  snd (loop fuel st) = Ok st' ->
  exists news,
    ImageService.resolved st' = ImageService.resolved st ++ news
    /\ Forall (fun r => In (ImageService.sr_profile r) candidateProfiles) news
    /\ ImageService.st_highestProfile st'
       = fold_left ImageService.maxProfile
           (map ImageService.sr_profile news)
           (ImageService.st_highestProfile st).
Proof.
  revert st. induction fuel as [| fuel IH]; intros st Hend.
  - cbn [ImageService.spansFrom snd] in Hend. injection Hend as <-.
    exists []. rewrite app_nil_r. repeat split. constructor.
  - destruct (Nat.lt_ge_cases (ImageService.cursor st) (length images))
      as [Hpage | Hdone].
    2:{ rewrite (image_spans_done W images prompt modelId candidateProfiles
                   (S fuel) st Hdone) in Hend.
        cbn [snd] in Hend. injection Hend as <-.
        exists []. rewrite app_nil_r. repeat split. constructor. }
    rewrite (image_spans_step W images prompt modelId candidateProfiles
               fuel st Hpage) in Hend.
    destruct (image_resolution_anatomy W images prompt
                (ImageService.carryContext st) (ImageService.cursor st)
                candidateProfiles modelId Hsome Hpage)
      as [k [p [Hp [_ [_ [_ [_ [_ [_ [_ Rend]]]]]]]]]].
    destruct (snd (ImageService.resolveSpanWithEscalation W images prompt
                     (ImageService.carryContext st) (ImageService.cursor st)
                     candidateProfiles modelId)) as [r | error];
      [| discriminate Hend].
    cbn [snd] in Hend. destruct Rend as [Rp _].
    destruct (IH (advance st r) Hend) as [news [Hres [Hall Htop]]].
    exists (r :: news). split; [| split].
    + rewrite Hres. unfold advance. cbn [ImageService.resolved].
      rewrite <- app_assoc. reflexivity.
    + constructor; [| exact Hall]. rewrite Rp.
      eapply nth_error_In. exact Hp.
    + rewrite Htop. reflexivity.
Qed.

End ImageSequenceProfiles.

Lemma image_first_candidate_is_lowest (modelId : option ModelType) :
  Forall (fun p =>
            (rank (match ImageService.resolveImageCandidateProfiles modelId with
                   | q :: _ => q
                   | [] => economy
                   end) <= rank p)%Z)
    (ImageService.resolveImageCandidateProfiles modelId).
Proof.
  destruct modelId as [[|] |]; repeat constructor; vm_compute; discriminate.
Qed.

(** X20. The profile a live image run completes with, and stores with its
    cache entry, is one of its candidates and ranks at least as high, in the
    order economy, balanced, accuracy, as the profile every page was accepted
    at; when there is at least one page it is the profile one of the pages was
    accepted at. *)
Theorem X20_sequence_profile_is_the_highest_accepted
  (W : Platform) (images : list ImageFile) (prompt : Js.str)
  (modelId : option ModelType)
  (effects : list (Effect ImageService.ImageCacheEntry))
  (st : ImageService.SequenceState)
  (Hloop :
     ImageService.spansFrom W images prompt modelId
       (ImageService.resolveImageCandidateProfiles modelId) (length images)
       (ImageService.initialState
          (ImageService.resolveImageCandidateProfiles modelId))
     = (effects, Ok st)) :
  let candidates := ImageService.resolveImageCandidateProfiles modelId in
  let top := ImageService.st_highestProfile st in
  let log :=
    fst (ImageService.analyzeImageSequenceStream W images prompt modelId
           None) in
  In top candidates
  /\ Forall (fun r => In (ImageService.sr_profile r) candidates
                      /\ (rank (ImageService.sr_profile r) <= rank top)%Z)
       (ImageService.resolved st)
  /\ (images <> [] ->
      exists r, In r (ImageService.resolved st)
                /\ ImageService.sr_profile r = top)
  /\ profilesOf completed log = [top]
  /\ map (fun w => ImageService.highestProfile (snd w)) (writes log) = [top].
Proof.
  cbv zeta.
  pose proof (image_candidates_count modelId) as Hcount.
  set (candidates := ImageService.resolveImageCandidateProfiles modelId) in *.
  assert (Hend : snd (ImageService.spansFrom W images prompt modelId candidates
                        (length images)
                        (ImageService.initialState candidates)) = Ok st)
    by (rewrite Hloop; reflexivity).
  destruct (image_spans_profiles W images prompt modelId candidates
              ltac:(lia) _ _ _ Hend) as [news [Hres [Hall Htop]]].
  cbn [ImageService.resolved ImageService.initialState app
       ImageService.st_highestProfile] in Hres, Htop.
  assert (Hlength : length news = length images).
  { pose proof (image_spans_summary W images prompt modelId candidates
                  (length images) (ImageService.initialState candidates))
      as [_ Hsummary].
    destruct (Hsummary st Hend)
      as [news' [Hres' [_ [Hcursor [_ [_ [_ Hfull]]]]]]].
    cbn [ImageService.resolved ImageService.initialState app
         ImageService.cursor] in Hres', Hcursor, Hfull.
    specialize (Hfull ltac:(lia) ltac:(lia)).
    assert (Hsame : news' = news) by congruence. rewrite Hsame in Hcursor.
    lia. }
  set (first := match candidates with q :: _ => q | [] => economy end) in *.
  assert (Hfirst : In first candidates).
  { unfold first. destruct candidates as [| q r]; [simpl in Hcount; lia |].
    left. reflexivity. }
  destruct (fold_maxProfile_spec (map ImageService.sr_profile news) first)
    as [Hge [Hranks Hin]].
  cbv zeta in Hge, Hranks, Hin. rewrite <- Htop in Hge, Hranks, Hin.
  assert (Hprofiles : Forall (fun p => In p candidates)
                        (map ImageService.sr_profile news)).
  { apply Forall_map. exact Hall. }
  split.
  { destruct Hin as [<- | Hin]; [exact Hfirst |].
    apply (proj1 (Forall_forall _ _) Hprofiles _ Hin). }
  split.
  { rewrite Hres. apply Forall_forall. intros r Hr. split.
    - apply (proj1 (Forall_forall _ _) Hall r Hr).
    - apply (proj1 (Forall_forall _ _) Hranks).
      apply in_map. exact Hr. }
  split.
  { intro Hpages.
    assert (Hnews : news <> []).
    { intro Hnil. rewrite Hnil in Hlength. simpl in Hlength.
      destruct images; [apply Hpages; reflexivity | discriminate Hlength]. }
    rewrite Hres.
    destruct Hin as [Heq | Hin].
    - (* the first candidate stayed: a page was accepted at it *)
      destruct news as [| r rest]; [contradiction Hnews; reflexivity |].
      exists r. split; [left; reflexivity |].
      apply rank_injective.
      assert (Hr : (rank (ImageService.sr_profile r)
                    <= rank (ImageService.st_highestProfile st))%Z)
        by (apply (proj1 (Forall_forall _ _) Hranks); left; reflexivity).
      assert (Hc : In (ImageService.sr_profile r) candidates)
        by (apply (proj1 (Forall_forall _ _) Hall); left; reflexivity).
      assert (Hlow : (rank first <= rank (ImageService.sr_profile r))%Z)
        by (apply (proj1 (Forall_forall _ _)
                     (image_first_candidate_is_lowest modelId) _ Hc)).
      rewrite Heq in Hlow. lia.
    - apply in_map_iff in Hin. destruct Hin as [r [Hr Hin]].
      exists r. split; [exact Hin | exact Hr]. }
  rewrite image_live_run. fold candidates. rewrite Hloop. cbv zeta.
  cbn [fst].
  pose proof (image_spans_anatomy W images prompt modelId candidates
                ltac:(lia) (length images)
                (ImageService.initialState candidates)) as Hanatomy.
  cbv zeta in Hanatomy. rewrite Hloop in Hanatomy. cbn [fst snd] in Hanatomy.
  destruct Hanatomy as [_ [Hd _]].
  pose proof (image_spans_summary W images prompt modelId candidates
                (length images) (ImageService.initialState candidates))
    as [Hnowrite _].
  rewrite Hloop in Hnowrite. cbn [fst] in Hnowrite.
  rewrite profilesOf_app, writes_app, Hd, (writes_none effects Hnowrite).
  split; reflexivity.
Qed.

(** X20 at work: two pages that are both accepted at economy. *)
Lemma X20_sequence_profile_is_the_highest_accepted_witness :
  ImageService.st_highestProfile paddedState = economy
  /\ profilesOf completed
       (fst (ImageService.analyzeImageSequenceStream paddedWorld blankPages
               (Js.lit "") None None))
     = [ImageService.st_highestProfile paddedState].
Proof.
  destruct (X20_sequence_profile_is_the_highest_accepted paddedWorld blankPages
              (Js.lit "") None (fst paddedLoop) paddedState)
    as [_ [_ [_ [Hdone _]]]].
  - vm_compute. reflexivity.
  - split; [vm_compute; reflexivity | exact Hdone].
Defined.

(** ** The metrics the application shows *)

Lemma runMetrics_counts {Entry} (log : list (Effect Entry)) :
  App.profileTransitions (App.runMetrics log)
  = length (profilesOf profile_start log)
  /\ App.escalations (App.runMetrics log)
     = length (profilesOf profile_escalated log)
  /\ App.cacheHits (App.runMetrics log) = length (profilesOf cache_hit log).
Proof.
  unfold App.runMetrics.
  assert (H : forall m0,
    let m := fold_left
               (fun metrics (e : Effect Entry) =>
                  match e with
                  | Emit event => App.onEvent metrics event
                  | _ => metrics
                  end) log m0 in
    App.profileTransitions m
    = App.profileTransitions m0 + length (profilesOf profile_start log)
    /\ App.escalations m
       = App.escalations m0 + length (profilesOf profile_escalated log)
    /\ App.cacheHits m
       = App.cacheHits m0 + length (profilesOf cache_hit log)).
  { cbv zeta. induction log as [| e rest IH]; intro m0.
    - simpl. repeat split; lia.
    - cbn [fold_left].
      destruct e as [ev | r | r | k v | t];
        try (change (profilesOf ?t (?x :: rest)) with (profilesOf t rest);
             apply IH).
      destruct (IH (App.onEvent m0 ev)) as [H1 [H2 H3]].
      rewrite H1, H2, H3.
      unfold profilesOf, eventsOf, events.
      cbn [flat_map app filter App.onEvent App.profileTransitions
           App.escalations App.cacheHits].
      destruct (ev_type ev); cbn [AnalysisEventType_eqb map length];
        repeat split; lia. }
  destruct (H App.INITIAL_METRICS) as [H1 [H2 H3]].
  split; [exact H1 |]. split; [exact H2 | exact H3].
Qed.

(** X21. After a request served from the cache the application shows one
    cache hit, no profile transition, no escalation, no input tokens, and the
    output estimate and quality of the cached entry. After a live PDF run,
    returned or failed, it shows no cache hit, between one and three profile
    transitions and one escalation fewer. After a live image run that returned,
    the profile transitions are the escalations plus the number of pages. *)
Theorem X21_run_metrics_count_the_attempts (W : Platform) :
  (forall pdfBase64 prompt modelId entry,
      let m :=
        App.runMetrics
          (fst (GeminiService.analyzePdfStream W pdfBase64 prompt modelId
                  (Some entry))) in
      App.profileTransitions m = 0 /\ App.escalations m = 0
      /\ App.cacheHits m = 1 /\ App.estimatedInputTokens m = 0
      /\ App.estimatedOutputTokens m
         = estimateTextTokens (GeminiService.text entry)
      /\ App.lastQualityScore m = Some (GeminiService.quality entry)
      /\ App.lastVerificationScore m = None)
  /\ (forall images prompt modelId entry,
        let m :=
          App.runMetrics
            (fst (ImageService.analyzeImageSequenceStream W images prompt
                    modelId (Some entry))) in
        App.profileTransitions m = 0 /\ App.escalations m = 0
        /\ App.cacheHits m = 1 /\ App.estimatedInputTokens m = 0
        /\ App.estimatedOutputTokens m
           = estimateTextTokens (ImageService.text entry)
        /\ App.lastQualityScore m = Some (ImageService.quality entry)
        /\ App.lastVerificationScore m = None)
  /\ (forall pdfBase64 prompt modelId,
        let m :=
          App.runMetrics
            (fst (GeminiService.analyzePdfStream W pdfBase64 prompt modelId
                    None)) in
        App.cacheHits m = 0
        /\ 1 <= App.profileTransitions m <= 3
        /\ App.escalations m + 1 = App.profileTransitions m)
  /\ (forall images prompt modelId,
        let run :=
          ImageService.analyzeImageSequenceStream W images prompt modelId
            None in
        let m := App.runMetrics (fst run) in
        App.cacheHits m = 0
        /\ match snd run with
           | Ok _ =>
               App.profileTransitions m = App.escalations m + length images
               /\ App.profileTransitions m <= 3 * length images
           | Throw _ =>
               App.escalations m + 1 <= App.profileTransitions m
           end).
Proof.
  assert (Hcached : forall (Entry : Type) (a b : AnalysisEvent)
                           (chunks : list Js.str),
    App.runMetrics (Emit a :: Emit b :: map (@Yield Entry) chunks)
    = App.onEvent (App.onEvent App.INITIAL_METRICS a) b).
  { intros Entry a b chunks. unfold App.runMetrics. cbn [fold_left].
    generalize (App.onEvent (App.onEvent App.INITIAL_METRICS a) b).
    induction chunks as [| c r IH]; intro m; [reflexivity | apply IH]. }
  split; [| split; [| split]].
  - intros pdfBase64 prompt modelId entry. cbv zeta.
    unfold GeminiService.analyzePdfStream. cbv zeta. cbn [fst].
    rewrite Hcached. repeat split.
    cbn [App.onEvent App.estimatedOutputTokens App.INITIAL_METRICS
         ev_estimatedOutputTokens]. lia.
  - intros images prompt modelId entry. cbv zeta.
    unfold ImageService.analyzeImageSequenceStream. cbv zeta. cbn [fst].
    rewrite Hcached. repeat split.
    cbn [App.onEvent App.estimatedOutputTokens App.INITIAL_METRICS
         ev_estimatedOutputTokens]. lia.
  - intros pdfBase64 prompt modelId. cbv zeta.
    destruct (runMetrics_counts
                (fst (GeminiService.analyzePdfStream W pdfBase64 prompt
                        modelId None))) as [H1 [H2 H3]].
    rewrite H1, H2, H3.
    pose proof (pdf_schedule_facts W pdfBase64 prompt modelId) as Hs.
    pose proof (pdf_outcome_facts W pdfBase64 prompt modelId) as Ho.
    cbv zeta in Hs, Ho.
    destruct Hs as [n [Hn [Hc [Hstart [_ [Hesc _]]]]]].
    destruct Ho as [Hhit _].
    rewrite Hhit, Hstart, Hesc, !length_firstn.
    split; [reflexivity |]. lia.
  - intros images prompt modelId. cbv zeta.
    destruct (runMetrics_counts
                (fst (ImageService.analyzeImageSequenceStream W images prompt
                        modelId None))) as [H1 [H2 H3]].
    rewrite H1, H2, H3.
    pose proof (image_outcome_facts W images prompt modelId) as Ho.
    cbv zeta in Ho. destruct Ho as [Hhit [_ [_ [_ Hend]]]].
    rewrite Hhit. split; [reflexivity |].
    destruct (snd (ImageService.analyzeImageSequenceStream W images prompt
                     modelId None)).
    + destruct Hend as [_ [Hs [Hmost _]]]. split; assumption.
    + destruct Hend as [_ [_ [_ [Hs _]]]]. lia.
Qed.

(** ** The arithmetic of the image preparation *)







Lemma clamp_bounds (v lo hi : Q) :
  (lo <= hi)%Q -> (lo <= Preprocess.clamp v lo hi <= hi)%Q.
Proof.
  intro H. unfold Preprocess.clamp. split.
  - apply Q.min_glb; [exact H | apply Q.le_max_l].
  - apply Q.le_min_l.
Qed.

Lemma clamp_monotone (v v' lo hi : Q) :
  (v <= v')%Q -> (Preprocess.clamp v lo hi <= Preprocess.clamp v' lo hi)%Q.
Proof.
  intro H. unfold Preprocess.clamp.
  apply Q.min_le_compat_l. apply Q.max_le_compat_l. exact H.
Qed.

Lemma clamp_inside (v lo hi : Q) :
  (lo <= v <= hi)%Q -> (Preprocess.clamp v lo hi == v)%Q.
Proof.
  intros [Hlo Hhi]. unfold Preprocess.clamp.
  rewrite (Q.max_r lo v Hlo). apply Q.min_r. exact Hhi.
Qed.

Lemma contrast_range (profile : OptimizationProfile) (stdDev : Q) :
  (1 <= Preprocess.adaptiveContrast profile stdDev
   <= (if OptimizationProfile_eqb profile economy then 1.45 else 1.7))%Q.
Proof.
  unfold Preprocess.adaptiveContrast. apply clamp_bounds.
  destruct (OptimizationProfile_eqb profile economy); lra.
Qed.

(** X23. The contrast factor lies between 1 and 1.7 (1.45 at economy) and
    the threshold between 70 and 200; every pixel comes out between 0 and 255,
    as 0 or 255 when the image is binarized, which never happens at economy nor
    when the standard deviation is 42 or more; a brighter pixel never comes out
    darker; and an image whose standard deviation reaches the target of the
    profile passes through with its luminance unchanged. *)
Theorem X23_tone_curve_stays_in_range
  (profile : OptimizationProfile) (mean stdDev : Q) (luminance brighter : Z) :
  let contrast := Preprocess.adaptiveContrast profile stdDev in
  let pixel := Preprocess.out profile mean stdDev luminance in
  (1 <= contrast <= 1.7)%Q
  /\ (profile = economy -> (contrast <= 1.45)%Q)
  /\ (70 <= Preprocess.threshold profile mean <= 200)%Q
  /\ (0 <= pixel <= 255)%Q
  /\ (Preprocess.needsBinarize profile stdDev = true ->
      (pixel = 0%Q \/ pixel = 255%Q)
      /\ profile <> economy /\ (stdDev < 42)%Q)
  /\ ((luminance <= brighter)%Z ->
      (pixel <= Preprocess.out profile mean stdDev brighter)%Q)
  /\ ((Preprocess.targetStd profile <= stdDev)%Q ->
      (0 <= luminance <= 255)%Z ->
      (pixel == inject_Z luminance)%Q).
Proof.
  cbv zeta.
  pose proof (contrast_range profile stdDev) as Hc.
  assert (Hc17 : (1 <= Preprocess.adaptiveContrast profile stdDev <= 1.7)%Q).
  { destruct (OptimizationProfile_eqb profile economy); lra. }
  split; [exact Hc17 |].
  split.
  { intros ->. simpl in Hc. lra. }
  split.
  { unfold Preprocess.threshold. apply clamp_bounds. lra. }
  assert (Hadj : forall l,
    (0 <= Preprocess.clamp
            ((inject_Z l - 128) * Preprocess.adaptiveContrast profile stdDev
             + 128) 0 255 <= 255)%Q).
  { intro l. apply clamp_bounds. lra. }
  split.
  { unfold Preprocess.out. cbv zeta.
    destruct (Preprocess.needsBinarize profile stdDev).
    - destruct (Qle_bool _ _); lra.
    - apply Hadj. }
  split.
  { intro Hb. unfold Preprocess.out. cbv zeta. rewrite Hb.
    unfold Preprocess.needsBinarize in Hb.
    apply andb_true_iff in Hb. destruct Hb as [He Hs].
    split; [destruct (Qle_bool _ _); auto |].
    split.
    - intros ->. discriminate He.
    - apply Qltb_iff. exact Hs. }
  split.
  { intro Hle. unfold Preprocess.out. cbv zeta.
    assert (Hmono :
      (Preprocess.clamp
         ((inject_Z luminance - 128)
          * Preprocess.adaptiveContrast profile stdDev + 128) 0 255
       <= Preprocess.clamp
            ((inject_Z brighter - 128)
             * Preprocess.adaptiveContrast profile stdDev + 128) 0 255)%Q).
    { apply clamp_monotone.
      assert (Hq : (inject_Z luminance <= inject_Z brighter)%Q)
        by (rewrite <- Zle_Qle; exact Hle).
      nra. }
    destruct (Preprocess.needsBinarize profile stdDev); [| exact Hmono].
    destruct (Qle_bool (Preprocess.threshold profile mean)
                (Preprocess.clamp
                   ((inject_Z luminance - 128)
                    * Preprocess.adaptiveContrast profile stdDev + 128)
                   0 255)) eqn:Hl.
    - apply Qle_bool_iff in Hl.
      assert (Hb : Qle_bool (Preprocess.threshold profile mean)
                     (Preprocess.clamp
                        ((inject_Z brighter - 128)
                         * Preprocess.adaptiveContrast profile stdDev + 128)
                        0 255) = true)
        by (apply Qle_bool_iff; lra).
      rewrite Hb. lra.
    - match goal with
      | |- context [if ?c then _ else _] => destruct c
      end; lra. }
  intros Hstd Hrange.
  assert (Htarget : (44 <= Preprocess.targetStd profile)%Q)
    by (destruct profile; simpl; lra).
  assert (Hone : (Preprocess.adaptiveContrast profile stdDev == 1)%Q).
  { unfold Preprocess.adaptiveContrast, Preprocess.clamp.
    assert (Hmax : (Qmax stdDev 1 == stdDev)%Q) by (apply Q.max_l; lra).
    assert (Hratio : (Preprocess.targetStd profile / Qmax stdDev 1 <= 1)%Q).
    { rewrite Hmax. apply Qle_shift_div_r; lra. }
    rewrite (Q.max_l 1 _ Hratio). apply Q.min_r.
    destruct (OptimizationProfile_eqb profile economy); lra. }
  unfold Preprocess.out. cbv zeta.
  assert (Hno : Preprocess.needsBinarize profile stdDev = false).
  { unfold Preprocess.needsBinarize. apply andb_false_iff. right.
    apply Qltb_false_iff. lra. }
  rewrite Hno.
  assert (Hl : (0 <= inject_Z luminance <= 255)%Q).
  { split; [change 0%Q with (inject_Z 0) | change 255%Q with (inject_Z 255)];
      rewrite <- Zle_Qle; lia. }
  rewrite clamp_inside.
  - rewrite Hone. ring.
  - rewrite Hone. split; lra.
Qed.



(** ** What the collecting entry points return *)

(** X25. [analyzePdfContent] and [analyzeImageSequence] return the text of
    the cache entry when the request is served from the cache. On a live PDF run
    that returns, [analyzePdfContent] returns the very text the run wrote to the
    cache; when the run throws, so does [analyzePdfContent], with the same
    error, and nothing was written. *)
Theorem X25_collected_text_is_the_cached_text
  (W : Platform) (pdfBase64 prompt : Js.str) (images : list ImageFile)
  (modelId : option ModelType) :
  (forall entry,
      Requests.analyzePdfContent W pdfBase64 prompt modelId (Some entry)
      = Ok (GeminiService.text entry))
  /\ (forall entry,
        Requests.analyzeImageSequence W images prompt modelId (Some entry)
        = Ok (ImageService.text entry))
  /\ match snd (GeminiService.analyzePdfStream W pdfBase64 prompt modelId
                  None) with
     | Ok _ =>
         exists entry,
           writes (fst (GeminiService.analyzePdfStream W pdfBase64 prompt
                          modelId None))
           = [(GeminiService.buildPdfCacheKey W pdfBase64 prompt, entry)]
           /\ Requests.analyzePdfContent W pdfBase64 prompt modelId None
              = Ok (GeminiService.text entry)
     | Throw e =>
         Requests.analyzePdfContent W pdfBase64 prompt modelId None = Throw e
         /\ writes (fst (GeminiService.analyzePdfStream W pdfBase64 prompt
                           modelId None)) = []
     end.
Proof.
  split; [| split].
  - intro entry. unfold Requests.analyzePdfContent,
      GeminiService.analyzePdfStream. cbv zeta.
    rewrite collectChunks_ok.
    match goal with
    | |- context [?a :: ?b :: map Yield ?c] =>
        change (a :: b :: map Yield c) with ([a; b] ++ map Yield c)
    end.
    rewrite yields_app, yields_map_Yield. cbn [yields flat_map app].
    rewrite (proj2 (createTextStream_chunks (GeminiService.text entry))).
    reflexivity.
  - intro entry. unfold Requests.analyzeImageSequence,
      ImageService.analyzeImageSequenceStream. cbv zeta.
    rewrite collectChunks_ok.
    match goal with
    | |- context [?a :: ?b :: map Yield ?c] =>
        change (a :: b :: map Yield c) with ([a; b] ++ map Yield c)
    end.
    rewrite yields_app, yields_map_Yield. cbn [yields flat_map app].
    rewrite (proj2 (createTextStream_chunks (ImageService.text entry))).
    reflexivity.
  - pose proof (pdf_run_leaves W pdfBase64 prompt modelId) as Hleaves.
    cbv zeta in Hleaves. unfold Requests.analyzePdfContent.
    destruct (GeminiService.analyzePdfStream W pdfBase64 prompt modelId None)
      as [log [[] | e]]; cbn [fst snd] in *.
    + destruct Hleaves as [entry [Hw [Hy _]]].
      exists entry. split; [exact Hw |].
      rewrite collectChunks_ok, Hy.
      rewrite (proj2 (createTextStream_chunks (GeminiService.text entry))).
      reflexivity.
    + destruct Hleaves as [Hw _]. split; [reflexivity | exact Hw].
Qed.

(** ** What the requests carry *)

Lemma preprocessSpan_length (W : Platform) (span : list ImageFile)
  (profile : OptimizationProfile)
  (prepared : list ImageService.PreparedImagePart) :
  ImageService.preprocessSpan W span profile = Ok prepared ->
  length prepared = length span.
Proof.
  revert prepared. induction span as [| img rest IH]; intros prepared H.
  - simpl in H. injection H as <-. reflexivity.
  - simpl in H.
    destruct (preprocessImageForProfile W img profile) as [[m d] | e];
      [| discriminate H].
    destruct (ImageService.preprocessSpan W rest profile) as [parts | e];
      [| discriminate H].
    injection H as <-. simpl. rewrite (IH parts eq_refl). reflexivity.
Qed.

Lemma wellFormed_requests {Entry} (log : list (Effect Entry)) :
  Forall wellFormed log ->
  Forall oneDocument (streamCalls log) /\ Forall textOnly (verifierCalls log).
Proof.
  induction 1 as [| e rest He _ [IHs IHv]]; [split; constructor |].
  unfold streamCalls, verifierCalls in *.
  destruct e; cbn [flat_map app]; split; try assumption;
    constructor; assumption.
Qed.

Lemma Forall_flat_map {A B} (P : B -> Prop) (f : A -> list B) (l : list A) :
  (forall x, In x l -> Forall P (f x)) -> Forall P (flat_map f l).
Proof.
  intro H. apply Forall_forall. intros y Hy.
  apply in_flat_map in Hy. destruct Hy as [x [Hx Hy]].
  apply (proj1 (Forall_forall _ _) (H x Hx) y Hy).
Qed.

Section ImageRequests.

Variable W : Platform.
Variable images : list ImageFile.
Variable prompt : Js.str.
Variable modelId : option ModelType.
Variable candidateProfiles : list OptimizationProfile.
Hypothesis Hsome : 0 < length candidateProfiles.

Lemma image_attempt_wellFormed carryContext startIndex i profile :
  startIndex < length images ->
  Forall wellFormed
    (fst (ImageService.spanAttempt W images prompt carryContext startIndex
            candidateProfiles modelId i profile)).
Proof.
  intro Hpage. unfold ImageService.spanAttempt. cbv zeta.
  destruct (ImageService.preprocessSpan W (ImageService.span images startIndex)
              profile) as [prepared | e] eqn:Hpre.
  - assert (Hone : oneDocument
                     (ImageService.spanRequest prepared
                        (ImageService.buildImagePrompt prompt profile
                           (ImageService.startPage startIndex)
                           (ImageService.endPage images startIndex)
                           (ImageService.totalPages images) carryContext)
                        profile modelId)).
    { apply preprocessSpan_length in Hpre. rewrite span_length in Hpre.
      destruct (Nat.ltb_spec startIndex (length images)); [| lia].
      destruct prepared as [| x [| y r]]; try discriminate Hpre.
      eexists. eexists. eexists. reflexivity. }
    destruct (ImageService.runSpanAttempt W prepared _ profile modelId)
      as [text | e].
    + pose proof (image_scoring_calls_only W modelId text profile
                    (i =? length candidateProfiles - 1)) as Hcalls.
      destruct (ImageService.scoreAttempt W text profile _ modelId)
        as [calls s].
      cbn [fst] in Hcalls.
      assert (Hc : Forall (@wellFormed ImageService.ImageCacheEntry) calls).
      { apply Forall_forall. intros x Hx. rewrite (Hcalls x Hx).
        eexists. reflexivity. }
      destruct (ImageService.accepted s); cbn [fst];
        (constructor; [exact I |]); (constructor; [exact Hone |]);
        apply Forall_app; (split; [exact Hc |]);
        constructor; [exact I | constructor | exact I | constructor].
    + destruct (i =? length candidateProfiles - 1); cbn [fst];
        repeat (constructor; try exact I; try exact Hone).
  - destruct (i =? length candidateProfiles - 1); cbn [fst];
      repeat (constructor; try exact I).
Qed.

Lemma image_resolution_wellFormed carryContext startIndex :
  startIndex < length images ->
  Forall wellFormed
    (fst (ImageService.resolveSpanWithEscalation W images prompt carryContext
            startIndex candidateProfiles modelId)).
Proof.
  intro Hpage.
  destruct (image_resolution_ends W images prompt carryContext startIndex
              candidateProfiles modelId Hsome Hpage)
    as [k [p [_ [_ [_ [Hfst _]]]]]].
  rewrite Hfst. apply Forall_app. split.
  - apply Forall_flat_map. intros j _.
    unfold ImageService.spanAttemptAt.
    destruct (nth_error candidateProfiles j) as [q |]; [| constructor].
    apply image_attempt_wellFormed. exact Hpage.
  - apply image_attempt_wellFormed. exact Hpage.
Qed.

Lemma image_spans_wellFormed fuel st :
  Forall wellFormed
    (fst (ImageService.spansFrom W images prompt modelId candidateProfiles
            fuel st)).
Proof.
  revert st. induction fuel as [| fuel IH]; intro st; [constructor |].
  destruct (Nat.lt_ge_cases (ImageService.cursor st) (length images))
    as [Hpage | Hdone].
  2:{ rewrite (image_spans_done W images prompt modelId candidateProfiles
                 (S fuel) st Hdone). constructor. }
  rewrite (image_spans_step W images prompt modelId candidateProfiles
             fuel st Hpage).
  pose proof (image_resolution_wellFormed (ImageService.carryContext st)
                (ImageService.cursor st) Hpage) as Hres.
  destruct (snd (ImageService.resolveSpanWithEscalation W images prompt
                   (ImageService.carryContext st) (ImageService.cursor st)
                   candidateProfiles modelId)) as [r | e]; cbn [fst].
  - apply Forall_app. split; [exact Hres |].
    apply Forall_app. split; [| apply IH].
    destruct (Js.truthy _); repeat constructor.
  - exact Hres.
Qed.

End ImageRequests.

(** X26. Every transcription request of a live run carries exactly one
    inline document and one prompt: the whole PDF with the prompt of the
    candidate, or a single prepared page of the sequence, whatever
    [imageChunkSize] the policy of the profile names; every verifier request
    carries one text part and nothing else. *)
Theorem X26_every_request_carries_one_document (W : Platform) :
  (forall images prompt modelId,
      let log :=
        fst (ImageService.analyzeImageSequenceStream W images prompt modelId
               None) in
      Forall oneDocument (streamCalls log)
      /\ Forall textOnly (verifierCalls log))
  /\ (forall pdfBase64 prompt modelId,
        let log :=
          fst (GeminiService.analyzePdfStream W pdfBase64 prompt modelId
                 None) in
        Forall
          (fun r =>
             exists p,
               In p (GeminiService.resolvePdfCandidateProfiles pdfBase64
                       modelId)
               /\ req_parts r
                  = [InlineData (Js.lit "application/pdf") pdfBase64;
                     TextPart (GeminiService.buildPdfPrompt prompt p)])
          (streamCalls log)).
Proof.
  split.
  - intros images prompt modelId. cbv zeta. rewrite image_live_run.
    pose proof (image_candidates_count modelId) as Hcount.
    pose proof (image_spans_wellFormed W images prompt modelId
                  (ImageService.resolveImageCandidateProfiles modelId)
                  ltac:(lia) (length images)
                  (ImageService.initialState
                     (ImageService.resolveImageCandidateProfiles modelId)))
      as Hwf.
    destruct (ImageService.spansFrom W images prompt modelId _ _ _)
      as [effects [st | e]]; cbn [fst] in *.
    + apply wellFormed_requests. apply Forall_app. split; [exact Hwf |].
      repeat constructor.
    + apply wellFormed_requests. exact Hwf.
  - intros pdfBase64 prompt modelId. cbv zeta.
    pose proof (pdf_schedule_facts W pdfBase64 prompt modelId) as Hs.
    cbv zeta in Hs. destruct Hs as [n [_ [_ [_ [Hstream _]]]]].
    rewrite Hstream. apply Forall_forall. intros r Hr.
    apply in_map_iff in Hr. destruct Hr as [p [<- Hp]].
    exists p. split; [| reflexivity].
    rewrite <- (firstn_skipn n). apply in_or_app. left. exact Hp.
Qed.

(** ** A miss, and the model choice in the key *)

(** X27. When the cache read of a PDF request returns nothing, the request
    runs live. Afterwards no other key of the storage has changed. Under the key
    of the request there is the entry of this run, stamped with the time of the
    run and holding the text handed out, when the run returned and the write
    went through; otherwise there is nothing, an expired entry included, unless
    the key held a string that cannot be parsed, which stays. *)
Theorem X27_a_miss_leaves_the_new_entry_or_nothing
  (W : Platform) (quota : bool)
  (storage : Store.Storage GeminiService.PdfCacheEntry)
  (pdfBase64 prompt : Js.str) (modelId : option ModelType)
  (Hmiss :
     fst (Store.readPdfCache storage (now W)
            (GeminiService.buildPdfCacheKey W pdfBase64 prompt)) = None) :
  let key := GeminiService.buildPdfCacheKey W pdfBase64 prompt in
  let request :=
    Requests.analyzePdfStreamOn W quota storage pdfBase64 prompt modelId in
  fst request = GeminiService.analyzePdfStream W pdfBase64 prompt modelId None
  /\ (forall other, other <> key -> snd request other = storage other)
  /\ match snd (fst request), quota with
     | Ok _, false =>
         exists entry,
           snd request key = Some (Store.Entry entry)
           /\ GeminiService.createdAt entry = now W
           /\ Requests.collectChunks (fst request)
              = Ok (GeminiService.text entry)
     | _, _ =>
         snd request key
         = match storage key with
           | Some Store.Garbage => Some Store.Garbage
           | _ => None
           end
     end.
Proof.
  cbv zeta. unfold Requests.analyzePdfStreamOn. cbv zeta.
  set (key := GeminiService.buildPdfCacheKey W pdfBase64 prompt) in *.
  assert (Hread : exists storage1,
            Store.readPdfCache storage (now W) key = (None, storage1)
            /\ (forall other, other <> key -> storage1 other = storage other)
            /\ storage1 key
               = match storage key with
                 | Some Store.Garbage => Some Store.Garbage
                 | _ => None
                 end).
  { unfold Store.readPdfCache, Store.readCache in Hmiss |- *.
    destruct (storage key) as [[| | e] |] eqn:Hk.
    - exists storage. repeat split; [exact Hk].
    - exists (Store.removeItem key storage).
      repeat split;
        [intros other Hother; apply removeItem_other; exact Hother
        | apply removeItem_same].
    - destruct (orb _ _); [| discriminate Hmiss].
      exists (Store.removeItem key storage).
      repeat split;
        [intros other Hother; apply removeItem_other; exact Hother
        | apply removeItem_same].
    - exists storage. repeat split; [exact Hk]. }
  destruct Hread as [storage1 [Hr [Hframe Hkey]]].
  rewrite Hr. cbn [fst snd].
  pose proof (pdf_run_leaves W pdfBase64 prompt modelId) as Hleaves.
  cbv zeta in Hleaves. fold key in Hleaves.
  set (run := GeminiService.analyzePdfStream W pdfBase64 prompt modelId None)
    in *.
  split; [reflexivity |].
  assert (Hwrites : forall k,
    Store.applyWrites quota (fst run) storage1 k
    = match snd run, quota with
      | Ok _, false =>
          match writes (fst run) with
          | [(key', entry)] =>
              Store.setItem key' (Store.Entry entry) storage1 k
          | _ => storage1 k
          end
      | _, _ => storage1 k
      end).
  { intro k. rewrite applyWrites_writes.
    destruct (snd run) as [u | e].
    - destruct Hleaves as [entry [Hw _]]. rewrite Hw.
      destruct quota; reflexivity.
    - destruct Hleaves as [Hw _]. rewrite Hw. destruct quota; reflexivity. }
  split.
  - intros other Hother. rewrite Hwrites.
    destruct (snd run) as [u | e]; [| destruct quota; apply Hframe; exact Hother].
    destruct quota; [apply Hframe; exact Hother |].
    destruct Hleaves as [entry [Hw _]]. rewrite Hw.
    rewrite setItem_other by exact Hother. apply Hframe. exact Hother.
  - rewrite (Hwrites key).
    destruct (snd run) as [u | e] eqn:Hend; [| destruct quota; exact Hkey].
    destruct quota; [exact Hkey |].
    destruct Hleaves as [entry [Hw [Hy [Hc _]]]]. rewrite Hw.
    exists entry. split; [apply setItem_same |]. split; [exact Hc |].
    destruct u. rewrite (collectChunks_returned run Hend), Hy.
    rewrite (proj2 (createTextStream_chunks (GeminiService.text entry))).
    reflexivity.
Qed.

(** X27 at work: an expired entry, and a request that fails with the low
    tier down: the entry is gone. *)
Lemma X27_a_miss_leaves_the_new_entry_or_nothing_witness :
  let key :=
    GeminiService.buildPdfCacheKey (highTierWorld longPage)
      (Js.lit "JVBERi0=") (Js.lit "") in
  let request :=
    Requests.analyzePdfStreamOn (highTierWorld longPage) false staleStorage
      (Js.lit "JVBERi0=") (Js.lit "") (Some FLASH) in
  staleStorage key = Some (Store.Entry oldEntry)
  /\ snd (fst request)
     = Throw (GeminiService.normalizeError (ErrorObject (Js.lit "503")))
  /\ snd request key = None.
Proof.
  cbv zeta.
  destruct (X27_a_miss_leaves_the_new_entry_or_nothing (highTierWorld longPage)
              false staleStorage (Js.lit "JVBERi0=") (Js.lit "") (Some FLASH))
    as [_ [_ Hafter]].
  - vm_compute. reflexivity.
  - assert (Hend :
      snd (fst (Requests.analyzePdfStreamOn (highTierWorld longPage) false
                  staleStorage (Js.lit "JVBERi0=") (Js.lit "") (Some FLASH)))
      = Throw (GeminiService.normalizeError (ErrorObject (Js.lit "503"))))
      by (vm_compute; reflexivity).
    cbv zeta in Hafter. rewrite Hend in Hafter.
    split; [vm_compute; reflexivity |]. split; [exact Hend |].
    rewrite Hafter. vm_compute. reflexivity.
Defined.

(** X28. The cache key of an image sequence names the model choice of the
    request behind its prefix, so that requests with different model choices
    never share a cache entry, whatever the images, the prompts and the hashes
    are. *)
Theorem X28_image_cache_is_keyed_by_the_model_choice
  (W W' : Platform) (images images' : list ImageFile)
  (prompt prompt' : Js.str) (modelId modelId' : option ModelType)
  (Hchoice : modelId <> modelId') :
  Js.eqb (ImageService.buildImageCacheKey W images prompt modelId)
    (ImageService.buildImageCacheKey W' images' prompt' modelId') = false.
Proof.
  apply Js_eqb_neq. intro Heq.
  unfold ImageService.buildImageCacheKey in Heq. cbv zeta in Heq.
  set (fp := Js.join [Js.PIPE] _) in Heq.
  set (fp' := Js.join [Js.PIPE] _) in Heq.
  change (Js.join (Js.lit ":") [?a; ?b; ?c; ?d; ?e])
    with (a ++ Js.lit ":" ++ b ++ Js.lit ":" ++ c ++ Js.lit ":" ++ d
          ++ Js.lit ":" ++ e) in Heq.
  apply app_inv_head in Heq.
  destruct modelId as [[|] |], modelId' as [[|] |];
    try (apply Hchoice; reflexivity); vm_compute in Heq; discriminate Heq.
Qed.

(** X28 at work: the same pages with no model choice and with the high tier
    pinned. *)
Lemma X28_image_cache_is_keyed_by_the_model_choice_witness :
  Js.eqb
    (ImageService.buildImageCacheKey (steadyWorld []) blankPages (Js.lit "")
       None)
    (ImageService.buildImageCacheKey (steadyWorld []) blankPages (Js.lit "")
       (Some PRO)) = false.
Proof.
  apply (X28_image_cache_is_keyed_by_the_model_choice (steadyWorld [])
           (steadyWorld []) blankPages blankPages (Js.lit "") (Js.lit "")
           None (Some PRO)).
  discriminate.
Defined.
